(* ===== verification/_CoqProject ===== *)
-Q . S2P
Prelude.v
Ring.v
SpscQueuePair.v
Mmio.v
SpscWeak.v
SpscOrder.v
SpscMessaging.v
Packed.v
ControlCommand.v
ControlCommandText.v
ControlInterface.v
LlcmHandler.v
DxsClient.v
BufferManager.v
Coalesce.v
MrCache.v
NcclShim.v
PciTopology.v
NcclConnection.v
UnixSocket.v
UnixServer.v
MemImporter.v
BufMgrClient.v
GpuIpServer.v
GpumemManager.v
SctpHandler.v
CudaKernels.v
GpuMem.v
Prober.v
ProberNic.v
ProberAgent.v
NetIfs.v
NcclListen.v
NcclPlugin.v
LlcmDevice.v
DxsCreate.v
Payload.v
Stats.v
Profiler.v
SocketIo.v
Params.v
