(* ===== verification/Prelude.v ===== *)
(** * Verification of the GPUDirect-TCPXO NCCL plugin

    ** The program

    The plugin lets NCCL move GPU memory over TCPXO.  NCCL calls the C entry
    points and through them the shim (src/tcpdirect_plugin/fastrak_offload),
    which finds the network devices, registers GPU memory, opens connections of
    several flows and issues send and receive requests.  The shim uses the DXS
    client library (src/dxs/client), which talks to the DXS server by small
    packed control messages.  Control messages travel over SCTP, and the
    latency-critical ones over LLCM: a pair of single-producer single-consumer
    rings in memory shared with the server (src/dxs/client/spsc_queue).  Memory
    is registered by a daemon (src/buffer_mgmt_daemon) that finds the GPUs and
    NICs of the host, answers its clients over Unix sockets and maps their
    dmabufs (src/dmabuf_bridge).  A prober (src/tcpxo_prober) measures and
    checks transfers between hosts, with GPU memory and kernels of
    src/cuda_helpers.

    ** The files

    Foundations:
    - Prelude.v: machine integers as [Z] with explicit wrap-around, status
      codes and [StatusOr] as an error monad, little-endian byte codecs, list
      lemmas indexed by [Z], strings, tactics.
    - Ring.v: windows of a circular byte buffer.

    The DXS client library (src/dxs):
    - SpscQueuePair.v (spsc_queue/spsc_queue_pair.{h,cc,proto}): the byte ring;
      the shared regions are explicit state, each node holds its queue object.
    - Mmio.v (oss/mmio.h, oss/barrier.h): the accessors of mapped memory and the
      barriers as instructions of each architecture, and a CPU with accesses
      that are pending and may be performed out of order.
    - SpscWeak.v, SpscOrder.v (spsc_queue_pair.cc on Mmio.v): the operations of
      the byte ring as such instructions, and what survives the reordering.
    - SpscMessaging.v (spsc_queue/spsc_messaging_queue_pair.{h,cc}): framed
      messages on the byte ring, and the class [MsgTransport] that states what
      the queue promises to its users.
    - Packed.v, ControlCommand.v, ControlCommandText.v (control-command.{h,cc},
      data-sock.{h,cc}): packed structs and their codec, every control message
      and enumeration, their texts and public error codes.
    - ControlInterface.v (control-message-handler-interface.h,
      sequence-number.h, derive_dxs_address.cc): the class of control channels.
    - LlcmHandler.v (llcm-handler.{h,cc}): the LLCM channel with its overflow
      queue, proved against [MsgTransport] and an instance of the channel class.
    - SctpHandler.v (sctp-handler.{h,cc}, sctp-timeout-queue.{h,cc}): the SCTP
      handler with its thread and pollers, and its queue of timeouts.
    - DxsClient.v (dxs-client.{h,cc}, listen-socket.h, send-socket.h,
      recv-socket.h, send-op.h, linearized-recv-op.h, wire-version.h): the
      client, its sockets and operations, over any control channel.
    - BufferManager.v (class BufferManager of dxs-client.cc, mtu_utils.h):
      registration of buffers in messages that fit the MTU.
    - Coalesce.v (coalesce-iovecs.cc): in-place merging of address ranges.
    - LlcmDevice.v (guest-llcm-device.cc, guest_llcm/guest_llcm.{h,cc}): the
      PCIe device of a NIC and the mappings of its memory.
    - DxsCreate.v (dxs-client.cc, Init of llcm-handler.cc): creation of clients
      and buffer managers, from the socket to the LLCM queues.

    The plugin (src/tcpdirect_plugin/fastrak_offload):
    - NetIfs.v (utilities.h, initializeNetIfs of common.cc): the network devices.
    - MrCache.v (nccl_shim.cc: RegMrDmaBuf, DeregMr; common.h): the cache of
      memory registrations of a device, over a class of buffer managers.
    - NcclShim.v (nccl_shim.cc: Isend, Irecv, Test; request.h, stats.cc):
      requests of a connection, on the client of DxsClient.v.
    - NcclConnection.v (nccl_shim.cc: Connect, Accept; common.cc,
      nic_client_router.cc): the resumable connection stages and GPU indices.
    - NcclListen.v (nccl_shim.cc: Create, Listen, Close, CloseListen,
      GetProperties; createListenSocket of utilities.h): listening.
    - Stats.v (stats.{h,cc}): distributions of samples in buckets.
    - Params.v (const_params.h, params.cc): parameters from the environment.
    - Profiler.v (profiler_gpuviz, profiler_factory_gpuviz, nccl_stats.h, the
      hooks in nccl_shim.cc): reports of requests to a statistics library.
    - SocketIo.v (the end of utilities.h): transfers over a TCP socket.
    - NcclPlugin.v (fastrak_plugin.cc, init.cc): the entry points, over tables
      of the objects NCCL has pointers to, and the initialization.

    The daemon (src/buffer_mgmt_daemon, src/dmabuf_bridge):
    - PciTopology.v (pci_utils.cc, a3_gpu_rxq_configurator.cc): the PCI tree and
      the NICs that are close to a GPU.
    - UnixSocket.v, UnixServer.v (unix_socket_connection, unix_socket_server,
      client/unix_socket_client): messages with descriptors over Unix sockets,
      the event loop of a server, and requests.
    - MemImporter.v (fastrak_gpu_mem_importer.cc, fastrak_addr_translator.cc,
      fastrak_buffer_resource_tracker.cc, dmabuf_importer.c): registrations,
      mappings and descriptors of the clients of a NIC.
    - BufMgrClient.v (client/buffer_mgr_client.cc): the client of the importer,
      and the plugin's cache of registrations on top of it.
    - GpuIpServer.v (gpu_ip_server.cc and its client): the lookup of NICs.
    - GpumemManager.v (fastrak_gpumem_manager*.cc, main_cloud.cc): start-up and
      supervision of the daemon.

    The prober (src/tcpxo_prober), src/cuda_helpers and src/nccl_cuda:
    - CudaKernels.v, GpuMem.v (cuda_helpers.cu): the kernels under an arbitrary
      schedule of their threads, and the allocation of GPU memory.
    - Payload.v (nccl_cuda/cuda_common.cc): random payloads and their check.
    - Prober.v (connection.cc), ProberNic.v (nic-manager.cc), ProberAgent.v
      (agent.cc, main.cc): rounds of pings, the connections of a NIC, and the
      agents that set them up.

    ** How the code is represented

    A C++ object is a record, a method a function from the object (and the
    shared state it touches) to its result and the new state, under the
    source's name.  [absl::Status] and [StatusOr] are [StatusOr], the messages
    of the statuses are left out.  A call made under a mutex is one step;
    interleavings are sequences of such steps, given as step relations
    ([step] of DxsClient.v, [mr_step], [comm_step], [shim_step]), as schedules
    (of calls of two nodes in SpscQueuePair.v and SpscMessaging.v, of labels in
    SctpHandler.v, of threads in CudaKernels.v, of the actions of two CPUs in
    SpscWeak.v), or as arguments that list the
    events that arrive while a call sends or waits (BufferManager.v,
    DxsCreate.v).  The results of system calls, of CUDA and of other libraries
    are arguments.  Undefined behaviour (null or dangling pointers, reads beyond
    a buffer) and uncaught exceptions are [None]; the theorems show where they
    cannot happen.  Logging is left out.

    ** What is proved

    - Rings and messages: two connected queue pairs refine two bounded byte
      FIFOs in every interleaving and for every alignment, and message passing
      refines a bounded FIFO of messages.  On x86-64, AArch64 and RISC-V the
      bytes arrive in order also when the CPUs reorder what the barriers let
      them, and commits take effect; on PowerPC a stale byte can be received.  LLCM adds an overflow queue and
      built-in pongs without losing, duplicating or reordering messages, and a
      client created with LLCM starts in the state that theorem is about.
    - SCTP: messages are delivered in order and by one thread at a time, none
      stays behind, a failure is reported once, and the timeout queue ends.
    - Control messages: encoding and validation are inverse to each other.
    - Client: a new client has its one socket on its NIC; the registries have
      exactly the handles of the live objects in every reachable state, channel
      failures reach every pending object, and acknowledgements complete exactly
      the operation they name.
    - Registration: the messages of a buffer carry its addresses exactly and fit
      the MTU; the result is that of the last acknowledgement in every
      interleaving; the registration cache counts its users correctly, also on
      top of the daemon, whose importer keeps exactly the registrations, mappings
      and descriptors of the buffers it tracks.
    - Plugin: the device table has the chosen interfaces; listening adds one
      socket per flow or none; connections are complete when they are returned,
      both ends use the same flow for the k-th request, every request of NCCL is
      accounted for, and a GPU has one shim.  Parameters have the value of the
      environment when it is within their bounds.  Profilers name only open
      connections of their library and give them back.  A socket transfer
      delivers the message, and a connect gives up.
    - Unix sockets and daemon: texts arrive complete and in order, a request is
      handled once and answered, NICs are shared out over the GPUs as the
      topology says, and the daemon serves all its sockets when it is healthy.
    - Prober and GPU: both ends of a round stay in step and rounds complete,
      buffers and contexts are released, gathering concatenates, comparing
      compares, and validation accepts exactly the generated payload, for every
      schedule of the threads.

    ** Bounds

    The loops recurse on what they iterate over, or have fuel that the theorems
    show to be enough: [RegBufferLoop] one unit per address, for fewer than
    2^32 - 86 addresses (the loop index of the source has 32 bits); [Send] of
    UnixSocket.v two per message; the retrieval of address ranges their number;
    the timeout queue the number of expired timeouts; the loops of the kernels
    the number of elements; the parser of interface lists the number of
    characters and one; the loops of SocketIo.v one per result of a system
    call, of which every round takes one.  Theorems about handles, operations
    and mappings assume that 64-bit counters have not wrapped.

    ** What is not modelled

    Above the byte ring a call of a ring operation is atomic: SpscOrder.v is
    about bytes and not about messages.  Its memory model covers the accesses
    of the ring; a [Recv] without a buffer, [RestoreState] and the warm-up keep
    to SpscQueuePair.v.  The wrappers of system calls (net_util, syscalls.cc)
    and of CUDA (nccl_cuda), apart from the conversion of their results, and the
    status and logging macros have no behaviour of their own; their results are
    arguments.  Abstract interfaces only declare.  The load test of the prober
    is a script.  The statistics library of the profiler, [inet_pton],
    [inet_ntop], [getaddrinfo], protobuf parsing, dcSCTP, CUDA, [realloc], the
    page size and the NCCL constants are arguments of the definitions that use
    them. *)

From Stdlib Require Export ZArith Lia String.
From stdpp Require Export base list gmap strings numbers.

#[global] Open Scope Z_scope.
#[global] Set Default Goal Selector "!".

(** ** Scope, hint databases *)

Declare Scope tcpx_scope.
Delimit Scope tcpx_scope with tcpx.

Create HintDb tcpx discriminated.
Create Rewrite HintDb tcpx_len.

(** ** Fixed-width unsigned integers

    A [uintN_t] is a [Z] in [[0, 2^N)]; every arithmetic operation of the
    source that can leave the range is wrapped with the function below. *)

Definition u8 (x : Z) : Z := x mod 2 ^ 8.
Definition u16 (x : Z) : Z := x mod 2 ^ 16.
Definition u32 (x : Z) : Z := x mod 2 ^ 32.
Definition u64 (x : Z) : Z := x mod 2 ^ 64.

(** Conversion to [int]. *)
Definition s32 (x : Z) : Z := (x + 2 ^ 31) mod 2 ^ 32 - 2 ^ 31.

Definition is_u8 (x : Z) : Prop := 0 <= x < 2 ^ 8.
Definition is_u16 (x : Z) : Prop := 0 <= x < 2 ^ 16.
Definition is_u32 (x : Z) : Prop := 0 <= x < 2 ^ 32.
Definition is_u64 (x : Z) : Prop := 0 <= x < 2 ^ 64.

(** Linear arithmetic with [/] and [mod] turned into their defining
    equations; used only where a goal needs it, so that [lia] stays fast. *)
Ltac dmlia := Z.to_euclidean_division_equations; lia.

(** Reflect every boolean comparison of the context and of the goal. *)
Ltac zbool :=
  repeat match goal with
    | H : (_ && _)%bool = true |- _ => apply andb_prop in H; destruct H
    | H : (_ && _)%bool = false |- _ => apply andb_false_iff in H
    | H : (_ || _)%bool = true |- _ => apply orb_prop in H
    | H : (_ || _)%bool = false |- _ => apply orb_false_elim in H; destruct H
    | H : negb _ = true |- _ => apply negb_true_iff in H
    | H : negb _ = false |- _ => apply negb_false_iff in H
    | H : (_ <? _) = true |- _ => apply Z.ltb_lt in H
    | H : (_ <? _) = false |- _ => apply Z.ltb_ge in H
    | H : (_ <=? _) = true |- _ => apply Z.leb_le in H
    | H : (_ <=? _) = false |- _ => apply Z.leb_gt in H
    | H : (_ =? _) = true |- _ => apply Z.eqb_eq in H
    | H : (_ =? _) = false |- _ => apply Z.eqb_neq in H
    end.

(** Case analysis on the tests of a definition, closing the branches that
    the context contradicts. *)
Ltac branch := repeat case_match; zbool; simplify_eq/=; try lia.

Lemma s32_small x : 0 <= x < 2 ^ 31 -> s32 x = x.
Proof. intros Hx. unfold s32. rewrite Z.mod_small by lia. lia. Qed.

Lemma u64_range x : 0 <= u64 x < 2 ^ 64.
Proof. unfold u64; apply Z.mod_pos_bound; lia. Qed.

Lemma u64_small x : 0 <= x < 2 ^ 64 -> u64 x = x.
Proof. apply Z.mod_small. Qed.

Lemma u64_add_l a b : u64 (u64 a + b) = u64 (a + b).
Proof. unfold u64; by rewrite Zplus_mod_idemp_l. Qed.

Lemma u64_sub a b : u64 (u64 a - u64 b) = u64 (a - b).
Proof. unfold u64; by rewrite Zminus_mod_idemp_l, Zminus_mod_idemp_r. Qed.

#[export] Hint Resolve u64_range : tcpx.

(** Two numbers closer than [n] with the same residue modulo [n] agree. *)
Lemma mod_inj_near n a b : 0 < n -> -n < a - b < n -> a mod n = b mod n -> a = b.
Proof.
  intros Hn Hab H.
  pose proof (Z.div_mod a n ltac:(lia)). pose proof (Z.div_mod b n ltac:(lia)).
  assert (a / n = b / n) by nia. nia.
Qed.

(** [x & (n - 1)] is [x mod n] when [n] is a power of two. *)
Lemma land_mask n k x : 0 <= k -> n = 2 ^ k -> Z.land x (n - 1) = x mod n.
Proof.
  intros Hk ->. replace (2 ^ k - 1) with (Z.ones k) by (rewrite Z.ones_equiv; lia).
  by apply Z.land_ones.
Qed.

(** A power of two below [2^64] divides [2^64], so reducing a wrapped
    counter modulo it is reducing the counter. *)
Lemma u64_mod_pow2 n k x : 0 <= k <= 64 -> n = 2 ^ k -> (u64 x) mod n = x mod n.
Proof.
  intros Hk ->. unfold u64. apply Z.mod_mod_divide.
  exists (2 ^ (64 - k)). rewrite <- Z.pow_add_r by lia. f_equal. lia.
Qed.

(** ** Status codes and StatusOr (absl)

    An [absl::Status] is represented by its code; the text of the message
    is not modelled.  [Err] never carries [kOk] in the code produced by the
    library, which callers check with [ok()]. *)

Inductive StatusCode : Set :=
  | kOk | kCancelled | kUnknown | kInvalidArgument | kDeadlineExceeded
  | kNotFound | kAlreadyExists | kPermissionDenied | kResourceExhausted
  | kFailedPrecondition | kAborted | kOutOfRange | kUnimplemented
  | kInternal | kUnavailable | kDataLoss | kUnauthenticated.

#[export] Instance StatusCode_eq_dec : EqDecision StatusCode.
Proof. solve_decision. Defined.

Inductive StatusOr (A : Type) : Type :=
  | Ok (a : A)
  | Err (c : StatusCode).
Arguments Ok {A} _.
Arguments Err {A} _.

#[export] Instance StatusOr_eq_dec {A} `{EqDecision A} : EqDecision (StatusOr A).
Proof. solve_decision. Defined.

Definition Status : Type := StatusOr unit.
Definition OkStatus : Status := Ok tt.

Definition is_ok {A} (s : StatusOr A) : bool :=
  match s with Ok _ => true | Err _ => false end.

Definition status_code {A} (s : StatusOr A) : StatusCode :=
  match s with Ok _ => kOk | Err c => c end.

(** [ASSIGN_OR_RETURN] and [RETURN_IF_ERROR] are the monad's bind. *)
#[export] Instance StatusOr_ret : MRet StatusOr := fun A a => Ok a.
#[export] Instance StatusOr_bind : MBind StatusOr :=
  fun A B f m => match m with Ok a => f a | Err c => Err c end.
#[export] Instance StatusOr_fmap : FMap StatusOr :=
  fun A B f m => match m with Ok a => Ok (f a) | Err c => Err c end.

Lemma bind_Ok {A B} (m : StatusOr A) (f : A -> StatusOr B) b :
  (m ≫= f) = Ok b <-> exists a, m = Ok a /\ f a = Ok b.
Proof. destruct m; simpl; naive_solver. Qed.

Lemma bind_Err {A B} (m : StatusOr A) (f : A -> StatusOr B) c :
  (m ≫= f) = Err c <-> m = Err c \/ exists a, m = Ok a /\ f a = Err c.
Proof. destruct m; simpl; naive_solver. Qed.

(** ** Byte sequences and arrays addressed by [Z] *)

Definition byte_ok (b : Z) : Prop := 0 <= b < 256.

#[export] Instance byte_ok_dec b : Decision (byte_ok b).
Proof. unfold byte_ok. apply _. Defined.

(** Decide a closed proposition by computation. *)
Ltac by_compute := apply (bool_decide_unpack _); vm_compute; exact Logic.I.

Definition Zlen {A} (l : list A) : Z := Z.of_nat (length l).

Definition nthZ (l : list Z) (i : Z) : Z := nth (Z.to_nat i) l 0.

Definition takeZ {A} (n : Z) (l : list A) : list A := take (Z.to_nat n) l.
Definition dropZ {A} (n : Z) (l : list A) : list A := drop (Z.to_nat n) l.

Lemma Zlen_nil {A} : Zlen (@nil A) = 0.
Proof. done. Qed.

Lemma Zlen_cons {A} (x : A) l : Zlen (x :: l) = Zlen l + 1.
Proof. unfold Zlen; simpl; lia. Qed.

Lemma Zlen_app {A} (l k : list A) : Zlen (l ++ k) = Zlen l + Zlen k.
Proof. unfold Zlen; rewrite length_app; lia. Qed.

Lemma Zlen_nonneg {A} (l : list A) : 0 <= Zlen l.
Proof. unfold Zlen; lia. Qed.

Lemma Zlen_takeZ {A} n (l : list A) : 0 <= n <= Zlen l -> Zlen (takeZ n l) = n.
Proof. unfold Zlen, takeZ; intros; rewrite length_take; lia. Qed.

Lemma Zlen_dropZ {A} n (l : list A) : 0 <= n <= Zlen l -> Zlen (dropZ n l) = Zlen l - n.
Proof. unfold Zlen, dropZ; intros; rewrite length_drop; lia. Qed.

Lemma take_dropZ {A} n (l : list A) : takeZ n l ++ dropZ n l = l.
Proof. apply take_drop. Qed.

Lemma Zlen_insert {A} i (x : A) l : Zlen (<[i := x]> l) = Zlen l.
Proof. unfold Zlen; by rewrite length_insert. Qed.

Lemma last_app_default {A} (l k : list A) d : List.last (l ++ k) d = List.last k (List.last l d).
Proof.
  destruct k as [|x k] using rev_ind; [by rewrite app_nil_r|].
  by rewrite app_assoc, !last_last.
Qed.

Lemma list_insert_after_alter {A} (f : A -> A) (x : A) k (l : list A) : <[k := x]> (alter f k l) = <[k := x]> l.
Proof.
  apply list_eq. intros j. destruct (decide (k = j)) as [<-|Hne].
  - destruct (decide (k < length l)%nat).
    + by rewrite !list_lookup_insert_eq by (rewrite ?length_alter; done).
    + rewrite !lookup_ge_None_2; [done|rewrite length_insert; lia|rewrite length_insert, length_alter; lia].
  - by rewrite !list_lookup_insert_ne, list_lookup_alter_ne.
Qed.

Lemma takeZ_all {A} (l : list A) : takeZ (Zlen l) l = l.
Proof. unfold takeZ, Zlen; rewrite Nat2Z.id; apply firstn_all. Qed.

Lemma takeZ_app_exact {A} n (l k : list A) : n = Zlen l -> takeZ n (l ++ k) = l.
Proof. intros ->. unfold takeZ, Zlen. rewrite Nat2Z.id. by rewrite take_app_length. Qed.

Lemma dropZ_app_exact {A} n (l k : list A) : n = Zlen l -> dropZ n (l ++ k) = k.
Proof. intros ->. unfold dropZ, Zlen. rewrite Nat2Z.id. by rewrite drop_app_length. Qed.

#[export] Hint Resolve Zlen_nonneg : tcpx.
#[export] Hint Rewrite @Zlen_nil @Zlen_cons @Zlen_app @Zlen_insert : tcpx_len.

(** Little-endian encoding of an unsigned integer in [n] bytes. *)
Fixpoint le_encode (n : nat) (x : Z) : list Z :=
  match n with
  | O => []
  | S n' => x mod 256 :: le_encode n' (x / 256)
  end.

Fixpoint le_decode (bs : list Z) : Z :=
  match bs with
  | [] => 0
  | b :: bs' => b + 256 * le_decode bs'
  end.

Lemma le_encode_length n x : length (le_encode n x) = n.
Proof. revert x; induction n; intros; simpl; auto. Qed.

Lemma Zlen_le_encode n x : Zlen (le_encode n x) = Z.of_nat n.
Proof. unfold Zlen; by rewrite le_encode_length. Qed.
#[export] Hint Rewrite Zlen_le_encode : tcpx_len.

Lemma le_decode_encode n x : le_decode (le_encode n x) = x mod 256 ^ Z.of_nat n.
Proof.
  revert x; induction n as [|n IH]; intros x.
  - simpl. by rewrite Z.mod_1_r.
  - cbn [le_encode le_decode]. rewrite IH.
    rewrite Nat2Z.inj_succ, Z.pow_succ_r by lia.
    rewrite (Z.rem_mul_r x 256 (256 ^ Z.of_nat n)) by lia. lia.
Qed.

Lemma le_encode_ok n x : Forall byte_ok (le_encode n x).
Proof.
  revert x; induction n; intros; simpl; constructor; auto.
  unfold byte_ok. apply Z.mod_pos_bound; lia.
Qed.

Lemma le_decode_range bs : Forall byte_ok bs -> 0 <= le_decode bs < 256 ^ Zlen bs.
Proof.
  induction 1 as [|b bs Hb _ IH]; [done|].
  rewrite Zlen_cons. cbn [le_decode]. unfold byte_ok in Hb.
  rewrite Z.pow_add_r by (pose proof (Zlen_nonneg bs); lia). lia.
Qed.

Lemma le_encode_decode bs : Forall byte_ok bs -> le_encode (length bs) (le_decode bs) = bs.
Proof.
  induction 1 as [|b bs Hb _ IH]; [done|].
  unfold byte_ok in Hb. cbn [length le_decode le_encode].
  replace ((b + 256 * le_decode bs) mod 256) with b by dmlia.
  replace ((b + 256 * le_decode bs) / 256) with (le_decode bs) by dmlia.
  by rewrite IH.
Qed.

(** ** Strings *)

Lemma append_cons c (a b : string) : String c a +:+ b = String c (a +:+ b).
Proof. reflexivity. Qed.

Lemma append_nil (b : string) : EmptyString +:+ b = b.
Proof. reflexivity. Qed.

Lemma length_string_app (a b : string) : String.length (a +:+ b) = (String.length a + String.length b)%nat.
Proof. induction a as [|c a IH]; [done|]. rewrite append_cons. cbn. by rewrite IH. Qed.

Lemma string_app_empty (x : string) : x +:+ EmptyString = x.
Proof. induction x as [|c x IH]; [done|]. rewrite append_cons. by rewrite IH. Qed.

Lemma string_app_assoc (x y z : string) : (x +:+ y) +:+ z = x +:+ (y +:+ z).
Proof. induction x as [|c x IH]; [done|]. rewrite !append_cons. by rewrite IH. Qed.

(** [absl::StrSplit] at commas. *)
Fixpoint StrSplit (s : string) : list string :=
  match s with
  | EmptyString => [EmptyString]
  | String a s' =>
      if Ascii.eqb a (Ascii.ascii_of_N 44) then EmptyString :: StrSplit s'
      else match StrSplit s' with
           | part :: parts => String a part :: parts
           | [] => [String a EmptyString]
           end
  end.
