(* ===== verification/Ring.v ===== *)
(** * Circular arrays

    Reading and writing a byte ring at an unbounded stream position: position
    [p] of the stream lives in cell [p mod size].  [window] is the reference
    definition of what the two segments of a batch cover, [wr] of what the
    segmented copies write. *)

From S2P Require Import Prelude.

Fixpoint win (r : list Z) (start : Z) (n : nat) : list Z :=
  match n with
  | O => []
  | S n' => nthZ r (start mod Zlen r) :: win r (start + 1) n'
  end.

Definition window (r : list Z) (start n : Z) : list Z := win r start (Z.to_nat n).

Fixpoint wr (r : list Z) (pos : Z) (bs : list Z) : list Z :=
  match bs with
  | [] => r
  | b :: bs' => wr (<[Z.to_nat (pos mod Zlen r) := b]> r) (pos + 1) bs'
  end.

Lemma win_length r s n : length (win r s n) = n.
Proof. revert s; induction n; intros; simpl; auto. Qed.

Lemma window_length r s n : 0 <= n -> Zlen (window r s n) = n.
Proof. intros; unfold Zlen, window; rewrite win_length; lia. Qed.

Lemma win_app r s n m : win r s (n + m) = win r s n ++ win r (s + Z.of_nat n) m.
Proof.
  revert s; induction n as [|n IH]; intros s.
  - simpl. f_equal. lia.
  - cbn [win Nat.add app]. rewrite IH. do 3 f_equal. lia.
Qed.

Lemma window_app r s n m :
  0 <= n -> 0 <= m -> window r s (n + m) = window r s n ++ window r (s + n) m.
Proof.
  intros. unfold window. rewrite Z2Nat.inj_add, win_app by lia.
  do 2 f_equal. lia.
Qed.

Lemma window_nil r s : window r s 0 = [].
Proof. done. Qed.

Lemma window_take r s n m : 0 <= m <= n -> takeZ m (window r s n) = window r s m.
Proof.
  intros. replace n with (m + (n - m)) by lia. rewrite window_app by lia.
  apply takeZ_app_exact. by rewrite window_length by lia.
Qed.

Lemma window_drop r s n m :
  0 <= m <= n -> dropZ m (window r s n) = window r (s + m) (n - m).
Proof.
  intros. replace n with (m + (n - m)) at 1 by lia. rewrite window_app by lia.
  apply dropZ_app_exact. by rewrite window_length by lia.
Qed.

(** A window that does not cross the end of the ring is a slice of it. *)
Lemma win_linear r s n off :
  0 <= off -> off + Z.of_nat n <= Zlen r -> (n <> O -> s mod Zlen r = off) ->
  win r s n = takeZ (Z.of_nat n) (dropZ off r).
Proof.
  revert s off; induction n as [|n IH]; intros s off Ho Hn Hs; [done|].
  cbn [win]. rewrite Hs by done.
  rewrite (IH (s + 1) (off + 1)); try lia.
  - unfold takeZ, dropZ, nthZ, Zlen in *.
    destruct (lookup_lt_is_Some_2 r (Z.to_nat off)) as [x Hx]; [lia|].
    rewrite (drop_S r x (Z.to_nat off) Hx).
    rewrite (nth_lookup_Some r (Z.to_nat off) 0 x Hx).
    replace (Z.to_nat (Z.of_nat (S n))) with (S n) by lia. cbn [take]. f_equal.
    f_equal; [lia|]. f_equal. lia.
  - intros Hn0. rewrite Z.add_mod by lia. rewrite (Hs ltac:(done)).
    rewrite <- Z.add_mod_idemp_r by lia. rewrite Zmod_mod.
    rewrite Z.add_mod_idemp_r by lia. apply Z.mod_small. lia.
Qed.

Lemma window_linear r s n off :
  0 <= n -> 0 <= off -> off + n <= Zlen r -> (0 < n -> s mod Zlen r = off) ->
  window r s n = takeZ n (dropZ off r).
Proof.
  intros. unfold window. rewrite (win_linear r s (Z.to_nat n) off); try lia.
  by rewrite Z2Nat.id by lia.
Qed.

Lemma wr_length r pos bs : Zlen (wr r pos bs) = Zlen r.
Proof.
  revert r pos; induction bs as [|b bs IH]; intros r pos; simpl; [done|].
  by rewrite IH, Zlen_insert.
Qed.

Lemma wr_app r pos bs bs' :
  wr r pos (bs ++ bs') = wr (wr r pos bs) (pos + Zlen bs) bs'.
Proof.
  revert r pos; induction bs as [|b bs IH]; intros r pos.
  - simpl. f_equal. rewrite Zlen_nil. lia.
  - cbn [wr app]. rewrite IH. f_equal. rewrite Zlen_cons. lia.
Qed.

Lemma wr_take_drop r pos bs n :
  0 <= n <= Zlen bs -> wr (wr r pos (takeZ n bs)) (pos + n) (dropZ n bs) = wr r pos bs.
Proof.
  intros Hn. rewrite <- (take_dropZ n bs) at 3. by rewrite wr_app, Zlen_takeZ.
Qed.

Lemma nthZ_insert_ne (r : list Z) i j b :
  0 <= i -> 0 <= j -> i <> j -> nthZ (<[Z.to_nat i := b]> r) j = nthZ r j.
Proof.
  intros. unfold nthZ. rewrite !nth_lookup, list_lookup_insert_ne by lia. done.
Qed.

Lemma nthZ_insert_eq (r : list Z) i b :
  0 <= i < Zlen r -> nthZ (<[Z.to_nat i := b]> r) i = b.
Proof.
  intros. unfold nthZ, Zlen in *. rewrite nth_lookup, list_lookup_insert_eq by lia. done.
Qed.

(** A write at [pos] leaves a position [j] of the same lap alone. *)
Lemma nthZ_wr_ne r pos bs j :
  0 < Zlen r -> j < pos -> pos + Zlen bs <= j + Zlen r ->
  nthZ (wr r pos bs) (j mod Zlen r) = nthZ r (j mod Zlen r).
Proof.
  revert r pos; induction bs as [|b bs IH]; intros r pos Hr Hj Hb; [done|].
  rewrite Zlen_cons in Hb. pose proof (Zlen_nonneg bs). cbn [wr].
  rewrite <- (Zlen_insert (Z.to_nat (pos mod Zlen r)) b r) at 2.
  rewrite IH; rewrite ?Zlen_insert; try lia.
  apply nthZ_insert_ne; [apply Z.mod_pos_bound; lia..|].
  intros E. apply mod_inj_near in E; lia.
Qed.

Lemma win_ext r r' s n :
  Zlen r = Zlen r' ->
  (forall j, s <= j < s + Z.of_nat n -> nthZ r (j mod Zlen r) = nthZ r' (j mod Zlen r)) ->
  win r s n = win r' s n.
Proof.
  intros HL. revert s; induction n as [|n IH]; intros s H; [done|].
  cbn [win]. rewrite <- HL. f_equal; [apply H; lia|].
  apply IH. intros; apply H; lia.
Qed.

Lemma window_wr_disjoint r pos bs s n :
  0 <= n -> 0 < Zlen r -> s + n <= pos -> pos + Zlen bs <= s + Zlen r ->
  window (wr r pos bs) s n = window r s n.
Proof.
  intros. unfold window. apply win_ext; rewrite wr_length; [done|].
  intros. apply nthZ_wr_ne; lia.
Qed.

Lemma window_wr_same r pos bs :
  0 < Zlen r -> Zlen bs <= Zlen r -> window (wr r pos bs) pos (Zlen bs) = bs.
Proof.
  intros Hr. revert r pos Hr; induction bs as [|b bs IH]; intros r pos Hr Hb; [done|].
  rewrite Zlen_cons in *. pose proof (Zlen_nonneg bs).
  rewrite Z.add_comm, window_app by lia. cbn [wr].
  change (b :: bs) with ([b] ++ bs). f_equal.
  - unfold window; change (Z.to_nat 1) with 1%nat; cbn [win]. f_equal.
    rewrite wr_length, Zlen_insert.
    rewrite <- (Zlen_insert (Z.to_nat (pos mod Zlen r)) b r) at 2.
    rewrite nthZ_wr_ne; rewrite ?Zlen_insert; try lia.
    apply nthZ_insert_eq, Z.mod_pos_bound; lia.
  - apply IH; rewrite ?Zlen_insert; lia.
Qed.

Lemma wr_ok r pos bs : Forall byte_ok r -> Forall byte_ok bs -> Forall byte_ok (wr r pos bs).
Proof.
  revert r pos; induction bs as [|b bs IH]; intros r pos Hr Hb; [done|].
  inversion_clear Hb. cbn [wr]. apply IH; [|done]. by apply Forall_insert.
Qed.

Lemma window_ok r s n : Forall byte_ok r -> Forall byte_ok (window r s n).
Proof.
  intros Hr. unfold window. generalize (Z.to_nat n) as m. intros m. revert s.
  induction m as [|m IH]; intros s; cbn [win]; constructor; [|apply IH].
  unfold nthZ. rewrite nth_lookup.
  destruct (r !! _) eqn:E; cbn; [by eapply Forall_lookup_1|unfold byte_ok; lia].
Qed.

Lemma nthZ_window r s n i :
  0 <= i < n -> nthZ (window r s n) i = nthZ r ((s + i) mod Zlen r).
Proof.
  intros Hi. replace n with (i + (1 + (n - i - 1))) by lia.
  rewrite !window_app by lia. pose proof (window_length r s i ltac:(lia)) as L.
  unfold nthZ at 1. unfold Zlen in L. rewrite app_nth2 by lia.
  replace (Z.to_nat i - length (window r s i))%nat with 0%nat by lia.
  unfold window. change (Z.to_nat 1) with 1%nat. done.
Qed.

#[export] Hint Rewrite wr_length : tcpx_len.
