(* ===== verification/SpscQueuePair.v ===== *)
(** * The SPSC byte ring (dxs/client/spsc_queue/spsc_queue_pair.{h,cc})

    Two nodes share two memory regions; a region is a pair of doorbell
    counters and a ring.  A node's [remote] region is its peer's [local]
    region.  This file holds the operations of [SpscQueuePair], the abstract
    byte FIFO they implement, and the refinement under every interleaving of
    the operations of the two nodes. *)

From S2P Require Import Prelude Ring.

(** ** Spans of a ring, by virtual address *)

Record Span := mkSpan { data : Z; size : Z }.

Definition empty_span : Span := mkSpan 0 0.

Definition subspan (s : Span) (pos len : Z) : Span :=
  mkSpan (data s + pos) (Z.min len (size s - pos)).

Definition remove_prefix (s : Span) (n : Z) : Span :=
  mkSpan (data s + n) (size s - n).

(** ** Shared memory *)

Record Doorbells := mkDoorbells {
  bytes_produced : Z;
  remote_bytes_consumed : Z
}.

Record Region := mkRegion { doorbells : Doorbells; ring : list Z }.

Definition kPageSize : Z := 4096.
Definition kDoorbellsSize : Z := 4096.

(** ** MMIO copies

    [base] is the virtual address at which the ring is mapped; a write to
    address [a] changes byte [a - base] of the ring. *)

Definition MmioWriteRelaxed8 (base : Z) (r : list Z) (dst v : Z) : list Z :=
  <[Z.to_nat (dst - base) := v]> r.

Definition MmioWriteRelaxed32 (base : Z) (r : list Z) (dst v : Z) : list Z :=
  let w i := nthZ (le_encode 4 v) i in
  MmioWriteRelaxed8 base
    (MmioWriteRelaxed8 base
       (MmioWriteRelaxed8 base
          (MmioWriteRelaxed8 base r dst (w 0)) (dst + 1) (w 1))
       (dst + 2) (w 2))
    (dst + 3) (w 3).

Fixpoint MemcpyToMmio8 (base : Z) (r : list Z) (dst : Z) (src : list Z) : list Z :=
  match src with
  | [] => r
  | b :: src' => MemcpyToMmio8 base (MmioWriteRelaxed8 base r dst b) (dst + 1) src'
  end.

Fixpoint MemcpyToMmio32 (base : Z) (r : list Z) (dst : Z) (src : list Z) : list Z :=
  match src with
  | b0 :: b1 :: b2 :: b3 :: src' =>
      MemcpyToMmio32 base
        (MmioWriteRelaxed32 base r dst (le_decode [b0; b1; b2; b3])) (dst + 4) src'
  | _ => r
  end.

(** [src] is the address of the source buffer and [bs] its [length] bytes. *)
Definition MemcpyToMmio (base : Z) (r : list Z) (dst src : Z) (bs : list Z) : list Z :=
  if (dst mod 4 =? 0) && (src mod 4 =? 0) then
    let words := Zlen bs / 4 in
    MemcpyToMmio8 base
      (MemcpyToMmio32 base r dst (takeZ (words * 4) bs))
      (dst + words * 4) (dropZ (words * 4) bs)
  else MemcpyToMmio8 base r dst bs.

(** ** The queue and its batches *)

Record SpscQueuePair := mkSpscQueuePair {
  local_ring_ : Span;
  remote_ring_ : Span;
  local_bytes_consumed_ : Z;
  remote_bytes_produced_ : Z;
  local_ring_size_mask_ : Z;
  remote_ring_size_mask_ : Z
}.

Record SendBatch := mkSendBatch {
  sb_segment_ : Span;
  sb_backup_segment_ : Span;
  pending_bytes_ : Z
}.

Record ReceiveBatch := mkReceiveBatch {
  rb_segment_ : Span;
  rb_backup_segment_ : Span;
  taken_bytes_ : Z
}.

Definition empty_receive_batch : ReceiveBatch :=
  mkReceiveBatch empty_span empty_span 0.

Definition RemainingBytes (b : ReceiveBatch) : Z :=
  u64 (size (rb_segment_ b) + size (rb_backup_segment_ b)).

Definition has_single_bit (x : Z) : bool :=
  (0 <? x) && (Z.land x (x - 1) =? 0).

(** [check_region] of [MakeSpscQueuePair]. *)
Definition check_region (doorbells ring : Span) : Status :=
  if size doorbells <? kDoorbellsSize then Err kInvalidArgument
  else if negb (data doorbells mod kPageSize =? 0) then Err kInvalidArgument
  else if negb (size ring mod kPageSize =? 0) then Err kInvalidArgument
  else if negb (has_single_bit (size ring)) then Err kInvalidArgument
  else if negb (data ring mod kPageSize =? 0) then Err kInvalidArgument
  else OkStatus.

(** The constructor; [Warmup] only performs reads. *)
Definition new_SpscQueuePair (local_ring remote_ring : Span) : SpscQueuePair :=
  mkSpscQueuePair local_ring remote_ring 0 0
    (u64 (size local_ring - 1)) (u64 (size remote_ring - 1)).

Definition MakeSpscQueuePair (local_doorbells local_ring remote_doorbells remote_ring : Span)
    : StatusOr SpscQueuePair :=
  check_region local_doorbells local_ring ≫= fun _ =>
  check_region remote_doorbells remote_ring ≫= fun _ =>
  Ok (new_SpscQueuePair local_ring remote_ring).

Definition BeginSend (q : SpscQueuePair) (local : Region) : SendBatch :=
  let remote_ring_used :=
    u64 (remote_bytes_produced_ q - remote_bytes_consumed (doorbells local)) in
  let remote_ring_free := u64 (size (remote_ring_ q) - remote_ring_used) in
  if size (remote_ring_ q) <? remote_ring_free then mkSendBatch empty_span empty_span 0
  else
    let remote_ring_free_offset :=
      Z.land (remote_bytes_produced_ q) (remote_ring_size_mask_ q) in
    if u64 (size (remote_ring_ q) - remote_ring_free_offset) <? remote_ring_free then
      let segment_size := u64 (size (remote_ring_ q) - remote_ring_free_offset) in
      let backup_segment_size := u64 (remote_ring_free - segment_size) in
      mkSendBatch (subspan (remote_ring_ q) remote_ring_free_offset segment_size)
                  (subspan (remote_ring_ q) 0 backup_segment_size) 0
    else
      mkSendBatch (subspan (remote_ring_ q) remote_ring_free_offset remote_ring_free)
                  empty_span 0.

(** [src] is the address of [buffer]. *)
Definition SendBatch_Append (q : SpscQueuePair) (remote : Region) (b : SendBatch)
    (src : Z) (buffer : list Z) : StatusCode * SendBatch * Region :=
  let sz := Zlen buffer in
  let base := data (remote_ring_ q) in
  if u64 (size (sb_segment_ b) + size (sb_backup_segment_ b)) <? sz
  then (kResourceExhausted, b, remote)
  else
    let len1 := Z.min sz (size (sb_segment_ b)) in
    let r1 := MemcpyToMmio base (ring remote) (data (sb_segment_ b)) src (takeZ len1 buffer) in
    let segment := remove_prefix (sb_segment_ b) len1 in
    let pending := u64 (pending_bytes_ b + len1) in
    if len1 =? sz then
      (kOk, mkSendBatch segment (sb_backup_segment_ b) pending, mkRegion (doorbells remote) r1)
    else
      let len2 := sz - len1 in
      let segment2 := sb_backup_segment_ b in
      let r2 := MemcpyToMmio base r1 (data segment2) (src + len1) (dropZ len1 buffer) in
      (kOk, mkSendBatch (remove_prefix segment2 len2) empty_span (u64 (pending + len2)),
       mkRegion (doorbells remote) r2).

Definition SendBatch_Skip (b : SendBatch) (sz : Z) : StatusCode * SendBatch :=
  if u64 (size (sb_segment_ b) + size (sb_backup_segment_ b)) <? sz
  then (kResourceExhausted, b)
  else if sz <=? size (sb_segment_ b) then
    (kOk, mkSendBatch (remove_prefix (sb_segment_ b) sz) (sb_backup_segment_ b)
            (u64 (pending_bytes_ b + sz)))
  else
    (kOk, mkSendBatch
            (remove_prefix (sb_backup_segment_ b) (sz - size (sb_segment_ b)))
            empty_span (u64 (pending_bytes_ b + sz))).

Definition SendBatch_Commit (q : SpscQueuePair) (remote : Region) (b : SendBatch)
    : StatusCode * SpscQueuePair * Region :=
  let produced := u64 (remote_bytes_produced_ q + pending_bytes_ b) in
  (kOk,
   mkSpscQueuePair (local_ring_ q) (remote_ring_ q) (local_bytes_consumed_ q) produced
     (local_ring_size_mask_ q) (remote_ring_size_mask_ q),
   mkRegion (mkDoorbells produced (remote_bytes_consumed (doorbells remote))) (ring remote)).

Definition BeginReceive (q : SpscQueuePair) (local : Region) (batch : ReceiveBatch)
    : StatusCode * ReceiveBatch :=
  let bytes_available := u64 (bytes_produced (doorbells local) - local_bytes_consumed_ q) in
  if bytes_available =? 0 then (kUnavailable, batch)
  else if size (local_ring_ q) <? bytes_available then (kOutOfRange, batch)
  else
    let start_offset := Z.land (local_bytes_consumed_ q) (local_ring_size_mask_ q) in
    let wrap_length := Z.min bytes_available (u64 (size (local_ring_ q) - start_offset)) in
    (kOk,
     mkReceiveBatch (subspan (local_ring_ q) start_offset wrap_length)
       (if wrap_length <? bytes_available
        then subspan (local_ring_ q) 0 (bytes_available - wrap_length)
        else empty_span) 0).

(** The bytes of a span of the local ring. *)
Definition read_span (q : SpscQueuePair) (local : Region) (s : Span) : list Z :=
  takeZ (size s) (dropZ (data s - data (local_ring_ q)) (ring local)).

(** [Recv]; the third component is what is copied into [buffer] (nothing
    when [buffer] is null, which is [has_buffer = false]). *)
Definition ReceiveBatch_Recv (q : SpscQueuePair) (local : Region) (b : ReceiveBatch)
    (has_buffer : bool) (bytes : Z) : StatusCode * ReceiveBatch * list Z :=
  if RemainingBytes b <? bytes then (kUnavailable, b, [])
  else
    let take1 := Z.min bytes (size (rb_segment_ b)) in
    let out1 := if has_buffer
                then read_span q local (mkSpan (data (rb_segment_ b)) take1) else [] in
    let segment := remove_prefix (rb_segment_ b) take1 in
    let taken := u64 (taken_bytes_ b + take1) in
    let '(segment, backup) :=
      if size segment =? 0 then (rb_backup_segment_ b, empty_span)
      else (segment, rb_backup_segment_ b) in
    if take1 =? bytes then (kOk, mkReceiveBatch segment backup taken, out1)
    else
      let take2 := bytes - take1 in
      let out2 := if has_buffer
                  then read_span q local (mkSpan (data segment) take2) else [] in
      (kOk, mkReceiveBatch (remove_prefix segment take2) backup (u64 (taken + take2)),
       out1 ++ out2).

Definition ReceiveBatch_Commit (q : SpscQueuePair) (remote : Region) (b : ReceiveBatch)
    : StatusCode * SpscQueuePair * Region :=
  let consumed := u64 (local_bytes_consumed_ q + taken_bytes_ b) in
  (kOk,
   mkSpscQueuePair (local_ring_ q) (remote_ring_ q) consumed (remote_bytes_produced_ q)
     (local_ring_size_mask_ q) (remote_ring_size_mask_ q),
   mkRegion (mkDoorbells (bytes_produced (doorbells remote)) consumed) (ring remote)).

(** ** Hitless restart *)

Record SpscQueuePairState := mkSpscQueuePairState {
  local_bytes_consumed : Z;
  remote_bytes_produced : Z
}.

Definition SaveState (q : SpscQueuePair) : SpscQueuePairState :=
  mkSpscQueuePairState (local_bytes_consumed_ q) (remote_bytes_produced_ q).

Definition RestoreState (q : SpscQueuePair) (remote : Region) (state : SpscQueuePairState)
    : StatusOr SpscQueuePair :=
  if negb (local_bytes_consumed_ q =? 0) || negb (remote_bytes_produced_ q =? 0)
  then Err kFailedPrecondition
  else
    let expected_consumed := remote_bytes_consumed (doorbells remote) in
    let expected_produced := bytes_produced (doorbells remote) in
    if negb (local_bytes_consumed state =? expected_consumed)
       || negb (remote_bytes_produced state =? expected_produced)
    then Err kInvalidArgument
    else Ok (mkSpscQueuePair (local_ring_ q) (remote_ring_ q)
               (local_bytes_consumed state) (remote_bytes_produced state)
               (local_ring_size_mask_ q) (remote_ring_size_mask_ q)).

(** ** The word copy is the byte copy *)

Lemma MemcpyToMmio8_app base r dst bs bs' :
  MemcpyToMmio8 base r dst (bs ++ bs')
  = MemcpyToMmio8 base (MemcpyToMmio8 base r dst bs) (dst + Zlen bs) bs'.
Proof.
  revert r dst; induction bs as [|b bs IH]; intros r dst.
  - cbn. f_equal. rewrite Zlen_nil. lia.
  - cbn [app MemcpyToMmio8]. rewrite IH. f_equal. rewrite Zlen_cons. lia.
Qed.

Lemma MmioWriteRelaxed32_bytes base r dst b0 b1 b2 b3 :
  Forall byte_ok [b0; b1; b2; b3] ->
  MmioWriteRelaxed32 base r dst (le_decode [b0; b1; b2; b3])
  = MemcpyToMmio8 base r dst [b0; b1; b2; b3].
Proof.
  intros H. unfold MmioWriteRelaxed32.
  rewrite (le_encode_decode [b0; b1; b2; b3] H : le_encode 4 _ = _).
  cbn. by rewrite <- !Z.add_assoc.
Qed.

Lemma MemcpyToMmio32_bytes base words : forall r dst bs,
  length bs = (4 * words)%nat -> Forall byte_ok bs ->
  MemcpyToMmio32 base r dst bs = MemcpyToMmio8 base r dst bs.
Proof.
  induction words as [|w IH]; intros r dst bs HL Hb.
  - by destruct bs; [|simpl in HL; lia].
  - destruct bs as [|b0 [|b1 [|b2 [|b3 bs]]]]; simpl in HL; try lia.
    change (b0 :: b1 :: b2 :: b3 :: bs) with ([b0; b1; b2; b3] ++ bs) in *.
    apply Forall_app in Hb as [Hw Hb].
    rewrite MemcpyToMmio8_app, <- MmioWriteRelaxed32_bytes by done.
    cbn [MemcpyToMmio32 app]. apply IH; [lia|done].
Qed.

Lemma MemcpyToMmio_bytewise base r dst src bs :
  Forall byte_ok bs -> MemcpyToMmio base r dst src bs = MemcpyToMmio8 base r dst bs.
Proof.
  intros Hb. unfold MemcpyToMmio. destruct (_ && _); [|done].
  set (n := Zlen bs / 4 * 4).
  assert (Hn : 0 <= n <= Zlen bs) by (pose proof (Zlen_nonneg bs); subst n; dmlia).
  rewrite (MemcpyToMmio32_bytes base (Z.to_nat (Zlen bs / 4))).
  - rewrite <- (Zlen_takeZ n bs Hn) at 2. rewrite <- MemcpyToMmio8_app.
    by rewrite take_dropZ.
  - pose proof (Zlen_takeZ n bs Hn) as E. unfold Zlen in E at 1. subst n. dmlia.
  - rewrite <- (take_dropZ n bs) in Hb. by apply Forall_app in Hb as [? _].
Qed.

(** A byte copy that stays inside the ring is a circular write. *)
Lemma MemcpyToMmio8_wr base bs : forall r pos off,
  0 <= off -> off + Zlen bs <= Zlen r -> (bs <> [] -> pos mod Zlen r = off) ->
  MemcpyToMmio8 base r (base + off) bs = wr r pos bs.
Proof.
  induction bs as [|b bs IH]; intros r pos off Ho Hr Hp; [done|].
  rewrite Zlen_cons in Hr. pose proof (Zlen_nonneg bs).
  cbn [MemcpyToMmio8 wr]. unfold MmioWriteRelaxed8 at 1.
  rewrite Hp by done. replace (base + off - base) with off by lia.
  rewrite <- Z.add_assoc. apply IH; rewrite ?Zlen_insert; try lia.
  intros Hne. destruct bs as [|b' bs]; [done|]. rewrite Zlen_cons in Hr.
  pose proof (Zlen_nonneg bs). specialize (Hp ltac:(done)).
  rewrite <- Z.add_mod_idemp_l by lia. rewrite Hp. apply Z.mod_small. lia.
Qed.

(** ** Segments of a batch

    [covers base sz pos rem seg backup]: the two segments are the [rem]
    ring cells that hold the stream positions [pos], [pos + 1], ... *)

Record covers (base sz pos rem : Z) (seg backup : Span) : Prop := {
  cov_seg : 0 <= size seg;
  cov_backup : 0 <= size backup;
  cov_rem : size seg + size backup = rem;
  cov_seg_at : 0 < size seg -> data seg = base + pos mod sz /\ pos mod sz + size seg <= sz;
  cov_backup_at :
    0 < size backup -> data backup = base /\ (pos + size seg) mod sz = 0 /\ size backup <= sz
}.

Lemma add_mod_small sz pos n :
  0 < sz -> 0 <= n -> pos mod sz + n < sz -> (pos + n) mod sz = pos mod sz + n.
Proof.
  intros. rewrite <- Z.add_mod_idemp_l by lia. apply Z.mod_small.
  pose proof (Z.mod_pos_bound pos sz). lia.
Qed.

(** Advancing inside the first segment. *)
Lemma covers_prefix base sz pos rem seg backup n :
  0 < sz -> covers base sz pos rem seg backup -> 0 <= n <= size seg ->
  covers base sz (pos + n) (rem - n) (remove_prefix seg n) backup.
Proof.
  intros Hsz [H1 H2 H3 H4 H5] Hn. destruct (Z.eq_dec n 0) as [->|Hn0].
  { constructor; cbn; rewrite ?Z.add_0_r, ?Z.sub_0_r; try done. }
  constructor; cbn; try lia.
  - intros Hs. rewrite add_mod_small by lia. lia.
  - intros Hb. replace (pos + n + (size seg - n)) with (pos + size seg) by lia. auto.
Qed.

(** Using up the first segment promotes the second one. *)
Lemma covers_promote base sz pos rem seg backup :
  0 < sz -> covers base sz pos rem seg backup ->
  covers base sz (pos + size seg) (rem - size seg) backup empty_span.
Proof.
  intros Hsz [H1 H2 H3 H4 H5]. constructor; cbn; try lia.
Qed.

Lemma covers_empty base sz pos : covers base sz pos 0 empty_span empty_span.
Proof. constructor; cbn; lia. Qed.

(** The two segments [BeginSend] and [BeginReceive] cut out of a ring. *)
Lemma covers_cut base sz pos rem :
  0 < sz -> 0 <= rem <= sz ->
  let off := pos mod sz in
  covers base sz pos rem
    (subspan (mkSpan base sz) off (Z.min rem (sz - off)))
    (if Z.min rem (sz - off) <? rem
     then subspan (mkSpan base sz) 0 (rem - Z.min rem (sz - off)) else empty_span).
Proof.
  intros Hsz Hrem off. pose proof (Z.mod_pos_bound pos sz Hsz).
  destruct (Z.ltb_spec (Z.min rem (sz - off)) rem);
    constructor; subst off; cbn; try lia.
  intros _. split_and!; try lia.
  rewrite Z.min_l, Z.min_r by lia. rewrite <- Z.add_mod_idemp_l by lia.
  replace (pos mod sz + (sz - pos mod sz)) with sz by lia. apply Z.mod_same. lia.
Qed.

(** ** Two nodes and their interleaved operations *)

Record Node := mkNode {
  qp : SpscQueuePair;
  region : Region;
  sbatch : option SendBatch;
  rbatch : option ReceiveBatch
}.

Inductive Op : Type :=
  | OpBeginSend
  | OpAppend (src : Z) (buffer : list Z)
  | OpSkip (n : Z)
  | OpSendCommit
  | OpBeginReceive
  | OpRecv (n : Z)
  | OpReceiveCommit.

(** One operation of [self]; it may write the region of [peer].  [None]
    when the operation needs a batch that is not outstanding. *)
Definition exec (o : Op) (self peer : Node) : option (StatusCode * list Z * Node * Node) :=
  match o with
  | OpBeginSend =>
      Some (kOk, [], mkNode (qp self) (region self)
                       (Some (BeginSend (qp self) (region self))) (rbatch self), peer)
  | OpAppend src buffer =>
      b ← sbatch self;
      let '(code, b', r') := SendBatch_Append (qp self) (region peer) b src buffer in
      Some (code, [], mkNode (qp self) (region self) (Some b') (rbatch self),
            mkNode (qp peer) r' (sbatch peer) (rbatch peer))
  | OpSkip n =>
      b ← sbatch self;
      let '(code, b') := SendBatch_Skip b n in
      Some (code, [], mkNode (qp self) (region self) (Some b') (rbatch self), peer)
  | OpSendCommit =>
      b ← sbatch self;
      let '(code, q', r') := SendBatch_Commit (qp self) (region peer) b in
      Some (code, [], mkNode q' (region self) None (rbatch self),
            mkNode (qp peer) r' (sbatch peer) (rbatch peer))
  | OpBeginReceive =>
      let '(code, b') := BeginReceive (qp self) (region self) empty_receive_batch in
      Some (code, [], mkNode (qp self) (region self) (sbatch self)
                        (match code with kOk => Some b' | _ => None end), peer)
  | OpRecv n =>
      b ← rbatch self;
      let '(code, b', out) := ReceiveBatch_Recv (qp self) (region self) b true n in
      Some (code, out, mkNode (qp self) (region self) (sbatch self) (Some b'), peer)
  | OpReceiveCommit =>
      b ← rbatch self;
      let '(code, q', r') := ReceiveBatch_Commit (qp self) (region peer) b in
      Some (code, [], mkNode q' (region self) (sbatch self) None,
            mkNode (qp peer) r' (sbatch peer) (rbatch peer))
  end.

(** ** The abstract byte FIFO of one direction

    [queued]: committed and not yet consumed bytes.  [staged]: the bytes of
    the outstanding send batch and the room it has left.  [peek]: how many
    bytes the outstanding receive batch has taken and how many it may still
    take. *)

Record Fifo := mkFifo {
  queued : list Z;
  staged : option (list Z * Z);
  peek : option (Z * Z)
}.

(** Steps of the producer ([fifo_send]) and of the consumer ([fifo_recv]) of
    a FIFO of capacity [cap]. *)
Inductive fifo_send (cap : Z) : Op -> StatusCode -> Fifo -> Fifo -> Prop :=
  | FBeginSend q s p :
      fifo_send cap OpBeginSend kOk (mkFifo q s p) (mkFifo q (Some ([], cap - Zlen q)) p)
  | FAppend src bs q st room p :
      Zlen bs <= room ->
      fifo_send cap (OpAppend src bs) kOk (mkFifo q (Some (st, room)) p)
        (mkFifo q (Some (st ++ bs, room - Zlen bs)) p)
  | FAppendFull src bs q st room p :
      room < Zlen bs ->
      fifo_send cap (OpAppend src bs) kResourceExhausted
        (mkFifo q (Some (st, room)) p) (mkFifo q (Some (st, room)) p)
  | FSkip n junk q st room p :
      Zlen junk = n -> n <= room ->
      fifo_send cap (OpSkip n) kOk (mkFifo q (Some (st, room)) p)
        (mkFifo q (Some (st ++ junk, room - n)) p)
  | FSkipFull n q st room p :
      room < n ->
      fifo_send cap (OpSkip n) kResourceExhausted
        (mkFifo q (Some (st, room)) p) (mkFifo q (Some (st, room)) p)
  | FSendCommit q st room p :
      fifo_send cap OpSendCommit kOk (mkFifo q (Some (st, room)) p) (mkFifo (q ++ st) None p).

Inductive fifo_recv : Op -> StatusCode -> list Z -> Fifo -> Fifo -> Prop :=
  | FBeginReceiveEmpty s p :
      fifo_recv OpBeginReceive kUnavailable [] (mkFifo [] s p) (mkFifo [] s None)
  | FBeginReceive q s p :
      q <> [] -> fifo_recv OpBeginReceive kOk [] (mkFifo q s p) (mkFifo q s (Some (0, Zlen q)))
  | FRecv n q s t left :
      0 <= n <= left ->
      fifo_recv (OpRecv n) kOk (takeZ n (dropZ t q)) (mkFifo q s (Some (t, left)))
        (mkFifo q s (Some (t + n, left - n)))
  | FRecvShort n q s t left :
      left < n ->
      fifo_recv (OpRecv n) kUnavailable [] (mkFifo q s (Some (t, left)))
        (mkFifo q s (Some (t, left)))
  | FReceiveCommit q s t left :
      fifo_recv OpReceiveCommit kOk [] (mkFifo q s (Some (t, left))) (mkFifo (dropZ t q) s None).

(** ** Representation invariant of the direction from [p] to [c]

    [P] and [C] are the numbers of bytes ever produced and consumed, which
    the code keeps modulo 2^64. *)

Definition room_of (b : SendBatch) : Z := size (sb_segment_ b) + size (sb_backup_segment_ b).
Definition left_of (b : ReceiveBatch) : Z := size (rb_segment_ b) + size (rb_backup_segment_ b).

Definition pow2_size (sz : Z) : Prop := exists k, 12 <= k <= 63 /\ sz = 2 ^ k.

Record chan_rep (p c : Node) (P C : Z) : Prop := {
  rep_size : pow2_size (size (remote_ring_ (qp p)));
  rep_ring : Zlen (ring (region c)) = size (remote_ring_ (qp p));
  rep_local : size (local_ring_ (qp c)) = size (remote_ring_ (qp p));
  rep_mask_p : remote_ring_size_mask_ (qp p) = size (remote_ring_ (qp p)) - 1;
  rep_mask_c : local_ring_size_mask_ (qp c) = size (remote_ring_ (qp p)) - 1;
  rep_produced : remote_bytes_produced_ (qp p) = u64 P;
  rep_bell_produced : bytes_produced (doorbells (region c)) = u64 P;
  rep_consumed : local_bytes_consumed_ (qp c) = u64 C;
  rep_bell_consumed : remote_bytes_consumed (doorbells (region p)) = u64 C;
  rep_order : 0 <= C <= P;
  rep_cap : P <= C + size (remote_ring_ (qp p));
  rep_send : forall b, sbatch p = Some b ->
    covers (data (remote_ring_ (qp p))) (size (remote_ring_ (qp p)))
      (P + pending_bytes_ b) (room_of b) (sb_segment_ b) (sb_backup_segment_ b)
    /\ 0 <= pending_bytes_ b
    /\ P + pending_bytes_ b + room_of b <= C + size (remote_ring_ (qp p));
  rep_recv : forall b, rbatch c = Some b ->
    covers (data (local_ring_ (qp c))) (size (remote_ring_ (qp p)))
      (C + taken_bytes_ b) (left_of b) (rb_segment_ b) (rb_backup_segment_ b)
    /\ 0 <= taken_bytes_ b
    /\ C + taken_bytes_ b + left_of b <= P
}.

Definition abs (p c : Node) (P C : Z) : Fifo :=
  mkFifo (window (ring (region c)) C (P - C))
    ((fun b => (window (ring (region c)) P (pending_bytes_ b), room_of b)) <$> sbatch p)
    ((fun b => (taken_bytes_ b, left_of b)) <$> rbatch c).

(** The direction from [p] to [c] implements the FIFO [f]. *)
Definition implements (p c : Node) (f : Fifo) : Prop :=
  exists P C, chan_rep p c P C /\ f = abs p c P C.

(** ** Behaviour of the single operations *)

Lemma pow2_bounds sz : pow2_size sz -> 4096 <= sz <= 2 ^ 63.
Proof.
  intros (k & Hk & ->). change 4096 with (2 ^ 12).
  split; apply Z.pow_le_mono_r; lia.
Qed.

Lemma mask_offset sz x : pow2_size sz -> Z.land (u64 x) (sz - 1) = x mod sz.
Proof.
  intros (k & Hk & E). rewrite (land_mask sz k) by (lia || done).
  apply (u64_mod_pow2 sz k); [lia|done].
Qed.

Lemma batch_covers base sz pos rem seg backup pending :
  covers base sz pos rem seg backup ->
  let b := mkSendBatch seg backup pending in
  room_of b = rem /\ pending_bytes_ b = pending /\
  covers base sz pos (room_of b) (sb_segment_ b) (sb_backup_segment_ b).
Proof.
  intros Hc b. assert (E : room_of b = rem) by apply Hc. by rewrite E.
Qed.

Lemma BeginSend_spec q local P C :
  pow2_size (size (remote_ring_ q)) ->
  remote_ring_size_mask_ q = size (remote_ring_ q) - 1 ->
  remote_bytes_produced_ q = u64 P ->
  remote_bytes_consumed (doorbells local) = u64 C ->
  C <= P -> P <= C + size (remote_ring_ q) ->
  let b := BeginSend q local in
  room_of b = size (remote_ring_ q) - (P - C) /\ pending_bytes_ b = 0 /\
  covers (data (remote_ring_ q)) (size (remote_ring_ q)) P (room_of b)
    (sb_segment_ b) (sb_backup_segment_ b).
Proof.
  intros Hp Hm HP HC HCP Hcap. pose proof (pow2_bounds _ Hp) as Hb.
  unfold BeginSend. rewrite HP, HC, Hm, mask_offset, u64_sub by done.
  destruct (remote_ring_ q) as [base sz]; cbn [data size] in *.
  pose proof (Z.mod_pos_bound P sz ltac:(lia)) as Hoff.
  rewrite (u64_small (P - C)), (u64_small (sz - (P - C))) by lia.
  rewrite (u64_small (sz - P mod sz)) by lia.
  destruct (Z.ltb_spec sz (sz - (P - C))); [lia|].
  pose proof (covers_cut base sz P (sz - (P - C)) ltac:(lia) ltac:(lia)) as Hc.
  cbn zeta in Hc.
  destruct (Z.ltb_spec (sz - P mod sz) (sz - (P - C))).
  - rewrite u64_small by lia. rewrite Z.min_r in Hc by lia.
    destruct (Z.ltb_spec (sz - P mod sz) (sz - (P - C))); [|lia].
    by apply batch_covers.
  - rewrite Z.min_l in Hc by lia. rewrite Z.ltb_irrefl in Hc.
    by apply batch_covers.
Qed.

Lemma room_u64 base sz pos b :
  pow2_size sz -> covers base sz pos (room_of b) (sb_segment_ b) (sb_backup_segment_ b) ->
  room_of b <= sz -> u64 (size (sb_segment_ b) + size (sb_backup_segment_ b)) = room_of b.
Proof.
  intros Hp [? ? ? _ _] ?. pose proof (pow2_bounds _ Hp). apply u64_small. unfold room_of in *. lia.
Qed.

(** A copy into a segment is a circular write at its position. *)
Lemma Memcpy_segment base sz pos rem seg backup r src bs :
  0 < sz -> covers base sz pos rem seg backup -> Zlen r = sz -> Forall byte_ok bs ->
  Zlen bs <= size seg -> MemcpyToMmio base r (data seg) src bs = wr r pos bs.
Proof.
  intros Hsz Hc HL Hb Hn. rewrite MemcpyToMmio_bytewise by done.
  destruct bs as [|b bs']; [done|]. set (bs := b :: bs') in *.
  assert (0 < Zlen bs) by (subst bs; rewrite Zlen_cons; pose proof (Zlen_nonneg bs'); lia).
  destruct (cov_seg_at _ _ _ _ _ _ Hc ltac:(lia)) as [-> ?].
  pose proof (Z.mod_pos_bound pos sz Hsz).
  apply MemcpyToMmio8_wr; rewrite ?HL; lia || done.
Qed.

Lemma Append_full q remote b src bs base sz pos :
  pow2_size sz -> covers base sz pos (room_of b) (sb_segment_ b) (sb_backup_segment_ b) ->
  room_of b <= sz -> room_of b < Zlen bs ->
  SendBatch_Append q remote b src bs = (kResourceExhausted, b, remote).
Proof.
  intros Hp Hc Hr Hlt. unfold SendBatch_Append. rewrite (room_u64 base sz pos) by done.
  by destruct (Z.ltb_spec (room_of b) (Zlen bs)); [|lia].
Qed.

Lemma Append_ok q remote b src bs sz pos :
  pow2_size sz ->
  covers (data (remote_ring_ q)) sz pos (room_of b) (sb_segment_ b) (sb_backup_segment_ b) ->
  room_of b <= sz -> Zlen (ring remote) = sz -> Forall byte_ok bs ->
  0 <= pending_bytes_ b -> pending_bytes_ b + room_of b <= sz -> Zlen bs <= room_of b ->
  exists b', SendBatch_Append q remote b src bs
             = (kOk, b', mkRegion (doorbells remote) (wr (ring remote) pos bs))
    /\ room_of b' = room_of b - Zlen bs /\ pending_bytes_ b' = pending_bytes_ b + Zlen bs
    /\ covers (data (remote_ring_ q)) sz (pos + Zlen bs) (room_of b')
         (sb_segment_ b') (sb_backup_segment_ b').
Proof.
  intros Hp Hc Hr HL Hb Hpend Hsum Hle. pose proof (pow2_bounds _ Hp).
  unfold SendBatch_Append. rewrite (room_u64 _ sz pos) by done.
  destruct (Z.ltb_spec (room_of b) (Zlen bs)); [lia|]. pose proof (Zlen_nonneg bs).
  pose proof (cov_seg _ _ _ _ _ _ Hc). pose proof (cov_backup _ _ _ _ _ _ Hc).
  set (len1 := Z.min (Zlen bs) (size (sb_segment_ b))).
  assert (Hb12 : Forall byte_ok (takeZ len1 bs) /\ Forall byte_ok (dropZ len1 bs))
    by (by rewrite <- Forall_app, take_dropZ).
  destruct Hb12 as [Hb1 Hb2].
  rewrite (Memcpy_segment _ sz pos (room_of b) _ (sb_backup_segment_ b));
    rewrite ?Zlen_takeZ by lia; try (done || lia).
  destruct (Z.eqb_spec len1 (Zlen bs)) as [E|E].
  - eexists. split; [rewrite E, takeZ_all; reflexivity|]. rewrite E in *.
    unfold room_of at 1 3; cbn. rewrite u64_small by (unfold room_of in *; lia).
    split_and!; [unfold room_of; lia|done|].
    replace (_ - _ + _) with (room_of b - Zlen bs) by (unfold room_of; lia).
    apply covers_prefix; try done; lia.
  - assert (E1 : len1 = size (sb_segment_ b)) by lia.
    pose proof (covers_promote _ sz _ _ _ _ ltac:(lia) Hc) as Hc2. rewrite <- E1 in Hc2.
    rewrite (Memcpy_segment _ sz (pos + len1) (room_of b - len1) _ empty_span);
      rewrite ?wr_length, ?Zlen_dropZ by lia; try (done || (unfold room_of in *; lia)).
    rewrite wr_take_drop by lia. eexists. split; [reflexivity|].
    unfold room_of at 1 3; cbn. rewrite u64_add_l, u64_small by (unfold room_of in *; lia).
    split_and!; [unfold room_of; lia|lia|].
    replace (pos + Zlen bs) with (pos + len1 + (Zlen bs - len1)) by lia.
    replace (_ - _ + 0) with (room_of b - len1 - (Zlen bs - len1)) by (unfold room_of; lia).
    apply covers_prefix; try done; unfold room_of in *; lia.
Qed.

Lemma Skip_full b n base sz pos :
  pow2_size sz -> covers base sz pos (room_of b) (sb_segment_ b) (sb_backup_segment_ b) ->
  room_of b <= sz -> room_of b < n -> SendBatch_Skip b n = (kResourceExhausted, b).
Proof.
  intros Hp Hc Hr Hlt. unfold SendBatch_Skip. rewrite (room_u64 base sz pos) by done.
  by destruct (Z.ltb_spec (room_of b) n); [|lia].
Qed.

Lemma Skip_ok b n base sz pos :
  pow2_size sz -> covers base sz pos (room_of b) (sb_segment_ b) (sb_backup_segment_ b) ->
  0 <= pending_bytes_ b -> pending_bytes_ b + room_of b <= sz -> 0 <= n <= room_of b ->
  exists b', SendBatch_Skip b n = (kOk, b')
    /\ room_of b' = room_of b - n /\ pending_bytes_ b' = pending_bytes_ b + n
    /\ covers base sz (pos + n) (room_of b') (sb_segment_ b') (sb_backup_segment_ b').
Proof.
  intros Hp Hc Hpend Hsum Hn. pose proof (pow2_bounds _ Hp).
  unfold SendBatch_Skip. rewrite (room_u64 base sz pos) by (done || lia).
  destruct (Z.ltb_spec (room_of b) n); [lia|].
  pose proof (cov_backup _ _ _ _ _ _ Hc).
  destruct (Z.leb_spec n (size (sb_segment_ b))); eexists; (split; [reflexivity|]);
    unfold room_of at 1 3; cbn; rewrite u64_small by lia.
  - split_and!; [unfold room_of; lia|done|].
    replace (_ - _ + _) with (room_of b - n) by (unfold room_of; lia).
    apply covers_prefix; try done; lia.
  - split_and!; [unfold room_of; lia|done|].
    pose proof (covers_promote _ sz _ _ _ _ ltac:(lia) Hc) as Hc2.
    replace (pos + n) with (pos + size (sb_segment_ b) + (n - size (sb_segment_ b))) by lia.
    replace (_ - _ + 0) with (room_of b - size (sb_segment_ b) - (n - size (sb_segment_ b)))
      by (unfold room_of; lia).
    apply covers_prefix; try done; unfold room_of in *; lia.
Qed.

Lemma rbatch_covers base sz pos rem seg backup taken :
  covers base sz pos rem seg backup ->
  let b := mkReceiveBatch seg backup taken in
  left_of b = rem /\ taken_bytes_ b = taken /\
  covers base sz pos (left_of b) (rb_segment_ b) (rb_backup_segment_ b).
Proof.
  intros Hc b. assert (E : left_of b = rem) by apply Hc. by rewrite E.
Qed.

Lemma BeginReceive_empty q local batch P :
  bytes_produced (doorbells local) = u64 P -> local_bytes_consumed_ q = u64 P ->
  BeginReceive q local batch = (kUnavailable, batch).
Proof. intros HP HC. unfold BeginReceive. by rewrite HP, HC, u64_sub, Z.sub_diag. Qed.

Lemma BeginReceive_ok q local batch P C :
  pow2_size (size (local_ring_ q)) ->
  local_ring_size_mask_ q = size (local_ring_ q) - 1 ->
  bytes_produced (doorbells local) = u64 P -> local_bytes_consumed_ q = u64 C ->
  C < P -> P <= C + size (local_ring_ q) ->
  exists b, BeginReceive q local batch = (kOk, b)
    /\ size (rb_segment_ b) = Z.min (P - C) (size (local_ring_ q) - C mod size (local_ring_ q))
    /\ left_of b = P - C /\ taken_bytes_ b = 0
    /\ covers (data (local_ring_ q)) (size (local_ring_ q)) C (left_of b)
         (rb_segment_ b) (rb_backup_segment_ b).
Proof.
  intros Hp Hm HP HC HCP Hcap. pose proof (pow2_bounds _ Hp) as Hb.
  unfold BeginReceive. rewrite HP, HC, Hm, mask_offset, u64_sub by done.
  destruct (local_ring_ q) as [base sz]; cbn [data size] in *.
  pose proof (Z.mod_pos_bound C sz ltac:(lia)) as Hoff.
  rewrite (u64_small (P - C)), (u64_small (sz - C mod sz)) by lia.
  destruct (Z.eqb_spec (P - C) 0); [lia|].
  destruct (Z.ltb_spec sz (P - C)); [lia|].
  eexists. split; [reflexivity|]. split; [cbn; lia|].
  apply rbatch_covers, (covers_cut base sz C (P - C)); lia.
Qed.

(** Reading a prefix of the first segment. *)
Lemma read_segment q local base sz pos rem seg backup n :
  0 < sz -> base = data (local_ring_ q) -> Zlen (ring local) = sz ->
  covers base sz pos rem seg backup -> 0 <= n <= size seg ->
  read_span q local (mkSpan (data seg) n) = window (ring local) pos n.
Proof.
  intros Hsz -> HL Hc Hn. unfold read_span; cbn [size data].
  destruct (Z.eq_dec n 0) as [->|]; [done|].
  destruct (cov_seg_at _ _ _ _ _ _ Hc ltac:(lia)) as [-> ?].
  pose proof (Z.mod_pos_bound pos sz Hsz).
  rewrite (window_linear _ _ _ (pos mod sz)); rewrite ?HL; try lia.
  do 2 f_equal. lia.
Qed.

Lemma left_u64 base sz pos b :
  pow2_size sz -> covers base sz pos (left_of b) (rb_segment_ b) (rb_backup_segment_ b) ->
  left_of b <= sz -> RemainingBytes b = left_of b.
Proof.
  intros Hp [? ? ? _ _] ?. pose proof (pow2_bounds _ Hp). apply u64_small. unfold left_of in *. lia.
Qed.

Lemma Recv_short q local b hb n base sz pos :
  pow2_size sz -> covers base sz pos (left_of b) (rb_segment_ b) (rb_backup_segment_ b) ->
  left_of b <= sz -> left_of b < n -> ReceiveBatch_Recv q local b hb n = (kUnavailable, b, []).
Proof.
  intros Hp Hc Hr Hlt. unfold ReceiveBatch_Recv. rewrite (left_u64 base sz pos) by done.
  by destruct (Z.ltb_spec (left_of b) n); [|lia].
Qed.

Lemma Recv_ok q local b hb n sz pos :
  pow2_size sz ->
  covers (data (local_ring_ q)) sz pos (left_of b) (rb_segment_ b) (rb_backup_segment_ b) ->
  Zlen (ring local) = sz -> 0 <= taken_bytes_ b -> taken_bytes_ b + left_of b <= sz ->
  0 <= n <= left_of b ->
  exists b', ReceiveBatch_Recv q local b hb n
             = (kOk, b', if hb : bool then window (ring local) pos n else [])
    /\ left_of b' = left_of b - n /\ taken_bytes_ b' = taken_bytes_ b + n
    /\ covers (data (local_ring_ q)) sz (pos + n) (left_of b')
         (rb_segment_ b') (rb_backup_segment_ b').
Proof.
  intros Hp Hc HL Ht Hsum Hn. pose proof (pow2_bounds _ Hp).
  unfold ReceiveBatch_Recv. rewrite (left_u64 _ sz pos) by (done || lia).
  destruct (Z.ltb_spec (left_of b) n); [lia|].
  pose proof (cov_seg _ _ _ _ _ _ Hc). pose proof (cov_backup _ _ _ _ _ _ Hc).
  set (take1 := Z.min n (size (rb_segment_ b))).
  rewrite (read_segment q local _ sz pos _ _ _ take1 ltac:(lia) eq_refl HL Hc) by lia.
  cbn [size remove_prefix].
  pose proof (covers_prefix _ sz _ _ _ _ take1 ltac:(lia) Hc ltac:(lia)) as Hc1.
  pose proof (covers_promote _ sz _ _ _ _ ltac:(lia) Hc) as Hc2.
  destruct (Z.eqb_spec take1 n) as [E|E].
  - rewrite E in *. destruct (Z.eqb_spec (size (rb_segment_ b) - n) 0) as [E0|E0];
      eexists; (split; [reflexivity|]); rewrite u64_small by lia;
      apply rbatch_covers; [|exact Hc1].
    by replace n with (size (rb_segment_ b)) by lia.
  - assert (E1 : take1 = size (rb_segment_ b)) by lia. rewrite <- E1 in Hc2 |- *.
    rewrite Z.sub_diag. cbn [Z.eqb].
    rewrite (read_segment q local _ sz (pos + take1) _ _ _ (n - take1) ltac:(lia) eq_refl HL Hc2)
      by (unfold left_of in *; lia).
    eexists. split.
    { destruct hb; [rewrite <- window_app by lia|]; repeat f_equal; lia. }
    rewrite u64_add_l, u64_small by (unfold left_of in *; lia).
    replace (taken_bytes_ b + n) with (taken_bytes_ b + take1 + (n - take1)) by lia.
    replace (pos + n) with (pos + take1 + (n - take1)) by lia.
    apply rbatch_covers.
    replace (left_of b - n) with (left_of b - take1 - (n - take1)) by lia.
    apply covers_prefix; try done; unfold left_of in *; lia.
Qed.

(** ** Refinement of the byte FIFO *)

(** Arguments as the C++ types admit them: bytes and [size_t] values. *)
Definition op_ok (o : Op) : Prop :=
  match o with
  | OpAppend _ bs => Forall byte_ok bs
  | OpSkip n | OpRecv n => is_u64 n
  | _ => True
  end.

(** The direction an operation does not act on keeps its representation. *)
Ltac frame_rep R := destruct R; constructor; cbn; auto.

Lemma other_direction p c p' c' f :
  implements p c f ->
  (forall P C, chan_rep p c P C -> chan_rep p' c' P C) ->
  ring (region c') = ring (region c) -> sbatch p' = sbatch p -> rbatch c' = rbatch c ->
  implements p' c' f.
Proof.
  intros (P & C & R & ->) H Hr Hs Hb. exists P, C. split; [auto|].
  unfold abs. by rewrite Hr, Hs, Hb.
Qed.

Section refinement.
Context (a b : Node) (f g : Fifo).
Context (Hf : implements a b f) (Hg : implements b a g).
Let cap := size (remote_ring_ (qp a)).

Let send_simulated (o : Op) (code : StatusCode) (a' b' : Node) : Prop :=
  exists f', fifo_send cap o code f f' /\ implements a' b' f' /\ implements b' a' g.
Let recv_simulated (o : Op) (code : StatusCode) (out : list Z) (a' b' : Node) : Prop :=
  exists g', fifo_recv o code out g g' /\ implements a' b' f /\ implements b' a' g'.

Lemma refine_BeginSend :
  send_simulated OpBeginSend kOk
    (mkNode (qp a) (region a) (Some (BeginSend (qp a) (region a))) (rbatch a)) b.
Proof.
  destruct Hf as (P & C & R & ->). pose proof R as R0; destruct R0.
  destruct (BeginSend_spec (qp a) (region a) P C) as (Hr & Hp & Hc); auto; [lia|].
  eexists. split_and!; [apply FBeginSend| |].
  - exists P, C. split.
    + frame_rep R. intros b0 [= <-]. rewrite Hp, Hr, Z.add_0_r.
      split_and!; [by rewrite <- Hr|lia|lia].
    + unfold abs; cbn. rewrite Hp, window_nil, Hr. rewrite window_length by lia. done.
  - eapply other_direction; [exact Hg| |done..]. intros P' C' R'. frame_rep R'.
Qed.

Lemma refine_Append src bs b0 :
  Forall byte_ok bs -> sbatch a = Some b0 ->
  let '(code, b', r') := SendBatch_Append (qp a) (region b) b0 src bs in
  send_simulated (OpAppend src bs) code (mkNode (qp a) (region a) (Some b') (rbatch a))
    (mkNode (qp b) r' (sbatch b) (rbatch b)).
Proof.
  intros Hb Es. destruct Hf as (P & C & R & ->). pose proof R as R0; destruct R0.
  destruct (rep_send0 b0 Es) as (Hc & Hp & Hsum). pose proof (pow2_bounds _ rep_size0).
  unfold send_simulated, abs. rewrite Es; cbn [fmap option_fmap option_map].
  assert (Hg' : forall b1 r', remote_bytes_consumed (doorbells r')
                 = remote_bytes_consumed (doorbells (region b)) ->
      implements (mkNode (qp b) r' (sbatch b) (rbatch b))
        (mkNode (qp a) (region a) (Some b1) (rbatch a)) g).
  { intros b1 r' E. eapply other_direction; [exact Hg| |done..]. intros P' C' R'.
    frame_rep R'. by rewrite E. }
  pose proof (cov_seg _ _ _ _ _ _ Hc). pose proof (cov_backup _ _ _ _ _ _ Hc).
  assert (0 <= room_of b0) by (unfold room_of; lia).
  destruct (Z.lt_ge_cases (room_of b0) (Zlen bs)) as [Hfull|Hroom].
  - rewrite (Append_full _ _ _ _ _ _ _ _ rep_size0 Hc) by lia.
    eexists. split_and!; [by apply FAppendFull| |by apply Hg'].
    exists P, C. split; [|unfold abs; cbn; done].
    frame_rep R. by rewrite <- Es.
  - destruct (Append_ok (qp a) (region b) b0 src bs _ _ rep_size0 Hc) as
      (b' & -> & Hr' & Hp' & Hc'); try (done || lia).
    pose proof (Zlen_nonneg bs).
    eexists. split_and!; [by apply FAppend| |by apply Hg'].
    exists P, C. split.
    + frame_rep R; [by rewrite wr_length|]. intros ? [= <-]. rewrite Hp', Hr'.
      replace (P + (pending_bytes_ b0 + Zlen bs)) with (P + pending_bytes_ b0 + Zlen bs) by lia.
      split_and!; [by rewrite <- Hr'|lia|lia].
    + unfold abs; cbn. rewrite Hp', Hr', window_app by lia.
      rewrite !window_wr_disjoint by lia. rewrite window_wr_same by lia. done.
Qed.

Lemma refine_Skip n b0 :
  is_u64 n -> sbatch a = Some b0 ->
  let '(code, b') := SendBatch_Skip b0 n in
  send_simulated (OpSkip n) code (mkNode (qp a) (region a) (Some b') (rbatch a)) b.
Proof.
  intros Hn Es. destruct Hf as (P & C & R & ->). pose proof R as R0; destruct R0.
  destruct (rep_send0 b0 Es) as (Hc & Hp & Hsum).
  unfold send_simulated, abs. rewrite Es; cbn [fmap option_fmap option_map].
  assert (Hg' : forall b1, implements b (mkNode (qp a) (region a) (Some b1) (rbatch a)) g).
  { intros b1. eapply other_direction; [exact Hg| |done..]. intros P' C' R'. frame_rep R'. }
  pose proof (cov_seg _ _ _ _ _ _ Hc). pose proof (cov_backup _ _ _ _ _ _ Hc).
  assert (0 <= room_of b0) by (unfold room_of; lia).
  destruct (Z.lt_ge_cases (room_of b0) n) as [Hfull|Hroom].
  - rewrite (Skip_full _ _ _ _ _ rep_size0 Hc) by lia.
    eexists. split_and!; [by apply FSkipFull| |by apply Hg'].
    exists P, C. split; [|unfold abs; cbn; done].
    frame_rep R. by rewrite <- Es.
  - unfold is_u64 in Hn.
    destruct (Skip_ok b0 n _ _ _ rep_size0 Hc) as (b' & -> & Hr' & Hp' & Hc'); try lia.
    eexists. split_and!;
      [apply FSkip with (junk := window (ring (region b)) (P + pending_bytes_ b0) n)| |by apply Hg'].
    + apply window_length; lia.
    + done.
    + exists P, C. split.
      * frame_rep R. intros ? [= <-]. rewrite Hp', Hr', Z.add_assoc.
        split_and!; [by rewrite <- Hr'|lia|lia].
      * unfold abs; cbn. rewrite Hp', Hr', window_app by lia. done.
Qed.

Lemma refine_SendCommit b0 :
  sbatch a = Some b0 ->
  let '(code, q', r') := SendBatch_Commit (qp a) (region b) b0 in
  send_simulated OpSendCommit code (mkNode q' (region a) None (rbatch a))
    (mkNode (qp b) r' (sbatch b) (rbatch b)).
Proof.
  intros Es. destruct Hf as (P & C & R & ->). pose proof R as R0; destruct R0.
  destruct (rep_send0 b0 Es) as (Hc & Hp & Hsum).
  pose proof (cov_seg _ _ _ _ _ _ Hc). pose proof (cov_backup _ _ _ _ _ _ Hc).
  assert (0 <= room_of b0) by (unfold room_of; lia).
  unfold send_simulated, abs. rewrite Es; cbn [fmap option_fmap option_map SendBatch_Commit].
  eexists. split_and!; [apply FSendCommit| |].
  - exists (P + pending_bytes_ b0), C. split.
    + frame_rep R; try lia; rewrite ?rep_produced0, ?u64_add_l; try done.
      intros b1 E1. destruct (rep_recv0 b1 E1) as (? & ? & ?). split_and!; [done..|lia].
    + unfold abs; cbn. f_equal.
      replace (P + pending_bytes_ b0 - C) with (P - C + pending_bytes_ b0) by lia.
      rewrite window_app by lia. by replace (C + (P - C)) with P by lia.
  - eapply other_direction; [exact Hg| |done..]. intros P' C' R'. frame_rep R'.
Qed.

Lemma refine_BeginReceive :
  let '(code, b') := BeginReceive (qp a) (region a) empty_receive_batch in
  recv_simulated OpBeginReceive code []
    (mkNode (qp a) (region a) (sbatch a) (match code with kOk => Some b' | _ => None end)) b.
Proof.
  destruct Hg as (P & C & R & ->). pose proof R as R0; destruct R0.
  assert (Hf' : forall rb, implements (mkNode (qp a) (region a) (sbatch a) rb) b f).
  { intros rb. eapply other_direction; [exact Hf| |done..]. intros P' C' R'. frame_rep R'. }
  destruct (Z.eq_dec P C) as [->|Hne].
  - rewrite (BeginReceive_empty _ _ _ C) by done.
    unfold recv_simulated, abs. rewrite Z.sub_diag, window_nil.
    eexists. split_and!; [apply FBeginReceiveEmpty|by apply Hf'|].
    exists C, C. split; [frame_rep R; intros; done|].
    unfold abs; cbn. by rewrite Z.sub_diag.
  - destruct (BeginReceive_ok (qp a) (region a) empty_receive_batch P C)
      as (b' & -> & _ & Hl & Ht & Hc); rewrite ?rep_local0; try (done || lia).
    unfold recv_simulated, abs.
    eexists. split_and!; [apply FBeginReceive|by apply Hf'|].
    + intros E. apply (f_equal Zlen) in E.
      rewrite window_length, Zlen_nil in E by lia. lia.
    + exists P, C. split.
      * frame_rep R. intros ? [= <-]. rewrite Ht, Hl, Z.add_0_r. rewrite rep_local0, Hl in Hc.
        split_and!; [done|lia|lia].
      * unfold abs; cbn. by rewrite Ht, Hl, window_length by lia.
Qed.

Lemma refine_Recv n b0 :
  is_u64 n -> rbatch a = Some b0 ->
  let '(code, b', out) := ReceiveBatch_Recv (qp a) (region a) b0 true n in
  recv_simulated (OpRecv n) code out (mkNode (qp a) (region a) (sbatch a) (Some b')) b.
Proof.
  intros Hn Es. destruct Hg as (P & C & R & ->). pose proof R as R0; destruct R0.
  destruct (rep_recv0 b0 Es) as (Hc & Ht & Hsum).
  assert (Hf' : forall rb, implements (mkNode (qp a) (region a) (sbatch a) rb) b f).
  { intros rb. eapply other_direction; [exact Hf| |done..]. intros P' C' R'. frame_rep R'. }
  unfold recv_simulated, abs. rewrite Es; cbn [fmap option_fmap option_map].
  pose proof (cov_seg _ _ _ _ _ _ Hc). pose proof (cov_backup _ _ _ _ _ _ Hc).
  assert (0 <= left_of b0) by (unfold left_of; lia).
  destruct (Z.lt_ge_cases (left_of b0) n) as [Hshort|Hle].
  - rewrite (Recv_short _ _ _ _ _ _ _ _ rep_size0 Hc) by lia.
    eexists. split_and!; [by apply FRecvShort|by apply Hf'|].
    exists P, C. split; [|unfold abs; cbn; done]. frame_rep R. by rewrite <- Es.
  - unfold is_u64 in Hn.
    destruct (Recv_ok (qp a) (region a) b0 true n _ _ rep_size0 Hc)
      as (b' & -> & Hl & Ht' & Hc'); try lia.
    eexists. split_and!; [|by apply Hf'|].
    { replace (window (ring (region a)) (C + taken_bytes_ b0) n)
        with (takeZ n (dropZ (taken_bytes_ b0) (window (ring (region a)) C (P - C)))).
      2: { rewrite window_drop, window_take by lia. done. }
      apply FRecv. lia. }
    exists P, C. split.
    + frame_rep R. intros ? [= <-]. rewrite Ht', Hl, Z.add_assoc.
      split_and!; [by rewrite <- Hl|lia|lia].
    + unfold abs; cbn. by rewrite Ht', Hl.
Qed.

Lemma refine_ReceiveCommit b0 :
  rbatch a = Some b0 ->
  let '(code, q', r') := ReceiveBatch_Commit (qp a) (region b) b0 in
  recv_simulated OpReceiveCommit code [] (mkNode q' (region a) (sbatch a) None)
    (mkNode (qp b) r' (sbatch b) (rbatch b)).
Proof.
  intros Es. destruct Hg as (P & C & R & ->). pose proof R as R0; destruct R0.
  destruct (rep_recv0 b0 Es) as (Hc & Ht & Hsum).
  pose proof (cov_seg _ _ _ _ _ _ Hc). pose proof (cov_backup _ _ _ _ _ _ Hc).
  assert (0 <= left_of b0) by (unfold left_of; lia).
  unfold recv_simulated, abs. rewrite Es; cbn [fmap option_fmap option_map ReceiveBatch_Commit].
  eexists. split_and!; [apply FReceiveCommit| |].
  - eapply other_direction; [exact Hf| |done..]. intros P' C' R'. frame_rep R'.
  - exists P, (C + taken_bytes_ b0). split.
    + frame_rep R; try lia; rewrite ?rep_consumed0, ?u64_add_l; try done.
      intros b1 E1. destruct (rep_send0 b1 E1) as (? & ? & ?). split_and!; [done..|lia].
    + unfold abs; cbn. f_equal. rewrite window_drop by lia. f_equal. lia.
Qed.

(** Every operation of a node is a step of the FIFO it produces into or of
    the FIFO it consumes from, and leaves the other one alone. *)
Lemma exec_simulated o code out a' b' :
  op_ok o -> exec o a b = Some (code, out, a', b') ->
  (exists f', fifo_send cap o code f f' /\ out = [] /\ implements a' b' f' /\ implements b' a' g)
  \/ (exists g', fifo_recv o code out g g' /\ implements a' b' f /\ implements b' a' g').
Proof.
  intros Ho E. destruct o; cbn [exec op_ok] in *.
  - left. pose proof refine_BeginSend as (f' & ? & ? & ?). simplify_eq. by exists f'.
  - left. destruct (sbatch a) as [b0|] eqn:Es; [cbn in E|done].
    pose proof (refine_Append src buffer b0 Ho Es) as H.
    destruct (SendBatch_Append _ _ _ _ _) as [[c0 b1] r1]. simplify_eq.
    destruct H as (f' & ? & ? & ?). by exists f'.
  - left. destruct (sbatch a) as [b0|] eqn:Es; [cbn in E|done].
    pose proof (refine_Skip n b0 Ho Es) as H.
    destruct (SendBatch_Skip _ _) as [c0 b1]. simplify_eq.
    destruct H as (f' & ? & ? & ?). by exists f'.
  - left. destruct (sbatch a) as [b0|] eqn:Es; [cbn in E|done].
    pose proof (refine_SendCommit b0 Es) as H. cbn in H. simplify_eq.
    destruct H as (f' & ? & ? & ?). by exists f'.
  - right. pose proof refine_BeginReceive as H.
    destruct (BeginReceive _ _ _) as [c0 b1]. by simplify_eq.
  - right. destruct (rbatch a) as [b0|] eqn:Es; [cbn in E|done].
    pose proof (refine_Recv n b0 Ho Es) as H.
    destruct (ReceiveBatch_Recv _ _ _ _ _) as [[c0 b1] r1]. by simplify_eq.
  - right. destruct (rbatch a) as [b0|] eqn:Es; [cbn in E|done].
    pose proof (refine_ReceiveCommit b0 Es) as H. cbn in H. by simplify_eq.
Qed.

End refinement.

(** ** Executions and their byte streams *)

Record Event := mkEvent {
  ev_by_a : bool;
  ev_op : Op;
  ev_code : StatusCode;
  ev_out : list Z
}.

(** Run a schedule, any interleaving of operations of the two nodes. *)
Fixpoint run (sched : list (bool * Op)) (a b : Node) : option (list Event * Node * Node) :=
  match sched with
  | [] => Some ([], a, b)
  | (true, o) :: rest =>
      '(code, out, a', b') ← exec o a b;
      '(evs, a'', b'') ← run rest a' b';
      Some (mkEvent true o code out :: evs, a'', b'')
  | (false, o) :: rest =>
      '(code, out, b', a') ← exec o b a;
      '(evs, a'', b'') ← run rest a' b';
      Some (mkEvent false o code out :: evs, a'', b'')
  end.

(** What an observer of the calls of one direction knows: the bytes
    committed by the producer ([None] for a byte that was skipped over), the
    bytes of its open batch, the bytes consumed by the consumer and the bytes
    its open batch has taken. *)
Record Hist := mkHist {
  h_sent : list (option Z);
  h_staging : list (option Z);
  h_got : list Z;
  h_taken : list Z
}.

Definition hist_send (o : Op) (code : StatusCode) (h : Hist) : Hist :=
  match o, code with
  | OpBeginSend, _ => mkHist (h_sent h) [] (h_got h) (h_taken h)
  | OpAppend _ bs, kOk =>
      mkHist (h_sent h) (h_staging h ++ (Some <$> bs)) (h_got h) (h_taken h)
  | OpSkip n, kOk =>
      mkHist (h_sent h) (h_staging h ++ replicate (Z.to_nat n) None) (h_got h) (h_taken h)
  | OpSendCommit, _ => mkHist (h_sent h ++ h_staging h) [] (h_got h) (h_taken h)
  | _, _ => h
  end.

Definition hist_recv (o : Op) (code : StatusCode) (out : list Z) (h : Hist) : Hist :=
  match o, code with
  | OpBeginReceive, _ => mkHist (h_sent h) (h_staging h) (h_got h) []
  | OpRecv _, kOk => mkHist (h_sent h) (h_staging h) (h_got h) (h_taken h ++ out)
  | OpReceiveCommit, _ => mkHist (h_sent h) (h_staging h) (h_got h ++ h_taken h) []
  | _, _ => h
  end.

(** The history of the direction produced by [a] ([from_a = true]) or [b]. *)
Definition hist_step (from_a : bool) (h : Hist) (e : Event) : Hist :=
  if eqb (ev_by_a e) from_a then hist_send (ev_op e) (ev_code e) h
  else hist_recv (ev_op e) (ev_code e) (ev_out e) h.

Definition history (from_a : bool) (evs : list Event) : Hist :=
  fold_left (hist_step from_a) evs (mkHist [] [] [] []).

(** The bytes [bs] are the stream [os], where skipped bytes are arbitrary. *)
Definition agree : list (option Z) -> list Z -> Prop :=
  Forall2 (fun o b => forall x, o = Some x -> x = b).

Record hist_ok (cap : Z) (f : Fifo) (h : Hist) : Prop := {
  ho_stream : agree (h_sent h) (h_got h ++ queued f);
  ho_staged : forall st room, staged f = Some (st, room) ->
    agree (h_staging h) st /\ Zlen (queued f) + Zlen st + room <= cap /\ 0 <= room;
  ho_peek : forall t left, peek f = Some (t, left) ->
    h_taken h = takeZ t (queued f) /\ 0 <= t /\ 0 <= left /\ t + left <= Zlen (queued f);
  ho_cap : Zlen (queued f) <= cap
}.

Lemma agree_Some bs : agree (Some <$> bs) bs.
Proof. induction bs; constructor; naive_solver. Qed.

Lemma agree_None n bs : Zlen bs = n -> agree (replicate (Z.to_nat n) None) bs.
Proof.
  intros <-. unfold Zlen. rewrite Nat2Z.id. induction bs; constructor; naive_solver.
Qed.

Lemma hist_send_ok cap o code f f' h :
  fifo_send cap o code f f' -> hist_ok cap f h -> hist_ok cap f' (hist_send o code h).
Proof.
  intros S [H1 H2 H3 H4]. destruct S; cbn in *; constructor; cbn; auto.
  - intros st room [= <- <-]. rewrite Zlen_nil. split_and!; [constructor|lia|lia].
  - intros ? ? [= <- <-]. destruct (H2 _ _ eq_refl) as (? & ? & ?).
    rewrite Zlen_app. split_and!; [|lia|lia]. apply Forall2_app; [done|apply agree_Some].
  - intros ? ? [= <- <-]. destruct (H2 _ _ eq_refl) as (? & ? & ?).
    rewrite Zlen_app. split_and!; [|lia|lia].
    apply Forall2_app; [done|by apply agree_None].
  - destruct (H2 _ _ eq_refl) as (? & ? & ?). rewrite app_assoc. by apply Forall2_app.
  - done.
  - intros t left E. destruct (H3 _ _ E) as (-> & ? & ? & ?).
    rewrite Zlen_app. pose proof (Zlen_nonneg st). split_and!; try lia.
    unfold takeZ. rewrite take_app_le; [done|]. unfold Zlen in *. lia.
  - destruct (H2 _ _ eq_refl) as (? & ? & ?). rewrite Zlen_app. lia.
Qed.

Lemma takeZ_add {A} (l : list A) t n :
  0 <= t -> 0 <= n -> takeZ (t + n) l = takeZ t l ++ takeZ n (dropZ t l).
Proof. intros. unfold takeZ, dropZ. by rewrite Z2Nat.inj_add, take_take_drop by lia. Qed.

Lemma hist_recv_ok cap o code out f f' h :
  fifo_recv o code out f f' -> hist_ok cap f h -> hist_ok cap f' (hist_recv o code out h).
Proof.
  intros S [H1 H2 H3 H4]. destruct S; cbn in *; constructor; cbn; auto; try done.
  - intros ? ? [= <- <-]. pose proof (Zlen_nonneg q). split_and!; [done|lia..].
  - intros ? ? [= <- <-]. destruct (H3 _ _ eq_refl) as (-> & ? & ? & ?).
    split_and!; [by rewrite takeZ_add by lia|lia..].
  - destruct (H3 _ _ eq_refl) as (-> & ? & ? & ?).
    by rewrite <- app_assoc, take_dropZ.
  - intros st room E. destruct (H2 _ _ E) as (? & ? & ?).
    destruct (H3 _ _ eq_refl) as (_ & ? & ? & ?).
    rewrite Zlen_dropZ by lia. split_and!; [done|lia|lia].
  - destruct (H3 _ _ eq_refl) as (_ & ? & ? & ?). rewrite Zlen_dropZ by lia. lia.
Qed.

Lemma exec_geometry o a b code out a' b' :
  exec o a b = Some (code, out, a', b') ->
  remote_ring_ (qp a') = remote_ring_ (qp a) /\ remote_ring_ (qp b') = remote_ring_ (qp b).
Proof.
  intros E. unfold exec, mbind, option_bind, SendBatch_Commit, ReceiveBatch_Commit in E.
  by repeat case_match; simplify_eq/=.
Qed.

Definition cap_of (n : Node) : Z := size (remote_ring_ (qp n)).

(** Both directions at once. *)
Definition sys_ok (a b : Node) (ha hb : Hist) : Prop :=
  (exists f, implements a b f /\ hist_ok (cap_of a) f ha)
  /\ (exists g, implements b a g /\ hist_ok (cap_of b) g hb).

Lemma exec_sys_ok o a b code out a' b' ha hb :
  op_ok o -> exec o a b = Some (code, out, a', b') -> sys_ok a b ha hb ->
  sys_ok a' b' (hist_send o code ha) (hist_recv o code out hb).
Proof.
  intros Ho E [(f & Hf & Ha) (g & Hg & Hb)].
  destruct (exec_geometry _ _ _ _ _ _ _ E) as [Ea Eb].
  unfold sys_ok, cap_of in *. rewrite Ea, Eb.
  destruct (exec_simulated a b f g Hf Hg o code out a' b' Ho E)
    as [(f' & S & -> & Hf' & Hg')|(g' & S & Hf' & Hg')].
  - split.
    + exists f'. eauto using hist_send_ok.
    + exists g. split; [done|]. by destruct S; cbn.
  - split.
    + exists f. split; [done|]. by destruct S; cbn.
    + exists g'. eauto using hist_recv_ok.
Qed.

Lemma run_sys_ok sched : forall a b evs a' b' ha hb,
  Forall (fun '(_, o) => op_ok o) sched ->
  run sched a b = Some (evs, a', b') -> sys_ok a b ha hb ->
  sys_ok a' b' (fold_left (hist_step true) evs ha) (fold_left (hist_step false) evs hb)
  /\ cap_of a' = cap_of a /\ cap_of b' = cap_of b.
Proof.
  induction sched as [|[[] o] rest IH]; intros a b evs a' b' ha hb Ho E H; cbn in E.
  - by simplify_eq.
  - inversion_clear Ho.
    destruct (exec o a b) as [[[[code out] a1] b1]|] eqn:Ex; [cbn in E|done].
    destruct (run rest a1 b1) as [[[evs1 a2] b2]|] eqn:Er; [cbn in E|done].
    simplify_eq. cbn. destruct (exec_geometry _ _ _ _ _ _ _ Ex) as [Ea Eb].
    unfold cap_of. rewrite <- Ea, <- Eb. eapply IH; eauto.
    by eapply exec_sys_ok.
  - inversion_clear Ho.
    destruct (exec o b a) as [[[[code out] b1] a1]|] eqn:Ex; [cbn in E|done].
    destruct (run rest a1 b1) as [[[evs1 a2] b2]|] eqn:Er; [cbn in E|done].
    simplify_eq. cbn. destruct (exec_geometry _ _ _ _ _ _ _ Ex) as [Ea Eb].
    unfold cap_of. rewrite <- Ea, <- Eb. eapply IH; eauto.
    apply and_comm. eapply exec_sys_ok; [done..|by apply and_comm].
Qed.

(** ** Creating the queue *)

Lemma single_bit_pow2 x : has_single_bit x = true -> x = 2 ^ Z.log2 x.
Proof.
  unfold has_single_bit. intros H. zbool.
  destruct (Z.log2_spec x) as [Hlo Hhi]; [lia|].
  destruct (Z.eq_dec x (2 ^ Z.log2 x)) as [|Hne]; [done|exfalso].
  set (k := Z.log2 x) in *. assert (0 <= k) by apply Z.log2_nonneg.
  assert (Hk : Z.log2 (x - 1) = k) by (apply Z.log2_unique; lia).
  assert (Hp : 0 < 2 ^ k) by (apply Z.pow_pos_nonneg; lia).
  assert (T : Z.testbit (Z.land x (x - 1)) k = true).
  { rewrite Z.land_spec. apply andb_true_intro; split.
    - apply (Z.bit_log2 x); lia.
    - rewrite <- Hk. apply Z.bit_log2. lia. }
  rewrite H0, Z.testbit_0_l in T. done.
Qed.

Lemma check_region_pow2 d r :
  check_region d r = OkStatus -> size r < 2 ^ 64 -> pow2_size (size r).
Proof.
  unfold check_region, kPageSize. intros H Hr. repeat case_match; try done. zbool.
  match goal with Hs : has_single_bit _ = true |- _ =>
    pose proof (single_bit_pow2 _ Hs) as E; unfold has_single_bit in Hs end. zbool.
  exists (Z.log2 (size r)). split; [|done]. split.
  - change 12 with (Z.log2 4096). apply Z.log2_le_mono.
    pose proof (Z.div_mod (size r) 4096). lia.
  - change 63 with (Z.log2 (2 ^ 64 - 1)). apply Z.log2_le_mono. lia.
Qed.

Lemma MakeSpscQueuePair_inv ld lr rd rr q :
  MakeSpscQueuePair ld lr rd rr = Ok q -> size lr < 2 ^ 64 -> size rr < 2 ^ 64 ->
  pow2_size (size lr) /\ pow2_size (size rr) /\
  q = mkSpscQueuePair lr rr 0 0 (size lr - 1) (size rr - 1).
Proof.
  unfold MakeSpscQueuePair. intros H Hl Hr.
  apply bind_Ok in H as ([] & H1 & H). apply bind_Ok in H as ([] & H2 & H).
  injection H as <-.
  pose proof (check_region_pow2 _ _ H1 Hl) as P1. pose proof (check_region_pow2 _ _ H2 Hr) as P2.
  split_and!; [done..|].
  pose proof (pow2_bounds _ P1). pose proof (pow2_bounds _ P2).
  unfold new_SpscQueuePair. by rewrite !u64_small by lia.
Qed.

(** Two nodes that created their queues over each other's zero-filled
    doorbells: [a]'s remote ring is [b]'s local ring and the other way round,
    each at addresses of its own. *)
Definition connected (a b : Node) : Prop :=
  exists da la ea ra db lb eb rb,
    MakeSpscQueuePair da la eb rb = Ok (qp a) /\ MakeSpscQueuePair db lb ea ra = Ok (qp b)
    /\ size ra = size la /\ size rb = size lb /\ size la < 2 ^ 64 /\ size lb < 2 ^ 64
    /\ doorbells (region a) = mkDoorbells 0 0 /\ doorbells (region b) = mkDoorbells 0 0
    /\ Zlen (ring (region a)) = size la /\ Zlen (ring (region b)) = size lb
    /\ sbatch a = None /\ sbatch b = None /\ rbatch a = None /\ rbatch b = None.

Lemma connected_sym a b : connected a b -> connected b a.
Proof.
  intros (da & la & ea & ra & db & lb & eb & rb & H). exists db, lb, eb, rb, da, la, ea, ra. naive_solver.
Qed.

Lemma connected_implements a b : connected a b -> implements a b (mkFifo [] None None).
Proof.
  intros (da & la & ea & ra & db & lb & eb & rb & Ha & Hb & ? & E & ? & ? & Da & Db & Ra & Rb & Sa & _ & _ & Sb).
  apply MakeSpscQueuePair_inv in Ha as (? & ? & Qa); [|lia..].
  apply MakeSpscQueuePair_inv in Hb as (? & ? & Qb); [|lia..].
  exists 0, 0. split; [|unfold abs; by rewrite Sa, Sb].
  constructor; rewrite ?Qa, ?Qb, ?Da, ?Db, ?Sa, ?Sb; cbn; rewrite <- ?E; auto; try lia; try done.
  destruct (pow2_bounds (size rb)); [done|lia].
Qed.

Lemma connected_sys_ok a b :
  connected a b -> sys_ok a b (mkHist [] [] [] []) (mkHist [] [] [] []).
Proof.
  intros H. split.
  - exists (mkFifo [] None None). split; [by apply connected_implements|].
    constructor; cbn; try done; [constructor|].
    destruct (connected_implements a b H) as (? & ? & [] & _). unfold cap_of.
    pose proof (pow2_bounds _ rep_size0). rewrite Zlen_nil. lia.
  - apply connected_sym in H. exists (mkFifo [] None None). split; [by apply connected_implements|].
    constructor; cbn; try done; [constructor|].
    destruct (connected_implements b a H) as (? & ? & [] & _). unfold cap_of.
    pose proof (pow2_bounds _ rep_size0). rewrite Zlen_nil. lia.
Qed.

(** The abstract counterpart of [run]: each event is a step of the FIFO
    from [a] to [b] (capacity [ca]) or of the one from [b] to [a]. *)
Inductive fifo_run (ca cb : Z) : list Event -> Fifo * Fifo -> Fifo * Fifo -> Prop :=
  | FRnil f g : fifo_run ca cb [] (f, g) (f, g)
  | FRa_send o code f f' g evs s :
      fifo_send ca o code f f' -> fifo_run ca cb evs (f', g) s ->
      fifo_run ca cb (mkEvent true o code [] :: evs) (f, g) s
  | FRa_recv o code out f g g' evs s :
      fifo_recv o code out g g' -> fifo_run ca cb evs (f, g') s ->
      fifo_run ca cb (mkEvent true o code out :: evs) (f, g) s
  | FRb_send o code f g g' evs s :
      fifo_send cb o code g g' -> fifo_run ca cb evs (f, g') s ->
      fifo_run ca cb (mkEvent false o code [] :: evs) (f, g) s
  | FRb_recv o code out f f' g evs s :
      fifo_recv o code out f f' -> fifo_run ca cb evs (f', g) s ->
      fifo_run ca cb (mkEvent false o code out :: evs) (f, g) s.

Lemma run_simulated sched : forall a b evs a' b' f g,
  Forall (fun '(_, o) => op_ok o) sched -> run sched a b = Some (evs, a', b') ->
  implements a b f -> implements b a g ->
  exists f' g', fifo_run (cap_of a) (cap_of b) evs (f, g) (f', g')
    /\ implements a' b' f' /\ implements b' a' g'.
Proof.
  induction sched as [|[[] o] rest IH]; intros a b evs a' b' f g Ho E Hf Hg; cbn in E.
  - simplify_eq. exists f, g. split; [constructor|done].
  - inversion_clear Ho.
    destruct (exec o a b) as [[[[code out] a1] b1]|] eqn:Ex; [cbn in E|done].
    destruct (run rest a1 b1) as [[[evs1 a2] b2]|] eqn:Er; [cbn in E|done].
    simplify_eq. destruct (exec_geometry _ _ _ _ _ _ _ Ex) as [Ea Eb].
    unfold cap_of. rewrite <- Ea, <- Eb. destruct (exec_simulated a b f g Hf Hg o code out a1 b1)
      as [(f1 & S & -> & Hf1 & Hg1)|(g1 & S & Hf1 & Hg1)]; [done..| |];
      destruct (IH _ _ _ _ _ _ _ H0 Er Hf1 Hg1) as (f' & g' & R & ?);
      exists f', g'; (split; [|done]); try rewrite <- Ea in S; by econstructor.
  - inversion_clear Ho.
    destruct (exec o b a) as [[[[code out] b1] a1]|] eqn:Ex; [cbn in E|done].
    destruct (run rest a1 b1) as [[[evs1 a2] b2]|] eqn:Er; [cbn in E|done].
    simplify_eq. destruct (exec_geometry _ _ _ _ _ _ _ Ex) as [Eb Ea].
    unfold cap_of. rewrite <- Ea, <- Eb. destruct (exec_simulated b a g f Hg Hf o code out b1 a1)
      as [(g1 & S & -> & Hg1 & Hf1)|(f1 & S & Hg1 & Hf1)]; [done..| |];
      destruct (IH _ _ _ _ _ _ _ H0 Er Hf1 Hg1) as (f' & g' & R & ?);
      exists f', g'; (split; [|done]); try rewrite <- Eb in S; by econstructor.
Qed.

(** A copy inside the ring changes exactly the destination range. *)
Lemma MemcpyToMmio8_splice base bs : forall r off,
  0 <= off -> off + Zlen bs <= Zlen r ->
  MemcpyToMmio8 base r (base + off) bs = takeZ off r ++ bs ++ dropZ (off + Zlen bs) r.
Proof.
  induction bs as [|b bs IH]; intros r off Ho Hl.
  - cbn. rewrite Zlen_nil, Z.add_0_r. by rewrite take_dropZ.
  - rewrite Zlen_cons in Hl. pose proof (Zlen_nonneg bs).
    cbn [MemcpyToMmio8]. rewrite <- Z.add_assoc, IH; unfold MmioWriteRelaxed8;
      rewrite ?Zlen_insert; try lia.
    replace (base + off - base) with off by lia.
    rewrite Zlen_cons. unfold takeZ, dropZ, Zlen in *.
    replace (Z.to_nat (off + 1)) with (S (Z.to_nat off)) by lia.
    rewrite (take_S_r _ _ b) by (apply list_lookup_insert_eq; lia).
    rewrite take_insert_ge, drop_insert_lt by lia. rewrite <- app_assoc. cbn.
    do 4 f_equal. lia.
Qed.

Definition in_ring (r s : Span) : Prop :=
  0 <= size s <= size r /\
  (0 < size s -> data r <= data s /\ data s + size s <= data r + size r).

Lemma covers_in_ring base sz pos rem seg backup :
  0 < sz -> rem <= sz -> covers base sz pos rem seg backup ->
  in_ring (mkSpan base sz) seg /\ in_ring (mkSpan base sz) backup.
Proof.
  intros Hsz Hrem [? ? ? Hs Hb]. pose proof (Z.mod_pos_bound pos sz Hsz).
  unfold in_ring; cbn; split; (split; [lia|intros Hpos]).
  - destruct (Hs Hpos) as [-> ?]. split; [|rewrite <- Z.add_assoc]; lia.
  - destruct (Hb Hpos) as (-> & _ & ?). lia.
Qed.

Lemma u64_rebase P C : exists C', C' <= P /\ u64 C' = u64 C /\ P - C' = u64 (P - C).
Proof.
  exists (P - u64 (P - C)). pose proof (u64_range (P - C)).
  split_and!; [lia| |lia]. unfold u64. rewrite Zminus_mod_idemp_r.
  by replace (P - (P - C)) with C by lia.
Qed.

Lemma BeginSend_in_ring q local :
  pow2_size (size (remote_ring_ q)) ->
  remote_ring_size_mask_ q = size (remote_ring_ q) - 1 ->
  is_u64 (remote_bytes_produced_ q) -> is_u64 (remote_bytes_consumed (doorbells local)) ->
  let b := BeginSend q local in
  in_ring (remote_ring_ q) (sb_segment_ b) /\ in_ring (remote_ring_ q) (sb_backup_segment_ b)
  /\ room_of b <= size (remote_ring_ q).
Proof.
  unfold is_u64. intros Hr Mr Up Dc. pose proof (pow2_bounds _ Hr).
  destruct (u64_rebase (remote_bytes_produced_ q) (remote_bytes_consumed (doorbells local)))
    as (C & HC & EC & Eu).
  rewrite (u64_small (remote_bytes_consumed _)) in EC by lia.
  destruct (Z.le_gt_cases (remote_bytes_produced_ q - C) (size (remote_ring_ q))) as [Hle|Hgt].
  - destruct (BeginSend_spec q local (remote_bytes_produced_ q) C) as (Hroom & _ & Hc);
      rewrite ?u64_small by lia; try (done || lia).
    cbn zeta. destruct (remote_ring_ q) as [base sz]; cbn [size data] in *.
    edestruct covers_in_ring; [| |exact Hc|]; try lia. split; [done|split; [done|lia]].
  - rewrite Eu in Hgt. unfold BeginSend. cbn zeta.
    set (used := u64 (remote_bytes_produced_ q - _)) in *. assert (0 <= used < 2 ^ 64) by apply u64_range.
    clearbody used. assert (Ef : u64 (size (remote_ring_ q) - used) = 2 ^ 64 + size (remote_ring_ q) - used).
    { unfold u64. symmetry. apply (Zmod_unique _ _ (-1)); lia. }
    rewrite Ef. destruct (Z.ltb_spec (size (remote_ring_ q))
                            (2 ^ 64 + size (remote_ring_ q) - used)); [|lia].
    unfold in_ring, room_of; cbn. split_and!; lia.
Qed.

Lemma BeginReceive_in_ring q local batch b' :
  pow2_size (size (local_ring_ q)) ->
  local_ring_size_mask_ q = size (local_ring_ q) - 1 ->
  is_u64 (local_bytes_consumed_ q) -> is_u64 (bytes_produced (doorbells local)) ->
  BeginReceive q local batch = (kOk, b') ->
  in_ring (local_ring_ q) (rb_segment_ b') /\ in_ring (local_ring_ q) (rb_backup_segment_ b')
  /\ left_of b' <= size (local_ring_ q).
Proof.
  unfold is_u64. intros Hl Ml Uc Dp E. pose proof (pow2_bounds _ Hl).
  destruct (u64_rebase (bytes_produced (doorbells local)) (local_bytes_consumed_ q))
    as (C & HC & EC & Eu). rewrite (u64_small (local_bytes_consumed_ q)) in EC by lia.
  assert (Hav : u64 (bytes_produced (doorbells local) - local_bytes_consumed_ q) <> 0
    /\ u64 (bytes_produced (doorbells local) - local_bytes_consumed_ q) <= size (local_ring_ q))
    by (unfold BeginReceive in E; branch).
  destruct (BeginReceive_ok q local batch (bytes_produced (doorbells local)) C)
    as (b0 & E0 & _ & Hleft & _ & Hc); [done|done|by rewrite u64_small|done|lia|lia|].
  rewrite E in E0. simplify_eq. destruct (local_ring_ q) as [base sz]; cbn [size data] in *.
  edestruct covers_in_ring; [| |exact Hc|]; try lia. split; [done|split; [done|lia]].
Qed.

(** ** Properties *)

(** Two nodes create their queues over each
    other's zero-filled doorbells and then perform any interleaving of
    [BeginSend], [Append], [Skip], [Commit], [BeginReceive], [Recv] and
    [Commit] calls, with any number of laps of the rings and wrap-arounds of
    the 64-bit counters.  In each direction the bytes consumed so far,
    followed by the bytes in flight, are exactly the bytes committed so far
    in order (skipped bytes are arbitrary), and at most a ring of bytes is in
    flight: nothing is lost, duplicated, reordered or overwritten. *)
Theorem spsc_byte_stream a b sched evs a' b' :
  connected a b -> Forall (fun '(_, o) => op_ok o) sched ->
  run sched a b = Some (evs, a', b') ->
  (exists flight, agree (h_sent (history true evs)) (h_got (history true evs) ++ flight)
                  /\ Zlen flight <= cap_of a)
  /\ (exists flight, agree (h_sent (history false evs)) (h_got (history false evs) ++ flight)
                     /\ Zlen flight <= cap_of b).
Proof.
  intros Hc Ho E.
  destruct (run_sys_ok sched a b evs a' b' _ _ Ho E (connected_sys_ok a b Hc))
    as ([(f & _ & [Hf _ _ Cf]) (g & _ & [Hg _ _ Cg])] & Ea & Eb).
  rewrite Ea in Cf. rewrite Eb in Cg.
  split; [by exists (queued f)|by exists (queued g)].
Qed.

(** C2 (refinement).  Every execution of the two connected nodes is an
    execution of two abstract byte FIFOs of the rings' capacities: each call
    returns the status code and the bytes the FIFO specification gives
    ([Append] fails exactly when the batch has no room, [BeginReceive] exactly
    when nothing is queued, [Recv] returns the next queued bytes), and the
    concrete state implements the abstract one at the end. *)
Theorem spsc_refines_fifo a b sched evs a' b' :
  connected a b -> Forall (fun '(_, o) => op_ok o) sched ->
  run sched a b = Some (evs, a', b') ->
  exists f g,
    fifo_run (cap_of a) (cap_of b) evs (mkFifo [] None None, mkFifo [] None None) (f, g)
    /\ implements a' b' f /\ implements b' a' g.
Proof.
  intros Hc Ho E. eapply run_simulated; eauto using connected_implements, connected_sym.
Qed.

(** Whatever 64-bit values the peer wrote
    into the local doorbells, the segments of a send batch lie inside the
    remote ring and those of a receive batch inside the local ring, and no
    batch is larger than its ring. *)
Theorem batches_stay_in_ring q local batch code b' :
  pow2_size (size (local_ring_ q)) -> pow2_size (size (remote_ring_ q)) ->
  local_ring_size_mask_ q = size (local_ring_ q) - 1 ->
  remote_ring_size_mask_ q = size (remote_ring_ q) - 1 ->
  is_u64 (local_bytes_consumed_ q) -> is_u64 (remote_bytes_produced_ q) ->
  is_u64 (bytes_produced (doorbells local)) -> is_u64 (remote_bytes_consumed (doorbells local)) ->
  BeginReceive q local batch = (code, b') ->
  (in_ring (remote_ring_ q) (sb_segment_ (BeginSend q local))
   /\ in_ring (remote_ring_ q) (sb_backup_segment_ (BeginSend q local))
   /\ room_of (BeginSend q local) <= size (remote_ring_ q))
  /\ (code = kOk -> in_ring (local_ring_ q) (rb_segment_ b')
        /\ in_ring (local_ring_ q) (rb_backup_segment_ b') /\ left_of b' <= size (local_ring_ q)).
Proof.
  intros Hl Hr Ml Mr Uc Up Dp Dc E. split.
  - by apply BeginSend_in_ring.
  - intros ->. by eapply BeginReceive_in_ring.
Qed.

(** A queue recreated over the same regions and
    restored from the saved state is the queue that was saved, and restoring
    any other pair of counters is refused. *)
Theorem restore_saved_state a b f g state :
  implements a b f -> implements b a g ->
  let fresh := new_SpscQueuePair (local_ring_ (qp a)) (remote_ring_ (qp a)) in
  RestoreState fresh (region b) (SaveState (qp a)) = Ok (qp a)
  /\ (state <> SaveState (qp a) -> RestoreState fresh (region b) state = Err kInvalidArgument).
Proof.
  intros (P & C & R & _) (P' & C' & R' & _).
  assert (El : u64 (size (local_ring_ (qp a)) - 1) = size (local_ring_ (qp a)) - 1
               /\ u64 (size (remote_ring_ (qp a)) - 1) = size (remote_ring_ (qp a)) - 1).
  { destruct R, R'. pose proof (pow2_bounds _ rep_size0). pose proof (pow2_bounds _ rep_size1).
    by rewrite !u64_small by lia. }
  destruct R, R', El as [El Er]. destruct (qp a) as [lr rr c p ml mr]; cbn in *.
  rewrite <- rep_bell_produced0 in rep_produced0. rewrite <- rep_bell_consumed1 in rep_consumed1.
  unfold RestoreState, SaveState, new_SpscQueuePair; cbn. rewrite El, Er. split.
  - rewrite rep_produced0, rep_consumed1, !Z.eqb_refl. cbn. do 2 f_equal; congruence.
  - intros Hne. rewrite <- rep_produced0, <- rep_consumed1.
    destruct state as [c' p']; cbn in *.
    destruct (Z.eqb_spec c' c), (Z.eqb_spec p' p); cbn; congruence.
Qed.

(** [MemcpyToMmio], which moves whole words when source and
    destination are 4-byte aligned and single bytes otherwise, replaces
    exactly the [length] destination bytes by the source bytes. *)
Theorem memcpy_to_mmio_exact base r off src bs :
  0 <= off -> off + Zlen bs <= Zlen r -> Forall byte_ok bs ->
  MemcpyToMmio base r (base + off) src bs = takeZ off r ++ bs ++ dropZ (off + Zlen bs) r.
Proof.
  intros. rewrite MemcpyToMmio_bytewise by done. by apply MemcpyToMmio8_splice.
Qed.

(** *** Witnesses: two nodes with 4 KiB rings *)

Definition ex_node (local remote : Z) : Node :=
  mkNode (mkSpscQueuePair (mkSpan local 4096) (mkSpan remote 4096) 0 0 4095 4095)
    (mkRegion (mkDoorbells 0 0) (replicate 4096 0)) None None.

Definition ex_a : Node := ex_node 8192 65536.
Definition ex_b : Node := ex_node 12288 131072.

Lemma ex_connected : connected ex_a ex_b.
Proof.
  exists (mkSpan 4096 4096), (mkSpan 8192 4096), (mkSpan 126976 4096), (mkSpan 131072 4096).
  exists (mkSpan 8192 4096), (mkSpan 12288 4096), (mkSpan 61440 4096), (mkSpan 65536 4096).
  split_and!; done.
Qed.

Definition ex_sched : list (bool * Op) :=
  [ (true, OpBeginSend); (true, OpAppend 4 [1; 2; 3; 4; 5]); (true, OpSkip 3);
    (true, OpSendCommit); (false, OpBeginReceive); (false, OpRecv 8); (true, OpBeginSend);
    (false, OpReceiveCommit); (true, OpAppend 5 [9]) ].

Lemma ex_sched_ok : Forall (fun '(_, o) => op_ok o) ex_sched.
Proof. repeat constructor; unfold byte_ok, is_u64; lia. Qed.

Lemma spsc_byte_stream_witness :
  exists evs a' b', run ex_sched ex_a ex_b = Some (evs, a', b')
    /\ h_got (history true evs) = [1; 2; 3; 4; 5; 0; 0; 0]
    /\ exists flight, agree (h_sent (history true evs)) (h_got (history true evs) ++ flight)
                      /\ Zlen flight <= cap_of ex_a.
Proof.
  destruct (run ex_sched ex_a ex_b) as [[[evs a'] b']|] eqn:E; [|vm_compute in E; discriminate].
  exists evs, a', b'. split; [reflexivity|]. split.
  - vm_compute in E. injection E as <- _ _. reflexivity.
  - exact (proj1 (spsc_byte_stream ex_a ex_b ex_sched evs a' b' ex_connected ex_sched_ok E)).
Defined.

Lemma spsc_refines_fifo_witness :
  exists evs a' b' f g, run ex_sched ex_a ex_b = Some (evs, a', b')
    /\ fifo_run (cap_of ex_a) (cap_of ex_b) evs (mkFifo [] None None, mkFifo [] None None) (f, g).
Proof.
  destruct (run ex_sched ex_a ex_b) as [[[evs a'] b']|] eqn:E; [|vm_compute in E; discriminate].
  destruct (spsc_refines_fifo ex_a ex_b ex_sched evs a' b' ex_connected ex_sched_ok E)
    as (f & g & H & _).
  exists evs, a', b', f, g. split; [reflexivity|exact H].
Defined.

(** A peer that claims to have consumed more than was ever produced. *)
Lemma batches_stay_in_ring_witness :
  room_of (BeginSend (qp ex_a) (mkRegion (mkDoorbells 5000 77) [])) <= 4096
  /\ fst (BeginReceive (qp ex_a) (mkRegion (mkDoorbells 5000 77) []) empty_receive_batch) = kOutOfRange.
Proof.
  split; [|reflexivity].
  refine (proj2 (proj2 (proj1 (batches_stay_in_ring (qp ex_a) (mkRegion (mkDoorbells 5000 77) [])
            empty_receive_batch kOutOfRange empty_receive_batch _ _ eq_refl eq_refl _ _ _ _ _))));
    try (unfold is_u64; cbn; lia); try reflexivity; exists 12; split; lia || reflexivity.
Defined.

Lemma restore_saved_state_witness :
  RestoreState (new_SpscQueuePair (mkSpan 8192 4096) (mkSpan 65536 4096)) (region ex_b)
    (SaveState (qp ex_a)) = Ok (qp ex_a).
Proof.
  exact (proj1 (restore_saved_state ex_a ex_b _ _ (SaveState (qp ex_a))
                  (connected_implements _ _ ex_connected)
                  (connected_implements _ _ (connected_sym _ _ ex_connected)))).
Defined.

Lemma memcpy_to_mmio_exact_witness :
  MemcpyToMmio 4096 [0; 0; 0; 0; 0; 0; 0; 0] 4096 8 [1; 2; 3; 4; 5; 6]
  = [1; 2; 3; 4; 5; 6; 0; 0].
Proof.
  refine (memcpy_to_mmio_exact 4096 [0; 0; 0; 0; 0; 0; 0; 0] 0 8 [1; 2; 3; 4; 5; 6] _ _ _);
    [lia|by vm_compute|repeat constructor; unfold byte_ok; lia].
Defined.
