(* ===== verification/Mmio.v ===== *)
(** * MMIO accessors, barriers and the order of memory accesses
    (dxs/client/oss/mmio.h, dxs/client/oss/barrier.h)

    An accessor is the list of instructions it consists of on an
    architecture: loads, stores, hardware fences and compiler barriers.  The
    second half of the file says which accesses the hardware may reorder: a
    CPU holds the accesses it has issued and not performed yet in program
    order, and may perform any of them that no earlier one has to precede. *)

From S2P Require Import Prelude Ring SpscQueuePair.

(** ** Instructions *)

(** The architectures for which barrier.h has barriers.  mmio.h has
    accessors of its own for three of them; the fourth gets the generic
    ones. *)
Inductive Arch : Type := X86_64 | PowerPC | Aarch64 | Riscv.

Inductive Width : Type := W8 | W16 | W32 | W64.

Definition width_bytes (w : Width) : nat :=
  match w with W8 => 1 | W16 => 2 | W32 => 4 | W64 => 8 end.

(** The value of a parameter of type [uint<w>_t]. *)
Definition uint (w : Width) (v : Z) : Z := v mod 2 ^ (8 * Z.of_nat (width_bytes w)).

(** What an address of a shared region stands for. *)
Inductive Loc : Type := LBytesProduced | LRemoteBytesConsumed | LRing (off : Z).

(** The predecessor and successor sets of the RISC-V [fence] instruction. *)
Inductive RvAccess : Type := RvI | RvO | RvR | RvW.

Inductive FenceInsn : Type :=
  | lfence | sfence | mfence
  | lwsync | sync
  | dmb_ld | dmb_st | dmb_sy | dmb_oshld | dmb_oshst | dmb_osh
  | fence (pred succ : list RvAccess).

Inductive Instr : Type :=
  | Ld (w : Width) (l : Loc)
  | St (w : Width) (l : Loc) (v : Z)
  | Fence (f : FenceInsn)
  | CompilerBarrier.

#[global] Instance RvAccess_eq_dec : EqDecision RvAccess.
Proof. solve_decision. Defined.

(** ** barrier.h: the instruction of each barrier on each architecture *)

Inductive BarrierFn : Type :=
  | BDmaRead | BDmaWrite | BDmaFull | BMmioRead | BMmioWrite | BMmioFull.

Definition barrier_x86 (b : BarrierFn) : FenceInsn :=
  match b with
  | BDmaRead => lfence
  | BDmaWrite => sfence
  | BDmaFull => mfence
  | BMmioRead => lfence
  | BMmioWrite => sfence
  | BMmioFull => mfence
  end.

Definition barrier_powerpc (b : BarrierFn) : FenceInsn :=
  match b with
  | BDmaRead | BDmaWrite | BDmaFull => lwsync
  | BMmioRead | BMmioWrite | BMmioFull => sync
  end.

Definition barrier_aarch64 (b : BarrierFn) : FenceInsn :=
  match b with
  | BDmaRead => dmb_oshld
  | BDmaWrite => dmb_oshst
  | BDmaFull => dmb_osh
  | BMmioRead => dmb_ld
  | BMmioWrite => dmb_st
  | BMmioFull => dmb_sy
  end.

Definition barrier_riscv (b : BarrierFn) : FenceInsn :=
  match b with
  | BDmaRead => fence [RvR] [RvR; RvW]
  | BDmaWrite => fence [RvW] [RvW]
  | BDmaFull => fence [RvR; RvW] [RvR; RvW]
  | BMmioRead => fence [RvI; RvR] [RvI; RvO; RvR; RvW]
  | BMmioWrite => fence [RvO; RvW] [RvO; RvW]
  | BMmioFull => fence [RvI; RvO; RvR; RvW] [RvI; RvO; RvR; RvW]
  end.

Definition barrier (arch : Arch) (b : BarrierFn) : list Instr :=
  [Fence (match arch with
          | X86_64 => barrier_x86 b
          | PowerPC => barrier_powerpc b
          | Aarch64 => barrier_aarch64 b
          | Riscv => barrier_riscv b
          end)].

Definition MmioReadBarrier (arch : Arch) : list Instr := barrier arch BMmioRead.
Definition MmioWriteBarrier (arch : Arch) : list Instr := barrier arch BMmioWrite.

(** ** mmio.h

    One definition per architecture and family; the width selects the
    function of the family. *)

Definition MmioWriteRelaxed_x86 (w : Width) (l : Loc) (v : Z) : list Instr :=
  [St w l (uint w v)].

Definition MmioWriteRelease_x86 (w : Width) (l : Loc) (v : Z) : list Instr :=
  MmioWriteRelaxed_x86 w l v.

Definition MmioReadRelaxed_x86 (w : Width) (l : Loc) : list Instr := [Ld w l].

Definition MmioReadAcquire_x86 (w : Width) (l : Loc) : list Instr := MmioReadRelaxed_x86 w l.

Definition MmioWriteRelaxed_aarch64 (w : Width) (l : Loc) (v : Z) : list Instr :=
  [St w l (uint w v)].

Definition MmioWriteRelease_aarch64 (w : Width) (l : Loc) (v : Z) : list Instr :=
  MmioWriteBarrier Aarch64 ++ MmioWriteRelaxed_aarch64 w l v.

Definition MmioReadRelaxed_aarch64 (w : Width) (l : Loc) : list Instr := [Ld w l].

Definition MmioReadAcquire_aarch64 (w : Width) (l : Loc) : list Instr :=
  MmioReadRelaxed_aarch64 w l ++ MmioReadBarrier Aarch64.

Definition MmioWriteRelaxed_riscv (w : Width) (l : Loc) (v : Z) : list Instr :=
  [St w l (uint w v)].

Definition MmioWriteRelease_riscv (w : Width) (l : Loc) (v : Z) : list Instr :=
  MmioWriteBarrier Riscv ++ MmioWriteRelaxed_riscv w l v.

Definition MmioReadRelaxed_riscv (w : Width) (l : Loc) : list Instr := [Ld w l].

Definition MmioReadAcquire_riscv (w : Width) (l : Loc) : list Instr :=
  MmioReadRelaxed_riscv w l ++ MmioReadBarrier Riscv.

(** [internal::MmioWrite] and [internal::MmioRead], without the thread
    sanitizer: a plain access between two compiler barriers. *)
Definition MmioWrite (w : Width) (l : Loc) (v : Z) : list Instr :=
  [CompilerBarrier; St w l (uint w v); CompilerBarrier].

Definition MmioRead (w : Width) (l : Loc) : list Instr :=
  [CompilerBarrier; Ld w l; CompilerBarrier].

Definition MmioWriteRelaxed_generic (w : Width) (l : Loc) (v : Z) : list Instr := MmioWrite w l v.
Definition MmioWriteRelease_generic (w : Width) (l : Loc) (v : Z) : list Instr := MmioWrite w l v.
Definition MmioReadRelaxed_generic (w : Width) (l : Loc) : list Instr := MmioRead w l.
Definition MmioReadAcquire_generic (w : Width) (l : Loc) : list Instr := MmioRead w l.

(** The functions of an architecture, and the overloads that select one by
    the width of their argument. *)
Definition MmioWriteRelaxed (arch : Arch) : Width -> Loc -> Z -> list Instr :=
  match arch with
  | X86_64 => MmioWriteRelaxed_x86
  | Aarch64 => MmioWriteRelaxed_aarch64
  | Riscv => MmioWriteRelaxed_riscv
  | PowerPC => MmioWriteRelaxed_generic
  end.

Definition MmioWriteRelease (arch : Arch) : Width -> Loc -> Z -> list Instr :=
  match arch with
  | X86_64 => MmioWriteRelease_x86
  | Aarch64 => MmioWriteRelease_aarch64
  | Riscv => MmioWriteRelease_riscv
  | PowerPC => MmioWriteRelease_generic
  end.

Definition MmioReadRelaxed (arch : Arch) : Width -> Loc -> list Instr :=
  match arch with
  | X86_64 => MmioReadRelaxed_x86
  | Aarch64 => MmioReadRelaxed_aarch64
  | Riscv => MmioReadRelaxed_riscv
  | PowerPC => MmioReadRelaxed_generic
  end.

Definition MmioReadAcquire (arch : Arch) : Width -> Loc -> list Instr :=
  match arch with
  | X86_64 => MmioReadAcquire_x86
  | Aarch64 => MmioReadAcquire_aarch64
  | Riscv => MmioReadAcquire_riscv
  | PowerPC => MmioReadAcquire_generic
  end.

(** ** Effects on a region *)

(** A store of [v] at width [w] over a 64-bit doorbell that holds [old]. *)
Definition store_bell (w : Width) (old v : Z) : Z :=
  let m := 2 ^ (8 * Z.of_nat (width_bytes w)) in old / m * m + v mod m.

Definition store_ring (w : Width) (off v : Z) (r : list Z) : list Z :=
  MemcpyToMmio8 0 r off (le_encode (width_bytes w) v).

Definition store (w : Width) (l : Loc) (v : Z) (r : Region) : Region :=
  let d := doorbells r in
  match l with
  | LBytesProduced =>
      mkRegion (mkDoorbells (store_bell w (bytes_produced d) v) (remote_bytes_consumed d)) (ring r)
  | LRemoteBytesConsumed =>
      mkRegion (mkDoorbells (bytes_produced d) (store_bell w (remote_bytes_consumed d) v)) (ring r)
  | LRing off => mkRegion d (store_ring w off v (ring r))
  end.

Definition load (w : Width) (l : Loc) (r : Region) : Z :=
  match l with
  | LBytesProduced => uint w (bytes_produced (doorbells r))
  | LRemoteBytesConsumed => uint w (remote_bytes_consumed (doorbells r))
  | LRing off => le_decode (takeZ (Z.of_nat (width_bytes w)) (dropZ off (ring r)))
  end.

(** The stores of an instruction list, performed one after the other. *)
Definition run_stores (ins : list Instr) (r : Region) : Region :=
  fold_left (fun r i => match i with St w l v => store w l v r | _ => r end) ins r.

(** ** What the hardware keeps in order *)

Inductive Kind : Type := KR | KW.

(** The pairs of accesses a fence keeps in order, from the manuals.  A
    region may be device memory, so that a RISC-V fence counts when it names
    the access both as I/O and as memory, and the outer-shareable barriers
    of Arm, which do not cover the whole system, do not count. *)
Definition rv_covers (s : list RvAccess) (k : Kind) : bool :=
  match k with
  | KR => bool_decide (RvI ∈ s) && bool_decide (RvR ∈ s)
  | KW => bool_decide (RvO ∈ s) && bool_decide (RvW ∈ s)
  end.

Definition fence_orders (f : FenceInsn) (k1 k2 : Kind) : bool :=
  match f with
  | lfence | dmb_ld => match k1 with KR => true | KW => false end
  | sfence | dmb_st => match k1, k2 with KW, KW => true | _, _ => false end
  | lwsync => match k1, k2 with KW, KR => false | _, _ => true end
  | mfence | sync | dmb_sy => true
  | dmb_oshld | dmb_oshst | dmb_osh => false
  | fence p s => rv_covers p k1 && rv_covers s k2
  end.

(** The pairs that are in order without a fence.  The regions are mapped
    write-combining (the [resource0_wc] file), so that not even x86 keeps
    two stores in order. *)
Definition implicit (arch : Arch) (k1 k2 : Kind) : bool :=
  match arch, k1 with X86_64, KR => true | _, _ => false end.

(** An access that is issued and not performed.  [PLoad off slot] is the
    copy of ring byte [off] into byte [slot] of the caller's buffers: a load
    and the store that depends on it, which is [PCopy slot v] once the load
    has returned [v]. *)
Inductive Access : Type :=
  | PStore (w : Width) (l : Loc) (v : Z)
  | PLoad (off slot : Z)
  | PCopy (slot v : Z)
  | PFence (f : FenceInsn).

Definition kinds (a : Access) : list Kind :=
  match a with
  | PStore _ _ _ | PCopy _ _ => [KW]
  | PLoad _ _ => [KR; KW]
  | PFence _ => []
  end.

(** As what an access is performed next. *)
Definition performs_as (a : Access) : Kind :=
  match a with PLoad _ _ => KR | _ => KW end.

(** Accesses to the same bytes stay in order. *)
Definition overlap (a b : Access) : bool :=
  match a, b with
  | PStore w (LRing o) _, PStore w' (LRing o') _ =>
      (o <? o' + Z.of_nat (width_bytes w')) && (o' <? o + Z.of_nat (width_bytes w))
  | PStore _ LBytesProduced _, PStore _ LBytesProduced _ => true
  | PStore _ LRemoteBytesConsumed _, PStore _ LRemoteBytesConsumed _ => true
  | PLoad o _, PLoad o' _ => o =? o'
  | PCopy s _, PCopy s' _ | PLoad _ s, PCopy s' _ => s =? s'
  | _, _ => false
  end.

Definition is_fence_for (k1 k2 : Kind) (a : Access) : bool :=
  match a with PFence f => fence_orders f k1 k2 | _ => false end.

(** [b] has to be performed before [a], where [mid] lies between them. *)
Definition ordered (arch : Arch) (b : Access) (mid : list Access) (a : Access) : bool :=
  overlap b a
  || existsb (fun k => implicit arch k (performs_as a)
                       || existsb (is_fence_for k (performs_as a)) mid) (kinds b).

(** [a] may be performed although the accesses [l] before it are not. *)
Fixpoint may_pass (arch : Arch) (l : list Access) (a : Access) : bool :=
  match l with
  | [] => true
  | b :: l' => negb (ordered arch b l' a) && may_pass arch l' a
  end.

(** ** A CPU

    [spec]: ring bytes loaded ahead of the program.  [buf]: the caller's
    buffers, one byte per slot; a [Recv] fills slots of its own. *)
Record Cpu := mkCpu {
  pend : list Access;
  spec : gmap Z Z;
  buf : gmap Z Z;
  next_slot : Z
}.

Definition new_Cpu : Cpu := mkCpu [] ∅ ∅ 0.

(** Issue an instruction.  A load that the program waits for returns the
    current value of the local region.  A load or a fence that is ordered
    before later loads discards what was loaded ahead. *)
Definition issue1 (arch : Arch) (local : Region) (i : Instr) (c : Cpu) : list Z * Cpu :=
  match i with
  | Ld w l =>
      ([load w l local],
       mkCpu (pend c) (if implicit arch KR KR then ∅ else spec c) (buf c) (next_slot c))
  | St w l v => ([], mkCpu (pend c ++ [PStore w l v]) (spec c) (buf c) (next_slot c))
  | Fence f =>
      ([], mkCpu (pend c ++ [PFence f]) (if fence_orders f KR KR then ∅ else spec c)
             (buf c) (next_slot c))
  | CompilerBarrier => ([], c)
  end.

Fixpoint issue (arch : Arch) (local : Region) (ins : list Instr) (c : Cpu) : list Z * Cpu :=
  match ins with
  | [] => ([], c)
  | i :: ins' =>
      let '(vs, c1) := issue1 arch local i c in
      let '(vs', c2) := issue arch local ins' c1 in (vs ++ vs', c2)
  end.

(** ** The ring after all pending stores *)

Definition store_access (a : Access) (r : list Z) : list Z :=
  match a with PStore w (LRing off) v => store_ring w off v r | _ => r end.

Definition flush (l : list Access) (r : list Z) : list Z :=
  fold_left (fun r a => store_access a r) l r.

Definition nonneg_off (a : Access) : Prop :=
  match a with PStore _ (LRing off) _ => 0 <= off | _ => True end.

Lemma MemcpyToMmio8_insert bs : forall r off k v,
  0 <= off -> 0 <= k -> k < off \/ off + Zlen bs <= k ->
  MemcpyToMmio8 0 (<[Z.to_nat k := v]> r) off bs = <[Z.to_nat k := v]> (MemcpyToMmio8 0 r off bs).
Proof.
  induction bs as [|b bs IH]; intros r off k v Ho Hk Hd; [done|].
  rewrite Zlen_cons in Hd. pose proof (Zlen_nonneg bs).
  cbn [MemcpyToMmio8]. unfold MmioWriteRelaxed8. rewrite list_insert_insert_ne by lia.
  apply IH; lia.
Qed.

Lemma MemcpyToMmio8_comm bs : forall r off bs' off',
  0 <= off -> 0 <= off' -> off + Zlen bs <= off' \/ off' + Zlen bs' <= off ->
  MemcpyToMmio8 0 (MemcpyToMmio8 0 r off' bs') off bs
  = MemcpyToMmio8 0 (MemcpyToMmio8 0 r off bs) off' bs'.
Proof.
  induction bs as [|b bs IH]; intros r off bs' off' Ho Ho' Hd; [done|].
  rewrite Zlen_cons in Hd. pose proof (Zlen_nonneg bs). pose proof (Zlen_nonneg bs').
  cbn [MemcpyToMmio8]. unfold MmioWriteRelaxed8.
  rewrite <- MemcpyToMmio8_insert by lia. apply IH; lia.
Qed.

Lemma store_access_comm a b r :
  overlap b a = false -> nonneg_off a -> nonneg_off b ->
  store_access b (store_access a r) = store_access a (store_access b r).
Proof.
  destruct a as [w [| |off] v| | |], b as [w' [| |off'] v'| | |]; cbn; try done.
  intros H Ha Hb. apply MemcpyToMmio8_comm; try done. rewrite !Zlen_le_encode.
  apply andb_false_iff in H as [H|H]; zbool; lia.
Qed.

Lemma may_pass_overlap arch l a :
  may_pass arch l a = true -> Forall (fun b => overlap b a = false) l.
Proof.
  induction l as [|b l IH]; cbn; [done|]. intros [H1 H2]%andb_prop.
  constructor; [|auto]. apply negb_true_iff in H1. unfold ordered in H1.
  by apply orb_false_iff in H1 as [? _].
Qed.

(** A store that may be performed early leaves the final ring as it is. *)
Lemma flush_pass arch l1 a l2 r :
  may_pass arch l1 a = true -> Forall nonneg_off l1 -> nonneg_off a ->
  flush (l1 ++ l2) (store_access a r) = flush (l1 ++ a :: l2) r.
Proof.
  intros Hp%may_pass_overlap H1 Ha. unfold flush. rewrite !fold_left_app. cbn [fold_left].
  f_equal. revert r. induction l1 as [|b l1 IH]; intros r; [done|].
  inversion_clear Hp. inversion_clear H1. cbn [fold_left].
  rewrite store_access_comm by done. by apply IH.
Qed.

Lemma flush_app l l' r : flush (l ++ l') r = flush l' (flush l r).
Proof. apply fold_left_app. Qed.

Lemma Zlen_Memcpy8 bs : forall r off, Zlen (MemcpyToMmio8 0 r off bs) = Zlen r.
Proof.
  induction bs as [|b bs IH]; intros r off; [done|]. cbn [MemcpyToMmio8].
  rewrite IH. apply Zlen_insert.
Qed.

Lemma Zlen_flush l : forall r, Zlen (flush l r) = Zlen r.
Proof.
  induction l as [|a l IH]; intros r; [done|]. cbn. rewrite IH.
  destruct a as [w [| |off] v| | |]; try done. apply Zlen_Memcpy8.
Qed.

(** Stores outside a cell do not change it. *)
Lemma nthZ_Memcpy8 bs : forall r off j,
  0 <= off -> 0 <= j -> j < off \/ off + Zlen bs <= j ->
  nthZ (MemcpyToMmio8 0 r off bs) j = nthZ r j.
Proof.
  induction bs as [|b bs IH]; intros r off j Ho Hj Hd; [done|].
  rewrite Zlen_cons in Hd. pose proof (Zlen_nonneg bs). cbn [MemcpyToMmio8].
  rewrite IH by lia. unfold MmioWriteRelaxed8. apply nthZ_insert_ne; lia.
Qed.

(** ** Doorbells behind their barriers

    [fenced dirty l]: every doorbell store of [l] comes after a write
    barrier that comes after every earlier access, where [dirty] says that
    accesses without such a barrier precede [l]. *)

Definition is_bell (a : Access) : bool :=
  match a with
  | PStore _ LBytesProduced _ | PStore _ LRemoteBytesConsumed _ => true
  | _ => false
  end.

Definition is_fence (a : Access) : bool := match a with PFence _ => true | _ => false end.

Definition dirty_after (dirty : bool) (a : Access) : bool :=
  if is_fence a then negb (is_fence_for KW KW a) && dirty else true.

Fixpoint fenced (dirty : bool) (l : list Access) : Prop :=
  match l with
  | [] => True
  | a :: l' => (is_bell a = true -> dirty = false) /\ fenced (dirty_after dirty a) l'
  end.

Lemma fenced_weaken l : forall d, fenced true l -> fenced d l.
Proof.
  induction l as [|a l IH]; intros d; cbn; [done|]. intros [H1 H2]. split.
  - intros Hb. specialize (H1 Hb). done.
  - destruct d; [done|]. unfold dirty_after in *. destruct (is_fence a); [|done].
    destruct (is_fence_for KW KW a); [done|]. by apply IH.
Qed.

(** Performing an access, or dropping a fence that nothing precedes. *)
Lemma fenced_delete a l2 l1 : forall d,
  is_fence a = false -> fenced d (l1 ++ a :: l2) -> fenced d (l1 ++ l2).
Proof.
  induction l1 as [|b l1 IH]; intros d Ha; cbn.
  - intros [_ H]. unfold dirty_after in H. rewrite Ha in H. by apply fenced_weaken.
  - intros [? ?]. auto.
Qed.

Lemma fenced_tail a l : is_fence a = true -> fenced false (a :: l) -> fenced false l.
Proof.
  intros Ha [_ H]. unfold dirty_after in H. rewrite Ha in H. by destruct (is_fence_for _ _ _).
Qed.

(** A load that has returned leaves its store. *)
Lemma fenced_replace a b l2 l1 : forall d,
  is_fence a = false -> is_fence b = false -> is_bell b = false ->
  fenced d (l1 ++ a :: l2) -> fenced d (l1 ++ b :: l2).
Proof.
  induction l1 as [|c l1 IH]; intros d Ha Hb Hbb; cbn.
  - intros [_ H]. unfold dirty_after in *. rewrite Ha in H. rewrite Hb. by rewrite Hbb.
  - intros [? ?]. auto.
Qed.

Lemma fenced_app_quiet l' l : forall d,
  Forall (fun a => is_bell a = false) l' -> fenced d l -> fenced d (l ++ l').
Proof.
  induction l as [|a l IH]; intros d Hq H; cbn in *.
  - clear H. revert d. induction Hq as [|b l' Hb _ IH]; intros d; cbn; [done|].
    split; [by rewrite Hb|apply IH].
  - destruct H. auto.
Qed.

Lemma fenced_app_fence f l' l : forall d,
  fence_orders f KW KW = true -> fenced false l' -> fenced d l -> fenced d (l ++ PFence f :: l').
Proof.
  induction l as [|a l IH]; intros d Hf H' H; cbn in *.
  - split; [done|]. unfold dirty_after. cbn. by rewrite Hf.
  - destruct H. auto.
Qed.

Lemma existsb_fence_kinds arch b mid a :
  is_fence b = false -> performs_as a = KW -> existsb (is_fence_for KW KW) mid = true ->
  ordered arch b mid a = true.
Proof.
  intros Hb Ha H. unfold ordered. rewrite Ha. apply orb_true_iff. right.
  destruct b; cbn in *; try done; rewrite H; by rewrite ?orb_true_r.
Qed.

(** A doorbell store is performed only when nothing but fences precedes it. *)
Lemma bell_last arch a l2 l1 : forall d,
  is_bell a = true -> fenced d (l1 ++ a :: l2) -> may_pass arch l1 a = true ->
  Forall (fun b => is_fence b = true) l1
  /\ (d = true -> existsb (is_fence_for KW KW) l1 = true).
Proof.
  intros d Ha. assert (Hk : performs_as a = KW) by (by destruct a as [w [] v| | |]).
  revert d. induction l1 as [|b l1 IH]; intros d; cbn.
  - intros [H _] _. specialize (H Ha). subst d. done.
  - intros [_ H] [H1 H2]%andb_prop. destruct (IH _ H H2) as [IH1 IH2].
    unfold dirty_after in *. destruct (is_fence b) eqn:Eb.
    + split; [by constructor|]. intros ->. apply orb_true_iff.
      destruct (is_fence_for KW KW b); [by left|]. right. by apply IH2.
    + apply negb_true_iff in H1.
      by rewrite existsb_fence_kinds in H1 by auto.
Qed.
