(* ===== verification/SpscWeak.v ===== *)
(** * The SPSC byte ring on weakly ordered memory
    (dxs/client/spsc_queue/spsc_queue_pair.cc over oss/mmio.h, oss/barrier.h)

    [SpscQueuePair] performs every operation in one step.  Here an operation
    issues the instructions it consists of on an architecture, and the two
    CPUs perform them later, in any order the architecture allows.  The file
    shows that each operation's instructions, performed in program order,
    are the one-step operation, and that the byte streams of the two
    directions survive every reordering on the architectures whose acquire
    load is one. *)

From S2P Require Import Prelude Ring SpscQueuePair Mmio.

Section ops.
Context (arch : Arch).

(** ** The operations as instructions *)

Fixpoint MemcpyToMmio8_instrs (base dst : Z) (src : list Z) : list Instr :=
  match src with
  | [] => []
  | b :: src' =>
      MmioWriteRelaxed arch W8 (LRing (dst - base)) b ++ MemcpyToMmio8_instrs base (dst + 1) src'
  end.

Fixpoint MemcpyToMmio32_instrs (base dst : Z) (src : list Z) : list Instr :=
  match src with
  | b0 :: b1 :: b2 :: b3 :: src' =>
      MmioWriteRelaxed arch W32 (LRing (dst - base)) (le_decode [b0; b1; b2; b3])
      ++ MemcpyToMmio32_instrs base (dst + 4) src'
  | _ => []
  end.

Definition MemcpyToMmio_instrs (base dst src : Z) (bs : list Z) : list Instr :=
  if (dst mod 4 =? 0) && (src mod 4 =? 0) then
    let words := Zlen bs / 4 in
    MemcpyToMmio32_instrs base dst (takeZ (words * 4) bs)
    ++ MemcpyToMmio8_instrs base (dst + words * 4) (dropZ (words * 4) bs)
  else MemcpyToMmio8_instrs base dst bs.

Definition Append_instrs (q : SpscQueuePair) (b : SendBatch) (src : Z) (buffer : list Z)
    : StatusCode * SendBatch * list Instr :=
  let sz := Zlen buffer in
  let base := data (remote_ring_ q) in
  if u64 (size (sb_segment_ b) + size (sb_backup_segment_ b)) <? sz
  then (kResourceExhausted, b, [])
  else
    let len1 := Z.min sz (size (sb_segment_ b)) in
    let i1 := MemcpyToMmio_instrs base (data (sb_segment_ b)) src (takeZ len1 buffer) in
    let segment := remove_prefix (sb_segment_ b) len1 in
    let pending := u64 (pending_bytes_ b + len1) in
    if len1 =? sz then (kOk, mkSendBatch segment (sb_backup_segment_ b) pending, i1)
    else
      let len2 := sz - len1 in
      let segment2 := sb_backup_segment_ b in
      let i2 := MemcpyToMmio_instrs base (data segment2) (src + len1) (dropZ len1 buffer) in
      (kOk, mkSendBatch (remove_prefix segment2 len2) empty_span (u64 (pending + len2)), i1 ++ i2).

Definition SendBatch_Commit_instrs (q : SpscQueuePair) (b : SendBatch)
    : StatusCode * SpscQueuePair * list Instr :=
  let produced := u64 (remote_bytes_produced_ q + pending_bytes_ b) in
  (kOk,
   mkSpscQueuePair (local_ring_ q) (remote_ring_ q) (local_bytes_consumed_ q) produced
     (local_ring_size_mask_ q) (remote_ring_size_mask_ q),
   MmioWriteBarrier arch ++ MmioWriteRelease arch W64 LBytesProduced produced
   ++ MmioWriteBarrier arch).

(** [Recv] with a buffer; the third component is the spans it copies. *)
Definition Recv_spans (b : ReceiveBatch) (bytes : Z) : StatusCode * ReceiveBatch * list Span :=
  if RemainingBytes b <? bytes then (kUnavailable, b, [])
  else
    let take1 := Z.min bytes (size (rb_segment_ b)) in
    let s1 := mkSpan (data (rb_segment_ b)) take1 in
    let segment := remove_prefix (rb_segment_ b) take1 in
    let taken := u64 (taken_bytes_ b + take1) in
    let '(segment, backup) :=
      if size segment =? 0 then (rb_backup_segment_ b, empty_span)
      else (segment, rb_backup_segment_ b) in
    if take1 =? bytes then (kOk, mkReceiveBatch segment backup taken, [s1])
    else
      let take2 := bytes - take1 in
      (kOk, mkReceiveBatch (remove_prefix segment take2) backup (u64 (taken + take2)),
       [s1; mkSpan (data segment) take2]).

Definition ReceiveBatch_Commit_instrs (q : SpscQueuePair) (b : ReceiveBatch)
    : StatusCode * SpscQueuePair * list Instr :=
  let consumed := u64 (local_bytes_consumed_ q + taken_bytes_ b) in
  (kOk,
   mkSpscQueuePair (local_ring_ q) (remote_ring_ q) consumed (remote_bytes_produced_ q)
     (local_ring_size_mask_ q) (remote_ring_size_mask_ q),
   MmioWriteBarrier arch ++ MmioWriteRelease arch W64 LRemoteBytesConsumed consumed).

(** ** Nodes with a CPU *)

Record WNode := mkWNode { node : Node; cpu : Cpu }.

(** [MmioReadAcquire64] of a local doorbell. *)
Definition read_bell (l : Loc) (self : WNode) : Z * Cpu :=
  let '(vs, c) := issue arch (region (node self)) (MmioReadAcquire arch W64 l) (cpu self) in
  (hd 0 vs, c).

(** [std::copy] out of spans of the local ring, each byte into a slot of its
    own; also the slots. *)
Definition issue_copy (base : Z) (spans : list Span) (c : Cpu) : list Z * Cpu :=
  let offs := mjoin ((fun s => seqZ (data s - base) (size s)) <$> spans) in
  let slots := seqZ (next_slot c) (Zlen offs) in
  (slots,
   mkCpu (pend c ++ zip_with PLoad offs slots) (spec c) (buf c) (next_slot c + Zlen offs)).

(** An operation: what the caller sees of it and the accesses it issues. *)
Definition wexec (o : Op) (self : WNode) : option (StatusCode * list Z * WNode) :=
  let n := node self in
  let q := qp n in
  let r := region n in
  let send ins := snd (issue arch r ins (cpu self)) in
  match o with
  | OpBeginSend =>
      let '(v, c) := read_bell LRemoteBytesConsumed self in
      let seen := mkRegion (mkDoorbells (bytes_produced (doorbells r)) v) (ring r) in
      Some (kOk, [], mkWNode (mkNode q r (Some (BeginSend q seen)) (rbatch n)) c)
  | OpAppend src buffer =>
      b ← sbatch n;
      let '(code, b', ins) := Append_instrs q b src buffer in
      Some (code, [], mkWNode (mkNode q r (Some b') (rbatch n)) (send ins))
  | OpSkip k =>
      b ← sbatch n;
      let '(code, b') := SendBatch_Skip b k in
      Some (code, [], mkWNode (mkNode q r (Some b') (rbatch n)) (cpu self))
  | OpSendCommit =>
      b ← sbatch n;
      let '(code, q', ins) := SendBatch_Commit_instrs q b in
      Some (code, [], mkWNode (mkNode q' r None (rbatch n)) (send ins))
  | OpBeginReceive =>
      let '(v, c) := read_bell LBytesProduced self in
      let seen := mkRegion (mkDoorbells v (remote_bytes_consumed (doorbells r))) (ring r) in
      let '(code, b') := BeginReceive q seen empty_receive_batch in
      Some (code, [], mkWNode (mkNode q r (sbatch n)
                                 (match code with kOk => Some b' | _ => None end)) c)
  | OpRecv k =>
      b ← rbatch n;
      let '(code, b', spans) := Recv_spans b k in
      let '(slots, c) := issue_copy (data (local_ring_ q)) spans (cpu self) in
      Some (code, slots, mkWNode (mkNode q r (sbatch n) (Some b')) c)
  | OpReceiveCommit =>
      b ← rbatch n;
      let '(code, q', ins) := ReceiveBatch_Commit_instrs q b in
      Some (code, [], mkWNode (mkNode q' r (sbatch n) None) (send ins))
  end.

(** ** Performing accesses *)

Definition with_pend (l : list Access) (n : WNode) : WNode :=
  let c := cpu n in mkWNode (node n) (mkCpu l (spec c) (buf c) (next_slot c)).

Definition with_region (r : Region) (n : WNode) : WNode :=
  let m := node n in mkWNode (mkNode (qp m) r (sbatch m) (rbatch m)) (cpu n).

(** Perform access [i] of [self], which may change [peer]'s region.  A load
    takes its value from the local ring or, with [ahead], from what was
    loaded ahead of the program. *)
Definition perform (i : nat) (ahead : bool) (self peer : WNode) : option (WNode * WNode) :=
  let c := cpu self in
  a ← pend c !! i;
  let l1 := take i (pend c) in
  let l2 := drop (S i) (pend c) in
  match a with
  | PFence _ => if bool_decide (i = 0%nat) then Some (with_pend l2 self, peer) else None
  | PStore w l v =>
      if may_pass arch l1 a
      then Some (with_pend (l1 ++ l2) self, with_region (store w l v (region (node peer))) peer)
      else None
  | PLoad off slot =>
      if may_pass arch l1 a then
        v ← (if ahead then spec c !! off else Some (nthZ (ring (region (node self))) off));
        Some (with_pend (l1 ++ PCopy slot v :: l2) self, peer)
      else None
  | PCopy slot v =>
      if may_pass arch l1 a
      then Some (mkWNode (node self)
                   (mkCpu (l1 ++ l2) (spec c) (<[slot := v]> (buf c)) (next_slot c)), peer)
      else None
  end.

(** A step of a node: an operation, an access performed, or a ring byte
    loaded ahead of the program. *)
Inductive Act : Type :=
  | AOp (o : Op)
  | APerform (i : nat) (ahead : bool)
  | AAhead (off : Z).

Definition load_ahead (off : Z) (n : WNode) : WNode :=
  let c := cpu n in
  mkWNode (node n)
    (mkCpu (pend c) (<[off := nthZ (ring (region (node n))) off]> (spec c)) (buf c) (next_slot c)).

Definition wact (x : Act) (self peer : WNode)
    : option (option (Op * StatusCode * list Z) * WNode * WNode) :=
  match x with
  | AOp o => '(code, out, self') ← wexec o self; Some (Some (o, code, out), self', peer)
  | APerform i ahead => '(self', peer') ← perform i ahead self peer; Some (None, self', peer')
  | AAhead off => Some (None, load_ahead off self, peer)
  end.

Definition event_of (by_a : bool) (e : option (Op * StatusCode * list Z)) : list Event :=
  match e with Some (o, code, out) => [mkEvent by_a o code out] | None => [] end.

(** Any interleaving of the steps of the two nodes; the output of a [Recv]
    event is the slots it fills. *)
Fixpoint wrun (sched : list (bool * Act)) (a b : WNode) : option (list Event * WNode * WNode) :=
  match sched with
  | [] => Some ([], a, b)
  | (true, x) :: rest =>
      '(e, a', b') ← wact x a b;
      '(evs, a'', b'') ← wrun rest a' b';
      Some (event_of true e ++ evs, a'', b'')
  | (false, x) :: rest =>
      '(e, b', a') ← wact x b a;
      '(evs, a'', b'') ← wrun rest a' b';
      Some (event_of false e ++ evs, a'', b'')
  end.

Definition start (n : Node) : WNode := mkWNode n new_Cpu.

End ops.

(** ** In program order, the instructions are the operations *)

Lemma le_encode_mod n x : le_encode n (x mod 2 ^ (8 * Z.of_nat n)) = le_encode n x.
Proof.
  revert x. induction n as [|n IH]; intros x; [done|]. cbn [le_encode].
  replace (8 * Z.of_nat (S n)) with (8 + 8 * Z.of_nat n) by lia.
  rewrite Z.pow_add_r by lia. change (2 ^ 8) with 256.
  rewrite Z.rem_mul_r by lia. set (y := (x / 256) mod _).
  replace ((x mod 256 + 256 * y) mod 256) with (x mod 256) by dmlia.
  replace ((x mod 256 + 256 * y) / 256) with y by dmlia. f_equal. apply IH.
Qed.

Lemma store_ring_uint w off v r : store_ring w off (uint w v) r = store_ring w off v r.
Proof. unfold store_ring, uint. by rewrite le_encode_mod. Qed.

Lemma Memcpy8_rebase base bs : forall r dst,
  MemcpyToMmio8 base r dst bs = MemcpyToMmio8 0 r (dst - base) bs.
Proof.
  induction bs as [|b bs IH]; intros r dst; [done|]. cbn [MemcpyToMmio8].
  rewrite IH. unfold MmioWriteRelaxed8. by rewrite Z.sub_0_r, Z.add_sub_swap.
Qed.

Lemma run_stores_app i1 i2 r : run_stores (i1 ++ i2) r = run_stores i2 (run_stores i1 r).
Proof. apply fold_left_app. Qed.

Lemma run_relaxed arch w off v r :
  run_stores (MmioWriteRelaxed arch w (LRing off) v) r
  = mkRegion (doorbells r) (store_ring w off v (ring r)).
Proof.
  replace (run_stores _ r) with (store w (LRing off) (uint w v) r) by (by destruct arch).
  cbn. by rewrite store_ring_uint.
Qed.

Lemma run_Memcpy8 arch base bs : forall r dst,
  Forall byte_ok bs ->
  run_stores (MemcpyToMmio8_instrs arch base dst bs) r
  = mkRegion (doorbells r) (MemcpyToMmio8 base (ring r) dst bs).
Proof.
  induction bs as [|b bs IH]; intros r dst Hb; [by destruct r|].
  inversion_clear Hb. cbn [MemcpyToMmio8_instrs MemcpyToMmio8].
  rewrite run_stores_app, run_relaxed, IH by done. cbn [doorbells ring].
  do 2 f_equal. unfold store_ring, MmioWriteRelaxed8. cbn. unfold MmioWriteRelaxed8.
  unfold byte_ok in *. by rewrite Z.mod_small, Z.sub_0_r by lia.
Qed.

Lemma run_Memcpy32 arch base words : forall r dst bs,
  length bs = (4 * words)%nat -> Forall byte_ok bs ->
  run_stores (MemcpyToMmio32_instrs arch base dst bs) r
  = mkRegion (doorbells r) (MemcpyToMmio32 base (ring r) dst bs).
Proof.
  induction words as [|n IH]; intros r dst bs HL Hb.
  - destruct bs; [by destruct r|simpl in HL; lia].
  - destruct bs as [|b0 [|b1 [|b2 [|b3 bs]]]]; simpl in HL; try lia.
    change (b0 :: b1 :: b2 :: b3 :: bs) with ([b0; b1; b2; b3] ++ bs) in *.
    apply Forall_app in Hb as [Hw Hb].
    cbn [MemcpyToMmio32_instrs MemcpyToMmio32 app].
    rewrite run_stores_app, run_relaxed, IH by (lia || done). cbn [doorbells ring].
    do 2 f_equal. rewrite MmioWriteRelaxed32_bytes by done. unfold store_ring.
    rewrite (le_encode_decode [b0; b1; b2; b3] Hw : le_encode (width_bytes W32) _ = _).
    by rewrite (Memcpy8_rebase base).
Qed.

Lemma run_Memcpy arch base dst src bs r :
  Forall byte_ok bs ->
  run_stores (MemcpyToMmio_instrs arch base dst src bs) r
  = mkRegion (doorbells r) (MemcpyToMmio base (ring r) dst src bs).
Proof.
  intros Hb. unfold MemcpyToMmio_instrs, MemcpyToMmio.
  destruct (_ && _); [|by apply run_Memcpy8].
  set (n := Zlen bs / 4 * 4).
  assert (Hn : 0 <= n <= Zlen bs) by (pose proof (Zlen_nonneg bs); subst n; dmlia).
  assert (Hb12 : Forall byte_ok (takeZ n bs) /\ Forall byte_ok (dropZ n bs))
    by (by rewrite <- Forall_app, take_dropZ).
  destruct Hb12 as [Hb1 Hb2]. rewrite run_stores_app.
  rewrite (run_Memcpy32 _ _ (Z.to_nat (Zlen bs / 4))); [by apply run_Memcpy8| |done].
  pose proof (Zlen_takeZ n bs Hn) as E. unfold Zlen in E at 1. subst n. dmlia.
Qed.

Lemma Append_instrs_sound arch q remote b src bs :
  Forall byte_ok bs ->
  let '(code, b', ins) := Append_instrs arch q b src bs in
  SendBatch_Append q remote b src bs = (code, b', run_stores ins remote).
Proof.
  intros Hb. unfold Append_instrs, SendBatch_Append.
  destruct (_ <? Zlen bs); [done|]. set (len1 := Z.min _ _).
  assert (Hb12 : Forall byte_ok (takeZ len1 bs) /\ Forall byte_ok (dropZ len1 bs))
    by (by rewrite <- Forall_app, take_dropZ).
  destruct Hb12 as [Hb1 Hb2].
  destruct (len1 =? Zlen bs).
  - by rewrite run_Memcpy.
  - by rewrite run_stores_app, !run_Memcpy.
Qed.

Lemma Recv_spans_sound q local b bytes :
  let '(code, b', spans) := Recv_spans b bytes in
  ReceiveBatch_Recv q local b true bytes = (code, b', mjoin (read_span q local <$> spans)).
Proof.
  unfold Recv_spans, ReceiveBatch_Recv. destruct (RemainingBytes b <? bytes); [done|].
  destruct (size (remove_prefix _ _) =? 0); destruct (_ =? bytes); cbn; by rewrite ?app_nil_r.
Qed.

Lemma store_bell_64 old v : is_u64 old -> store_bell W64 old (u64 v) = u64 v.
Proof.
  unfold is_u64, store_bell. cbn. intros. rewrite Z.div_small by lia.
  cbn. apply Z.mod_small. apply Z.mod_pos_bound. lia.
Qed.

Lemma SendCommit_instrs_sound arch q remote b :
  is_u64 (bytes_produced (doorbells remote)) ->
  let '(code, q', ins) := SendBatch_Commit_instrs arch q b in
  SendBatch_Commit q remote b = (code, q', run_stores ins remote).
Proof.
  intros Hd. unfold SendBatch_Commit_instrs, SendBatch_Commit. repeat f_equal.
  destruct remote as [[p c] r]; destruct arch; cbn -[u64 store_bell] in *;
    do 2 f_equal; unfold uint; cbn -[u64 store_bell];
    rewrite Z.mod_small by (apply Z.mod_pos_bound; lia); by rewrite store_bell_64.
Qed.

Lemma ReceiveCommit_instrs_sound arch q remote b :
  is_u64 (remote_bytes_consumed (doorbells remote)) ->
  let '(code, q', ins) := ReceiveBatch_Commit_instrs arch q b in
  ReceiveBatch_Commit q remote b = (code, q', run_stores ins remote).
Proof.
  intros Hd. unfold ReceiveBatch_Commit_instrs, ReceiveBatch_Commit. repeat f_equal.
  destruct remote as [[p c] r]; destruct arch; cbn -[u64 store_bell] in *;
    do 2 f_equal; unfold uint; cbn -[u64 store_bell];
    rewrite Z.mod_small by (apply Z.mod_pos_bound; lia); by rewrite store_bell_64.
Qed.

(** ** What issuing does to a CPU *)

Definition access_of (i : Instr) : option Access :=
  match i with
  | St w l v => Some (PStore w l v)
  | Fence f => Some (PFence f)
  | _ => None
  end.

Definition accesses (ins : list Instr) : list Access := omap access_of ins.

Lemma issue_cpu arch r ins : forall c,
  let c' := snd (issue arch r ins c) in
  pend c' = pend c ++ accesses ins /\ buf c' = buf c /\ next_slot c' = next_slot c
  /\ spec c' ⊆ spec c.
Proof.
  induction ins as [|i ins IH]; intros c; cbn -[pend buf spec].
  { by rewrite app_nil_r. }
  destruct (issue1 arch r i c) as [vs c1] eqn:E1. specialize (IH c1).
  destruct (issue arch r ins c1) as [vs' c2]. cbn -[pend buf spec] in *.
  destruct IH as (-> & -> & -> & Hs).
  destruct i; cbn -[pend buf spec] in E1; simplify_eq; cbn in *; rewrite <- ?app_assoc;
    split_and!; try done; etrans; try exact Hs; repeat case_match; done || apply map_empty_subseteq.
Qed.

Lemma flush_accesses ins : forall r, flush (accesses ins) (ring r) = ring (run_stores ins r).
Proof.
  induction ins as [|i ins IH]; intros r; [done|].
  destruct i as [|w l v| |]; [apply IH| |apply IH..].
  change (flush (accesses ins) (store_access (PStore w l v) (ring r))
          = ring (run_stores ins (store w l v r))).
  rewrite <- IH. by destruct l.
Qed.

Lemma accesses_app i1 i2 : accesses (i1 ++ i2) = accesses i1 ++ accesses i2.
Proof. apply omap_app. Qed.

Lemma read_bell_spec arch l n v :
  load W64 l (region (node n)) = v ->
  exists c fs, read_bell arch l n = (v, c) /\ pend c = pend (cpu n) ++ fs
    /\ Forall (fun a => is_fence a = true) fs /\ buf c = buf (cpu n)
    /\ next_slot c = next_slot (cpu n) /\ spec c ⊆ spec (cpu n) /\ (arch <> PowerPC -> spec c = ∅).
Proof.
  intros <-. unfold read_bell.
  destruct (issue_cpu arch (region (node n)) (MmioReadAcquire arch W64 l) (cpu n))
    as (Hp & Hb & Hn & Hs).
  destruct arch; cbn -[load] in *; eexists _, _; (split; [reflexivity|]);
    cbn [pend spec buf next_slot]; (split; [eassumption || reflexivity|]);
    split_and!; done || by repeat constructor.
Qed.

(** A commit issues a write barrier and then its doorbell among fences. *)
Lemma release_accesses arch l v :
  exists f fs, accesses (MmioWriteBarrier arch ++ MmioWriteRelease arch W64 l (u64 v))
               = PFence f :: fs ++ [PStore W64 l (u64 v)]
    /\ fence_orders f KW KW = true /\ Forall (fun a => is_fence a = true) fs.
Proof.
  assert (E : uint W64 (u64 v) = u64 v)
    by (apply Z.mod_small, Z.mod_pos_bound; lia).
  destruct arch.
  - exists sfence, []. cbn -[uint]. rewrite E. by repeat constructor.
  - exists sync, []. cbn -[uint]. rewrite E. by repeat constructor.
  - exists dmb_st, [PFence dmb_st]. cbn -[uint]. rewrite E. by repeat constructor.
  - exists (fence [RvO; RvW] [RvO; RvW]), [PFence (fence [RvO; RvW] [RvO; RvW])].
    cbn -[uint]. rewrite E. by repeat constructor.
Qed.

(** ** What the pending accesses of a node may be

    [prod_ok sz top lo hi l]: the stores of [l] that belong to the direction
    the node produces.  [lo] is the number of bytes announced before [l],
    [hi] the number announced after it; a ring store is at a stream position
    that is not announced before it and below [top]. *)
Fixpoint prod_ok (sz top lo hi : Z) (l : list Access) : Prop :=
  match l with
  | [] => lo = hi
  | PStore w (LRing off) _ :: l' =>
      (exists x, lo <= x /\ x + Z.of_nat (width_bytes w) <= top /\ off = x mod sz
                 /\ off + Z.of_nat (width_bytes w) <= sz)
      /\ prod_ok sz top lo hi l'
  | PStore w LBytesProduced v :: l' =>
      exists x, w = W64 /\ v = u64 x /\ lo <= x /\ prod_ok sz top x hi l'
  | _ :: l' => prod_ok sz top lo hi l'
  end.

(** [cons_ok sz top H L lo hi l]: the accesses of [l] that belong to the
    direction the node consumes.  [lo] and [hi] are the numbers of bytes
    acknowledged before and after [l]; a load is at a stream position that is
    not acknowledged before it and below [top], and slot [s] is to receive
    byte [L !! s] of the stream [H]. *)
Fixpoint cons_ok (sz top : Z) (H : list Z) (L : gmap Z Z) (lo hi : Z) (l : list Access) : Prop :=
  match l with
  | [] => lo = hi
  | PLoad off s :: l' =>
      (exists x, lo <= x < top /\ off = x mod sz /\ L !! s = Some x)
      /\ cons_ok sz top H L lo hi l'
  | PCopy s v :: l' =>
      (exists x, L !! s = Some x /\ 0 <= x < top /\ v = nthZ H x) /\ cons_ok sz top H L lo hi l'
  | PStore w LRemoteBytesConsumed v :: l' =>
      exists x, w = W64 /\ v = u64 x /\ lo <= x /\ cons_ok sz top H L x hi l'
  | _ :: l' => cons_ok sz top H L lo hi l'
  end.

Definition prod_access (a : Access) : bool :=
  match a with PStore _ (LRing _) _ | PStore _ LBytesProduced _ => true | _ => false end.

Definition cons_access (a : Access) : bool :=
  match a with
  | PLoad _ _ | PCopy _ _ | PStore _ LRemoteBytesConsumed _ => true
  | _ => false
  end.

(** Slot [s] has an access in [l] that will fill it. *)
Definition waits (s : Z) (a : Access) : Prop :=
  match a with PLoad _ s' | PCopy s' _ => s' = s | _ => False end.

Lemma prod_ok_app sz top hi l' l : forall lo,
  prod_ok sz top lo hi (l ++ l') <-> exists m, prod_ok sz top lo m l /\ prod_ok sz top m hi l'.
Proof.
  induction l as [|a l IH]; intros lo; cbn [app].
  { split; [by exists lo|by intros (m & -> & ?)]. }
  destruct a as [w [| |off] v| | |]; cbn [prod_ok]; rewrite ?IH; naive_solver.
Qed.

Lemma cons_ok_app sz top H L hi l' l : forall lo,
  cons_ok sz top H L lo hi (l ++ l')
  <-> exists m, cons_ok sz top H L lo m l /\ cons_ok sz top H L m hi l'.
Proof.
  induction l as [|a l IH]; intros lo; cbn [app].
  { split; [by exists lo|by intros (m & -> & ?)]. }
  destruct a as [w [| |off] v| | |]; cbn [cons_ok]; rewrite ?IH; naive_solver.
Qed.

Lemma prod_ok_quiet sz top lo hi l :
  Forall (fun a => prod_access a = false) l -> prod_ok sz top lo hi l <-> lo = hi.
Proof. induction 1 as [|[w [] v| | |] l Ha _ IH]; cbn in *; done. Qed.

Lemma cons_ok_quiet sz top H L lo hi l :
  Forall (fun a => cons_access a = false) l -> cons_ok sz top H L lo hi l <-> lo = hi.
Proof. induction 1 as [|[w [] v| | |] l Ha _ IH]; cbn in *; done. Qed.

Lemma prod_ok_nonneg sz top l : forall lo hi,
  0 < sz -> prod_ok sz top lo hi l -> Forall nonneg_off l.
Proof.
  induction l as [|a l IH]; intros lo hi Hsz; [done|].
  destruct a as [w [| |off] v| | |]; cbn; intros H; constructor; cbn; eauto;
    try (destruct H as (? & ? & ? & ? & ?); by eauto).
  - destruct H as [(x & ? & ? & -> & ?) _]. apply Z.mod_pos_bound; lia.
  - destruct H as [_ H]. eauto.
Qed.

Lemma prod_ok_top sz top top' l : forall lo hi,
  top <= top' -> prod_ok sz top lo hi l -> prod_ok sz top' lo hi l.
Proof.
  induction l as [|a l IH]; intros lo hi Ht; [done|].
  destruct a as [w [| |off] v| | |]; cbn; eauto.
  - intros (x & ? & ? & ? & ?). eauto 10.
  - intros [(x & ? & ? & ? & ?) ?]. split; [|by eapply IH]. exists x. split_and!; done || lia.
Qed.

Lemma prod_ok_order sz top l : forall lo hi, prod_ok sz top lo hi l -> lo <= hi.
Proof.
  induction l as [|a l IH]; intros lo hi; cbn; [lia|].
  destruct a as [w [| |off] v| | |]; eauto.
  - intros (x & ? & ? & ? & ?%IH). lia.
  - intros [_ ?]. eauto.
Qed.

Lemma cons_ok_order sz top H L l : forall lo hi, cons_ok sz top H L lo hi l -> lo <= hi.
Proof.
  induction l as [|a l IH]; intros lo hi; cbn; [lia|].
  destruct a as [w [| |off] v| | |]; try (intros [_ ?]); eauto.
  intros (x & ? & ? & ? & ?%IH). lia.
Qed.

(** More of the stream announced, or more slots handed out. *)
Lemma cons_ok_mono sz top top' H T L L' l : forall lo hi,
  top <= top' -> top <= Zlen H -> L ⊆ L' -> cons_ok sz top H L lo hi l ->
  cons_ok sz top' (H ++ T) L' lo hi l.
Proof.
  induction l as [|a l IH]; intros lo hi Ht HH HL; [done|].
  destruct a as [w [| |off] v|off s|s v|f]; cbn; eauto.
  - intros (x & ? & ? & ? & ?). eauto 10.
  - intros [(x & ? & ? & ?) ?]. split; [|by eapply IH].
    exists x. split_and!; [lia..|done|by eapply lookup_weaken].
  - intros [(x & ? & ? & ->) ?]. split; [|by eapply IH].
    exists x. split_and!; [by eapply lookup_weaken|lia..|].
    unfold nthZ. rewrite app_nth1; [done|]. unfold Zlen in HH. lia.
Qed.

(** The pending stores do not touch the announced part of the stream. *)
Lemma flush_announced sz top l x : forall lo hi r,
  0 < sz -> Zlen r = sz -> prod_ok sz top lo hi l -> x < lo -> top <= x + sz ->
  nthZ (flush l r) (x mod sz) = nthZ r (x mod sz).
Proof.
  induction l as [|a l IH]; intros lo hi r Hsz Hr H Hx Ht; [done|].
  cbn [flush fold_left]. fold (flush l (store_access a r)).
  destruct a as [w [| |off] v| | |]; cbn [prod_ok store_access] in *; eauto.
  - destruct H as (y & _ & _ & Hy & H). eapply IH; eauto. lia.
  - destruct H as [(y & Hy & Hty & -> & Hw) H]. pose proof (Z.mod_pos_bound y sz Hsz).
    erewrite IH; eauto; [|by unfold store_ring; rewrite Zlen_Memcpy8].
    unfold store_ring. apply nthZ_Memcpy8; [lia|apply Z.mod_pos_bound; lia|].
    rewrite Zlen_le_encode. destruct (Z.lt_ge_cases (x mod sz) (y mod sz)) as [|Hc]; [by left|].
    destruct (Z.lt_ge_cases (x mod sz) (y mod sz + Z.of_nat (width_bytes w))) as [Hd|]; [|by right].
    exfalso. pose proof (Z.mod_pos_bound x sz Hsz).
    set (k := x mod sz - y mod sz) in *.
    assert (E : (y + k) mod sz = x mod sz) by (rewrite add_mod_small by (subst k; lia); subst k; lia).
    apply mod_inj_near in E; subst k; lia.
Qed.

(** ** The stores of a copy *)

Lemma relaxed_accesses arch w l v : accesses (MmioWriteRelaxed arch w l v) = [PStore w l (uint w v)].
Proof. by destruct arch. Qed.

Section copy.
Context (arch : Arch) (base sz top lo : Z) (Hsz : 0 < sz).

Lemma Memcpy8_prod bs : forall pos off,
  off + Zlen bs <= sz -> (bs <> [] -> pos mod sz = off) -> lo <= pos -> pos + Zlen bs <= top ->
  prod_ok sz top lo lo (accesses (MemcpyToMmio8_instrs arch base (base + off) bs)).
Proof using Hsz.
  induction bs as [|b bs IH]; intros pos off Ho Hp Hl Ht; [done|].
  rewrite Zlen_cons in *. pose proof (Zlen_nonneg bs). specialize (Hp ltac:(done)).
  cbn [MemcpyToMmio8_instrs]. rewrite accesses_app, relaxed_accesses. cbn [app prod_ok].
  split; [exists pos; cbn; split_and!; lia|].
  replace (base + off + 1) with (base + (off + 1)) by lia.
  apply (IH (pos + 1)); try lia. intros Hne. destruct bs as [|b' bs]; [done|].
  rewrite Zlen_cons in Ho. pose proof (Zlen_nonneg bs). rewrite add_mod_small; lia.
Qed.

Lemma Memcpy32_prod words : forall bs pos off,
  length bs = (4 * words)%nat -> off + Zlen bs <= sz -> (bs <> [] -> pos mod sz = off) ->
  lo <= pos -> pos + Zlen bs <= top ->
  prod_ok sz top lo lo (accesses (MemcpyToMmio32_instrs arch base (base + off) bs)).
Proof using Hsz.
  induction words as [|n IH]; intros bs pos off HL Ho Hp Hl Ht.
  { by destruct bs; [|simpl in HL; lia]. }
  destruct bs as [|b0 [|b1 [|b2 [|b3 bs]]]]; simpl in HL; try lia.
  rewrite !Zlen_cons in *. pose proof (Zlen_nonneg bs). specialize (Hp ltac:(done)).
  cbn [MemcpyToMmio32_instrs]. rewrite accesses_app, relaxed_accesses. cbn [app prod_ok].
  split; [exists pos; cbn; split_and!; lia|].
  replace (base + off + 4) with (base + (off + 4)) by lia.
  apply (IH bs (pos + 4)); try lia. intros Hne. destruct bs as [|b' bs]; [done|].
  rewrite Zlen_cons in Ho. pose proof (Zlen_nonneg bs). rewrite add_mod_small; lia.
Qed.

Lemma Memcpy_prod pos rem seg backup src bs :
  covers base sz pos rem seg backup -> Zlen bs <= size seg -> lo <= pos -> pos + Zlen bs <= top ->
  prod_ok sz top lo lo (accesses (MemcpyToMmio_instrs arch base (data seg) src bs)).
Proof using Hsz.
  intros Hc Hn Hl Ht. destruct (Z.eq_dec (Zlen bs) 0) as [E|Hne].
  { destruct bs as [|b bs]; [|rewrite Zlen_cons in E; pose proof (Zlen_nonneg bs); lia].
    unfold MemcpyToMmio_instrs. by destruct (_ && _). }
  pose proof (Zlen_nonneg bs). destruct (cov_seg_at _ _ _ _ _ _ Hc ltac:(lia)) as [-> Hs].
  unfold MemcpyToMmio_instrs. destruct (_ && _); [|apply (Memcpy8_prod _ pos); done || lia].
  set (n := Zlen bs / 4 * 4). assert (Hn' : 0 <= n <= Zlen bs) by (subst n; dmlia).
  rewrite accesses_app. apply prod_ok_app. exists lo. split.
  - apply (Memcpy32_prod (Z.to_nat (Zlen bs / 4)) _ pos); rewrite ?Zlen_takeZ by lia; try lia.
    pose proof (Zlen_takeZ n bs Hn') as E. unfold Zlen in E at 1. subst n. dmlia.
  - rewrite <- Z.add_assoc. apply (Memcpy8_prod _ (pos + n)); rewrite ?Zlen_dropZ by lia; try lia.
    intros Hd. apply add_mod_small; try lia.
    assert (0 < Zlen (dropZ n bs)); [|rewrite Zlen_dropZ in *; lia].
    destruct (dropZ n bs); [done|]. rewrite Zlen_cons. pose proof (Zlen_nonneg l). lia.
Qed.

End copy.

Lemma Append_prod arch q b src bs sz pos top lo :
  0 < sz ->
  covers (data (remote_ring_ q)) sz pos (room_of b) (sb_segment_ b) (sb_backup_segment_ b) ->
  lo <= pos -> Zlen bs <= room_of b -> pos + Zlen bs <= top ->
  prod_ok sz top lo lo (accesses (snd (Append_instrs arch q b src bs))).
Proof.
  intros Hsz Hc Hl Hr Ht. unfold Append_instrs. destruct (_ <? Zlen bs); [done|].
  pose proof (cov_seg _ _ _ _ _ _ Hc). pose proof (Zlen_nonneg bs).
  set (len1 := Z.min _ _). destruct (Z.eqb_spec len1 (Zlen bs)) as [E|E]; cbn [snd].
  - apply (Memcpy_prod arch _ sz top lo Hsz pos (room_of b) _ (sb_backup_segment_ b));
      rewrite ?Zlen_takeZ by lia; done || lia.
  - rewrite accesses_app. apply prod_ok_app. exists lo. split.
    + apply (Memcpy_prod arch _ sz top lo Hsz pos (room_of b) _ (sb_backup_segment_ b));
        rewrite ?Zlen_takeZ by lia; done || lia.
    + assert (E1 : len1 = size (sb_segment_ b)) by lia.
      pose proof (covers_promote _ sz _ _ _ _ ltac:(lia) Hc) as Hc2. rewrite <- E1 in Hc2.
      apply (Memcpy_prod arch _ sz top lo Hsz (pos + len1) (room_of b - len1) _ empty_span);
        rewrite ?Zlen_dropZ by lia; try done; unfold room_of in *; lia.
Qed.

Definition ring_store (a : Access) : Prop :=
  match a with PStore _ (LRing _) _ => True | _ => False end.

Lemma Memcpy8_ring arch base bs : forall dst,
  Forall ring_store (accesses (MemcpyToMmio8_instrs arch base dst bs)).
Proof.
  induction bs as [|b bs IH]; intros dst; [done|]. cbn [MemcpyToMmio8_instrs].
  rewrite accesses_app, relaxed_accesses. by constructor.
Qed.

Lemma Memcpy32_ring arch base words : forall dst bs,
  (length bs <= words)%nat -> Forall ring_store (accesses (MemcpyToMmio32_instrs arch base dst bs)).
Proof.
  induction words as [|n IH]; intros dst bs Hl.
  { by destruct bs; [|simpl in Hl; lia]. }
  destruct bs as [|b0 [|b1 [|b2 [|b3 bs]]]]; try done. cbn [MemcpyToMmio32_instrs].
  rewrite accesses_app, relaxed_accesses. constructor; [done|]. apply IH. cbn in Hl. lia.
Qed.

Lemma Append_ring arch q b src bs :
  Forall ring_store (accesses (snd (Append_instrs arch q b src bs))).
Proof.
  assert (H : forall base dst src bs,
             Forall ring_store (accesses (MemcpyToMmio_instrs arch base dst src bs))).
  { intros. unfold MemcpyToMmio_instrs. destruct (_ && _); [|apply Memcpy8_ring].
    rewrite accesses_app. apply Forall_app. split; [by eapply Memcpy32_ring|apply Memcpy8_ring]. }
  unfold Append_instrs. repeat case_match; cbn; rewrite ?accesses_app, ?Forall_app; auto.
Qed.

Lemma ring_store_quiet l :
  Forall ring_store l ->
  Forall (fun a => is_bell a = false) l /\ Forall (fun a => cons_access a = false) l.
Proof. induction 1 as [|[w [] v| | |]]; naive_solver. Qed.

(** ** The loads of a [Recv] *)

Lemma segment_offs base sz pos rem seg backup n :
  0 < sz -> covers base sz pos rem seg backup -> 0 <= n <= size seg ->
  seqZ (data seg - base) n = (fun x => x mod sz) <$> seqZ pos n.
Proof.
  intros Hsz Hc Hn. destruct (Z.eq_dec n 0) as [->|]; [done|].
  destruct (cov_seg_at _ _ _ _ _ _ Hc ltac:(lia)) as [-> Hs].
  replace (base + pos mod sz - base) with (pos mod sz) by lia.
  apply list_eq. intros i. rewrite list_lookup_fmap.
  destruct (decide (Z.of_nat i < n)).
  - rewrite !lookup_seqZ_lt by lia. cbn. f_equal. symmetry. apply add_mod_small; lia.
  - by rewrite !lookup_seqZ_ge by lia.
Qed.

Lemma Recv_spans_ok q b n sz pos :
  pow2_size sz ->
  covers (data (local_ring_ q)) sz pos (left_of b) (rb_segment_ b) (rb_backup_segment_ b) ->
  0 <= taken_bytes_ b -> taken_bytes_ b + left_of b <= sz -> 0 <= n <= left_of b ->
  exists b' spans, Recv_spans b n = (kOk, b', spans)
    /\ mjoin ((fun s => seqZ (data s - data (local_ring_ q)) (size s)) <$> spans)
       = (fun x => x mod sz) <$> seqZ pos n
    /\ left_of b' = left_of b - n /\ taken_bytes_ b' = taken_bytes_ b + n
    /\ covers (data (local_ring_ q)) sz (pos + n) (left_of b')
         (rb_segment_ b') (rb_backup_segment_ b').
Proof.
  intros Hp Hc Ht Hsum Hn. pose proof (pow2_bounds _ Hp).
  destruct (Recv_ok q (mkRegion (mkDoorbells 0 0) (replicate (Z.to_nat sz) 0)) b true n sz pos)
    as (b' & E & Hl & Ht' & Hc'); try done.
  { cbn. unfold Zlen. rewrite length_replicate. lia. }
  pose proof (Recv_spans_sound q (mkRegion (mkDoorbells 0 0) (replicate (Z.to_nat sz) 0)) b n) as S.
  destruct (Recv_spans b n) as [[code b1] spans] eqn:Er. rewrite E in S.
  injection S as <- <- _. exists b', spans. split_and!; try done. clear E.
  unfold Recv_spans in Er. rewrite (left_u64 _ sz pos) in Er by (done || lia).
  destruct (Z.ltb_spec (left_of b) n); [done|].
  pose proof (cov_seg _ _ _ _ _ _ Hc). pose proof (cov_backup _ _ _ _ _ _ Hc).
  set (take1 := Z.min n (size (rb_segment_ b))) in *. cbn [size remove_prefix] in Er.
  pose proof (covers_promote _ sz _ _ _ _ ltac:(lia) Hc) as Hc2.
  destruct (Z.eqb_spec take1 n) as [E|E].
  - assert (Es : spans = [mkSpan (data (rb_segment_ b)) take1])
      by (destruct (_ =? 0); by simplify_eq). subst spans. cbn. rewrite app_nil_r, E.
    eapply segment_offs; try exact Hc; lia.
  - assert (E1 : take1 = size (rb_segment_ b)) by lia.
    rewrite E1, Z.sub_diag in Er. cbn [Z.eqb] in Er. injection Er as _ <-. cbn.
    rewrite app_nil_r, <- E1 in *.
    rewrite (segment_offs _ sz pos _ _ _ take1 ltac:(lia) Hc) by lia.
    rewrite (segment_offs _ sz (pos + take1) _ _ _ (n - take1) ltac:(lia) Hc2)
      by (unfold left_of in *; lia).
    rewrite <- fmap_app. f_equal. rewrite <- seqZ_app by lia. f_equal. lia.
Qed.

Lemma Recv_spans_short b n base sz pos :
  pow2_size sz -> covers base sz pos (left_of b) (rb_segment_ b) (rb_backup_segment_ b) ->
  left_of b <= sz -> left_of b < n -> Recv_spans b n = (kUnavailable, b, []).
Proof.
  intros Hp Hc Hr Hlt. unfold Recv_spans. rewrite (left_u64 base sz pos) by done.
  by destruct (Z.ltb_spec (left_of b) n); [|lia].
Qed.
