(* ===== verification/SpscOrder.v ===== *)
(** * The byte streams of the SPSC ring survive reordering

    The invariant of the executions of [SpscWeak] and the properties that
    follow from it: the byte streams of the two directions on every
    architecture with an acquire load, and what goes wrong without one. *)

From S2P Require Import Prelude Ring SpscQueuePair Mmio SpscWeak.

(** ** The invariant of the direction from [p] to [c]

    [gP] and [gC]: bytes committed and consumed, as the two callers know
    them.  [gPv] and [gCv]: what the doorbells in memory say.  [gE]: the
    announced bytes at the consumer's last [BeginReceive].  [gH]: the
    committed stream; [gT]: the bytes of the open send batch.  [gL]: which
    byte of the stream a slot of the consumer is for. *)
Record Ghost := mkGhost {
  gP : Z; gC : Z; gPv : Z; gCv : Z; gE : Z;
  gH : list Z; gT : list Z; gL : gmap Z Z
}.

Definition cap_w (p : WNode) : Z := size (remote_ring_ (qp (node p))).

(** The producer's end. *)
Record prod_inv (p : WNode) (g : Ghost) : Prop := {
  pi_size : pow2_size (cap_w p);
  pi_mask : remote_ring_size_mask_ (qp (node p)) = cap_w p - 1;
  pi_produced : remote_bytes_produced_ (qp (node p)) = u64 (gP g);
  pi_bell : remote_bytes_consumed (doorbells (region (node p))) = u64 (gCv g);
  pi_cap : gP g + Zlen (gT g) <= gCv g + cap_w p;
  pi_batch : forall b, sbatch (node p) = Some b ->
    covers (data (remote_ring_ (qp (node p)))) (cap_w p) (gP g + Zlen (gT g)) (room_of b)
      (sb_segment_ b) (sb_backup_segment_ b)
    /\ pending_bytes_ b = Zlen (gT g)
    /\ gP g + Zlen (gT g) + room_of b <= gCv g + cap_w p;
  pi_pend : prod_ok (cap_w p) (gCv g + cap_w p) (gPv g) (gP g) (pend (cpu p));
  pi_fenced : fenced false (pend (cpu p))
}.

(** The consumer's end; [sz] is the size of its ring. *)
Record cons_inv (c : WNode) (sz : Z) (g : Ghost) : Prop := {
  ci_ring : Zlen (ring (region (node c))) = sz;
  ci_local : size (local_ring_ (qp (node c))) = sz;
  ci_mask : local_ring_size_mask_ (qp (node c)) = sz - 1;
  ci_consumed : local_bytes_consumed_ (qp (node c)) = u64 (gC g);
  ci_bell : bytes_produced (doorbells (region (node c))) = u64 (gPv g);
  ci_batch : forall b, rbatch (node c) = Some b ->
    covers (data (local_ring_ (qp (node c)))) sz (gC g + taken_bytes_ b) (left_of b)
      (rb_segment_ b) (rb_backup_segment_ b)
    /\ 0 <= taken_bytes_ b
    /\ gC g + taken_bytes_ b + left_of b <= gE g;
  ci_pend : cons_ok sz (gE g) (gH g) (gL g) (gCv g) (gC g) (pend (cpu c));
  ci_fenced : fenced false (pend (cpu c));
  ci_spec : forall off v, spec (cpu c) !! off = Some v ->
    forall x, gCv g <= x < gE g -> x mod sz = off -> v = nthZ (gH g) x;
  ci_buf : forall s v, buf (cpu c) !! s = Some v ->
    exists x, gL g !! s = Some x /\ v = nthZ (gH g) x;
  ci_slots : forall s x, gL g !! s = Some x ->
    0 <= x < gE g /\ s < next_slot (cpu c)
    /\ (is_Some (buf (cpu c) !! s) \/ Exists (waits s) (pend (cpu c)))
}.

(** What joins the two ends. *)
Record chan_inv (p c : WNode) (g : Ghost) : Prop := {
  wi_order : 0 <= gCv g /\ gC g <= gE g /\ gE g <= gPv g;
  wi_stream : Zlen (gH g) = gP g;
  wi_data : window (flush (pend (cpu p)) (ring (region (node c))))
              (gCv g) (gP g + Zlen (gT g) - gCv g)
            = dropZ (gCv g) (gH g ++ gT g)
}.

(** The observer's history. *)
Record hist_inv (c : WNode) (g : Ghost) (h : Hist) : Prop := {
  hi_sent : agree (h_sent h) (gH g);
  hi_staging : agree (h_staging h) (gT g);
  hi_got : (fun s => gL g !! s) <$> h_got h = Some <$> seqZ 0 (gC g);
  hi_taken : forall b, rbatch (node c) = Some b ->
    (fun s => gL g !! s) <$> h_taken h = Some <$> seqZ (gC g) (taken_bytes_ b)
}.

Record winv (p c : WNode) (h : Hist) (g : Ghost) : Prop := {
  w_prod : prod_inv p g;
  w_cons : cons_inv c (cap_w p) g;
  w_chan : chan_inv p c g;
  w_hist : hist_inv c g h
}.

Definition wsys (p c : WNode) (h : Hist) : Prop := exists g, winv p c h g.

Lemma winv_bounds p c h g :
  winv p c h g ->
  0 <= gCv g /\ gCv g <= gC g /\ gC g <= gE g /\ gE g <= gPv g /\ gPv g <= gP g
  /\ gP g + Zlen (gT g) <= gCv g + cap_w p /\ 4096 <= cap_w p <= 2 ^ 63 /\ 0 <= Zlen (gT g).
Proof.
  intros [[] [] [] _]. pose proof (prod_ok_order _ _ _ _ _ pi_pend0).
  pose proof (cons_ok_order _ _ _ _ _ _ _ ci_pend0). pose proof (pow2_bounds _ pi_size0).
  pose proof (Zlen_nonneg (gT g)). lia.
Qed.

(** The announced bytes that are not acknowledged are in the ring. *)
Lemma winv_visible p c h g x :
  winv p c h g -> gCv g <= x < gPv g ->
  nthZ (ring (region (node c))) (x mod cap_w p) = nthZ (gH g) x.
Proof.
  intros W Hx. pose proof (winv_bounds _ _ _ _ W) as B. destruct W as [[] [] [] _].
  rewrite <- (flush_announced (cap_w p) (gCv g + cap_w p) (pend (cpu p)) x (gPv g) (gP g))
    by (done || lia).
  assert (E : nthZ (window (flush (pend (cpu p)) (ring (region (node c)))) (gCv g)
                      (gP g + Zlen (gT g) - gCv g)) (x - gCv g)
              = nthZ (dropZ (gCv g) (gH g ++ gT g)) (x - gCv g)) by (by rewrite wi_data0).
  rewrite nthZ_window, Zlen_flush, ci_ring0 in E by lia.
  replace (gCv g + (x - gCv g)) with x in E by lia. rewrite E.
  unfold nthZ, dropZ. rewrite !nth_lookup, lookup_drop.
  replace (Z.to_nat (gCv g) + Z.to_nat (x - gCv g))%nat with (Z.to_nat x) by lia.
  rewrite lookup_app_l; [done|]. unfold Zlen in wi_stream0. lia.
Qed.

(** ** Steps that a direction does not notice *)

(** The pending accesses [l'] are as good as [l] for the produced direction,
    and for the consumed direction. *)
Record pend_prod (l l' : list Access) : Prop := {
  pp_fenced : fenced false l -> fenced false l';
  pp_ok : forall sz top lo hi, prod_ok sz top lo hi l -> prod_ok sz top lo hi l';
  pp_flush : forall r, flush l' r = flush l r
}.

Record pend_cons (l l' : list Access) : Prop := {
  pc_fenced : fenced false l -> fenced false l';
  pc_ok : forall sz top H L lo hi, cons_ok sz top H L lo hi l -> cons_ok sz top H L lo hi l';
  pc_waits : forall s, Exists (waits s) l -> Exists (waits s) l'
}.

Lemma flush_skip l r : Forall (fun a => forall r, store_access a r = r) l -> flush l r = r.
Proof. intros H. revert r. induction H as [|a l Ha _ IH]; intros r; cbn; [done|]. by rewrite Ha. Qed.

Lemma quiet_skip l :
  Forall (fun a => prod_access a = false) l -> Forall (fun a => forall r, store_access a r = r) l.
Proof. revert l. apply Forall_impl. by intros [w [] v| | |]. Qed.

Lemma flush_quiet l r : Forall (fun a => prod_access a = false) l -> flush l r = r.
Proof. intros. by apply flush_skip, quiet_skip. Qed.

Lemma pend_prod_refl l : pend_prod l l.
Proof. by constructor. Qed.

Lemma pend_cons_refl l : pend_cons l l.
Proof. by constructor. Qed.

Lemma pend_prod_grow l k :
  Forall (fun a => prod_access a = false) k -> (fenced false l -> fenced false (l ++ k)) ->
  pend_prod l (l ++ k).
Proof.
  intros Hq Hf. constructor; [done| |].
  - intros. apply prod_ok_app. exists hi. split; [done|]. by apply prod_ok_quiet.
  - intros r. rewrite flush_app. by apply flush_quiet.
Qed.

Lemma pend_cons_grow l k :
  Forall (fun a => cons_access a = false) k -> (fenced false l -> fenced false (l ++ k)) ->
  pend_cons l (l ++ k).
Proof.
  intros Hq Hf. constructor; [done| |].
  - intros. apply cons_ok_app. exists hi. split; [done|]. by apply cons_ok_quiet.
  - intros s H. apply Exists_app. by left.
Qed.

(** Fences, the stores of a batch, the loads of a batch. *)
Lemma fenced_grow l k : Forall (fun a => is_bell a = false) k -> fenced false l -> fenced false (l ++ k).
Proof. intros. by apply fenced_app_quiet. Qed.

Lemma fences_quiet fs :
  Forall (fun a => is_fence a = true) fs ->
  Forall (fun a => is_bell a = false) fs /\ Forall (fun a => prod_access a = false) fs
  /\ Forall (fun a => cons_access a = false) fs.
Proof. induction 1 as [|[w [] v| | |]]; naive_solver. Qed.

(** A commit. *)
Lemma fenced_commit l f fs l0 v k :
  fence_orders f KW KW = true -> Forall (fun a => is_fence a = true) fs ->
  Forall (fun a => is_bell a = false) k ->
  fenced false l -> fenced false (l ++ PFence f :: fs ++ PStore W64 l0 v :: k).
Proof.
  intros Hf Hfs Hk Hl. apply fenced_app_fence; [done| |done]. clear -Hfs Hk.
  assert (G : forall d, fenced d k).
  { clear Hfs. induction Hk as [|a k Ha _ IH]; intros d; cbn; [done|]. by rewrite Ha. }
  induction Hfs as [|a fs Ha _ IH]; cbn; [by split|].
  split; [by destruct a|]. unfold dirty_after. rewrite Ha. by rewrite andb_false_r.
Qed.

(** Performing an access of the other direction, or dropping a fence. *)
Lemma pend_prod_delete l1 a l2 :
  prod_access a = false -> is_fence a = false -> pend_prod (l1 ++ a :: l2) (l1 ++ l2).
Proof.
  intros Ha Hf. constructor.
  - intros H. by eapply fenced_delete.
  - intros sz top lo hi (m & H1 & H2)%prod_ok_app. apply prod_ok_app. exists m. split; [done|].
    by destruct a as [w [] v| | |].
  - intros r. rewrite !flush_app. by destruct a as [w [] v| | |].
Qed.

Lemma pend_cons_delete l1 a l2 :
  cons_access a = false -> is_fence a = false -> pend_cons (l1 ++ a :: l2) (l1 ++ l2).
Proof.
  intros Ha Hf. constructor.
  - intros H. by eapply fenced_delete.
  - intros sz top H L lo hi (m & H1 & H2)%cons_ok_app. apply cons_ok_app. exists m.
    split; [done|]. by destruct a as [w [] v| | |].
  - intros s. rewrite !Exists_app, Exists_cons. destruct a as [w [] v| | |]; cbn in *; naive_solver.
Qed.

Lemma pend_prod_tail f l : pend_prod (PFence f :: l) l.
Proof. constructor; [by apply fenced_tail|done..]. Qed.

Lemma pend_cons_tail f l : pend_cons (PFence f :: l) l.
Proof.
  constructor; [by apply fenced_tail|done|]. intros s. rewrite Exists_cons. naive_solver.
Qed.

Lemma pend_prod_loaded l1 off s v l2 : pend_prod (l1 ++ PLoad off s :: l2) (l1 ++ PCopy s v :: l2).
Proof.
  constructor.
  - intros H. by apply (fenced_replace (PLoad off s)).
  - intros sz top lo hi (m & H1 & H2)%prod_ok_app. apply prod_ok_app. by exists m.
  - intros r. by rewrite !flush_app.
Qed.

(** The producer's end and the consumer's end are as before, but for
    pending accesses of the other direction. *)
Record same_prod (p p' : WNode) : Prop := {
  sp_ring : remote_ring_ (qp (node p')) = remote_ring_ (qp (node p));
  sp_mask : remote_ring_size_mask_ (qp (node p')) = remote_ring_size_mask_ (qp (node p));
  sp_produced : remote_bytes_produced_ (qp (node p')) = remote_bytes_produced_ (qp (node p));
  sp_batch : sbatch (node p') = sbatch (node p);
  sp_bell : remote_bytes_consumed (doorbells (region (node p')))
            = remote_bytes_consumed (doorbells (region (node p)));
  sp_pend : pend_prod (pend (cpu p)) (pend (cpu p'))
}.

Record same_cons (c c' : WNode) : Prop := {
  sc_local : local_ring_ (qp (node c')) = local_ring_ (qp (node c));
  sc_mask : local_ring_size_mask_ (qp (node c')) = local_ring_size_mask_ (qp (node c));
  sc_consumed : local_bytes_consumed_ (qp (node c')) = local_bytes_consumed_ (qp (node c));
  sc_batch : rbatch (node c') = rbatch (node c);
  sc_ring : ring (region (node c')) = ring (region (node c));
  sc_bell : bytes_produced (doorbells (region (node c')))
            = bytes_produced (doorbells (region (node c)));
  sc_spec : spec (cpu c') ⊆ spec (cpu c);
  sc_buf : buf (cpu c') = buf (cpu c);
  sc_next : next_slot (cpu c') = next_slot (cpu c);
  sc_pend : pend_cons (pend (cpu c)) (pend (cpu c'))
}.

Lemma same_prod_refl p : same_prod p p.
Proof. constructor; done || apply pend_prod_refl. Qed.

Lemma same_cons_refl c : same_cons c c.
Proof. constructor; done || apply pend_cons_refl. Qed.

#[local] Hint Resolve same_prod_refl same_cons_refl pend_prod_refl pend_cons_refl : core.

Lemma prod_inv_frame p p' g : same_prod p p' -> prod_inv p g -> prod_inv p' g.
Proof.
  intros [E1 E2 E3 E4 E5 [? Hok _]] []. assert (Ec : cap_w p' = cap_w p) by (unfold cap_w; by rewrite E1).
  constructor; rewrite ?Ec, ?E1, ?E2, ?E3, ?E4, ?E5; auto.
Qed.

Lemma cons_inv_frame c c' sz g : same_cons c c' -> cons_inv c sz g -> cons_inv c' sz g.
Proof.
  intros [E1 E2 E3 E4 E5 E6 Hs E7 E8 [? Hok Hw]] [].
  constructor; rewrite ?E1, ?E2, ?E3, ?E4, ?E5, ?E6, ?E7, ?E8; auto.
  - intros off v H. eapply ci_spec0, lookup_weaken; eauto.
  - intros s x H. destruct (ci_slots0 s x H) as (? & ? & [?|?]); eauto 6.
Qed.

Lemma winv_frame p p' c c' h g :
  winv p c h g -> same_prod p p' -> same_cons c c' -> winv p' c' h g.
Proof.
  intros [Hp Hc Hw Hh] Sp Sc.
  assert (Ec : cap_w p' = cap_w p) by (unfold cap_w; by rewrite (sp_ring _ _ Sp)).
  constructor.
  - by eapply prod_inv_frame.
  - rewrite Ec. by eapply cons_inv_frame.
  - destruct Hw. constructor; [done..|].
    by rewrite (sc_ring _ _ Sc), (pp_flush _ _ (sp_pend _ _ Sp)).
  - destruct Hh. constructor; try done. by rewrite (sc_batch _ _ Sc).
Qed.

Lemma wsys_frame p p' c c' h : wsys p c h -> same_prod p p' -> same_cons c c' -> wsys p' c' h.
Proof. intros [g W] ??. exists g. by eapply winv_frame. Qed.

(** ** The producer's operations *)

Section producer.
Context (arch : Arch) (p c : WNode) (h : Hist).

(** [p] with other batch, queue and pending accesses. *)
Let upd (q : SpscQueuePair) (sb : option SendBatch) (k : Cpu) : WNode :=
  mkWNode (mkNode q (region (node p)) sb (rbatch (node p))) k.

(** The window of a shorter stream. *)
Lemma window_committed g :
  winv p c h g ->
  window (flush (pend (cpu p)) (ring (region (node c)))) (gCv g) (gP g + Zlen (@nil Z) - gCv g)
  = dropZ (gCv g) (gH g ++ []).
Proof.
  intros W. pose proof (winv_bounds _ _ _ _ W) as B. destruct W as [_ _ [] _].
  rewrite Zlen_nil, Z.add_0_r, app_nil_r.
  rewrite <- (window_take _ _ (gP g + Zlen (gT g) - gCv g)) by lia. rewrite wi_data0.
  unfold takeZ, dropZ. rewrite drop_app_le by (unfold Zlen in *; lia).
  apply take_app_length'. rewrite length_drop. unfold Zlen in *. lia.
Qed.

Lemma step_BeginSend k fs g :
  winv p c h g -> pend k = pend (cpu p) ++ fs -> Forall (fun a => is_fence a = true) fs ->
  forall local, remote_bytes_consumed (doorbells local) = u64 (gCv g) ->
  wsys (upd (qp (node p)) (Some (BeginSend (qp (node p)) local)) k) c
    (hist_send OpBeginSend kOk h).
Proof using.
  intros W Hk Hfs local Hl. pose proof (winv_bounds _ _ _ _ W) as B.
  pose proof (window_committed g W) as Hd.
  destruct (fences_quiet fs Hfs) as (Hb & Hq & _).
  pose proof (pend_prod_grow (pend (cpu p)) fs Hq (fenced_grow _ _ Hb)) as Hp.
  destruct W as [[] Hc [] []].
  destruct (BeginSend_spec (qp (node p)) local (gP g) (gCv g)) as (Hr & Hpend & Hcov);
    fold (cap_w p); try (done || lia). fold (cap_w p) in *.
  exists (mkGhost (gP g) (gC g) (gPv g) (gCv g) (gE g) (gH g) [] (gL g)).
  constructor; cbn -[cap_w].
  - constructor; cbn -[cap_w]; try done; change (cap_w (upd _ _ _)) with (cap_w p); try done.
    + rewrite Zlen_nil. lia.
    + intros b [= <-]. rewrite Zlen_nil, Z.add_0_r. split_and!; [done..|lia].
    + rewrite Hk. by apply (pp_ok _ _ Hp).
    + rewrite Hk. by apply (pp_fenced _ _ Hp).
  - destruct Hc. constructor; try done.
  - constructor; cbn [gP gC gPv gCv gE gH gT]; try done. rewrite <- Hd. f_equal.
    cbn [upd cpu]. by rewrite Hk, (pp_flush _ _ Hp).
  - constructor; cbn; try done. constructor.
Qed.

Lemma step_Append src bs b g :
  winv p c h g -> sbatch (node p) = Some b -> Forall byte_ok bs ->
  let '(code, b', ins) := Append_instrs arch (qp (node p)) b src bs in
  forall k, pend k = pend (cpu p) ++ accesses ins ->
  wsys (upd (qp (node p)) (Some b') k) c (hist_send (OpAppend src bs) code h).
Proof using.
  intros W Es Hbs. pose proof (winv_bounds _ _ _ _ W) as B. pose proof W as W0.
  destruct W as [[] Hc [] []]. destruct (pi_batch0 b Es) as (Hcov & Hpend & Hroom).
  set (F := flush (pend (cpu p)) (ring (region (node c)))) in *.
  pose proof (Append_instrs_sound arch (qp (node p)) (mkRegion (mkDoorbells 0 0) F) b src bs Hbs) as S.
  pose proof (Append_prod arch (qp (node p)) b src bs (cap_w p) _ (gCv g + cap_w p) (gP g)
                ltac:(lia) Hcov ltac:(lia)) as Hprod.
  pose proof (ring_store_quiet _ (Append_ring arch (qp (node p)) b src bs)) as [Hb _].
  destruct (Append_instrs arch (qp (node p)) b src bs) as [[code b'] ins] eqn:Ea.
  cbn [snd] in *. intros k Hk.
  pose proof (cov_seg _ _ _ _ _ _ Hcov). pose proof (cov_backup _ _ _ _ _ _ Hcov).
  destruct (Z.lt_ge_cases (room_of b) (Zlen bs)) as [Hfull|Hle].
  - rewrite (Append_full _ _ _ _ _ _ _ _ pi_size0 Hcov) in S by lia.
    unfold Append_instrs in Ea. rewrite (room_u64 _ (cap_w p) _ b pi_size0 Hcov) in Ea by lia.
    destruct (Z.ltb_spec (room_of b) (Zlen bs)); [|lia]. simplify_eq.
    exists g. eapply winv_frame; [exact W0| |done]. constructor; try done.
    cbn -[pend]. by rewrite Hk, app_nil_r.
  - pose proof (Zlen_nonneg bs).
    destruct (Append_ok (qp (node p)) (mkRegion (mkDoorbells 0 0) F) b src bs (cap_w p) _ pi_size0 Hcov)
      as (b1 & E1 & Hr' & Hp' & Hc'); cbn [ring]; try (done || lia).
    { subst F. rewrite Zlen_flush. apply Hc. }
    rewrite E1 in S. injection S as <- <- S. cbn [ring doorbells] in S.
    assert (HF : flush (accesses ins) F = wr F (gP g + Zlen (gT g)) bs).
    { change F with (ring (mkRegion (mkDoorbells 0 0) F)). rewrite flush_accesses, <- S. done. }
    exists (mkGhost (gP g) (gC g) (gPv g) (gCv g) (gE g) (gH g) (gT g ++ bs) (gL g)).
    constructor; cbn -[cap_w].
    + constructor; cbn -[cap_w]; try done; change (cap_w (upd _ _ _)) with (cap_w p);
        rewrite ?Zlen_app; try done; try lia.
      * intros ? [= <-]. rewrite Z.add_assoc. split_and!; [done|lia|lia].
      * rewrite Hk. apply prod_ok_app. exists (gP g). split; [done|]. apply Hprod; lia.
      * rewrite Hk. by apply fenced_grow.
    + destruct Hc. constructor; try done.
    + constructor; cbn [gP gC gPv gCv gE gH gT]; try done. cbn [upd cpu].
      rewrite Hk, flush_app. fold F. rewrite HF, Zlen_app.
      replace (gP g + (Zlen (gT g) + Zlen bs) - gCv g)
        with (gP g + Zlen (gT g) - gCv g + Zlen bs) by lia.
      assert (Zlen F = cap_w p) by (subst F; rewrite Zlen_flush; apply Hc).
      rewrite window_app, window_wr_disjoint, wi_data0 by lia.
      replace (gCv g + (gP g + Zlen (gT g) - gCv g)) with (gP g + Zlen (gT g)) by lia.
      rewrite window_wr_same by lia. unfold dropZ. rewrite app_assoc, !drop_app_le; try done;
        rewrite ?length_app; unfold Zlen in *; lia.
    + constructor; cbn; try done. apply Forall2_app; [done|apply agree_Some].
Qed.

Lemma step_Skip n b g :
  winv p c h g -> sbatch (node p) = Some b -> is_u64 n ->
  let '(code, b') := SendBatch_Skip b n in
  wsys (upd (qp (node p)) (Some b') (cpu p)) c (hist_send (OpSkip n) code h).
Proof using.
  intros W Es Hn. unfold is_u64 in Hn. pose proof (winv_bounds _ _ _ _ W) as B. pose proof W as W0.
  destruct W as [[] Hc [] []]. destruct (pi_batch0 b Es) as (Hcov & Hpend & Hroom).
  pose proof (cov_seg _ _ _ _ _ _ Hcov). pose proof (cov_backup _ _ _ _ _ _ Hcov).
  destruct (Z.lt_ge_cases (room_of b) n) as [Hfull|Hle].
  - rewrite (Skip_full _ _ _ _ _ pi_size0 Hcov) by lia.
    exists g. eapply winv_frame; [exact W0| |done]. by constructor.
  - destruct (Skip_ok b n _ _ _ pi_size0 Hcov) as (b' & -> & Hr' & Hp' & Hc'); try lia.
    set (F := flush (pend (cpu p)) (ring (region (node c)))) in *.
    set (junk := window F (gP g + Zlen (gT g)) n).
    assert (Zlen junk = n) by (apply window_length; lia).
    exists (mkGhost (gP g) (gC g) (gPv g) (gCv g) (gE g) (gH g) (gT g ++ junk) (gL g)).
    constructor; cbn -[cap_w].
    + constructor; cbn -[cap_w]; try done; change (cap_w (upd _ _ _)) with (cap_w p);
        rewrite ?Zlen_app; try done; try lia.
      intros ? [= <-]. rewrite Z.add_assoc, H1. split_and!; [done|lia|lia].
    + destruct Hc. constructor; try done.
    + constructor; cbn [gP gC gPv gCv gE gH gT]; try done. cbn [upd cpu]. fold F.
      rewrite Zlen_app, H1.
      replace (gP g + (Zlen (gT g) + n) - gCv g) with (gP g + Zlen (gT g) - gCv g + n) by lia.
      rewrite window_app, wi_data0 by lia.
      replace (gCv g + (gP g + Zlen (gT g) - gCv g)) with (gP g + Zlen (gT g)) by lia.
      fold junk. unfold dropZ. rewrite app_assoc, !drop_app_le; try done;
        rewrite ?length_app; unfold Zlen in *; lia.
    + constructor; cbn; try done. apply Forall2_app; [done|by apply agree_None].
Qed.

Lemma nthZ_app_l l l' x : 0 <= x < Zlen l -> nthZ (l ++ l') x = nthZ l x.
Proof. intros. unfold nthZ, Zlen in *. apply app_nth1. lia. Qed.

(** The consumer's end when more of the stream is committed. *)
Lemma cons_inv_extend sz g T P :
  0 <= gCv g -> gE g <= Zlen (gH g) -> cons_inv c sz g ->
  cons_inv c sz (mkGhost P (gC g) (gPv g) (gCv g) (gE g) (gH g ++ T) [] (gL g)).
Proof using.
  intros H0 HE []. constructor; cbn [gP gC gPv gCv gE gH gT gL]; try done.
  - eapply cons_ok_mono; [..|exact ci_pend0]; done || lia.
  - intros off v H x Hx Ho. rewrite nthZ_app_l by lia. eauto.
  - intros s v H. destruct (ci_buf0 s v H) as (x & Hx & ->). exists x. split; [done|].
    destruct (ci_slots0 s x Hx) as (? & _). by rewrite nthZ_app_l by lia.
Qed.

Lemma step_SendCommit b g :
  winv p c h g -> sbatch (node p) = Some b ->
  let '(code, q', ins) := SendBatch_Commit_instrs arch (qp (node p)) b in
  forall k, pend k = pend (cpu p) ++ accesses ins ->
  wsys (upd q' None k) c (hist_send OpSendCommit code h).
Proof using.
  intros W Es. pose proof (winv_bounds _ _ _ _ W) as B.
  destruct W as [[] Hc [] []]. destruct (pi_batch0 b Es) as (Hcov & Hpend & Hroom).
  unfold SendBatch_Commit_instrs. cbn zeta iota beta. intros k.
  rewrite app_assoc, accesses_app.
  destruct (release_accesses arch LBytesProduced (remote_bytes_produced_ (qp (node p)) + pending_bytes_ b))
    as (f & fs & -> & Hf & Hfs).
  set (tl := accesses (MmioWriteBarrier arch)).
  assert (Htl : Forall (fun a => is_fence a = true) tl) by (destruct arch; by repeat constructor).
  destruct (fences_quiet fs Hfs) as (_ & Hq & _). destruct (fences_quiet tl Htl) as (Hb' & Hq' & _).
  rewrite pi_produced0, u64_add_l, Hpend in *. cbn [app]. rewrite <- app_assoc. cbn [app]. intros Hk.
  exists (mkGhost (gP g + Zlen (gT g)) (gC g) (gPv g) (gCv g) (gE g) (gH g ++ gT g) [] (gL g)).
  constructor; cbn -[cap_w].
  - constructor; cbn -[cap_w]; try done; change (cap_w (upd _ _ _)) with (cap_w p);
      rewrite ?Zlen_nil; try (done || lia).
    + rewrite Hk. apply prod_ok_app. exists (gP g). split; [done|]. cbn [prod_ok].
      apply prod_ok_app. exists (gP g). split; [by apply prod_ok_quiet|]. cbn [prod_ok].
      exists (gP g + Zlen (gT g)). split_and!; [done|done|lia|]. by apply prod_ok_quiet.
    + rewrite Hk. by apply fenced_commit.
  - apply cons_inv_extend; [lia..|exact Hc].
  - constructor; cbn [gP gC gPv gCv gE gH gT]; try done; [by rewrite Zlen_app; lia|].
    cbn [upd cpu]. rewrite Hk, flush_app, Zlen_nil, Z.add_0_r, app_nil_r, <- wi_data0. f_equal.
    apply flush_skip. constructor; [done|]. apply Forall_app.
    split; [|constructor; [done|]]; by apply quiet_skip.
  - constructor; cbn; try done; [by apply Forall2_app|constructor].
Qed.

End producer.

(** ** The consumer's operations *)

Lemma slots_weaken (L L' : gmap Z Z) (xs ys : list Z) :
  L ⊆ L' -> (fun s => L !! s) <$> xs = Some <$> ys -> (fun s => L' !! s) <$> xs = Some <$> ys.
Proof.
  intros HL. revert ys. induction xs as [|x xs IH]; intros [|y ys]; cbn; try done.
  intros [= H1 H2]. f_equal; [by eapply lookup_weaken|by apply IH].
Qed.

Lemma slots_fresh (L : gmap Z Z) s pos n :
  (forall x y, L !! x = Some y -> x < s) -> L ⊆ map_seqZ s (seqZ pos n) ∪ L.
Proof.
  intros HL. apply map_union_subseteq_r, map_disjoint_spec.
  intros i x y [Hi _]%lookup_map_seqZ_Some Hy%HL. lia.
Qed.

Lemma slots_new (L : gmap Z Z) s pos n x :
  s <= x < s + n -> (map_seqZ s (seqZ pos n) ∪ L) !! x = Some (pos + (x - s)).
Proof.
  intros Hx. apply lookup_union_Some_l, lookup_map_seqZ_Some. split; [lia|].
  rewrite lookup_seqZ_lt by lia. f_equal. lia.
Qed.

Lemma loads_cons sz top H L lo pos s n :
  lo <= pos -> pos + n <= top -> (forall x, s <= x < s + n -> L !! x = Some (pos + (x - s))) ->
  cons_ok sz top H L lo lo (zip_with PLoad ((fun x => x mod sz) <$> seqZ pos n) (seqZ s n)).
Proof.
  intros Hl Ht HL. destruct (Z.lt_ge_cases n 0) as [|Hn]; [by rewrite !seqZ_nil by lia|].
  revert pos s Hl Ht HL. pattern n. apply natlike_ind; [done| |done].
  clear n Hn. intros n Hn IH pos s Hl Ht HL. rewrite (seqZ_cons pos), (seqZ_cons s), fmap_cons by lia.
  cbn [zip_with cons_ok]. split.
  - exists pos. split_and!; [lia..|done|]. rewrite HL by lia. f_equal. lia.
  - replace (Z.pred (Z.succ n)) with n by lia. apply IH; [lia..|].
    intros x Hx. rewrite HL by lia. f_equal. lia.
Qed.

Lemma loads_quiet offs slots :
  Forall (fun a => is_bell a = false) (zip_with PLoad offs slots)
  /\ Forall (fun a => prod_access a = false) (zip_with PLoad offs slots).
Proof. revert slots. induction offs; intros []; cbn; naive_solver. Qed.

Lemma loads_wait offs slots s :
  length offs = length slots -> s ∈ slots -> Exists (waits s) (zip_with PLoad offs slots).
Proof.
  revert slots. induction offs as [|o offs IH]; intros [|t slots] Hl Hs; cbn in *; try lia.
  { by apply elem_of_nil in Hs. }
  apply elem_of_cons in Hs as [->|Hs]; [by left|right]. apply IH; [lia|done].
Qed.

Section consumer.
Context (arch : Arch) (p c : WNode) (h : Hist).

Let upd (q : SpscQueuePair) (rb : option ReceiveBatch) (k : Cpu) : WNode :=
  mkWNode (mkNode q (region (node c)) (sbatch (node c)) rb) k.

Lemma step_BeginReceive k fs g local :
  winv p c h g -> pend k = pend (cpu c) ++ fs -> Forall (fun a => is_fence a = true) fs ->
  spec k = ∅ -> buf k = buf (cpu c) -> next_slot k = next_slot (cpu c) ->
  bytes_produced (doorbells local) = u64 (gPv g) ->
  let '(code, b') := BeginReceive (qp (node c)) local empty_receive_batch in
  code <> kOutOfRange
  /\ wsys p (upd (qp (node c)) (match code with kOk => Some b' | _ => None end) k)
       (hist_recv OpBeginReceive code [] h).
Proof using.
  intros W Hk Hfs Hsp Hbuf Hnx Hl. pose proof (winv_bounds _ _ _ _ W) as B.
  destruct (fences_quiet fs Hfs) as (Hb & _ & Hq).
  pose proof (pend_cons_grow (pend (cpu c)) fs Hq (fenced_grow _ _ Hb)) as Hp.
  destruct W as [Hpr [] [] []].
  set (g' := mkGhost (gP g) (gC g) (gPv g) (gCv g) (gPv g) (gH g) (gT g) (gL g)).
  assert (Hres : forall rb, (forall b, rb = Some b ->
      covers (data (local_ring_ (qp (node c)))) (cap_w p) (gC g) (left_of b)
        (rb_segment_ b) (rb_backup_segment_ b)
      /\ taken_bytes_ b = 0 /\ gC g + left_of b <= gPv g) ->
    wsys p (upd (qp (node c)) rb k) (mkHist (h_sent h) (h_staging h) (h_got h) [])).
  { intros rb Hrb. exists g'. constructor.
    - destruct Hpr. by constructor.
    - constructor; cbn [g' gP gC gPv gCv gE gH gT gL upd node cpu qp region rbatch]; try done.
      + intros b E. destruct (Hrb b E) as (Hc & Ht & Hle). rewrite Ht, Z.add_0_r.
        split_and!; [done|lia|lia].
      + rewrite Hk. apply (pc_ok _ _ Hp). rewrite <- (app_nil_r (gH g)).
        eapply cons_ok_mono; [..|exact ci_pend0]; done || lia.
      + rewrite Hk. by apply (pc_fenced _ _ Hp).
      + intros off v. by rewrite Hsp, lookup_empty.
      + by rewrite Hbuf.
      + intros s x Hs. destruct (ci_slots0 s x Hs) as (? & ? & Hor).
        rewrite Hnx, Hbuf, Hk. split_and!; [lia..|].
        destruct Hor; [by left|right]. by apply (pc_waits _ _ Hp).
    - constructor; try done; cbn; lia.
    - constructor; cbn; try done. intros b E. destruct (Hrb b E) as (_ & -> & _). done. }
  destruct (Z.eq_dec (gPv g) (gC g)) as [E|Hne].
  - rewrite (BeginReceive_empty _ _ _ (gC g)) by (by rewrite ?Hl, ?E). split; [done|].
    cbn. apply Hres. done.
  - destruct (BeginReceive_ok (qp (node c)) local empty_receive_batch (gPv g) (gC g))
      as (b' & -> & _ & Hleft & Ht & Hc); rewrite ?ci_local0; try (done || lia).
    { apply Hpr. }
    split; [done|]. cbn. apply Hres. intros ? [= <-]. rewrite ci_local0 in Hc.
    split_and!; [done..|lia].
Qed.

Lemma step_Recv n b g :
  winv p c h g -> rbatch (node c) = Some b -> is_u64 n ->
  let '(code, b', spans) := Recv_spans b n in
  let '(slots, k) := issue_copy (data (local_ring_ (qp (node c)))) spans (cpu c) in
  wsys p (upd (qp (node c)) (Some b') k) (hist_recv (OpRecv n) code slots h).
Proof using.
  intros W Es Hn. unfold is_u64 in Hn. pose proof (winv_bounds _ _ _ _ W) as B. pose proof W as W0.
  destruct W as [Hpr [] [] []]. destruct (ci_batch0 b Es) as (Hcov & Ht & Hle).
  pose proof (cov_seg _ _ _ _ _ _ Hcov). pose proof (cov_backup _ _ _ _ _ _ Hcov).
  assert (0 <= left_of b) by (unfold left_of; lia).
  destruct (Z.lt_ge_cases (left_of b) n) as [Hshort|Hok].
  { rewrite (Recv_spans_short _ _ _ _ _ (pi_size _ _ Hpr) Hcov) by lia.
    cbn. exists g. eapply winv_frame; [exact W0|done|].
    constructor; cbn; try done; [by rewrite Z.add_0_r|by rewrite app_nil_r]. }
  destruct (Recv_spans_ok (qp (node c)) b n _ _ (pi_size _ _ Hpr) Hcov)
    as (b' & spans & -> & Ho & Hl' & Ht' & Hc'); try lia.
  unfold issue_copy. rewrite Ho.
  assert (HZ : Zlen ((fun x => x mod cap_w p) <$> seqZ (gC g + taken_bytes_ b) n) = n)
    by (unfold Zlen; rewrite length_fmap, length_seqZ; lia).
  rewrite HZ. set (s := next_slot (cpu c)). set (pos := gC g + taken_bytes_ b) in *.
  set (L' := map_seqZ s (seqZ pos n) ∪ gL g).
  assert (HL : gL g ⊆ L') by (apply slots_fresh; intros x y Hx; by destruct (ci_slots0 x y Hx) as (_ & ? & _)).
  destruct (loads_quiet ((fun x => x mod cap_w p) <$> seqZ pos n) (seqZ s n)) as [Hb _].
  exists (mkGhost (gP g) (gC g) (gPv g) (gCv g) (gE g) (gH g) (gT g) L'). constructor.
  - destruct Hpr. by constructor.
  - constructor; cbn [gP gC gPv gCv gE gH gT gL upd node cpu qp region rbatch pend spec buf next_slot];
      try done.
    + intros ? [= <-]. rewrite Ht', Z.add_assoc. fold pos. split_and!; [done|lia|subst pos; lia].
    + apply cons_ok_app. exists (gC g). split.
      * rewrite <- (app_nil_r (gH g)). eapply cons_ok_mono; [..|exact ci_pend0]; done || lia.
      * apply loads_cons; [subst pos; lia..|]. intros. by apply slots_new.
    + by apply fenced_grow.
    + intros s' v Hs'. destruct (ci_buf0 s' v Hs') as (x & ? & ?). exists x.
      split; [by eapply lookup_weaken|done].
    + intros s' x Hs'. apply lookup_union_Some_raw in Hs' as [Hs'|[_ Hs']].
      * apply lookup_map_seqZ_Some in Hs' as [? Hs']. apply lookup_seqZ in Hs' as [-> Hlt].
        split_and!; [subst pos; lia..|]. right. apply Exists_app. right.
        apply loads_wait; [by rewrite length_fmap, !length_seqZ|].
        apply elem_of_seqZ. lia.
      * destruct (ci_slots0 s' x Hs') as (? & ? & Hor). subst s. split_and!; [lia..|].
        destruct Hor; [by left|right]. apply Exists_app. by left.
  - by constructor.
  - constructor; cbn [gP gC gPv gCv gE gH gT gL hist_recv h_sent h_staging h_got h_taken]; try done.
    + by eapply slots_weaken.
    + intros ? [= <-]. rewrite Ht', fmap_app, seqZ_app, fmap_app by lia.
      f_equal; [by eapply slots_weaken; eauto|]. fold pos.
      apply list_eq. intros i. rewrite !list_lookup_fmap.
      destruct (decide (Z.of_nat i < n)).
      * rewrite !lookup_seqZ_lt by lia. cbn. subst L'. rewrite slots_new by lia. do 2 f_equal. lia.
      * by rewrite !lookup_seqZ_ge by lia.
Qed.

Lemma step_ReceiveCommit b g :
  winv p c h g -> rbatch (node c) = Some b ->
  let '(code, q', ins) := ReceiveBatch_Commit_instrs arch (qp (node c)) b in
  forall k, pend k = pend (cpu c) ++ accesses ins ->
  spec k ⊆ spec (cpu c) -> buf k = buf (cpu c) -> next_slot k = next_slot (cpu c) ->
  wsys p (upd q' None k) (hist_recv OpReceiveCommit code [] h).
Proof using.
  intros W Es. pose proof (winv_bounds _ _ _ _ W) as B.
  destruct W as [Hpr [] [] []]. destruct (ci_batch0 b Es) as (Hcov & Ht & Hle).
  pose proof (cov_seg _ _ _ _ _ _ Hcov). pose proof (cov_backup _ _ _ _ _ _ Hcov).
  assert (0 <= left_of b) by (unfold left_of; lia).
  unfold ReceiveBatch_Commit_instrs. cbn zeta iota beta. intros k.
  destruct (release_accesses arch LRemoteBytesConsumed (local_bytes_consumed_ (qp (node c)) + taken_bytes_ b))
    as (f & fs & -> & Hf & Hfs).
  destruct (fences_quiet fs Hfs) as (_ & _ & Hq).
  rewrite ci_consumed0, u64_add_l in *. intros Hk Hsp Hbuf Hnx.
  exists (mkGhost (gP g) (gC g + taken_bytes_ b) (gPv g) (gCv g) (gE g) (gH g) (gT g) (gL g)).
  constructor.
  - destruct Hpr. by constructor.
  - constructor; cbn [gP gC gPv gCv gE gH gT gL upd node cpu qp region rbatch local_ring_
      local_ring_size_mask_ local_bytes_consumed_]; try done.
    + rewrite Hk. apply cons_ok_app. exists (gC g). split; [done|]. cbn [cons_ok].
      apply cons_ok_app. exists (gC g). split; [by apply cons_ok_quiet|]. cbn [cons_ok].
      exists (gC g + taken_bytes_ b). split_and!; [done|done|lia|done].
    + rewrite Hk. by apply fenced_commit.
    + intros off v H'. eapply ci_spec0, lookup_weaken; eauto.
    + by rewrite Hbuf.
    + intros s x Hs. destruct (ci_slots0 s x Hs) as (? & ? & Hor). rewrite Hnx, Hbuf, Hk.
      split_and!; [lia..|]. destruct Hor; [by left|right]. apply Exists_app. by left.
  - constructor; try done. cbn. lia.
  - constructor; cbn; try done. rewrite fmap_app, seqZ_app, fmap_app by lia.
    f_equal; [done|]. by apply hi_taken0.
Qed.

End consumer.

(** ** Performing accesses *)

Section performing.
Context (arch : Arch) (p c : WNode) (h : Hist) (g : Ghost) (W : winv p c h g).

Lemma perform_ring l1 w off v l2 :
  pend (cpu p) = l1 ++ PStore w (LRing off) v :: l2 ->
  may_pass arch l1 (PStore w (LRing off) v) = true ->
  wsys (with_pend (l1 ++ l2) p) (with_region (store w (LRing off) v (region (node c))) c) h.
Proof using W.
  intros E Hm. pose proof (winv_bounds _ _ _ _ W) as B. destruct W as [[] [] [] []].
  rewrite E in *. pose proof (prod_ok_nonneg (cap_w p) _ _ _ _ ltac:(lia) pi_pend0) as Hn.
  apply Forall_app in Hn as [Hn1 Hn2]. inversion_clear Hn2 as [|? ? Hn0 _].
  assert (Hp : prod_ok (cap_w p) (gCv g + cap_w p) (gPv g) (gP g) (l1 ++ l2)).
  { apply prod_ok_app in pi_pend0 as (m & ? & _ & ?). apply prod_ok_app. by exists m. }
  exists g. constructor; constructor; try done.
  - by apply (fenced_delete (PStore w (LRing off) v)).
  - cbn. unfold store_ring. rewrite Zlen_Memcpy8. done.
  - cbn -[flush store_ring]. rewrite <- wi_data0. f_equal.
    by apply (flush_pass arch l1 (PStore w (LRing off) v)).
Qed.

Lemma perform_produced l1 w v l2 :
  pend (cpu p) = l1 ++ PStore w LBytesProduced v :: l2 ->
  may_pass arch l1 (PStore w LBytesProduced v) = true ->
  wsys (with_pend (l1 ++ l2) p) (with_region (store w LBytesProduced v (region (node c))) c) h.
Proof using W.
  intros E Hm. pose proof (winv_bounds _ _ _ _ W) as B. destruct W as [[] [] [] []].
  rewrite E in *.
  destruct (bell_last arch (PStore w LBytesProduced v) l2 l1 false) as [Hf _]; try done.
  destruct (fences_quiet l1 Hf) as (_ & Hq & _).
  apply prod_ok_app in pi_pend0 as (m & H1 & x & -> & -> & Hx & H2).
  apply prod_ok_quiet in H1; [subst m|done]. pose proof (prod_ok_order _ _ _ _ _ H2).
  exists (mkGhost (gP g) (gC g) x (gCv g) (gE g) (gH g) (gT g) (gL g)).
  constructor; constructor; cbn [gP gC gPv gCv gE gH gT gL]; try done.
  - cbn. apply prod_ok_app. exists x. split; [by apply prod_ok_quiet|done].
  - by apply (fenced_delete (PStore W64 LBytesProduced (u64 x))).
  - cbn -[u64 store_bell]. rewrite ci_bell0. apply store_bell_64, u64_range.
  - lia.
  - cbn -[flush]. rewrite <- wi_data0. f_equal. rewrite !flush_app. done.
Qed.

Lemma perform_consumed l1 w v l2 :
  pend (cpu c) = l1 ++ PStore w LRemoteBytesConsumed v :: l2 ->
  may_pass arch l1 (PStore w LRemoteBytesConsumed v) = true ->
  wsys (with_region (store w LRemoteBytesConsumed v (region (node p))) p)
    (with_pend (l1 ++ l2) c) h.
Proof using W.
  intros E Hm. pose proof (winv_bounds _ _ _ _ W) as B. destruct W as [[] [] [] []].
  rewrite E in *.
  destruct (bell_last arch (PStore w LRemoteBytesConsumed v) l2 l1 false) as [Hf _]; try done.
  destruct (fences_quiet l1 Hf) as (_ & _ & Hq).
  apply cons_ok_app in ci_pend0 as (m & H1 & x & -> & -> & Hx & H2).
  apply cons_ok_quiet in H1; [subst m|done]. pose proof (cons_ok_order _ _ _ _ _ _ _ H2).
  exists (mkGhost (gP g) (gC g) (gPv g) x (gE g) (gH g) (gT g) (gL g)).
  constructor; constructor; cbn [gP gC gPv gCv gE gH gT gL]; try done;
    change (cap_w (with_region _ p)) with (cap_w p); try done.
  - cbn -[u64 store_bell]. rewrite pi_bell0. apply store_bell_64, u64_range.
  - lia.
  - intros b Es. destruct (pi_batch0 b Es) as (? & ? & ?). split_and!; [done..|lia].
  - eapply prod_ok_top; [|exact pi_pend0]. lia.
  - cbn. apply cons_ok_app. exists x. split; [by apply cons_ok_quiet|done].
  - by apply (fenced_delete (PStore W64 LRemoteBytesConsumed (u64 x))).
  - intros off v Hv y Hy. eapply ci_spec0; [done|lia].
  - intros s y Hs. destruct (ci_slots0 s y Hs) as (? & ? & Hor). split_and!; [lia|lia|done|].
    destruct Hor as [|Hor]; [by left|right]. cbn. rewrite Exists_app, Exists_cons in *. naive_solver.
  - lia.
  - cbn -[flush]. apply (f_equal (dropZ (x - gCv g))) in wi_data0.
    rewrite window_drop in wi_data0 by lia.
    replace (gCv g + (x - gCv g)) with x in wi_data0 by lia.
    replace (gP g + Zlen (gT g) - gCv g - (x - gCv g)) with (gP g + Zlen (gT g) - x) in wi_data0 by lia.
    rewrite wi_data0. unfold dropZ. rewrite drop_drop. f_equal. lia.
Qed.

(** A load returns its byte of the stream, from memory or loaded ahead. *)
Lemma load_value l1 off s l2 v ahead :
  pend (cpu c) = l1 ++ PLoad off s :: l2 ->
  (if ahead : bool then spec (cpu c) !! off else Some (nthZ (ring (region (node c))) off)) = Some v ->
  exists x, gL g !! s = Some x /\ 0 <= x < gE g /\ v = nthZ (gH g) x.
Proof using W.
  intros E Hv. pose proof (winv_bounds _ _ _ _ W) as B. pose proof W as W0.
  destruct W0 as [_ [] _ _]. rewrite E in ci_pend0.
  apply cons_ok_app in ci_pend0 as (m & H1 & (x & Hx & -> & HL) & _).
  pose proof (cons_ok_order _ _ _ _ _ _ _ H1). exists x. split_and!; [done|lia..|].
  destruct ahead; [eapply ci_spec0; [done|lia|done]|]. injection Hv as <-.
  eapply winv_visible; [done|lia].
Qed.

Lemma perform_load l1 off s l2 v ahead :
  pend (cpu c) = l1 ++ PLoad off s :: l2 ->
  (if ahead : bool then spec (cpu c) !! off else Some (nthZ (ring (region (node c))) off)) = Some v ->
  wsys p (with_pend (l1 ++ PCopy s v :: l2) c) h.
Proof using W.
  intros E Hv. destruct (load_value _ _ _ _ _ _ E Hv) as (x & HL & Hx & ->).
  destruct W as [Hp [] [] []]. rewrite E in *. exists g.
  constructor; [done|constructor; try done|by constructor|by constructor].
  - cbn. apply cons_ok_app in ci_pend0 as (m & ? & _ & ?). apply cons_ok_app.
    exists m. split; [done|]. cbn. eauto.
  - cbn. by apply (fenced_replace (PLoad off s)).
  - intros t y Ht. destruct (ci_slots0 t y Ht) as (? & ? & Hor). split_and!; [lia|lia|done|].
    destruct Hor as [|Hor]; [by left|right]. cbn. rewrite Exists_app, Exists_cons in *. naive_solver.
Qed.

Lemma perform_copy l1 s v l2 :
  pend (cpu c) = l1 ++ PCopy s v :: l2 ->
  wsys p (mkWNode (node c) (mkCpu (l1 ++ l2) (spec (cpu c)) (<[s := v]> (buf (cpu c)))
                              (next_slot (cpu c)))) h.
Proof using W.
  intros E. destruct W as [Hp [] [] []]. rewrite E in *. exists g.
  apply cons_ok_app in ci_pend0 as (m & H1 & (x & HL & Hx & ->) & H2).
  constructor; [done|constructor; try done|by constructor|by constructor]; cbn [cpu pend buf next_slot].
  - apply cons_ok_app. by exists m.
  - by apply (fenced_delete (PCopy s (nthZ (gH g) x))).
  - intros t u. rewrite lookup_insert_Some. intros [[<- <-]|[_ Ht]]; eauto.
  - intros t y Ht. destruct (ci_slots0 t y Ht) as (? & ? & Hor). split_and!; [lia|lia|done|].
    destruct (decide (s = t)) as [->|Hne]; [left; by rewrite lookup_insert_eq|].
    rewrite lookup_insert_ne by done. destruct Hor as [|Hor]; [by left|right].
    rewrite Exists_app, Exists_cons in *. cbn in Hor. naive_solver.
Qed.

Lemma ahead_cons off : wsys p (load_ahead off c) h.
Proof using W.
  pose proof (winv_bounds _ _ _ _ W) as B. pose proof W as W0. destruct W0 as [Hp [] [] []].
  exists g. constructor; [done|constructor; try done|by constructor|by constructor].
  intros o v. cbn [load_ahead cpu spec]. rewrite lookup_insert_Some.
  intros [[<- <-]|[_ Ho]]; [|eauto]. intros x Hx <-. eapply winv_visible; [done|lia].
Qed.

End performing.

(** ** Both directions *)

Lemma uint64_u64 x : uint W64 (u64 x) = u64 x.
Proof. apply Z.mod_small, u64_range. Qed.

(** An operation of [a] issues accesses of the direction it produces, which
    the direction it consumes does not notice, or the other way round. *)
Lemma issue_same_cons arch a ins q sb k :
  k = snd (issue arch (region (node a)) ins (cpu a)) ->
  Forall (fun x => cons_access x = false) (accesses ins) ->
  (fenced false (pend (cpu a)) -> fenced false (pend (cpu a) ++ accesses ins)) ->
  local_ring_ q = local_ring_ (qp (node a)) ->
  local_ring_size_mask_ q = local_ring_size_mask_ (qp (node a)) ->
  local_bytes_consumed_ q = local_bytes_consumed_ (qp (node a)) ->
  same_cons a (mkWNode (mkNode q (region (node a)) sb (rbatch (node a))) k).
Proof.
  intros -> Hq Hf ? ? ?. destruct (issue_cpu arch (region (node a)) ins (cpu a)) as (Hp & ? & ? & ?).
  constructor; cbn [node cpu qp region rbatch]; try done. rewrite Hp. by apply pend_cons_grow.
Qed.

Lemma issue_same_prod arch a ins q rb k :
  k = snd (issue arch (region (node a)) ins (cpu a)) ->
  Forall (fun x => prod_access x = false) (accesses ins) ->
  (fenced false (pend (cpu a)) -> fenced false (pend (cpu a) ++ accesses ins)) ->
  remote_ring_ q = remote_ring_ (qp (node a)) ->
  remote_ring_size_mask_ q = remote_ring_size_mask_ (qp (node a)) ->
  remote_bytes_produced_ q = remote_bytes_produced_ (qp (node a)) ->
  same_prod a (mkWNode (mkNode q (region (node a)) (sbatch (node a)) rb) k).
Proof.
  intros -> Hq Hf ? ? ?. destruct (issue_cpu arch (region (node a)) ins (cpu a)) as (Hp & ? & ? & ?).
  constructor; cbn [node cpu qp region sbatch]; try done. rewrite Hp. by apply pend_prod_grow.
Qed.

Section system.
Context (arch : Arch) (Harch : arch <> PowerPC) (a b : WNode) (ha hb : Hist).
Context (Ha : wsys a b ha) (Hb : wsys b a hb).

Let send_step (o : Op) (code : StatusCode) (a' : WNode) : Prop :=
  code <> kOutOfRange /\ wsys a' b (hist_send o code ha) /\ wsys b a' hb.
Let recv_step (o : Op) (code : StatusCode) (out : list Z) (a' : WNode) : Prop :=
  code <> kOutOfRange /\ wsys a' b ha /\ wsys b a' (hist_recv o code out hb).

Lemma sys_BeginSend code out a' :
  wexec arch OpBeginSend a = Some (code, out, a') -> send_step OpBeginSend code a'.
Proof using Ha Hb.
  intros E. destruct Ha as [g W]. cbn [wexec] in E.
  destruct (read_bell_spec arch LRemoteBytesConsumed a (u64 (gCv g)))
    as (k & fs & Hr & Hk & Hfs & Hbf & Hn & Hs & _).
  { cbn [load]. rewrite (pi_bell _ _ (w_prod _ _ _ _ W)). apply uint64_u64. }
  rewrite Hr in E. injection E as <- <- <-. split_and!; [done| |].
  - by eapply step_BeginSend.
  - eapply wsys_frame; [exact Hb|done|]. constructor; try done. cbn [cpu]. rewrite Hk.
    destruct (fences_quiet fs Hfs) as (? & _ & ?). apply pend_cons_grow; [done|]. by apply fenced_grow.
Qed.

Lemma sys_Append src bs code out a' :
  Forall byte_ok bs -> wexec arch (OpAppend src bs) a = Some (code, out, a') ->
  send_step (OpAppend src bs) code a'.
Proof using Ha Hb.
  intros Hbs E. destruct Ha as [g W]. cbn [wexec] in E.
  destruct (sbatch (node a)) as [s|] eqn:Es; [cbn [mbind option_bind] in E|done].
  pose proof (step_Append arch a b ha src bs s g W Es Hbs) as H.
  pose proof (ring_store_quiet _ (Append_ring arch (qp (node a)) s src bs)) as [Hbl Hcq].
  pose proof (Append_instrs_sound arch (qp (node a)) (region (node b)) s src bs Hbs) as Hs.
  destruct (Append_instrs arch (qp (node a)) s src bs) as [[code1 s1] ins]. cbn [snd] in *.
  simplify_eq. split_and!.
  - intros ->. unfold SendBatch_Append in Hs. repeat case_match; done.
  - apply H. by apply issue_cpu.
  - eapply wsys_frame; [exact Hb|done|]. eapply issue_same_cons; try done. by apply fenced_grow.
Qed.

Lemma sys_Skip n code out a' :
  is_u64 n -> wexec arch (OpSkip n) a = Some (code, out, a') -> send_step (OpSkip n) code a'.
Proof using Ha Hb.
  intros Hn E. destruct Ha as [g W]. cbn [wexec] in E.
  destruct (sbatch (node a)) as [s|] eqn:Es; [cbn [mbind option_bind] in E|done].
  pose proof (step_Skip a b ha n s g W Es Hn) as H.
  destruct (SendBatch_Skip s n) as [code1 s1] eqn:Ek. simplify_eq. split_and!; [|done|].
  - intros ->. unfold SendBatch_Skip in Ek. repeat case_match; done.
  - eapply wsys_frame; [exact Hb|done|]. by constructor.
Qed.

Lemma sys_SendCommit code out a' :
  wexec arch OpSendCommit a = Some (code, out, a') -> send_step OpSendCommit code a'.
Proof using Ha Hb Harch.
  intros E. destruct Ha as [g W]. cbn [wexec] in E.
  destruct (sbatch (node a)) as [s|] eqn:Es; [cbn [mbind option_bind] in E|done].
  pose proof (step_SendCommit arch a b ha s g W Es) as H.
  unfold SendBatch_Commit_instrs in *.
  apply (inj Some), pair_equal_spec in E as [[<- <-]%pair_equal_spec <-].
  split_and!; [done|apply H; by apply issue_cpu|].
  set (v := remote_bytes_produced_ _ + _) in *.
  destruct (release_accesses arch LBytesProduced v) as (f & fs & Ea & Hf & Hfs).
  assert (Htl : Forall (fun a => is_fence a = true) (accesses (MmioWriteBarrier arch)))
    by (destruct arch; by repeat constructor).
  destruct (fences_quiet _ Hfs) as (_ & _ & Hq). destruct (fences_quiet _ Htl) as (Hb' & _ & Hq').
  eapply wsys_frame; [exact Hb|done|]. eapply issue_same_cons; try done;
    rewrite app_assoc, accesses_app, Ea.
  - constructor; [done|]. rewrite !Forall_app. by repeat constructor.
  - cbn [app]. rewrite <- app_assoc. by apply fenced_commit.
Qed.

Lemma sys_BeginReceive code out a' :
  wexec arch OpBeginReceive a = Some (code, out, a') -> recv_step OpBeginReceive code out a'.
Proof using Ha Hb Harch.
  intros E. destruct Hb as [g W]. cbn [wexec] in E.
  destruct (read_bell_spec arch LBytesProduced a (u64 (gPv g)))
    as (k & fs & Hr & Hk & Hfs & Hbf & Hn & Hs & Hsp).
  { cbn [load]. rewrite (ci_bell _ _ _ (w_cons _ _ _ _ W)). apply uint64_u64. }
  rewrite Hr in E. set (local := mkRegion _ _) in E.
  pose proof (step_BeginReceive b a hb k fs g local W Hk Hfs (Hsp Harch) Hbf Hn eq_refl) as H.
  destruct (BeginReceive _ _ _) as [c0 b0]. injection E as <- <- <-. destruct H as [H1 H2].
  split_and!; [done| |done].
  eapply wsys_frame; [exact Ha| |done]. constructor; try done. cbn [cpu]. rewrite Hk.
  destruct (fences_quiet fs Hfs) as (? & ? & _). apply pend_prod_grow; [done|]. by apply fenced_grow.
Qed.

Lemma sys_Recv n code out a' :
  is_u64 n -> wexec arch (OpRecv n) a = Some (code, out, a') -> recv_step (OpRecv n) code out a'.
Proof using Ha Hb.
  intros Hn E. destruct Hb as [g W]. cbn [wexec] in E.
  destruct (rbatch (node a)) as [s|] eqn:Es; [cbn [mbind option_bind] in E|done].
  pose proof (step_Recv b a hb n s g W Es Hn) as H.
  destruct (Recv_spans s n) as [[code1 s1] spans] eqn:Er.
  unfold issue_copy in *. simplify_eq. split_and!; [|  |done].
  - intros ->. unfold Recv_spans in Er. repeat case_match; done.
  - eapply wsys_frame; [exact Ha| |done]. constructor; try done. cbn [cpu pend].
    destruct (loads_quiet (mjoin ((fun s => seqZ (data s - data (local_ring_ (qp (node a)))) (size s)) <$> spans))
      (seqZ (next_slot (cpu a)) (Zlen (mjoin ((fun s => seqZ (data s - data (local_ring_ (qp (node a)))) (size s)) <$> spans)))))
      as [? ?].
    apply pend_prod_grow; [done|]. by apply fenced_grow.
Qed.

Lemma sys_ReceiveCommit code out a' :
  wexec arch OpReceiveCommit a = Some (code, out, a') -> recv_step OpReceiveCommit code out a'.
Proof using Ha Hb.
  intros E. destruct Hb as [g W]. cbn [wexec] in E.
  destruct (rbatch (node a)) as [s|] eqn:Es; [cbn [mbind option_bind] in E|done].
  pose proof (step_ReceiveCommit arch b a hb s g W Es) as H.
  unfold ReceiveBatch_Commit_instrs in *.
  apply (inj Some), pair_equal_spec in E as [[<- <-]%pair_equal_spec <-].
  split_and!; [done| |apply H; by apply issue_cpu].
  set (v := local_bytes_consumed_ _ + _) in *.
  destruct (release_accesses arch LRemoteBytesConsumed v) as (f & fs & Ea & Hf & Hfs).
  destruct (fences_quiet _ Hfs) as (_ & Hq & _).
  eapply wsys_frame; [exact Ha| |done]. eapply issue_same_prod; try done; rewrite Ea.
  - constructor; [done|]. rewrite !Forall_app. by repeat constructor.
  - by apply fenced_commit.
Qed.

Lemma wexec_sys o code out a' :
  op_ok o -> wexec arch o a = Some (code, out, a') ->
  code <> kOutOfRange /\ wsys a' b (hist_send o code ha) /\ wsys b a' (hist_recv o code out hb).
Proof using Ha Hb Harch.
  intros Ho E. destruct o; cbn [op_ok] in Ho.
  - destruct (sys_BeginSend _ _ _ E) as (? & ? & ?). by destruct code.
  - destruct (sys_Append _ _ _ _ _ Ho E) as (? & ? & ?). by destruct code.
  - destruct (sys_Skip _ _ _ _ Ho E) as (? & ? & ?). by destruct code.
  - destruct (sys_SendCommit _ _ _ E) as (? & ? & ?). by destruct code.
  - destruct (sys_BeginReceive _ _ _ E) as (? & ? & ?). by destruct code.
  - destruct (sys_Recv _ _ _ _ Ho E) as (? & ? & ?). by destruct code.
  - destruct (sys_ReceiveCommit _ _ _ E) as (? & ? & ?). by destruct code.
Qed.

Lemma perform_sys i ahead a' b' :
  perform arch i ahead a b = Some (a', b') -> wsys a' b' ha /\ wsys b' a' hb.
Proof using Ha Hb.
  clear Harch. unfold perform. intros E.
  destruct (pend (cpu a) !! i) as [x|] eqn:Ei; [cbn [mbind option_bind] in E|done].
  pose proof (take_drop_middle _ _ _ Ei) as Ep. symmetry in Ep.
  set (l1 := take i (pend (cpu a))) in *. set (l2 := drop (S i) (pend (cpu a))) in *.
  destruct Ha as [ga Wa], Hb as [gb Wb].
  destruct x as [w [| |off] v|off s|s v|f].
  - destruct (may_pass _ _ _) eqn:Hm; simplify_eq. split; [by eapply perform_produced|].
    eapply wsys_frame; [exact Hb|by constructor|]. constructor; try done.
    cbn. rewrite Ep. by apply pend_cons_delete.
  - destruct (may_pass _ _ _) eqn:Hm; simplify_eq. split; [|by eapply perform_consumed].
    eapply wsys_frame; [exact Ha| |by constructor]. constructor; try done.
    cbn. rewrite Ep. by apply pend_prod_delete.
  - destruct (may_pass _ _ _) eqn:Hm; simplify_eq. split; [by eapply perform_ring|].
    eapply wsys_frame; [exact Hb|by constructor|]. constructor; try done.
    cbn. rewrite Ep. by apply pend_cons_delete.
  - destruct (may_pass _ _ _) eqn:Hm; [|done].
    match type of E with (?e ≫= _) = _ => destruct e as [v|] eqn:Hv end; [|done].
    cbn in E. simplify_eq. split; [|by eapply perform_load].
    eapply wsys_frame; [exact Ha| |done]. constructor; try done. cbn. rewrite Ep.
    apply pend_prod_loaded.
  - destruct (may_pass _ _ _) eqn:Hm; simplify_eq. split; [|by eapply perform_copy].
    eapply wsys_frame; [exact Ha| |done]. constructor; try done. cbn. rewrite Ep.
    by apply pend_prod_delete.
  - case_bool_decide; simplify_eq. subst l1. cbn in Ep.
    split; (eapply wsys_frame; [eassumption|..]); try done; constructor; try done;
      cbn; rewrite Ep; apply pend_prod_tail || apply pend_cons_tail.
Qed.

Lemma ahead_sys off : wsys (load_ahead off a) b ha /\ wsys b (load_ahead off a) hb.
Proof using Ha Hb.
  clear Harch. split.
  - eapply wsys_frame; [exact Ha| |done]. by constructor.
  - destruct Hb as [g W]. by eapply ahead_cons.
Qed.

(** The schedule's operations have arguments the C++ types admit. *)
Definition act_ok (x : Act) : Prop := match x with AOp o => op_ok o | _ => True end.

Definition event_send (e : option (Op * StatusCode * list Z)) (h : Hist) : Hist :=
  match e with Some (o, code, _) => hist_send o code h | None => h end.

Definition event_recv (e : option (Op * StatusCode * list Z)) (h : Hist) : Hist :=
  match e with Some (o, code, out) => hist_recv o code out h | None => h end.

Lemma wact_sys x e a' b' :
  act_ok x -> wact arch x a b = Some (e, a', b') ->
  wsys a' b' (event_send e ha) /\ wsys b' a' (event_recv e hb)
  /\ (forall o code out, e = Some (o, code, out) -> code <> kOutOfRange).
Proof using Ha Hb Harch.
  intros Ho E. destruct x as [o|i ahead|off]; cbn in Ho, E.
  - destruct (wexec arch o a) as [[[code out] a1]|] eqn:Ex; [cbn in E|done]. injection E as <- <- <-.
    destruct (wexec_sys o code out a1 Ho Ex) as (? & ? & ?). split_and!; [done..|].
    by intros ? ? ? [= <- <- <-].
  - destruct (perform arch i ahead a b) as [[a1 b1]|] eqn:Ep; [cbn in E|done]. injection E as <- <- <-.
    destruct (perform_sys _ _ _ _ Ep). by split_and!.
  - injection E as <- <- <-. destruct (ahead_sys off). by split_and!.
Qed.

End system.

Lemma wact_cap arch x a b e a' b' :
  wact arch x a b = Some (e, a', b') -> cap_w a' = cap_w a /\ cap_w b' = cap_w b.
Proof.
  intros E. unfold wact, wexec, perform, read_bell, issue_copy, SendBatch_Commit_instrs,
    ReceiveBatch_Commit_instrs, mbind, option_bind in E.
  by repeat case_match; simplify_eq/=.
Qed.

Definition no_broken_invariant (evs : list Event) : Prop :=
  Forall (fun e => ev_code e <> kOutOfRange) evs.

Lemma wrun_sys arch sched : arch <> PowerPC -> forall a b evs a' b' ha hb,
  Forall (fun '(_, x) => act_ok x) sched ->
  wrun arch sched a b = Some (evs, a', b') -> wsys a b ha -> wsys b a hb ->
  wsys a' b' (fold_left (hist_step true) evs ha) /\ wsys b' a' (fold_left (hist_step false) evs hb)
  /\ cap_w a' = cap_w a /\ cap_w b' = cap_w b /\ no_broken_invariant evs.
Proof.
  intros Harch. induction sched as [|[[] x] rest IH]; intros a b evs a' b' ha hb Ho E Ha Hb; cbn in E.
  - simplify_eq. split_and!; done || constructor.
  - inversion_clear Ho as [|? ? Hx Ho'].
    destruct (wact arch x a b) as [[[e a1] b1]|] eqn:Ex; [cbn in E|done].
    destruct (wrun arch rest a1 b1) as [[[evs1 a2] b2]|] eqn:Er; [cbn in E|done]. simplify_eq.
    destruct (wact_cap _ _ _ _ _ _ _ Ex) as [<- <-].
    destruct (wact_sys arch Harch a b ha hb Ha Hb x e a1 b1 Hx Ex) as (H1 & H2 & H3).
    destruct (IH _ _ _ _ _ _ _ Ho' Er H1 H2) as (I1 & I2 & I3 & I4 & I5).
    destruct e as [[[o code] out]|]; cbn; split_and!; try done.
    constructor; [|done]. cbn. by eapply H3.
  - inversion_clear Ho as [|? ? Hx Ho'].
    destruct (wact arch x b a) as [[[e b1] a1]|] eqn:Ex; [cbn in E|done].
    destruct (wrun arch rest a1 b1) as [[[evs1 a2] b2]|] eqn:Er; [cbn in E|done]. simplify_eq.
    destruct (wact_cap _ _ _ _ _ _ _ Ex) as [<- <-].
    destruct (wact_sys arch Harch b a hb ha Hb Ha x e b1 a1 Hx Ex) as (H1 & H2 & H3).
    destruct (IH _ _ _ _ _ _ _ Ho' Er H2 H1) as (I1 & I2 & I3 & I4 & I5).
    destruct e as [[[o code] out]|]; cbn; split_and!; try done.
    constructor; [|done]. cbn. by eapply H3.
Qed.

Lemma connected_wsys a b : connected a b -> wsys (start a) (start b) (mkHist [] [] [] []).
Proof.
  intros Hc. destruct (connected_implements a b Hc) as (P & C & R & Habs). destruct R.
  destruct Hc as (da & la & ea & ra & db & lb & eb & rb & Qa & Qb & ? & E & ? & ? & Da & Db & Ra & Rb & Sa & _ & _ & Sb).
  apply MakeSpscQueuePair_inv in Qa as (? & ? & Qa); [|lia..].
  apply MakeSpscQueuePair_inv in Qb as (? & ? & Qb); [|lia..].
  pose proof (pow2_bounds _ rep_size).
  exists (mkGhost 0 0 0 0 0 [] [] ∅).
  constructor; constructor; unfold cap_w; cbn; rewrite ?Sa, ?Sb, ?Da, ?Db; try done;
    try (rewrite Qa; done); try (rewrite Qb; done); try lia.
  - unfold Zlen. cbn. lia.
  - constructor.
  - constructor.
Qed.

(** ** What the consumer's buffers hold *)

(** The slots [ss] hold the bytes [bs] as far as they are filled. *)
Definition filled (n : WNode) (ss bs : list Z) : Prop :=
  Forall2 (fun s v => forall u, buf (cpu n) !! s = Some u -> u = v) ss bs.

Definition all_filled (n : WNode) (ss bs : list Z) : Prop :=
  Forall2 (fun s v => buf (cpu n) !! s = Some v) ss bs.

Lemma wsys_stream p c h :
  wsys p c h ->
  exists got flight, agree (h_sent h) (got ++ flight) /\ Zlen flight <= cap_w p
    /\ filled c (h_got h) got /\ (pend (cpu c) = [] -> all_filled c (h_got h) got).
Proof.
  intros [g W]. pose proof (winv_bounds _ _ _ _ W) as B. destruct W as [[] [] [] []].
  assert (Hg : forall i s, h_got h !! i = Some s -> gL g !! s = Some (Z.of_nat i) /\ Z.of_nat i < gC g).
  { intros i s Hi. apply (f_equal (fun l => l !! i)) in hi_got0.
    rewrite !list_lookup_fmap, Hi in hi_got0. cbn in hi_got0.
    destruct (decide (Z.of_nat i < gC g)).
    - rewrite lookup_seqZ_lt in hi_got0 by lia. by injection hi_got0.
    - by rewrite lookup_seqZ_ge in hi_got0 by lia. }
  assert (Hlen : length (h_got h) = Z.to_nat (gC g)).
  { apply (f_equal length) in hi_got0. by rewrite !length_fmap, length_seqZ in hi_got0. }
  exists (takeZ (gC g) (gH g)), (dropZ (gC g) (gH g)). rewrite take_dropZ.
  assert (Hnth : forall i s v, h_got h !! i = Some s -> takeZ (gC g) (gH g) !! i = Some v ->
            gL g !! s = Some (Z.of_nat i) /\ v = nthZ (gH g) (Z.of_nat i)).
  { intros i s v Hi Hv. split; [by apply Hg|]. unfold takeZ in Hv.
    apply lookup_take_Some in Hv as [Hv _]. unfold nthZ. rewrite nth_lookup, Nat2Z.id, Hv. done. }
  split_and!; [done| | |].
  - rewrite Zlen_dropZ; lia.
  - apply Forall2_same_length_lookup_2; [unfold takeZ; rewrite length_take; unfold Zlen in *; lia|].
    intros i s v Hi Hv u Hu. destruct (Hnth i s v Hi Hv) as [HL ->].
    destruct (ci_buf0 s u Hu) as (x & Hx & ->). by simplify_eq.
  - intros Hp. apply Forall2_same_length_lookup_2;
      [unfold takeZ; rewrite length_take; unfold Zlen in *; lia|].
    intros i s v Hi Hv. destruct (Hnth i s v Hi Hv) as [HL ->].
    destruct (ci_slots0 s _ HL) as (_ & _ & [[u Hu]|Hw]); [|by rewrite Hp in Hw; inversion Hw].
    destruct (ci_buf0 s u Hu) as (x & Hx & ->). by simplify_eq.
Qed.

(** ** Draining *)

Definition drain_steps (side : bool) (k : nat) : list (bool * Act) :=
  replicate k (side, APerform 0 false).

Lemma wrun_app arch s1 s2 a b evs1 a1 b1 :
  wrun arch s1 a b = Some (evs1, a1, b1) ->
  wrun arch (s1 ++ s2) a b
  = ('(evs2, a2, b2) ← wrun arch s2 a1 b1; Some (evs1 ++ evs2, a2, b2)).
Proof.
  revert a b evs1. induction s1 as [|[[] x] s1 IH]; intros a b evs1 E; cbn in E |- *.
  - simplify_eq. by destruct (wrun arch s2 a1 b1) as [[[]]|].
  - destruct (wact arch x a b) as [[[e a'] b']|]; [cbn in E |- *|done].
    destruct (wrun arch s1 a' b') as [[[evs a''] b'']|] eqn:Er; [cbn in E|done]. simplify_eq.
    rewrite (IH _ _ _ Er). destruct (wrun arch s2 a1 b1) as [[[]]|]; cbn; [|done].
    by rewrite app_assoc.
  - destruct (wact arch x b a) as [[[e b'] a']|]; [cbn in E |- *|done].
    destruct (wrun arch s1 a' b') as [[[evs a''] b'']|] eqn:Er; [cbn in E|done]. simplify_eq.
    rewrite (IH _ _ _ Er). destruct (wrun arch s2 a1 b1) as [[[]]|]; cbn; [|done].
    by rewrite app_assoc.
Qed.

(** The oldest pending access can always be performed. *)
Lemma perform_oldest arch x l self peer :
  pend (cpu self) = x :: l ->
  exists self' peer', perform arch 0 false self peer = Some (self', peer')
    /\ pend (cpu peer') = pend (cpu peer)
    /\ (pend (cpu self') = l \/ exists off s v, x = PLoad off s /\ pend (cpu self') = PCopy s v :: l).
Proof.
  intros E. unfold perform. rewrite E. cbn.
  destruct x; eexists _, _; (split; [reflexivity|]); cbn; eauto 8.
Qed.

Lemma drains arch : forall l a b,
  pend (cpu a) = l ->
  exists k a' b', wrun arch (drain_steps true k) a b = Some ([], a', b')
    /\ pend (cpu a') = [] /\ pend (cpu b') = pend (cpu b).
Proof.
  assert (Step : forall a b a1 b1 k a' b',
    perform arch 0 false a b = Some (a1, b1) ->
    wrun arch (drain_steps true k) a1 b1 = Some ([], a', b') ->
    wrun arch (drain_steps true (S k)) a b = Some ([], a', b')).
  { intros a b a1 b1 k a' b' E1 E2.
    change (drain_steps true (S k)) with ((true, APerform 0 false) :: drain_steps true k).
    cbn [wrun wact]. rewrite E1. cbn [mbind option_bind]. by rewrite E2. }
  induction l as [|x l IH]; intros a b Hl.
  { by exists 0%nat, a, b. }
  destruct (perform_oldest arch x l a b Hl) as (a1 & b1 & E1 & Eb & [El|(off & s & v & -> & El)]).
  - destruct (IH a1 b1 El) as (k & a' & b' & E2 & ? & Eb'). exists (S k), a', b'.
    split; [by eapply Step|]. by rewrite Eb', Eb.
  - destruct (perform_oldest arch _ l a1 b1 El) as (a2 & b2 & E2 & Eb2 & [El2|(? & ? & ? & ? & _)]);
      [|done].
    destruct (IH a2 b2 El2) as (k & a' & b' & E3 & ? & Eb'). exists (S (S k)), a', b'.
    split; [by eapply Step; [done|eapply Step]|]. by rewrite Eb', Eb2, Eb.
Qed.

Lemma drains_right arch a b :
  exists k a' b', wrun arch (drain_steps false k) a b = Some ([], a', b')
    /\ pend (cpu b') = [] /\ pend (cpu a') = pend (cpu a).
Proof.
  destruct (drains arch _ b a eq_refl) as (k & b' & a' & E & Hb & Ha). exists k, a', b'.
  split; [|done]. clear Ha Hb. revert a b E. induction k as [|k IH]; intros a b.
  { by intros [= -> ->]. }
  change (drain_steps ?s (S k)) with ((s, APerform 0 false) :: drain_steps s k).
  cbn [wrun wact].
  destruct (perform arch 0 false b a) as [[b1 a1]|]; cbn [mbind option_bind]; [|done].
  intros E. destruct (wrun arch (drain_steps true k) b1 a1) as [[[evs b2] a2]|] eqn:Er; [|done].
  cbn in E. simplify_eq. by rewrite (IH _ _ Er).
Qed.

Lemma agree_Zlen os bs : agree os bs -> Zlen os = Zlen bs.
Proof. intros H. unfold Zlen. by rewrite (Forall2_length H). Qed.

Lemma wsys_announced p c h :
  wsys p c h -> pend (cpu p) = [] -> pend (cpu c) = [] ->
  bytes_produced (doorbells (region (node c))) = u64 (Zlen (h_sent h))
  /\ remote_bytes_consumed (doorbells (region (node p))) = u64 (Zlen (h_got h)).
Proof.
  intros [g W] Ep Ec. pose proof (winv_bounds _ _ _ _ W) as B. destruct W as [[] [] [] []].
  rewrite Ep in pi_pend0. rewrite Ec in ci_pend0. cbn in pi_pend0, ci_pend0.
  rewrite (agree_Zlen _ _ hi_sent0), wi_stream0, ci_bell0, pi_bell0, pi_pend0. split; [done|].
  apply (f_equal length) in hi_got0. rewrite !length_fmap, length_seqZ in hi_got0.
  f_equal. unfold Zlen. rewrite hi_got0. lia.
Qed.

(** ** Properties *)

(** C3 (safety).  On x86-64, AArch64 and RISC-V, whatever order the two CPUs
    perform their stores, loads and doorbell updates in, as far as the
    barriers and the architecture allow (stores of write-combined memory
    reordered and delayed, ring bytes loaded ahead of the program), and
    whatever calls the two nodes make: in each direction every byte that has
    reached a buffer of the consumer is the byte committed at its place of
    the stream, every byte of a completed [Recv] arrives once its CPU has
    nothing pending, at most a ring of bytes is in flight, and no
    [BeginReceive] reports a broken invariant. *)
Theorem weak_byte_stream arch a b sched evs a' b' :
  arch <> PowerPC -> connected a b -> Forall (fun '(_, x) => act_ok x) sched ->
  wrun arch sched (start a) (start b) = Some (evs, a', b') ->
  (exists got flight, agree (h_sent (history true evs)) (got ++ flight) /\ Zlen flight <= cap_of a
     /\ filled b' (h_got (history true evs)) got
     /\ (pend (cpu b') = [] -> all_filled b' (h_got (history true evs)) got))
  /\ (exists got flight, agree (h_sent (history false evs)) (got ++ flight) /\ Zlen flight <= cap_of b
     /\ filled a' (h_got (history false evs)) got
     /\ (pend (cpu a') = [] -> all_filled a' (h_got (history false evs)) got))
  /\ no_broken_invariant evs.
Proof.
  intros Harch Hc Ho E.
  destruct (wrun_sys arch sched Harch _ _ _ _ _ _ _ Ho E (connected_wsys _ _ Hc)
              (connected_wsys _ _ (connected_sym _ _ Hc))) as (Ha & Hb & Ea & Eb & Hn).
  apply wsys_stream in Ha, Hb. rewrite Ea in Ha. rewrite Eb in Hb. by split_and!.
Qed.

(** C21 (liveness).  After any such execution the CPUs can perform
    everything they have pending, oldest first, and then the doorbells of
    each direction say exactly how many bytes were committed and how many
    were consumed: no commit stays invisible. *)
Theorem weak_commits_arrive arch a b sched evs a1 b1 :
  arch <> PowerPC -> connected a b -> Forall (fun '(_, x) => act_ok x) sched ->
  wrun arch sched (start a) (start b) = Some (evs, a1, b1) ->
  exists k m a2 b2,
    wrun arch (sched ++ drain_steps true k ++ drain_steps false m) (start a) (start b)
    = Some (evs, a2, b2)
    /\ pend (cpu a2) = [] /\ pend (cpu b2) = []
    /\ bytes_produced (doorbells (region (node b2))) = u64 (Zlen (h_sent (history true evs)))
    /\ remote_bytes_consumed (doorbells (region (node a2))) = u64 (Zlen (h_got (history true evs)))
    /\ bytes_produced (doorbells (region (node a2))) = u64 (Zlen (h_sent (history false evs)))
    /\ remote_bytes_consumed (doorbells (region (node b2))) = u64 (Zlen (h_got (history false evs))).
Proof.
  intros Harch Hc Ho E.
  destruct (drains arch _ a1 b1 eq_refl) as (k & a' & b' & E1 & Hpa & _).
  destruct (drains_right arch a' b') as (m & a2 & b2 & E2 & Hpb & Ha').
  assert (Er : wrun arch (sched ++ drain_steps true k ++ drain_steps false m) (start a) (start b)
               = Some (evs, a2, b2)).
  { rewrite (wrun_app _ _ _ _ _ _ _ _ E), (wrun_app _ _ _ _ _ _ _ _ E1), E2. cbn.
    by rewrite app_nil_r. }
  exists k, m, a2, b2. rewrite Hpa in Ha'.
  assert (Ho' : Forall (fun '(_, x) => act_ok x) (sched ++ drain_steps true k ++ drain_steps false m)).
  { rewrite !Forall_app. split_and!; [done|by apply Forall_replicate..]. }
  destruct (wrun_sys arch _ Harch _ _ _ _ _ _ _ Ho' Er (connected_wsys _ _ Hc)
              (connected_wsys _ _ (connected_sym _ _ Hc))) as (Hs & Hs' & _).
  destruct (wsys_announced _ _ _ Hs) as [? ?]; [done..|].
  destruct (wsys_announced _ _ _ Hs') as [? ?]; [done..|]. by split_and!.
Qed.

(** C30 (error).  The generic accessors, which PowerPC gets, have no acquire
    load: [MmioReadAcquire64] is a plain load between compiler barriers.  A
    ring byte loaded ahead of the doorbell is stale, and the consumer
    receives 0 where 7 was committed, with every access performed. *)
Theorem powerpc_stale_byte :
  exists sched evs a' b',
    Forall (fun '(_, x) => act_ok x) sched
    /\ wrun PowerPC sched (start ex_a) (start ex_b) = Some (evs, a', b')
    /\ pend (cpu a') = [] /\ pend (cpu b') = []
    /\ h_sent (history true evs) = [Some 7] /\ h_got (history true evs) = [0]
    /\ buf (cpu b') !! 0 = Some 0.
Proof.
  set (sched := [ (false, AAhead 0); (true, AOp OpBeginSend); (true, AOp (OpAppend 4 [7]));
      (true, AOp OpSendCommit) ] ++ drain_steps true 4
      ++ [ (false, AOp OpBeginReceive); (false, AOp (OpRecv 1)); (false, APerform 0 true);
           (false, APerform 0 false); (false, AOp OpReceiveCommit) ] ++ drain_steps false 2).
  destruct (wrun PowerPC sched (start ex_a) (start ex_b)) as [[[evs a'] b']|] eqn:E;
    [|vm_compute in E; discriminate].
  exists sched, evs, a', b'. split; [repeat constructor; unfold byte_ok, is_u64; lia|].
  split; [done|]. vm_compute in E. injection E as <- <- <-. done.
Qed.

(** On x86 a release store is a plain store: between write-combined stores
    and a doorbell only the explicit barrier of [Commit] keeps the order. *)
Example x86_release_needs_barrier :
  may_pass X86_64 (accesses (MmioWriteRelaxed X86_64 W8 (LRing 0) 7))
    (PStore W64 LBytesProduced 1) = true
  /\ accesses (MmioWriteRelease X86_64 W64 LBytesProduced 1) = [PStore W64 LBytesProduced 1]
  /\ may_pass X86_64
       (accesses (MmioWriteRelaxed X86_64 W8 (LRing 0) 7 ++ MmioWriteBarrier X86_64))
       (PStore W64 LBytesProduced 1) = false.
Proof. done. Qed.

(** *** Witnesses: Arm, out of order *)

Definition arm_sched : list (bool * Act) :=
  [ (false, AAhead 0); (true, AOp OpBeginSend); (true, AOp (OpAppend 4 [1; 2; 3; 4; 5]));
    (true, AOp OpSendCommit); (true, APerform 2 false); (true, APerform 1 false) ]
  ++ drain_steps true 4
  ++ [ (false, AOp OpBeginReceive); (false, AOp (OpRecv 5)); (false, APerform 5 false);
       (false, AAhead 1); (false, APerform 2 true); (false, APerform 5 false);
       (false, AOp OpReceiveCommit) ].

Lemma arm_sched_ok : Forall (fun '(_, x) => act_ok x) arm_sched.
Proof. repeat constructor; unfold byte_ok, is_u64; lia. Qed.

Lemma weak_byte_stream_witness :
  exists evs a' b', wrun Aarch64 arm_sched (start ex_a) (start ex_b) = Some (evs, a', b')
    /\ h_got (history true evs) = [0; 1; 2; 3; 4] /\ buf (cpu b') !! 4 = Some 5
    /\ exists got flight, agree (h_sent (history true evs)) (got ++ flight)
         /\ filled b' (h_got (history true evs)) got.
Proof.
  destruct (wrun Aarch64 arm_sched (start ex_a) (start ex_b)) as [[[evs a'] b']|] eqn:E;
    [|vm_compute in E; discriminate].
  exists evs, a', b'. split; [reflexivity|].
  destruct (weak_byte_stream Aarch64 ex_a ex_b arm_sched evs a' b' ltac:(discriminate)
              ex_connected arm_sched_ok E) as ((got & flight & H1 & _ & H2 & _) & _ & _).
  split; [|split; [|exists got, flight; split; [exact H1|exact H2]]];
    clear H1 H2; vm_compute in E; injection E as <- _ <-; reflexivity.
Defined.

Lemma weak_commits_arrive_witness :
  exists evs k m a2 b2,
    wrun Aarch64 (arm_sched ++ drain_steps true k ++ drain_steps false m) (start ex_a) (start ex_b)
    = Some (evs, a2, b2)
    /\ bytes_produced (doorbells (region (node b2))) = u64 (Zlen (h_sent (history true evs))).
Proof.
  destruct (wrun Aarch64 arm_sched (start ex_a) (start ex_b)) as [[[evs a'] b']|] eqn:E;
    [|vm_compute in E; discriminate].
  destruct (weak_commits_arrive Aarch64 ex_a ex_b arm_sched evs a' b' ltac:(discriminate)
              ex_connected arm_sched_ok E) as (k & m & a2 & b2 & Er & _ & _ & H & _).
  exists evs, k, m, a2, b2. split; [exact Er|exact H].
Defined.
