(* ===== verification/SpscMessaging.v ===== *)
(** * Messages over the byte ring
    (dxs/client/spsc_queue/spsc_messaging_queue_pair.{h,cc})

    [SpscMessagingQueuePair] frames messages as a 4-byte header, the body and
    padding to the next 64-byte boundary.  The file holds [Send] and [Receive]
    and shows that the two ends of a connected pair implement a FIFO of
    messages in each direction. *)

From S2P Require Import Prelude Ring SpscQueuePair.

Definition kAlignment : Z := 64.
Definition kMaxMessageSize : Z := 16 * 1024 * 1024 - 1.

Definition AlignDownTo (x align : Z) : Z := align * (x / align).

Definition AlignUpTo (x align : Z) : Z := AlignDownTo (u64 (x + align - 1)) align.

(** [sizeof(MessageHeader)] *)
Definition kHeaderSize : Z := 4.

Definition PaddingBytes (body_bytes : Z) : Z :=
  u64 (AlignUpTo (u64 (body_bytes + kHeaderSize)) kAlignment - kHeaderSize - body_bytes).

(** [MessageHeader]: 8 reserved bits, then the 24-bit body length. *)
Definition header_bytes (body_bytes : Z) : list Z :=
  le_encode 4 (Z.shiftl (body_bytes mod 2 ^ 24) 8).

Definition header_body_bytes (bs : list Z) : Z := Z.shiftr (le_decode bs) 8.

(** [Send]; [hdr_addr] and [msg_addr] are the addresses of the header on the
    stack and of the message. *)
Definition Send (q : SpscQueuePair) (local remote : Region) (hdr_addr msg_addr : Z)
    (msg : list Z) : StatusCode * SpscQueuePair * Region :=
  if kMaxMessageSize <? Zlen msg then (kInvalidArgument, q, remote)
  else
    let batch := BeginSend q local in
    let '(status, batch, remote) :=
      SendBatch_Append q remote batch hdr_addr (header_bytes (Zlen msg)) in
    if negb (bool_decide (status = kOk)) then (status, q, remote)
    else
      let '(status, batch, remote) := SendBatch_Append q remote batch msg_addr msg in
      if negb (bool_decide (status = kOk)) then (status, q, remote)
      else
        let '(status, batch) := SendBatch_Skip batch (PaddingBytes (Zlen msg)) in
        if negb (bool_decide (status = kOk)) then (status, q, remote)
        else SendBatch_Commit q remote batch.

(** Result of [Receive(handler)]: the status, the queue, the peer's region,
    the spans the handler was called with (if it was called) and whether the
    header was read by the copying fallback. *)
Record ReceiveResult := mkReceiveResult {
  rr_status : StatusCode;
  rr_queue : SpscQueuePair;
  rr_remote : Region;
  rr_handler : option (list Z * list Z);
  rr_fallback : bool
}.

(** The part of [Receive] after the header. *)
Definition ReceiveBody (q : SpscQueuePair) (local remote : Region) (fallback : bool)
    (batch : ReceiveBatch) (body_bytes : Z) : ReceiveResult :=
  if RemainingBytes batch <? body_bytes
  then mkReceiveResult kUnavailable q remote None fallback
  else
    let first_segment_size := size (rb_segment_ batch) in
    let handled :=
      if first_segment_size <? body_bytes then
        (read_span q local (rb_segment_ batch),
         read_span q local
           (subspan (rb_backup_segment_ batch) 0 (body_bytes - first_segment_size)))
      else (read_span q local (subspan (rb_segment_ batch) 0 body_bytes), []) in
    let '(_, batch, _) := ReceiveBatch_Recv q local batch false body_bytes in
    let '(status, batch, _) :=
      ReceiveBatch_Recv q local batch false (PaddingBytes body_bytes) in
    if negb (bool_decide (status = kOk))
    then mkReceiveResult status q remote (Some handled) fallback
    else
      let '(status, q', remote') := ReceiveBatch_Commit q remote batch in
      mkReceiveResult status q' remote' (Some handled) fallback.

Definition Receive (q : SpscQueuePair) (local remote : Region) : ReceiveResult :=
  let '(status, batch) := BeginReceive q local empty_receive_batch in
  if negb (bool_decide (status = kOk)) then mkReceiveResult status q remote None false
  else if size (rb_segment_ batch) <? kHeaderSize then
    let '(status, batch, header) := ReceiveBatch_Recv q local batch true kHeaderSize in
    if negb (bool_decide (status = kOk)) then mkReceiveResult status q remote None true
    else ReceiveBody q local remote true batch (header_body_bytes header)
  else
    let body_bytes :=
      header_body_bytes (read_span q local (mkSpan (data (rb_segment_ batch)) kHeaderSize)) in
    let '(_, batch, _) := ReceiveBatch_Recv q local batch false kHeaderSize in
    ReceiveBody q local remote false batch body_bytes.

(** [Receive()], which returns the message as a string. *)
Definition ReceiveString (q : SpscQueuePair) (local remote : Region)
    : StatusOr (list Z) * SpscQueuePair * Region :=
  let r := Receive q local remote in
  (match rr_status r with
   | kOk => Ok (match rr_handler r with Some (first, second) => first ++ second | None => [] end)
   | c => Err c
   end, rr_queue r, rr_remote r).

(** [Create] and [Restore]: a region is the doorbell page followed by the
    ring.  Both assume regions of at least a doorbell page; for a shorter one
    [absl::Span::subspan] throws. *)
Definition region_doorbells (r : Span) : Span := subspan r 0 kDoorbellsSize.
Definition region_ring (r : Span) : Span :=
  subspan r kDoorbellsSize (size r - kDoorbellsSize).

Definition Create (local_region remote_region : Span) : StatusOr SpscQueuePair :=
  MakeSpscQueuePair (region_doorbells local_region) (region_ring local_region)
    (region_doorbells remote_region) (region_ring remote_region).

Definition Restore (local_region remote_region : Span) (remote : Region)
    (state : SpscQueuePairState) : StatusOr SpscQueuePair :=
  if negb (remote_bytes_produced state mod kAlignment =? 0)
     || negb (local_bytes_consumed state mod kAlignment =? 0)
  then Err kInvalidArgument
  else
    ret ← Create local_region remote_region;
    RestoreState ret remote state.

(** ** Frames *)

Lemma padding_spec n :
  0 <= n <= kMaxMessageSize ->
  0 <= PaddingBytes n < 64 /\ (n + kHeaderSize + PaddingBytes n) mod 64 = 0.
Proof.
  unfold PaddingBytes, AlignUpTo, AlignDownTo, kHeaderSize, kAlignment, kMaxMessageSize.
  intros Hn. rewrite (u64_small (n + 4)) by lia. rewrite (u64_small (n + 4 + 64 - 1)) by lia.
  pose proof (Z.div_mod (n + 4 + 64 - 1) 64 ltac:(lia)).
  pose proof (Z.mod_pos_bound (n + 4 + 64 - 1) 64 ltac:(lia)).
  rewrite u64_small by lia. split; [lia|].
  replace (_ + _) with ((n + 4 + 64 - 1) / 64 * 64) by lia. apply Z.mod_mul. lia.
Qed.

Lemma header_roundtrip n :
  0 <= n <= kMaxMessageSize -> header_body_bytes (header_bytes n) = n.
Proof.
  unfold header_body_bytes, header_bytes, kMaxMessageSize. intros Hn.
  rewrite le_decode_encode, Z.shiftr_div_pow2, Z.shiftl_mul_pow2 by lia.
  change (256 ^ Z.of_nat 4) with (2 ^ 32). rewrite (Z.mod_small n) by lia.
  rewrite Z.mod_small by lia. apply Z.div_mul. lia.
Qed.

Lemma header_length n : Zlen (header_bytes n) = kHeaderSize.
Proof. apply Zlen_le_encode. Qed.

(** Size of the frame of a message with [n] body bytes. *)
Definition frame_size (n : Z) : Z := kHeaderSize + n + PaddingBytes n.

(** [frames ms bs]: the bytes [bs] are the frames of the messages [ms]. *)
Inductive frames : list (list Z) -> list Z -> Prop :=
  | frames_nil : frames [] []
  | frames_cons m pad ms rest :
      Zlen m <= kMaxMessageSize -> Zlen pad = PaddingBytes (Zlen m) -> frames ms rest ->
      frames (m :: ms) (header_bytes (Zlen m) ++ m ++ pad ++ rest).

Lemma frames_inv m ms bs :
  frames (m :: ms) bs ->
  exists pad rest, bs = header_bytes (Zlen m) ++ m ++ pad ++ rest
    /\ Zlen m <= kMaxMessageSize /\ Zlen pad = PaddingBytes (Zlen m) /\ frames ms rest.
Proof. intros H; inversion H; eauto 10. Qed.

Lemma frames_snoc ms bs m pad :
  frames ms bs -> Zlen m <= kMaxMessageSize -> Zlen pad = PaddingBytes (Zlen m) ->
  frames (ms ++ [m]) (bs ++ header_bytes (Zlen m) ++ m ++ pad).
Proof.
  induction 1; intros Hm Hp; cbn [app].
  - rewrite <- (app_nil_r pad). by repeat constructor.
  - rewrite <- !app_assoc. constructor; auto.
Qed.

(** ** The message FIFO of one direction *)

(** [p] and [c] have no batch open, both counters are aligned and the queued
    bytes are the frames of [ms]. *)
Definition chan_msgs (p c : Node) (ms : list (list Z)) : Prop :=
  exists P C, chan_rep p c P C /\ P mod 64 = 0 /\ C mod 64 = 0
    /\ sbatch p = None /\ rbatch c = None
    /\ frames ms (window (ring (region c)) C (P - C)).

Definition idle (q : SpscQueuePair) (r : Region) : Node := mkNode q r None None.

(** Bytes written to the free part of the ring do not disturb the queue. *)
Lemma chan_scribble q local qc remote P C xs :
  chan_rep (idle q local) (idle qc remote) P C ->
  Zlen xs <= size (remote_ring_ q) - (P - C) ->
  let remote' := mkRegion (doorbells remote) (wr (ring remote) P xs) in
  chan_rep (idle q local) (idle qc remote') P C
  /\ window (ring remote') C (P - C) = window (ring remote) C (P - C).
Proof.
  intros R Hx. pose proof R as R0; destruct R0; cbn in *. pose proof (pow2_bounds _ rep_size).
  split.
  - frame_rep R; try done. by rewrite wr_length.
  - apply window_wr_disjoint; lia.
Qed.

(** What [Send] does to the ring: [xs] was written behind the queued bytes. *)
Definition wrote (remote : Region) (P : Z) (xs : list Z) : Region :=
  mkRegion (doorbells remote) (wr (ring remote) P xs).

Lemma wrote_app remote P xs ys :
  wrote (wrote remote P xs) (P + Zlen xs) ys = wrote remote P (xs ++ ys).
Proof. unfold wrote; cbn. by rewrite wr_app. Qed.

Lemma Send_spec q local qc remote ha ma msg P C :
  chan_rep (idle q local) (idle qc remote) P C -> Forall byte_ok msg ->
  Zlen msg <= kMaxMessageSize ->
  let free := size (remote_ring_ q) - (P - C) in
  if frame_size (Zlen msg) <=? free then
    Send q local remote ha ma msg
    = SendBatch_Commit q (wrote remote P (header_bytes (Zlen msg) ++ msg))
        (mkSendBatch empty_span empty_span (frame_size (Zlen msg)))
  else exists xs, Zlen xs <= free /\
    Send q local remote ha ma msg = (kResourceExhausted, q, wrote remote P xs).
Proof.
  intros R Hb Hm free. destruct R; cbn in *. pose proof (pow2_bounds _ rep_size).
  pose proof (Zlen_nonneg msg). pose proof (header_length (Zlen msg)) as Hh.
  destruct (padding_spec (Zlen msg)) as [Hpad _]; [lia|].
  unfold Send, frame_size. destruct (Z.ltb_spec kMaxMessageSize (Zlen msg)); [lia|].
  destruct (BeginSend_spec q local P C) as (Hr0 & Hp0 & Hc0); try (done || lia).
  set (b0 := BeginSend q local) in *. unfold kHeaderSize in *.
  assert (Hbh : Forall byte_ok (header_bytes (Zlen msg))) by apply le_encode_ok.
  destruct (Z.lt_ge_cases free 4) as [Hf|Hf].
  { rewrite (Append_full _ _ _ _ _ _ _ _ rep_size Hc0) by lia.
    destruct (Z.leb_spec (4 + Zlen msg + PaddingBytes (Zlen msg)) free); [lia|].
    exists []. split; [rewrite Zlen_nil; subst free; lia|]. unfold wrote; cbn. by destruct remote. }
  destruct (Append_ok q remote b0 ha (header_bytes (Zlen msg)) _ _ rep_size Hc0)
    as (b1 & -> & Hr1 & Hp1 & Hc1); try (done || lia).
  rewrite bool_decide_true by done. cbn [negb].
  change (mkRegion (doorbells remote) (wr (ring remote) P (header_bytes (Zlen msg))))
    with (wrote remote P (header_bytes (Zlen msg))).
  destruct (Z.lt_ge_cases (room_of b1) (Zlen msg)) as [Hf1|Hf1].
  { rewrite (Append_full _ _ _ _ _ _ _ _ rep_size Hc1) by lia.
    destruct (Z.leb_spec (4 + Zlen msg + PaddingBytes (Zlen msg)) free); [lia|].
    exists (header_bytes (Zlen msg)). split; [lia|done]. }
  destruct (Append_ok q (wrote remote P (header_bytes (Zlen msg))) b1 ma msg _ _ rep_size Hc1)
    as (b2 & -> & Hr2 & Hp2 & Hc2); try (done || lia).
  { unfold wrote; cbn [ring]. by rewrite wr_length. }
  rewrite bool_decide_true by done. cbn [negb]. cbn [wrote doorbells ring].
  rewrite <- wr_app. fold (wrote remote P (header_bytes (Zlen msg) ++ msg)).
  destruct (Z.lt_ge_cases (room_of b2) (PaddingBytes (Zlen msg))) as [Hf2|Hf2].
  { rewrite (Skip_full _ _ _ _ _ rep_size Hc2) by lia.
    destruct (Z.leb_spec (4 + Zlen msg + PaddingBytes (Zlen msg)) free); [lia|].
    exists (header_bytes (Zlen msg) ++ msg). split; [rewrite Zlen_app; lia|done]. }
  destruct (Skip_ok b2 (PaddingBytes (Zlen msg)) _ _ _ rep_size Hc2)
    as (b3 & -> & Hr3 & Hp3 & Hc3); try lia.
  rewrite bool_decide_true by done. cbn [negb].
  destruct (Z.leb_spec (4 + Zlen msg + PaddingBytes (Zlen msg)) free); [|lia].
  unfold SendBatch_Commit; cbn [pending_bytes_]. repeat f_equal; lia.
Qed.

Lemma window_frame r pos xs n :
  0 < Zlen r -> Zlen xs <= n <= Zlen r ->
  window (wr r pos xs) pos n = xs ++ window (wr r pos xs) (pos + Zlen xs) (n - Zlen xs).
Proof.
  intros. pose proof (Zlen_nonneg xs).
  replace n with (Zlen xs + (n - Zlen xs)) at 1 by lia.
  rewrite window_app by lia. f_equal. apply window_wr_same; lia.
Qed.

(** Total size of the frames of the queued messages. *)
Fixpoint frames_size (ms : list (list Z)) : Z :=
  match ms with [] => 0 | m :: ms' => frame_size (Zlen m) + frames_size ms' end.

Lemma frames_length ms bs : frames ms bs -> Zlen bs = frames_size ms.
Proof.
  induction 1; cbn [frames_size]; [done|].
  rewrite !Zlen_app, header_length. unfold frame_size. lia.
Qed.

Lemma frame_aligned n : 0 <= n <= kMaxMessageSize -> frame_size n mod 64 = 0 /\ 64 <= frame_size n.
Proof.
  intros Hn. destruct (padding_spec n Hn) as [? H]. unfold frame_size, kHeaderSize in *.
  replace (4 + n + PaddingBytes n) with (n + 4 + PaddingBytes n) by lia. split; [done|].
  pose proof (Z.div_mod (n + 4 + PaddingBytes n) 64). lia.
Qed.

Lemma chan_free q local qc remote P C ms :
  chan_rep (idle q local) (idle qc remote) P C ->
  frames ms (window (ring remote) C (P - C)) -> frames_size ms = P - C.
Proof.
  intros [] Hf. rewrite <- (frames_length _ _ Hf). apply window_length. lia.
Qed.

Lemma chan_commit q local qc remote P C s1 s2 n :
  chan_rep (idle q local) (idle qc remote) P C -> 0 <= n ->
  P + n <= C + size (remote_ring_ q) ->
  let '(_, q', remote') := SendBatch_Commit q remote (mkSendBatch s1 s2 n) in
  chan_rep (idle q' local) (idle qc remote') (P + n) C.
Proof.
  intros R Hn Hcap. destruct R; constructor; cbn in *; try done; try lia;
    by rewrite rep_produced, u64_add_l.
Qed.

(** [Send] appends the message exactly when its frame fits behind the frames
    already queued, and otherwise leaves the queue as it was. *)
Lemma Send_msgs q local qc remote ha ma msg ms :
  chan_msgs (idle q local) (idle qc remote) ms -> Forall byte_ok msg ->
  Zlen msg <= kMaxMessageSize ->
  let '(code, q', remote') := Send q local remote ha ma msg in
  if frames_size ms + frame_size (Zlen msg) <=? size (remote_ring_ q)
  then code = kOk /\ chan_msgs (idle q' local) (idle qc remote') (ms ++ [msg])
  else code = kResourceExhausted /\ q' = q /\ chan_msgs (idle q local) (idle qc remote') ms.
Proof.
  intros (P & C & R & HP & HC & _ & _ & Hf) Hb Hm; cbn [region idle] in Hf.
  pose proof (Zlen_nonneg msg). rewrite (chan_free _ _ _ _ _ _ _ R Hf).
  pose proof (Send_spec q local qc remote ha ma msg P C R Hb Hm) as HS. cbn zeta in HS.
  destruct (frame_aligned (Zlen msg)) as [Hal _]; [lia|].
  destruct (padding_spec (Zlen msg)) as [Hpad _]; [lia|].
  destruct (Z.leb_spec (frame_size (Zlen msg)) (size (remote_ring_ q) - (P - C))) as [Hle|Hgt].
  - rewrite HS. unfold SendBatch_Commit.
    destruct (Z.leb_spec (P - C + frame_size (Zlen msg)) (size (remote_ring_ q))); [|lia].
    split; [done|]. set (fs := frame_size (Zlen msg)) in *.
    set (xs := header_bytes (Zlen msg) ++ msg).
    assert (Hxs : Zlen xs = 4 + Zlen msg) by (subst xs; by rewrite Zlen_app, header_length).
    assert (Hfs : fs = Zlen xs + PaddingBytes (Zlen msg)) by (subst fs; unfold frame_size, kHeaderSize; lia).
    destruct (chan_scribble _ _ _ _ P C xs R) as [R' W]; [lia|].
    pose proof R as R0; destruct R0; cbn in rep_size, rep_ring, rep_order, rep_cap.
    pose proof (pow2_bounds _ rep_size).
    exists (P + fs), C. split_and!; try done.
    + refine (chan_commit _ _ _ _ P C empty_span empty_span fs R' _ _); lia.
    + rewrite Z.add_mod, HP, Hal by lia. done.
    + cbn [region idle ring wrote]. cbn [ring] in W.
      replace (P + fs - C) with (P - C + fs) by lia.
      rewrite window_app, W by lia. replace (C + (P - C)) with P by lia.
      rewrite window_frame by lia. subst xs. rewrite <- app_assoc.
      apply frames_snoc; try done. rewrite window_length; lia.
  - destruct HS as (xs & Hxs & ->).
    destruct (Z.leb_spec (P - C + frame_size (Zlen msg)) (size (remote_ring_ q))); [lia|].
    split_and!; [done..|]. destruct (chan_scribble _ _ _ _ P C xs R Hxs) as [R' W].
    exists P, C. split_and!; try done. cbn [region idle ring wrote]. cbn [ring] in W.
    by rewrite W.
Qed.

(** A [Send] of one direction does not touch the other direction. *)
Lemma Send_other q local qc remote ha ma msg ms :
  chan_msgs (idle qc remote) (idle q local) ms ->
  let '(code, q', remote') := Send q local remote ha ma msg in
  chan_msgs (idle qc remote') (idle q' local) ms.
Proof.
  intros (P & C & R & HP & HC & _ & _ & Hf).
  assert (K : forall q' remote',
    (local_ring_ q', local_bytes_consumed_ q', local_ring_size_mask_ q')
    = (local_ring_ q, local_bytes_consumed_ q, local_ring_size_mask_ q) ->
    remote_bytes_consumed (doorbells remote') = remote_bytes_consumed (doorbells remote) ->
    chan_msgs (idle qc remote') (idle q' local) ms).
  { intros q' remote' [= E1 E2 E3] E4. exists P, C. split_and!; try done.
    destruct R; constructor; cbn in *; rewrite ?E1, ?E2, ?E3, ?E4; auto. }
  unfold Send, SendBatch_Append, SendBatch_Commit.
  repeat case_match; simplify_eq/=; by apply K.
Qed.

(** ** Receiving *)

(** The spans handed to the handler are the body. *)
Lemma handler_spans q local b sz pos body :
  0 < sz -> Zlen (ring local) = sz ->
  covers (data (local_ring_ q)) sz pos (left_of b) (rb_segment_ b) (rb_backup_segment_ b) ->
  0 <= body <= left_of b ->
  let handled :=
    if size (rb_segment_ b) <? body then
      (read_span q local (rb_segment_ b),
       read_span q local (subspan (rb_backup_segment_ b) 0 (body - size (rb_segment_ b))))
    else (read_span q local (subspan (rb_segment_ b) 0 body), []) in
  fst handled ++ snd handled = window (ring local) pos body.
Proof.
  intros Hsz HL Hc Hb. pose proof (cov_seg _ _ _ _ _ _ Hc). pose proof (cov_backup _ _ _ _ _ _ Hc).
  assert (Hl : left_of b = size (rb_segment_ b) + size (rb_backup_segment_ b)) by done.
  unfold subspan. destruct (Z.ltb_spec (size (rb_segment_ b)) body); cbn [fst snd].
  - rewrite Z.add_0_r, Z.sub_0_r, Z.min_l by lia.
    pose proof (covers_promote _ sz _ _ _ _ Hsz Hc) as Hc2.
    rewrite (read_segment q local _ sz _ _ _ _ (body - size (rb_segment_ b)) Hsz eq_refl HL Hc2) by lia.
    destruct (rb_segment_ b) as [d s] eqn:E. cbn [size] in *.
    change (mkSpan d s) with (mkSpan (data (mkSpan d s)) s) at 1.
    rewrite (read_segment q local _ sz pos _ _ _ s Hsz eq_refl HL Hc) by (cbn; lia).
    rewrite <- window_app by lia. f_equal. lia.
  - rewrite app_nil_r, Z.add_0_r, Z.sub_0_r, Z.min_l by lia.
    apply (read_segment q local _ sz pos _ _ _ body Hsz eq_refl HL Hc). lia.
Qed.

(** After the header: the body is handed over and the whole frame consumed. *)
Lemma ReceiveBody_ok q local remote fb b sz pos body :
  pow2_size sz -> Zlen (ring local) = sz ->
  covers (data (local_ring_ q)) sz pos (left_of b) (rb_segment_ b) (rb_backup_segment_ b) ->
  taken_bytes_ b = kHeaderSize -> kHeaderSize + left_of b <= sz ->
  0 <= body <= kMaxMessageSize -> body + PaddingBytes body <= left_of b ->
  exists handled,
    ReceiveBody q local remote fb b body
    = (let '(code, q', remote') :=
         ReceiveBatch_Commit q remote (mkReceiveBatch empty_span empty_span (frame_size body)) in
       mkReceiveResult code q' remote' (Some handled) fb)
    /\ fst handled ++ snd handled = window (ring local) pos body.
Proof.
  intros Hp HL Hc Ht Hsum Hb Hfit. pose proof (pow2_bounds _ Hp). unfold kHeaderSize in *.
  destruct (padding_spec body Hb) as [Hpad _].
  unfold ReceiveBody. rewrite (left_u64 _ sz pos) by (done || lia).
  destruct (Z.ltb_spec (left_of b) body); [lia|].
  destruct (Recv_ok q local b false body sz pos Hp Hc) as (b1 & -> & Hl1 & Ht1 & Hc1); try lia.
  destruct (Recv_ok q local b1 false (PaddingBytes body) sz (pos + body) Hp Hc1)
    as (b2 & -> & Hl2 & Ht2 & Hc2); try lia.
  rewrite bool_decide_true by done. cbn [negb].
  eexists. split; [|apply (handler_spans q local b sz pos body); (done || lia)].
  unfold ReceiveBatch_Commit; cbn [taken_bytes_].
  replace (taken_bytes_ b2) with (frame_size body) by (unfold frame_size, kHeaderSize; lia). done.
Qed.

(** The header of an aligned message never crosses the end of the ring. *)
Lemma aligned_tail sz C : pow2_size sz -> C mod 64 = 0 -> 64 <= sz - C mod sz.
Proof.
  intros (k & Hk & ->) HC. assert (H6 : 2 ^ k = 64 * 2 ^ (k - 6)).
  { change 64 with (2 ^ 6). rewrite <- Z.pow_add_r by lia. f_equal. lia. }
  assert (0 < 2 ^ (k - 6)) by (apply Z.pow_pos_nonneg; lia).
  set (n := 2 ^ (k - 6)) in *. rewrite H6.
  assert (E : C = 64 * (C / 64)) by (pose proof (Z.div_mod C 64); lia).
  rewrite E, Z.mul_mod_distr_l by lia. pose proof (Z.mod_pos_bound (C / 64) n). lia.
Qed.

Lemma Receive_empty q local qp_ remote :
  chan_msgs (idle qp_ remote) (idle q local) [] ->
  Receive q local remote = mkReceiveResult kUnavailable q remote None false.
Proof.
  intros (P & C & R & _ & _ & _ & _ & Hf).
  pose proof (chan_free _ _ _ _ _ _ _ R Hf) as E. destruct R; cbn in *.
  unfold Receive. rewrite (BeginReceive_empty _ _ _ P); [done..|].
  rewrite rep_consumed. f_equal. lia.
Qed.

Lemma Receive_ok q local qp_ remote m ms :
  chan_msgs (idle qp_ remote) (idle q local) (m :: ms) ->
  exists handled q' remote',
    Receive q local remote = mkReceiveResult kOk q' remote' (Some handled) false
    /\ fst handled ++ snd handled = m
    /\ chan_msgs (idle qp_ remote') (idle q' local) ms.
Proof.
  intros (P & C & R & HP & HC & _ & _ & Hf); cbn [region idle] in Hf.
  pose proof (chan_free _ _ _ _ _ _ _ R Hf) as E. cbn [frames_size] in E.
  destruct (frames_inv _ _ _ Hf) as (pad & rest & E2 & Hm & Hpad & Hrest). symmetry in E2.
  pose proof (Zlen_nonneg m). destruct (frame_aligned (Zlen m)) as [Hal Hmin]; [lia|].
  destruct (padding_spec (Zlen m)) as [Hp _]; [lia|].
  assert (Hs : Zlen rest = frames_size ms) by by apply frames_length.
  pose proof (Zlen_nonneg rest).
  pose proof R as R0; destruct R0; cbn in rep_size, rep_ring, rep_local, rep_mask_c, rep_bell_produced,
    rep_consumed, rep_order, rep_cap.
  pose proof (pow2_bounds _ rep_size). rewrite <- rep_local in *.
  unfold Receive.
  destruct (BeginReceive_ok q local empty_receive_batch P C)
    as (b & -> & Hseg & Hl & Ht & Hc); try (done || lia).
  rewrite bool_decide_true by done. cbn [negb].
  pose proof (aligned_tail _ C rep_size HC). unfold frame_size, kHeaderSize in *.
  destruct (Z.ltb_spec (size (rb_segment_ b)) 4); [lia|].
  set (sz := size (local_ring_ q)) in *.
  rewrite (read_segment q local _ sz C _ _ _ 4 ltac:(lia) eq_refl rep_ring Hc) by lia.
  destruct (Recv_ok q local b false 4 sz C rep_size Hc) as (b1 & -> & Hl1 & Ht1 & Hc1); try lia.
  rewrite <- (window_take _ _ (P - C) 4), <- E2 by lia.
  rewrite takeZ_app_exact by (by rewrite header_length).
  rewrite header_roundtrip by lia.
  destruct (ReceiveBody_ok q local remote false b1 sz (C + 4) (Zlen m) rep_size rep_ring Hc1)
    as (handled & -> & Hh); unfold kHeaderSize; try lia.
  unfold ReceiveBatch_Commit. do 3 eexists. split; [reflexivity|]. split.
  - rewrite Hh. rewrite <- (window_take _ _ (P - C - 4)), <- window_drop, <- E2 by lia.
    rewrite dropZ_app_exact by (by rewrite header_length). by apply takeZ_app_exact.
  - exists P, (C + frame_size (Zlen m)). unfold frame_size, kHeaderSize.
    assert (W : window (ring local) (C + (4 + Zlen m + PaddingBytes (Zlen m)))
                  (P - (C + (4 + Zlen m + PaddingBytes (Zlen m)))) = rest).
    { replace (P - (C + _)) with (P - C - (4 + Zlen m + PaddingBytes (Zlen m))) by lia.
      rewrite <- window_drop, <- E2, !app_assoc by lia. apply dropZ_app_exact.
      rewrite !Zlen_app, header_length. unfold kHeaderSize. lia. }
    split_and!; try done.
    + destruct R; constructor; cbn in *; try done; try lia; by rewrite rep_consumed0, u64_add_l.
    + rewrite Z.add_mod, HC, Hal by lia. done.
    + cbn [region idle]. by rewrite W.
Qed.

(** A [Receive] of one direction does not touch the other direction. *)
Lemma Receive_other q local qc remote ms :
  chan_msgs (idle q local) (idle qc remote) ms ->
  chan_msgs (idle (rr_queue (Receive q local remote)) local)
            (idle qc (rr_remote (Receive q local remote))) ms.
Proof.
  intros (P & C & R & HP & HC & _ & _ & Hf).
  assert (K : forall q' remote',
    (remote_ring_ q', remote_bytes_produced_ q', remote_ring_size_mask_ q')
    = (remote_ring_ q, remote_bytes_produced_ q, remote_ring_size_mask_ q) ->
    bytes_produced (doorbells remote') = bytes_produced (doorbells remote) ->
    ring remote' = ring remote -> chan_msgs (idle q' local) (idle qc remote') ms).
  { intros q' remote' [= E1 E2 E3] E4 E5. exists P, C. split_and!; try done.
    - destruct R; constructor; cbn in *; rewrite ?E1, ?E2, ?E3, ?E4, ?E5; auto; done.
    - cbn. by rewrite E5. }
  unfold Receive, ReceiveBody, ReceiveBatch_Commit.
  repeat case_match; simplify_eq/=; by apply K.
Qed.

(** ** What the message queue promises its users

    [w_ok w out inc]: [out] are the messages sent to the peer and not yet
    received there, [inc] those sent by the peer and not yet received here. *)
Class MsgTransport (W : Type) := {
  w_ok : W -> list (list Z) -> list (list Z) -> Prop;
  w_fits : W -> list (list Z) -> list Z -> bool;
  w_send : list Z -> W -> StatusCode * W;
  w_recv : W -> StatusOr (list Z) * W;
  w_send_large m w : kMaxMessageSize < Zlen m -> w_send m w = (kInvalidArgument, w);
  w_send_fits m w out inc :
    w_ok w out inc -> Forall byte_ok m -> Zlen m <= kMaxMessageSize -> w_fits w out m = true ->
    exists w', w_send m w = (kOk, w') /\ w_ok w' (out ++ [m]) inc
               /\ forall o x, w_fits w' o x = w_fits w o x;
  w_send_full m w out inc :
    w_ok w out inc -> Forall byte_ok m -> Zlen m <= kMaxMessageSize -> w_fits w out m = false ->
    exists w', w_send m w = (kResourceExhausted, w') /\ w_ok w' out inc
               /\ forall o x, w_fits w' o x = w_fits w o x;
  w_recv_empty w out : w_ok w out [] -> w_recv w = (Err kUnavailable, w);
  w_recv_msg w out m inc :
    w_ok w out (m :: inc) -> exists w', w_recv w = (Ok m, w') /\ w_ok w' out inc
               /\ forall o x, w_fits w' o x = w_fits w o x
}.

(** The two ends of a connected pair, seen from the first one. *)
Record Link := mkLink {
  l_q : SpscQueuePair;
  l_mem : Region;
  l_peer_q : SpscQueuePair;
  l_peer_mem : Region
}.

Definition flip (w : Link) : Link := mkLink (l_peer_q w) (l_peer_mem w) (l_q w) (l_mem w).

Definition link_ok (w : Link) (out inc : list (list Z)) : Prop :=
  chan_msgs (idle (l_q w) (l_mem w)) (idle (l_peer_q w) (l_peer_mem w)) out
  /\ chan_msgs (idle (l_peer_q w) (l_peer_mem w)) (idle (l_q w) (l_mem w)) inc.

Definition link_fits (w : Link) (out : list (list Z)) (m : list Z) : bool :=
  frames_size out + frame_size (Zlen m) <=? size (remote_ring_ (l_q w)).

Definition link_send (ha ma : Z) (m : list Z) (w : Link) : StatusCode * Link :=
  let '(code, q', r') := Send (l_q w) (l_mem w) (l_peer_mem w) ha ma m in
  (code, mkLink q' (l_mem w) (l_peer_q w) r').

Definition link_recv (w : Link) : StatusOr (list Z) * Link :=
  let '(res, q', r') := ReceiveString (l_q w) (l_mem w) (l_peer_mem w) in
  (res, mkLink q' (l_mem w) (l_peer_q w) r').

Lemma Send_remote_ring q local remote ha ma m :
  remote_ring_ (snd (fst (Send q local remote ha ma m))) = remote_ring_ q.
Proof. unfold Send, SendBatch_Append, SendBatch_Commit. by repeat case_match; simplify_eq/=. Qed.

Lemma Receive_remote_ring q local remote :
  remote_ring_ (rr_queue (Receive q local remote)) = remote_ring_ q.
Proof. unfold Receive, ReceiveBody, ReceiveBatch_Commit. by repeat case_match; simplify_eq/=. Qed.

Lemma link_send_cases ha ma m w out inc :
  link_ok w out inc -> Forall byte_ok m -> Zlen m <= kMaxMessageSize ->
  exists w', link_send ha ma m w = (if link_fits w out m then kOk else kResourceExhausted, w')
    /\ link_ok w' (if link_fits w out m then out ++ [m] else out) inc
    /\ forall o x, link_fits w' o x = link_fits w o x.
Proof.
  intros [Ho Hi] Hb Hm. unfold link_send, link_ok, link_fits.
  pose proof (Send_msgs _ _ _ _ ha ma m _ Ho Hb Hm) as HS.
  pose proof (Send_other _ _ _ _ ha ma m _ Hi) as HO.
  pose proof (Send_remote_ring (l_q w) (l_mem w) (l_peer_mem w) ha ma m) as HR.
  destruct (Send _ _ _ _ _ _) as [[code q'] r']; cbn in *.
  destruct (_ <=? _).
  - destruct HS as [-> ?]. eexists; split_and!; [done..|]. intros; cbn. by rewrite HR.
  - destruct HS as (-> & -> & ?). by eexists.
Qed.

Lemma link_recv_msg w out m inc :
  link_ok w out (m :: inc) -> exists w', link_recv w = (Ok m, w') /\ link_ok w' out inc
    /\ forall o x, link_fits w' o x = link_fits w o x.
Proof.
  intros [Ho Hi]. unfold link_recv, ReceiveString, link_ok, link_fits.
  destruct (Receive_ok _ _ _ _ _ _ Hi) as (h & q' & r' & E & Em & Hi').
  pose proof (Receive_other _ _ _ _ _ Ho) as Ho'.
  pose proof (Receive_remote_ring (l_q w) (l_mem w) (l_peer_mem w)) as HR.
  rewrite E in *; cbn in *. destruct h as [h1 h2]; cbn in Em; subst m.
  eexists; split_and!; [done..|]. intros; cbn. by rewrite HR.
Qed.

#[export] Instance SpscTransport (ha ma : Z) : MsgTransport Link.
Proof.
  refine {| w_ok := link_ok; w_fits := link_fits; w_send := link_send ha ma; w_recv := link_recv |}.
  - intros m w Hm. unfold link_send, Send. destruct (Z.ltb_spec kMaxMessageSize (Zlen m)); [|lia].
    by destruct w.
  - intros m w out inc Hw Hb Hm Hf. pose proof (link_send_cases ha ma m w out inc Hw Hb Hm) as H.
    by rewrite Hf in H.
  - intros m w out inc Hw Hb Hm Hf. pose proof (link_send_cases ha ma m w out inc Hw Hb Hm) as H.
    by rewrite Hf in H.
  - intros w out [_ Hi]. unfold link_recv, ReceiveString. rewrite (Receive_empty _ _ _ _ Hi).
    by destruct w.
  - apply link_recv_msg.
Defined.

(** ** Calls of the two ends and the specification they implement *)

Inductive Call : Type :=
  | CallSend (hdr_addr msg_addr : Z) (msg : list Z)
  | CallReceive.

Inductive Result : Type :=
  | Sent (code : StatusCode)
  | Received (res : StatusOr (list Z)).

Definition call (c : Call) (w : Link) : Result * Link :=
  match c with
  | CallSend ha ma m => let '(code, w') := link_send ha ma m w in (Sent code, w')
  | CallReceive => let '(res, w') := link_recv w in (Received res, w')
  end.

(** [true]: a call of the first end; [false]: of the second one. *)
Fixpoint run_calls (sched : list (bool * Call)) (w : Link) : list Result * Link :=
  match sched with
  | [] => ([], w)
  | (true, c) :: rest =>
      let '(r, w1) := call c w in
      let '(rs, w2) := run_calls rest w1 in (r :: rs, w2)
  | (false, c) :: rest =>
      let '(r, w1) := call c (flip w) in
      let '(rs, w2) := run_calls rest (flip w1) in (r :: rs, w2)
  end.

(** The specification: a bounded FIFO of messages per direction, where a
    message occupies its frame. *)
Definition spec_call (cap : Z) (c : Call) (out inc : list (list Z))
    : Result * list (list Z) * list (list Z) :=
  match c with
  | CallSend _ _ m =>
      if kMaxMessageSize <? Zlen m then (Sent kInvalidArgument, out, inc)
      else if frames_size out + frame_size (Zlen m) <=? cap then (Sent kOk, out ++ [m], inc)
      else (Sent kResourceExhausted, out, inc)
  | CallReceive =>
      match inc with
      | [] => (Received (Err kUnavailable), out, inc)
      | m :: inc' => (Received (Ok m), out, inc')
      end
  end.

Fixpoint spec_run (ca cb : Z) (sched : list (bool * Call)) (ab ba : list (list Z))
    : list Result * list (list Z) * list (list Z) :=
  match sched with
  | [] => ([], ab, ba)
  | (true, c) :: rest =>
      let '(r, ab1, ba1) := spec_call ca c ab ba in
      let '(rs, ab2, ba2) := spec_run ca cb rest ab1 ba1 in (r :: rs, ab2, ba2)
  | (false, c) :: rest =>
      let '(r, ba1, ab1) := spec_call cb c ba ab in
      let '(rs, ab2, ba2) := spec_run ca cb rest ab1 ba1 in (r :: rs, ab2, ba2)
  end.

Definition call_ok (c : Call) : Prop :=
  match c with CallSend _ _ m => Forall byte_ok m | CallReceive => True end.

#[export] Instance call_ok_dec c : Decision (call_ok c).
Proof. destruct c; cbn; apply _. Defined.

Definition link_cap (w : Link) : Z := size (remote_ring_ (l_q w)).

Lemma link_cap_send ha ma m w w' code :
  link_send ha ma m w = (code, w') -> link_cap w' = link_cap w /\ l_peer_q w' = l_peer_q w.
Proof.
  unfold link_send, link_cap. intros E.
  pose proof (Send_remote_ring (l_q w) (l_mem w) (l_peer_mem w) ha ma m) as HR.
  destruct (Send _ _ _ _ _ _) as [[c q'] r']. simplify_eq; cbn in *. by rewrite HR.
Qed.

Lemma link_cap_recv w w' res :
  link_recv w = (res, w') -> link_cap w' = link_cap w /\ l_peer_q w' = l_peer_q w.
Proof.
  unfold link_recv, ReceiveString, link_cap. intros E. simplify_eq; cbn.
  by rewrite Receive_remote_ring.
Qed.

Lemma call_refines c w out inc :
  link_ok w out inc -> call_ok c ->
  let '(r, w') := call c w in
  let '(r_spec, out', inc') := spec_call (link_cap w) c out inc in
  r = r_spec /\ link_ok w' out' inc'
  /\ link_cap w' = link_cap w /\ l_peer_q w' = l_peer_q w.
Proof.
  intros Hw Hc. destruct c as [ha ma m|]; cbn [call spec_call call_ok] in *.
  - destruct (link_send ha ma m w) as [code w'] eqn:E.
    pose proof (link_cap_send _ _ _ _ _ _ E) as Hcap.
    destruct (Z.ltb_spec kMaxMessageSize (Zlen m)) as [Hl|Hl].
    + pose proof (@w_send_large _ (SpscTransport ha ma) m w Hl) as E'.
      change (link_send ha ma m w = (kInvalidArgument, w)) in E'. rewrite E in E'. by simplify_eq.
    + destruct (link_send_cases ha ma m w out inc Hw Hc Hl) as (w0 & E0 & Hw0 & _).
      rewrite E in E0. simplify_eq. fold (link_fits w out m) in *. unfold link_cap in *.
      unfold link_fits in *. by destruct (_ <=? _).
  - destruct (link_recv w) as [res w'] eqn:E. pose proof (link_cap_recv _ _ _ E) as Hcap.
    destruct inc as [|m inc].
    + pose proof (@w_recv_empty _ (SpscTransport 0 0) w out Hw) as E'.
      change (link_recv w = (Err kUnavailable, w)) in E'. rewrite E in E'. by simplify_eq.
    + destruct (link_recv_msg w out m inc Hw) as (w0 & E0 & Hw0 & _).
      rewrite E in E0. by simplify_eq.
Qed.

Lemma link_ok_flip w out inc : link_ok w out inc -> link_ok (flip w) inc out.
Proof. by intros [? ?]. Qed.

Lemma run_calls_refines sched : forall w ab ba,
  link_ok w ab ba -> Forall (fun x => call_ok (snd x)) sched ->
  let '(rs, w') := run_calls sched w in
  let '(rs_spec, ab', ba') := spec_run (link_cap w) (link_cap (flip w)) sched ab ba in
  rs = rs_spec /\ link_ok w' ab' ba'.
Proof.
  induction sched as [|[[] c] rest IH]; intros w ab ba Hw Hs; cbn [run_calls spec_run]; [done| |].
  - inversion_clear Hs as [|? ? Hc Hrest]. pose proof (call_refines c w ab ba Hw Hc) as H1.
    destruct (call c w) as [r w1]. destruct (spec_call _ _ _ _) as [[r1 ab1] ba1].
    destruct H1 as (-> & Hw1 & E1 & E2). specialize (IH w1 ab1 ba1 Hw1 Hrest).
    replace (link_cap (flip w1)) with (link_cap (flip w)) in IH
      by (unfold link_cap, flip; cbn; by rewrite E2).
    rewrite E1 in IH. destruct (run_calls rest w1) as [rs w2].
    destruct (spec_run _ _ rest ab1 ba1) as [[rs1 ab2] ba2]. destruct IH as [-> ?]. done.
  - inversion_clear Hs as [|? ? Hc Hrest].
    pose proof (call_refines c (flip w) ba ab (link_ok_flip _ _ _ Hw) Hc) as H1.
    destruct (call c (flip w)) as [r w1]. destruct (spec_call _ _ _ _) as [[r1 ba1] ab1].
    destruct H1 as (-> & Hw1 & E1 & E2). specialize (IH (flip w1) ab1 ba1 (link_ok_flip _ _ _ Hw1) Hrest).
    replace (link_cap (flip w1)) with (link_cap w) in IH
      by (unfold link_cap, flip in *; cbn in *; by rewrite E2).
    replace (link_cap (flip (flip w1))) with (link_cap (flip w)) in IH by (rewrite <- E1; by destruct w1).
    destruct (run_calls rest (flip w1)) as [rs w2].
    destruct (spec_run _ _ rest ab1 ba1) as [[rs1 ab2] ba2]. destruct IH as [-> ?]. done.
Qed.

Lemma connected_chan_msgs a b :
  connected a b -> chan_msgs (idle (qp a) (region a)) (idle (qp b) (region b)) [].
Proof.
  intros (da & la & ea & ra & db & lb & eb & rb & Ha & Hb & ? & E & ? & ? & Da & Db & Ra & Rb & _).
  apply MakeSpscQueuePair_inv in Ha as (? & ? & Qa); [|lia..].
  apply MakeSpscQueuePair_inv in Hb as (? & ? & Qb); [|lia..].
  exists 0, 0. split_and!; try done; [|constructor].
  constructor; rewrite ?Qa, ?Qb; cbn; rewrite ?Da, ?Db, <- ?E; auto; try done; try lia.
  destruct (pow2_bounds (size rb)); [done|lia].
Qed.

Lemma connected_msgs a b :
  connected a b -> link_ok (mkLink (qp a) (region a) (qp b) (region b)) [] [].
Proof. intros H. split; apply connected_chan_msgs; auto using connected_sym. Qed.

(** ** Properties *)

(** C1 (refinement).  For any interleaving of [Send] and [Receive] calls of
    the two ends of a freshly created pair, every call returns what a bounded
    FIFO of messages per direction returns: a message larger than 2^24-1 is
    refused, a message is accepted exactly when its frame fits behind the
    frames not yet received, and [Receive] returns the oldest accepted message
    byte for byte, or kUnavailable exactly when there is none. *)
Theorem messaging_refines_fifo a b sched :
  connected a b -> Forall (fun x => call_ok (snd x)) sched ->
  fst (run_calls sched (mkLink (qp a) (region a) (qp b) (region b)))
  = fst (fst (spec_run (cap_of a) (cap_of b) sched [] [])).
Proof.
  intros Hc Hs. pose proof (run_calls_refines sched _ _ _ (connected_msgs a b Hc) Hs) as H.
  unfold link_cap, flip in H; cbn in H. fold (cap_of a) (cap_of b) in H.
  destruct (run_calls _ _) as [rs w']. destruct (spec_run _ _ _ _ _) as [[rs' ab] ba].
  by destruct H as [-> _].
Qed.

(** As long as the frames queued towards this end are those
    of sent messages, [Receive] never sees a header that crosses the end of
    the ring: the copying fallback (which the code logs as a broken invariant)
    is not taken, the handler is called exactly when the call succeeds, and
    then with the body split over its two spans. *)
Theorem header_never_wraps q local qp_ remote ms :
  chan_msgs (idle qp_ remote) (idle q local) ms ->
  let r := Receive q local remote in
  rr_fallback r = false
  /\ (rr_status r = kOk <-> rr_handler r <> None)
  /\ (forall s1 s2, rr_handler r = Some (s1, s2) -> head ms = Some (s1 ++ s2)).
Proof.
  intros H r. subst r. destruct ms as [|m ms].
  - rewrite (Receive_empty _ _ _ _ H). naive_solver.
  - destruct (Receive_ok _ _ _ _ _ _ H) as ([h1 h2] & q' & r' & -> & <- & _). naive_solver.
Qed.

(** For every admissible body length the padding is less than
    a cache line, completes header and body to a multiple of 64 bytes, and the
    24-bit length field of the header round-trips. *)
Theorem frame_layout n :
  0 <= n <= kMaxMessageSize ->
  0 <= PaddingBytes n < kAlignment /\ frame_size n mod kAlignment = 0
  /\ header_body_bytes (header_bytes n) = n.
Proof.
  intros Hn. split_and!.
  - apply padding_spec, Hn.
  - apply padding_spec, Hn.
  - apply frame_aligned, Hn.
  - by apply header_roundtrip.
Qed.

Definition ex_calls : list (bool * Call) :=
  [ (true, CallReceive); (true, CallSend 4 8 [1; 2; 3]); (false, CallSend 4 8 [7]);
    (true, CallSend 5 9 (replicate 100 6)); (false, CallReceive); (true, CallReceive);
    (false, CallReceive); (false, CallReceive); (true, CallSend 0 0 (replicate 4090 1));
    (true, CallSend 0 0 (replicate 5 1)) ].

Lemma ex_calls_ok : Forall (fun x => call_ok (snd x)) ex_calls.
Proof. by_compute. Qed.

Lemma messaging_refines_fifo_witness :
  fst (run_calls ex_calls (mkLink (qp ex_a) (region ex_a) (qp ex_b) (region ex_b)))
  = [ Received (Err kUnavailable); Sent kOk; Sent kOk; Sent kOk; Received (Ok [1; 2; 3]);
      Received (Ok [7]); Received (Ok (replicate 100 6)); Received (Err kUnavailable);
      Sent kOk; Sent kResourceExhausted ].
Proof.
  rewrite (messaging_refines_fifo ex_a ex_b ex_calls ex_connected ex_calls_ok).
  vm_compute. reflexivity.
Defined.

Lemma header_never_wraps_witness :
  rr_fallback (Receive (qp ex_a) (region ex_a) (region ex_b)) = false.
Proof.
  exact (proj1 (header_never_wraps _ _ (qp ex_b) _ []
                  (connected_chan_msgs ex_b ex_a (connected_sym _ _ ex_connected)))).
Defined.

Lemma frame_layout_witness : PaddingBytes 60 = 0 /\ header_body_bytes (header_bytes 60) = 60.
Proof.
  split; [reflexivity|]. refine (proj2 (proj2 (frame_layout 60 _))). by vm_compute.
Defined.
