(* ===== verification/Packed.v ===== *)
(** * Packed structs on the wire

    Layout, encoding and decoding of the [__packed__] structs of
    dxs/client/control-command.h on a little-endian machine.  A struct is a
    record with an instance of [PackedStruct]; its bytes, its [sizeof] and
    [ValidateAndGetMessage] come from the layout. *)

From S2P Require Import Prelude.

(** Types of the fields: unsigned and signed integers of [n] bytes, [bool],
    byte arrays. *)
Inductive FieldTy : Set :=
  | U (n : nat)
  | I (n : nat)
  | B
  | Bytes (n : nat).

Definition fval (t : FieldTy) : Type :=
  match t with U _ | I _ => Z | B => bool | Bytes _ => list Z end.

Fixpoint fvals (ts : list FieldTy) : Type :=
  match ts with [] => unit | t :: ts' => (fval t * fvals ts')%type end.

Definition field_size (t : FieldTy) : nat :=
  match t with U n | I n | Bytes n => n | B => 1 end.

Definition layout_size (ts : list FieldTy) : nat :=
  fold_right (fun t n => (field_size t + n)%nat) 0%nat ts.

Definition encode_field (t : FieldTy) : fval t -> list Z :=
  match t with
  | U n | I n => fun x => le_encode n x
  | B => fun b : bool => [if b then 1 else 0]
  | Bytes _ => fun bs => bs
  end.

(** Two's complement reading of an [n]-byte integer. *)
Definition sign_extend (n : nat) (x : Z) : Z :=
  if x <? 2 ^ (8 * Z.of_nat n - 1) then x else x - 2 ^ (8 * Z.of_nat n).

Definition decode_field (t : FieldTy) (bs : list Z) : fval t :=
  match t return fval t with
  | U _ => le_decode bs
  | I n => sign_extend n (le_decode bs)
  | B => negb (le_decode bs =? 0)
  | Bytes _ => bs
  end.

Fixpoint encode_fields (ts : list FieldTy) : fvals ts -> list Z :=
  match ts with
  | [] => fun _ => []
  | t :: ts' => fun v => encode_field t (fst v) ++ encode_fields ts' (snd v)
  end.

Fixpoint decode_fields (ts : list FieldTy) (bs : list Z) : fvals ts :=
  match ts with
  | [] => tt
  | t :: ts' => (decode_field t (take (field_size t) bs),
                 decode_fields ts' (drop (field_size t) bs))
  end.

(** Values the C++ field types can hold. *)
Definition field_ok (t : FieldTy) : fval t -> Prop :=
  match t with
  | U n => fun x => 0 <= x < 256 ^ Z.of_nat n
  | I n => fun x => n <> O /\ - 2 ^ (8 * Z.of_nat n - 1) <= x < 2 ^ (8 * Z.of_nat n - 1)
  | B => fun _ => True
  | Bytes n => fun bs => length bs = n /\ Forall byte_ok bs
  end.

Fixpoint fields_ok (ts : list FieldTy) : fvals ts -> Prop :=
  match ts with
  | [] => fun _ => True
  | t :: ts' => fun v => field_ok t (fst v) /\ fields_ok ts' (snd v)
  end.

Lemma pow256 n : 256 ^ Z.of_nat n = 2 ^ (8 * Z.of_nat n).
Proof. change 256 with (2 ^ 8). rewrite <- Z.pow_mul_r by lia. done. Qed.

Lemma sign_extend_mod n x :
  n <> O -> - 2 ^ (8 * Z.of_nat n - 1) <= x < 2 ^ (8 * Z.of_nat n - 1) ->
  sign_extend n (x mod 256 ^ Z.of_nat n) = x.
Proof.
  intros Hn Hx. rewrite pow256. unfold sign_extend.
  assert (E : 2 ^ (8 * Z.of_nat n) = 2 * 2 ^ (8 * Z.of_nat n - 1)).
  { rewrite <- Z.pow_succ_r by lia. f_equal. lia. }
  rewrite E. set (h := 2 ^ (8 * Z.of_nat n - 1)) in *.
  destruct (Z.lt_ge_cases x 0) as [Hneg|Hpos].
  - replace (x mod (2 * h)) with (x + 2 * h)
      by (apply (Zmod_unique _ _ (-1)); lia).
    destruct (Z.ltb_spec (x + 2 * h) h); lia.
  - rewrite Z.mod_small by lia. destruct (Z.ltb_spec x h); lia.
Qed.

Lemma encode_field_length t v : field_ok t v -> length (encode_field t v) = field_size t.
Proof.
  destruct t; cbn in *; intros H; rewrite ?le_encode_length; naive_solver.
Qed.

Lemma encode_field_bytes t v : field_ok t v -> Forall byte_ok (encode_field t v).
Proof.
  destruct t; cbn in *; try (intros; apply le_encode_ok); [|naive_solver].
  destruct v; intros _; repeat constructor; unfold byte_ok; lia.
Qed.

Lemma decode_encode_field t v : field_ok t v -> decode_field t (encode_field t v) = v.
Proof.
  destruct t; cbn.
  - intros. rewrite le_decode_encode. by apply Z.mod_small.
  - intros [? ?]. rewrite le_decode_encode. by apply sign_extend_mod.
  - by destruct v.
  - done.
Qed.

Lemma encode_fields_length ts v :
  fields_ok ts v -> length (encode_fields ts v) = layout_size ts.
Proof.
  induction ts as [|t ts IH]; cbn; [done|]. intros [H1 H2].
  by rewrite length_app, encode_field_length, IH.
Qed.

Lemma encode_fields_bytes ts v : fields_ok ts v -> Forall byte_ok (encode_fields ts v).
Proof.
  induction ts as [|t ts IH]; cbn; [done|]. intros [H1 H2].
  apply Forall_app; auto using encode_field_bytes.
Qed.

Lemma decode_encode_fields ts v :
  fields_ok ts v -> decode_fields ts (encode_fields ts v) = v.
Proof.
  induction ts as [|t ts IH]; cbn; [by destruct v|]. destruct v as [x v]; cbn. intros [H1 H2].
  rewrite take_app_length', drop_app_length' by (by rewrite encode_field_length).
  by rewrite decode_encode_field, IH.
Qed.

(** Every byte string of the right length is the encoding of its decoding,
    provided its [bool] bytes are 0 or 1 and its signed fields nonempty. *)
Fixpoint canonical (ts : list FieldTy) (bs : list Z) : Prop :=
  match ts with
  | [] => True
  | t :: ts' =>
      match t with
      | B => head bs = Some 0 \/ head bs = Some 1
      | I n => n <> O
      | _ => True
      end /\ canonical ts' (drop (field_size t) bs)
  end.

Lemma encode_sign_extend n x :
  n <> O -> 0 <= x < 256 ^ Z.of_nat n -> le_encode n (sign_extend n x) = le_encode n x.
Proof.
  assert (K : forall m y, le_encode m (y - 2 ^ (8 * Z.of_nat m)) = le_encode m y).
  { intros m; induction m as [|m IH]; intros y; [done|].
    cbn [le_encode]. rewrite Nat2Z.inj_succ.
    replace (2 ^ (8 * Z.succ (Z.of_nat m))) with (2 ^ (8 * Z.of_nat m) * 256)
      by (rewrite Z.mul_succ_r, Z.pow_add_r by lia; done).
    f_equal.
    - rewrite <- Zminus_mod_idemp_r, Z.mod_mul, Z.sub_0_r by lia. done.
    - replace (y - 2 ^ (8 * Z.of_nat m) * 256) with (y + (- 2 ^ (8 * Z.of_nat m)) * 256) by lia.
      rewrite Z.div_add by lia. apply IH. }
  intros _ _. unfold sign_extend. destruct (_ <? _); [done|apply K].
Qed.

Lemma encode_decode_field t bs :
  length bs = field_size t -> Forall byte_ok bs ->
  match t with B => head bs = Some 0 \/ head bs = Some 1 | I n => n <> O | _ => True end ->
  encode_field t (decode_field t bs) = bs.
Proof.
  intros HL Hb Hc. destruct t as [n|n| |n]; cbn in *; subst.
  - by apply le_encode_decode.
  - rewrite encode_sign_extend; [by apply le_encode_decode|done|].
    apply le_decode_range in Hb. unfold Zlen in Hb. done.
  - destruct bs as [|b [|]]; try done. cbn in *. destruct Hc as [[= ->]|[= ->]]; done.
  - done.
Qed.

Lemma encode_decode_fields ts : forall bs,
  length bs = layout_size ts -> Forall byte_ok bs -> canonical ts bs ->
  encode_fields ts (decode_fields ts bs) = bs.
Proof.
  induction ts as [|t ts IH]; intros bs HL Hb Hc.
  { by destruct bs. }
  change (layout_size (t :: ts)) with (field_size t + layout_size ts)%nat in HL.
  cbn [canonical encode_fields decode_fields fst snd] in *.
  destruct Hc as [Hc Hcs]. rewrite <- (take_drop (field_size t) bs) at 3.
  rewrite <- (take_drop (field_size t) bs), Forall_app in Hb. destruct Hb as [Hb1 Hb2].
  f_equal.
  - apply encode_decode_field; [rewrite length_take; lia|done|].
    destruct t; try done. cbn in *. by destruct bs.
  - apply IH; [rewrite length_drop; lia|done|done].
Qed.
