(* ===== verification/ControlCommand.v ===== *)
(** * Control messages (dxs/client/control-command.h, data-sock.h)

    The commands, the status enumerations and the packed messages exchanged
    with the DXS server, and the exact-size validation of incoming packets. *)

From S2P Require Import Prelude Packed.

(** ** Enumerations

    A C++ enumeration can hold any value of its underlying type, so every
    type has a constructor [..other] for the values without a name. *)

Inductive ControlCommand : Set :=
  | kInvalid | kInit | kInitAck | kListen | kListenAck | kIncomingConnection | kAccept
  | kCloseListenSock | kConnect | kConnectAck | kSend | kSendAck | kRecv | kRecvAck | kRelease
  | kCloseDataSock | kRegBuffer | kRegBufferAck | kDeregBuffer | kDeregBufferAck | kPing
  | kPong | kVersionedInit | kVersionedInitAck | kInitLlcm | kInitLlcmAck | kAcceptAck
  | kSubscribeToPeriodicStats | kPeriodicStatsUpdate | kIncomingConnectionV2
  | kNumControlCommands | Command_other (v : Z).

Definition ControlCommand_of (v : Z) : ControlCommand :=
  if v =? 0 then kInvalid
  else if v =? 1 then kInit
  else if v =? 2 then kInitAck
  else if v =? 3 then kListen
  else if v =? 4 then kListenAck
  else if v =? 5 then kIncomingConnection
  else if v =? 6 then kAccept
  else if v =? 7 then kCloseListenSock
  else if v =? 8 then kConnect
  else if v =? 9 then kConnectAck
  else if v =? 10 then kSend
  else if v =? 11 then kSendAck
  else if v =? 12 then kRecv
  else if v =? 13 then kRecvAck
  else if v =? 14 then kRelease
  else if v =? 15 then kCloseDataSock
  else if v =? 16 then kRegBuffer
  else if v =? 17 then kRegBufferAck
  else if v =? 18 then kDeregBuffer
  else if v =? 19 then kDeregBufferAck
  else if v =? 22 then kPing
  else if v =? 23 then kPong
  else if v =? 34 then kVersionedInit
  else if v =? 35 then kVersionedInitAck
  else if v =? 36 then kInitLlcm
  else if v =? 37 then kInitLlcmAck
  else if v =? 48 then kAcceptAck
  else if v =? 52 then kSubscribeToPeriodicStats
  else if v =? 53 then kPeriodicStatsUpdate
  else if v =? 55 then kIncomingConnectionV2
  else if v =? 60 then kNumControlCommands
  else Command_other v.

Definition ControlCommand_code (e : ControlCommand) : Z :=
  match e with
  | kInvalid => 0
  | kInit => 1
  | kInitAck => 2
  | kListen => 3
  | kListenAck => 4
  | kIncomingConnection => 5
  | kAccept => 6
  | kCloseListenSock => 7
  | kConnect => 8
  | kConnectAck => 9
  | kSend => 10
  | kSendAck => 11
  | kRecv => 12
  | kRecvAck => 13
  | kRelease => 14
  | kCloseDataSock => 15
  | kRegBuffer => 16
  | kRegBufferAck => 17
  | kDeregBuffer => 18
  | kDeregBufferAck => 19
  | kPing => 22
  | kPong => 23
  | kVersionedInit => 34
  | kVersionedInitAck => 35
  | kInitLlcm => 36
  | kInitLlcmAck => 37
  | kAcceptAck => 48
  | kSubscribeToPeriodicStats => 52
  | kPeriodicStatsUpdate => 53
  | kIncomingConnectionV2 => 55
  | kNumControlCommands => 60
  | Command_other v => v
  end.

Lemma ControlCommand_code_of v : ControlCommand_code (ControlCommand_of v) = v.
Proof. unfold ControlCommand_of. repeat case_match; zbool; cbn; congruence || lia. Qed.

Inductive OpStatus : Set :=
  | OpStatus_kPending | OpStatus_kComplete | OpStatus_kError | OpStatus_other (v : Z).

Definition OpStatus_of (v : Z) : OpStatus :=
  if v =? 0 then OpStatus_kPending
  else if v =? 1 then OpStatus_kComplete
  else if v =? 2 then OpStatus_kError
  else OpStatus_other v.

Definition OpStatus_code (e : OpStatus) : Z :=
  match e with
  | OpStatus_kPending => 0
  | OpStatus_kComplete => 1
  | OpStatus_kError => 2
  | OpStatus_other v => v
  end.

Lemma OpStatus_code_of v : OpStatus_code (OpStatus_of v) = v.
Proof. unfold OpStatus_of. repeat case_match; zbool; cbn; congruence || lia. Qed.

Inductive ClientType : Set :=
  | ClientType_kBufferManager | ClientType_kSnapClient | ClientType_other (v : Z).

Definition ClientType_of (v : Z) : ClientType :=
  if v =? 0 then ClientType_kBufferManager
  else if v =? 2 then ClientType_kSnapClient
  else ClientType_other v.

Definition ClientType_code (e : ClientType) : Z :=
  match e with
  | ClientType_kBufferManager => 0
  | ClientType_kSnapClient => 2
  | ClientType_other v => v
  end.

Lemma ClientType_code_of v : ClientType_code (ClientType_of v) = v.
Proof. unfold ClientType_of. repeat case_match; zbool; cbn; congruence || lia. Qed.

Inductive InitAckStatus : Set :=
  | InitAck_kOk | InitAck_kExists | InitAck_kSecureInitRequired | InitAck_kRejected
  | InitAck_kInvalidRequest | InitAck_kUnsupportedClientVersion | InitAck_other (v : Z).

Definition InitAckStatus_of (v : Z) : InitAckStatus :=
  if v =? 0 then InitAck_kOk
  else if v =? (-1) then InitAck_kExists
  else if v =? (-2) then InitAck_kSecureInitRequired
  else if v =? (-3) then InitAck_kRejected
  else if v =? (-4) then InitAck_kInvalidRequest
  else if v =? (-5) then InitAck_kUnsupportedClientVersion
  else InitAck_other v.

Definition InitAckStatus_code (e : InitAckStatus) : Z :=
  match e with
  | InitAck_kOk => 0
  | InitAck_kExists => -1
  | InitAck_kSecureInitRequired => -2
  | InitAck_kRejected => -3
  | InitAck_kInvalidRequest => -4
  | InitAck_kUnsupportedClientVersion => -5
  | InitAck_other v => v
  end.

Lemma InitAckStatus_code_of v : InitAckStatus_code (InitAckStatus_of v) = v.
Proof. unfold InitAckStatus_of. repeat case_match; zbool; cbn; congruence || lia. Qed.

Inductive InitLlcmAckStatus : Set :=
  | InitLlcmAck_kOk | InitLlcmAck_kFailed | InitLlcmAck_other (v : Z).

Definition InitLlcmAckStatus_of (v : Z) : InitLlcmAckStatus :=
  if v =? 0 then InitLlcmAck_kOk
  else if v =? (-1) then InitLlcmAck_kFailed
  else InitLlcmAck_other v.

Definition InitLlcmAckStatus_code (e : InitLlcmAckStatus) : Z :=
  match e with
  | InitLlcmAck_kOk => 0
  | InitLlcmAck_kFailed => -1
  | InitLlcmAck_other v => v
  end.

Lemma InitLlcmAckStatus_code_of v : InitLlcmAckStatus_code (InitLlcmAckStatus_of v) = v.
Proof. unfold InitLlcmAckStatus_of. repeat case_match; zbool; cbn; congruence || lia. Qed.

Inductive ListenAckStatus : Set :=
  | ListenAck_kOk | ListenAck_kInvalidRequest | ListenAck_kOutOfFreePorts
  | ListenAck_kHandlerAlreadyInUse | ListenAck_other (v : Z).

Definition ListenAckStatus_of (v : Z) : ListenAckStatus :=
  if v =? 0 then ListenAck_kOk
  else if v =? (-1) then ListenAck_kInvalidRequest
  else if v =? (-2) then ListenAck_kOutOfFreePorts
  else if v =? (-3) then ListenAck_kHandlerAlreadyInUse
  else ListenAck_other v.

Definition ListenAckStatus_code (e : ListenAckStatus) : Z :=
  match e with
  | ListenAck_kOk => 0
  | ListenAck_kInvalidRequest => -1
  | ListenAck_kOutOfFreePorts => -2
  | ListenAck_kHandlerAlreadyInUse => -3
  | ListenAck_other v => v
  end.

Lemma ListenAckStatus_code_of v : ListenAckStatus_code (ListenAckStatus_of v) = v.
Proof. unfold ListenAckStatus_of. repeat case_match; zbool; cbn; congruence || lia. Qed.

Inductive AcceptAckStatus : Set :=
  | AcceptAck_kOk | AcceptAck_kInvalidRequest | AcceptAck_kInvalidListenSocket
  | AcceptAck_kInternalError | AcceptAck_kNoPendingConnection | AcceptAck_kInvalidClientType
  | AcceptAck_other (v : Z).

Definition AcceptAckStatus_of (v : Z) : AcceptAckStatus :=
  if v =? 0 then AcceptAck_kOk
  else if v =? (-1) then AcceptAck_kInvalidRequest
  else if v =? (-2) then AcceptAck_kInvalidListenSocket
  else if v =? (-3) then AcceptAck_kInternalError
  else if v =? (-4) then AcceptAck_kNoPendingConnection
  else if v =? (-5) then AcceptAck_kInvalidClientType
  else AcceptAck_other v.

Definition AcceptAckStatus_code (e : AcceptAckStatus) : Z :=
  match e with
  | AcceptAck_kOk => 0
  | AcceptAck_kInvalidRequest => -1
  | AcceptAck_kInvalidListenSocket => -2
  | AcceptAck_kInternalError => -3
  | AcceptAck_kNoPendingConnection => -4
  | AcceptAck_kInvalidClientType => -5
  | AcceptAck_other v => v
  end.

Lemma AcceptAckStatus_code_of v : AcceptAckStatus_code (AcceptAckStatus_of v) = v.
Proof. unfold AcceptAckStatus_of. repeat case_match; zbool; cbn; congruence || lia. Qed.

Inductive ConnectAckStatus : Set :=
  | ConnectAck_kOk | ConnectAck_kInvalid | ConnectAck_kNotServingVM | ConnectAck_kVIPNotFound
  | ConnectAck_kAddSocketToEngineError | ConnectAck_kClientDisconnected | ConnectAck_kTimeout
  | ConnectAck_kConnectionFailed | ConnectAck_kSnapNotEnabled | ConnectAck_other (v : Z).

Definition ConnectAckStatus_of (v : Z) : ConnectAckStatus :=
  if v =? 0 then ConnectAck_kOk
  else if v =? (-1) then ConnectAck_kInvalid
  else if v =? (-2) then ConnectAck_kNotServingVM
  else if v =? (-3) then ConnectAck_kVIPNotFound
  else if v =? (-4) then ConnectAck_kAddSocketToEngineError
  else if v =? (-5) then ConnectAck_kClientDisconnected
  else if v =? (-6) then ConnectAck_kTimeout
  else if v =? (-7) then ConnectAck_kConnectionFailed
  else if v =? (-8) then ConnectAck_kSnapNotEnabled
  else ConnectAck_other v.

Definition ConnectAckStatus_code (e : ConnectAckStatus) : Z :=
  match e with
  | ConnectAck_kOk => 0
  | ConnectAck_kInvalid => -1
  | ConnectAck_kNotServingVM => -2
  | ConnectAck_kVIPNotFound => -3
  | ConnectAck_kAddSocketToEngineError => -4
  | ConnectAck_kClientDisconnected => -5
  | ConnectAck_kTimeout => -6
  | ConnectAck_kConnectionFailed => -7
  | ConnectAck_kSnapNotEnabled => -8
  | ConnectAck_other v => v
  end.

Lemma ConnectAckStatus_code_of v : ConnectAckStatus_code (ConnectAckStatus_of v) = v.
Proof. unfold ConnectAckStatus_of. repeat case_match; zbool; cbn; congruence || lia. Qed.

Inductive SendAckStatus : Set :=
  | SendAck_kOk | SendAck_kInvalidRegHandle | SendAck_kInvalidRegisteredBuffer
  | SendAck_kInvalidSocket | SendAck_kInvalidPipeline | SendAck_kAckError
  | SendAck_kWrongElement | SendAck_kBadConnection | SendAck_kSendRecvSizeMismatch
  | SendAck_kControlChannelFailure | SendAck_other (v : Z).

Definition SendAckStatus_of (v : Z) : SendAckStatus :=
  if v =? 0 then SendAck_kOk
  else if v =? (-1) then SendAck_kInvalidRegHandle
  else if v =? (-2) then SendAck_kInvalidRegisteredBuffer
  else if v =? (-3) then SendAck_kInvalidSocket
  else if v =? (-4) then SendAck_kInvalidPipeline
  else if v =? (-5) then SendAck_kAckError
  else if v =? (-6) then SendAck_kWrongElement
  else if v =? (-7) then SendAck_kBadConnection
  else if v =? (-8) then SendAck_kSendRecvSizeMismatch
  else if v =? (-9) then SendAck_kControlChannelFailure
  else SendAck_other v.

Definition SendAckStatus_code (e : SendAckStatus) : Z :=
  match e with
  | SendAck_kOk => 0
  | SendAck_kInvalidRegHandle => -1
  | SendAck_kInvalidRegisteredBuffer => -2
  | SendAck_kInvalidSocket => -3
  | SendAck_kInvalidPipeline => -4
  | SendAck_kAckError => -5
  | SendAck_kWrongElement => -6
  | SendAck_kBadConnection => -7
  | SendAck_kSendRecvSizeMismatch => -8
  | SendAck_kControlChannelFailure => -9
  | SendAck_other v => v
  end.

Lemma SendAckStatus_code_of v : SendAckStatus_code (SendAckStatus_of v) = v.
Proof. unfold SendAckStatus_of. repeat case_match; zbool; cbn; congruence || lia. Qed.

Inductive RecvAckStatus : Set :=
  | RecvAck_kOk | RecvAck_kNoRegisteredReceiveBuffer | RecvAck_kInvalidRegHandle
  | RecvAck_kInvalidRegisteredBuffer | RecvAck_kInvalidSocket | RecvAck_kInvalidPipeline
  | RecvAck_kAckError | RecvAck_kWrongElement | RecvAck_kBadConnection
  | RecvAck_kSendRecvSizeMismatch | RecvAck_kControlChannelFailure | RecvAck_other (v : Z).

Definition RecvAckStatus_of (v : Z) : RecvAckStatus :=
  if v =? 0 then RecvAck_kOk
  else if v =? (-1) then RecvAck_kNoRegisteredReceiveBuffer
  else if v =? (-2) then RecvAck_kInvalidRegHandle
  else if v =? (-3) then RecvAck_kInvalidRegisteredBuffer
  else if v =? (-4) then RecvAck_kInvalidSocket
  else if v =? (-5) then RecvAck_kInvalidPipeline
  else if v =? (-6) then RecvAck_kAckError
  else if v =? (-7) then RecvAck_kWrongElement
  else if v =? (-8) then RecvAck_kBadConnection
  else if v =? (-9) then RecvAck_kSendRecvSizeMismatch
  else if v =? (-10) then RecvAck_kControlChannelFailure
  else RecvAck_other v.

Definition RecvAckStatus_code (e : RecvAckStatus) : Z :=
  match e with
  | RecvAck_kOk => 0
  | RecvAck_kNoRegisteredReceiveBuffer => -1
  | RecvAck_kInvalidRegHandle => -2
  | RecvAck_kInvalidRegisteredBuffer => -3
  | RecvAck_kInvalidSocket => -4
  | RecvAck_kInvalidPipeline => -5
  | RecvAck_kAckError => -6
  | RecvAck_kWrongElement => -7
  | RecvAck_kBadConnection => -8
  | RecvAck_kSendRecvSizeMismatch => -9
  | RecvAck_kControlChannelFailure => -10
  | RecvAck_other v => v
  end.

Lemma RecvAckStatus_code_of v : RecvAckStatus_code (RecvAckStatus_of v) = v.
Proof. unfold RecvAckStatus_of. repeat case_match; zbool; cbn; congruence || lia. Qed.

Inductive RegBufferAckStatus : Set :=
  | RegBufferAck_kOk | RegBufferAck_kOverlappingRegions | RegBufferAck_kInvalidRegion
  | RegBufferAck_kAlreadyRegistered | RegBufferAck_kMismatchedDirection
  | RegBufferAck_kRegistrationFailed | RegBufferAck_kNotAllowed | RegBufferAck_other (v : Z).

Definition RegBufferAckStatus_of (v : Z) : RegBufferAckStatus :=
  if v =? 0 then RegBufferAck_kOk
  else if v =? (-1) then RegBufferAck_kOverlappingRegions
  else if v =? (-2) then RegBufferAck_kInvalidRegion
  else if v =? (-3) then RegBufferAck_kAlreadyRegistered
  else if v =? (-4) then RegBufferAck_kMismatchedDirection
  else if v =? (-5) then RegBufferAck_kRegistrationFailed
  else if v =? (-6) then RegBufferAck_kNotAllowed
  else RegBufferAck_other v.

Definition RegBufferAckStatus_code (e : RegBufferAckStatus) : Z :=
  match e with
  | RegBufferAck_kOk => 0
  | RegBufferAck_kOverlappingRegions => -1
  | RegBufferAck_kInvalidRegion => -2
  | RegBufferAck_kAlreadyRegistered => -3
  | RegBufferAck_kMismatchedDirection => -4
  | RegBufferAck_kRegistrationFailed => -5
  | RegBufferAck_kNotAllowed => -6
  | RegBufferAck_other v => v
  end.

Lemma RegBufferAckStatus_code_of v : RegBufferAckStatus_code (RegBufferAckStatus_of v) = v.
Proof. unfold RegBufferAckStatus_of. repeat case_match; zbool; cbn; congruence || lia. Qed.

Inductive DeregBufferAckStatus : Set :=
  | DeregBufferAck_kOk | DeregBufferAck_kNotFound | DeregBufferAck_kNotAllowed
  | DeregBufferAck_kInternal | DeregBufferAck_other (v : Z).

Definition DeregBufferAckStatus_of (v : Z) : DeregBufferAckStatus :=
  if v =? 0 then DeregBufferAck_kOk
  else if v =? (-1) then DeregBufferAck_kNotFound
  else if v =? (-2) then DeregBufferAck_kNotAllowed
  else if v =? (-3) then DeregBufferAck_kInternal
  else DeregBufferAck_other v.

Definition DeregBufferAckStatus_code (e : DeregBufferAckStatus) : Z :=
  match e with
  | DeregBufferAck_kOk => 0
  | DeregBufferAck_kNotFound => -1
  | DeregBufferAck_kNotAllowed => -2
  | DeregBufferAck_kInternal => -3
  | DeregBufferAck_other v => v
  end.

Lemma DeregBufferAckStatus_code_of v : DeregBufferAckStatus_code (DeregBufferAckStatus_of v) = v.
Proof. unfold DeregBufferAckStatus_of. repeat case_match; zbool; cbn; congruence || lia. Qed.

Inductive DataSockStatus : Set :=
  | DataSock_kConnected | DataSock_kPendingConnect | DataSock_kInvalid
  | DataSock_kConnectionRefused | DataSock_kTimeout | DataSock_kUnreachable
  | DataSock_kUnknownError | DataSock_kInternalError | DataSock_other (v : Z).

Definition DataSockStatus_of (v : Z) : DataSockStatus :=
  if v =? 1 then DataSock_kConnected
  else if v =? 0 then DataSock_kPendingConnect
  else if v =? (-1) then DataSock_kInvalid
  else if v =? (-2) then DataSock_kConnectionRefused
  else if v =? (-3) then DataSock_kTimeout
  else if v =? (-4) then DataSock_kUnreachable
  else if v =? (-5) then DataSock_kUnknownError
  else if v =? (-6) then DataSock_kInternalError
  else DataSock_other v.

Definition DataSockStatus_code (e : DataSockStatus) : Z :=
  match e with
  | DataSock_kConnected => 1
  | DataSock_kPendingConnect => 0
  | DataSock_kInvalid => -1
  | DataSock_kConnectionRefused => -2
  | DataSock_kTimeout => -3
  | DataSock_kUnreachable => -4
  | DataSock_kUnknownError => -5
  | DataSock_kInternalError => -6
  | DataSock_other v => v
  end.

Lemma DataSockStatus_code_of v : DataSockStatus_code (DataSockStatus_of v) = v.
Proof. unfold DataSockStatus_of. repeat case_match; zbool; cbn; congruence || lia. Qed.

(** ** Messages

    One record per packed struct, with the fields in wire order.  Enumeration
    fields hold the underlying value. *)

(** A tuple of fields is the tuple of its components. *)
Ltac fields_eta :=
  intros v; cbn in v;
  repeat match goal with
    | p : (_ * _)%type |- _ => destruct p
    | u : unit |- _ => destruct u
    end; reflexivity.

Class PackedStruct (M : Type) := {
  layout : list FieldTy;
  to_fields : M -> fvals layout;
  of_fields : fvals layout -> M;
  command_of : M -> Z;
  GetCommand : ControlCommand;
  of_to m : of_fields (to_fields m) = m;
  to_of v : to_fields (of_fields v) = v
}.

Definition sizeof (M : Type) `{PackedStruct M} : Z := Z.of_nat (layout_size layout).

(** The bytes of a message, as [reinterpret_cast<uint8_t*>(&msg)] reads them. *)
Definition encode {M} `{PackedStruct M} (m : M) : list Z := encode_fields layout (to_fields m).

(** Values of the C++ types of the fields. *)
Definition msg_ok {M} `{PackedStruct M} (m : M) : Prop := fields_ok layout (to_fields m).

Definition ValidateAndGetMessage {M} `{PackedStruct M} (packet : list Z) : option M :=
  if negb (Zlen packet =? sizeof M) then None
  else Some (of_fields (decode_fields layout packet)).

Record WireSocketAddr := mkWireSocketAddr {
  WireSocketAddr_is_ipv6 : bool;
  WireSocketAddr_addr : list Z;
  WireSocketAddr_port : Z
}.

Record InitMessage := mkInitMessage {
  InitMessage_command : Z;
  InitMessage_client_type : Z
}.

#[export] Instance InitMessage_packed : PackedStruct InitMessage.
Proof.
  refine {|
    layout := [U 1; I 1];
    to_fields m := (InitMessage_command m, (InitMessage_client_type m, tt));
    of_fields v := let '(x0, (x1, _)) := v in mkInitMessage x0 x1;
    command_of m := InitMessage_command m;
    GetCommand := kInit
  |}.
  - by intros [].
  - fields_eta.
Defined.

Record InitAckMessage := mkInitAckMessage {
  InitAckMessage_command : Z;
  InitAckMessage_status : Z
}.

#[export] Instance InitAckMessage_packed : PackedStruct InitAckMessage.
Proof.
  refine {|
    layout := [U 1; I 1];
    to_fields m := (InitAckMessage_command m, (InitAckMessage_status m, tt));
    of_fields v := let '(x0, (x1, _)) := v in mkInitAckMessage x0 x1;
    command_of m := InitAckMessage_command m;
    GetCommand := kInitAck
  |}.
  - by intros [].
  - fields_eta.
Defined.

Record VersionedInitMessage := mkVersionedInitMessage {
  VersionedInitMessage_command : Z;
  VersionedInitMessage_client_type : Z;
  VersionedInitMessage_client_build_id : list Z;
  VersionedInitMessage_client_version : Z
}.

#[export] Instance VersionedInitMessage_packed : PackedStruct VersionedInitMessage.
Proof.
  refine {|
    layout := [U 1; I 1; Bytes 256; U 8];
    to_fields m := (VersionedInitMessage_command m, (VersionedInitMessage_client_type m,
      (VersionedInitMessage_client_build_id m, (VersionedInitMessage_client_version m, tt))));
    of_fields v := let '(x0, (x1, (x2, (x3, _)))) := v in mkVersionedInitMessage x0 x1 x2 x3;
    command_of m := VersionedInitMessage_command m;
    GetCommand := kVersionedInit
  |}.
  - by intros [].
  - fields_eta.
Defined.

Record VersionedInitAckMessage := mkVersionedInitAckMessage {
  VersionedInitAckMessage_command : Z;
  VersionedInitAckMessage_status : Z;
  VersionedInitAckMessage_server_build_id : list Z;
  VersionedInitAckMessage_server_version : Z
}.

#[export] Instance VersionedInitAckMessage_packed : PackedStruct VersionedInitAckMessage.
Proof.
  refine {|
    layout := [U 1; I 1; Bytes 256; U 8];
    to_fields m := (VersionedInitAckMessage_command m, (VersionedInitAckMessage_status m,
      (VersionedInitAckMessage_server_build_id m, (VersionedInitAckMessage_server_version m,
      tt))));
    of_fields v := let '(x0, (x1, (x2, (x3, _)))) := v in mkVersionedInitAckMessage x0 x1 x2 x3;
    command_of m := VersionedInitAckMessage_command m;
    GetCommand := kVersionedInitAck
  |}.
  - by intros [].
  - fields_eta.
Defined.

Record InitLlcmMessage := mkInitLlcmMessage {
  InitLlcmMessage_command : Z
}.

#[export] Instance InitLlcmMessage_packed : PackedStruct InitLlcmMessage.
Proof.
  refine {|
    layout := [U 1];
    to_fields m := (InitLlcmMessage_command m, tt);
    of_fields v := let '(x0, _) := v in mkInitLlcmMessage x0;
    command_of m := InitLlcmMessage_command m;
    GetCommand := kInitLlcm
  |}.
  - by intros [].
  - fields_eta.
Defined.

Record InitLlcmAckMessage := mkInitLlcmAckMessage {
  InitLlcmAckMessage_command : Z;
  InitLlcmAckMessage_status : Z;
  InitLlcmAckMessage_llcm_queue_offset : Z;
  InitLlcmAckMessage_llcm_queue_size : Z;
  InitLlcmAckMessage_reverse_llcm_queue_offset : Z;
  InitLlcmAckMessage_reverse_llcm_queue_size : Z
}.

#[export] Instance InitLlcmAckMessage_packed : PackedStruct InitLlcmAckMessage.
Proof.
  refine {|
    layout := [U 1; I 1; U 8; U 8; U 8; U 8];
    to_fields m := (InitLlcmAckMessage_command m, (InitLlcmAckMessage_status m,
      (InitLlcmAckMessage_llcm_queue_offset m, (InitLlcmAckMessage_llcm_queue_size m,
      (InitLlcmAckMessage_reverse_llcm_queue_offset m,
      (InitLlcmAckMessage_reverse_llcm_queue_size m, tt))))));
    of_fields v := let '(x0, (x1, (x2, (x3, (x4, (x5, _)))))) := v in mkInitLlcmAckMessage x0 x1
      x2 x3 x4 x5;
    command_of m := InitLlcmAckMessage_command m;
    GetCommand := kInitLlcmAck
  |}.
  - by intros [].
  - fields_eta.
Defined.

Record ListenMessage := mkListenMessage {
  ListenMessage_command : Z;
  ListenMessage_sock : Z
}.

#[export] Instance ListenMessage_packed : PackedStruct ListenMessage.
Proof.
  refine {|
    layout := [U 1; U 8];
    to_fields m := (ListenMessage_command m, (ListenMessage_sock m, tt));
    of_fields v := let '(x0, (x1, _)) := v in mkListenMessage x0 x1;
    command_of m := ListenMessage_command m;
    GetCommand := kListen
  |}.
  - by intros [].
  - fields_eta.
Defined.

Record ListenAckMessage := mkListenAckMessage {
  ListenAckMessage_command : Z;
  ListenAckMessage_sock : Z;
  ListenAckMessage_port : Z;
  ListenAckMessage_status : Z
}.

#[export] Instance ListenAckMessage_packed : PackedStruct ListenAckMessage.
Proof.
  refine {|
    layout := [U 1; U 8; U 2; I 1];
    to_fields m := (ListenAckMessage_command m, (ListenAckMessage_sock m, (ListenAckMessage_port
      m, (ListenAckMessage_status m, tt))));
    of_fields v := let '(x0, (x1, (x2, (x3, _)))) := v in mkListenAckMessage x0 x1 x2 x3;
    command_of m := ListenAckMessage_command m;
    GetCommand := kListenAck
  |}.
  - by intros [].
  - fields_eta.
Defined.

Record IncomingConnectionMessage := mkIncomingConnectionMessage {
  IncomingConnectionMessage_command : Z;
  IncomingConnectionMessage_sock : Z
}.

#[export] Instance IncomingConnectionMessage_packed : PackedStruct IncomingConnectionMessage.
Proof.
  refine {|
    layout := [U 1; U 8];
    to_fields m := (IncomingConnectionMessage_command m, (IncomingConnectionMessage_sock m,
      tt));
    of_fields v := let '(x0, (x1, _)) := v in mkIncomingConnectionMessage x0 x1;
    command_of m := IncomingConnectionMessage_command m;
    GetCommand := kIncomingConnection
  |}.
  - by intros [].
  - fields_eta.
Defined.

Record IncomingConnectionMessageV2 := mkIncomingConnectionMessageV2 {
  IncomingConnectionMessageV2_command : Z;
  IncomingConnectionMessageV2_sock : Z;
  IncomingConnectionMessageV2_peer_saddr_is_ipv6 : bool;
  IncomingConnectionMessageV2_peer_saddr_addr : list Z;
  IncomingConnectionMessageV2_peer_saddr_port : Z
}.

#[export] Instance IncomingConnectionMessageV2_packed : PackedStruct IncomingConnectionMessageV2.
Proof.
  refine {|
    layout := [U 1; U 8; B; Bytes 16; U 2];
    to_fields m := (IncomingConnectionMessageV2_command m, (IncomingConnectionMessageV2_sock m,
      (IncomingConnectionMessageV2_peer_saddr_is_ipv6 m,
      (IncomingConnectionMessageV2_peer_saddr_addr m,
      (IncomingConnectionMessageV2_peer_saddr_port m, tt)))));
    of_fields v := let '(x0, (x1, (x2, (x3, (x4, _))))) := v in mkIncomingConnectionMessageV2 x0
      x1 x2 x3 x4;
    command_of m := IncomingConnectionMessageV2_command m;
    GetCommand := kIncomingConnectionV2
  |}.
  - by intros [].
  - fields_eta.
Defined.

Record AcceptMessage := mkAcceptMessage {
  AcceptMessage_command : Z;
  AcceptMessage_listen_sock : Z;
  AcceptMessage_data_sock : Z
}.

#[export] Instance AcceptMessage_packed : PackedStruct AcceptMessage.
Proof.
  refine {|
    layout := [U 1; U 8; U 8];
    to_fields m := (AcceptMessage_command m, (AcceptMessage_listen_sock m,
      (AcceptMessage_data_sock m, tt)));
    of_fields v := let '(x0, (x1, (x2, _))) := v in mkAcceptMessage x0 x1 x2;
    command_of m := AcceptMessage_command m;
    GetCommand := kAccept
  |}.
  - by intros [].
  - fields_eta.
Defined.

Record AcceptAckMessage := mkAcceptAckMessage {
  AcceptAckMessage_command : Z;
  AcceptAckMessage_sock : Z;
  AcceptAckMessage_status : Z
}.

#[export] Instance AcceptAckMessage_packed : PackedStruct AcceptAckMessage.
Proof.
  refine {|
    layout := [U 1; U 8; I 1];
    to_fields m := (AcceptAckMessage_command m, (AcceptAckMessage_sock m,
      (AcceptAckMessage_status m, tt)));
    of_fields v := let '(x0, (x1, (x2, _))) := v in mkAcceptAckMessage x0 x1 x2;
    command_of m := AcceptAckMessage_command m;
    GetCommand := kAcceptAck
  |}.
  - by intros [].
  - fields_eta.
Defined.

Record CloseListenSockMessage := mkCloseListenSockMessage {
  CloseListenSockMessage_command : Z;
  CloseListenSockMessage_sock : Z
}.

#[export] Instance CloseListenSockMessage_packed : PackedStruct CloseListenSockMessage.
Proof.
  refine {|
    layout := [U 1; U 8];
    to_fields m := (CloseListenSockMessage_command m, (CloseListenSockMessage_sock m, tt));
    of_fields v := let '(x0, (x1, _)) := v in mkCloseListenSockMessage x0 x1;
    command_of m := CloseListenSockMessage_command m;
    GetCommand := kCloseListenSock
  |}.
  - by intros [].
  - fields_eta.
Defined.

Record ConnectMessage := mkConnectMessage {
  ConnectMessage_command : Z;
  ConnectMessage_addr : list Z;
  ConnectMessage_sock : Z;
  ConnectMessage_port : Z;
  ConnectMessage_ipv6 : bool
}.

#[export] Instance ConnectMessage_packed : PackedStruct ConnectMessage.
Proof.
  refine {|
    layout := [U 1; Bytes 16; U 8; U 2; B];
    to_fields m := (ConnectMessage_command m, (ConnectMessage_addr m, (ConnectMessage_sock m,
      (ConnectMessage_port m, (ConnectMessage_ipv6 m, tt)))));
    of_fields v := let '(x0, (x1, (x2, (x3, (x4, _))))) := v in mkConnectMessage x0 x1 x2 x3 x4;
    command_of m := ConnectMessage_command m;
    GetCommand := kConnect
  |}.
  - by intros [].
  - fields_eta.
Defined.

Record ConnectAckMessage := mkConnectAckMessage {
  ConnectAckMessage_command : Z;
  ConnectAckMessage_sock : Z;
  ConnectAckMessage_status : Z;
  ConnectAckMessage_req_status : Z
}.

#[export] Instance ConnectAckMessage_packed : PackedStruct ConnectAckMessage.
Proof.
  refine {|
    layout := [U 1; U 8; I 1; I 1];
    to_fields m := (ConnectAckMessage_command m, (ConnectAckMessage_sock m,
      (ConnectAckMessage_status m, (ConnectAckMessage_req_status m, tt))));
    of_fields v := let '(x0, (x1, (x2, (x3, _)))) := v in mkConnectAckMessage x0 x1 x2 x3;
    command_of m := ConnectAckMessage_command m;
    GetCommand := kConnectAck
  |}.
  - by intros [].
  - fields_eta.
Defined.

Record SendMessage := mkSendMessage {
  SendMessage_command : Z;
  SendMessage_sock : Z;
  SendMessage_reg_handle : Z;
  SendMessage_op_id : Z;
  SendMessage_offset : Z;
  SendMessage_size : Z
}.

#[export] Instance SendMessage_packed : PackedStruct SendMessage.
Proof.
  refine {|
    layout := [U 1; U 8; U 8; U 8; U 8; U 8];
    to_fields m := (SendMessage_command m, (SendMessage_sock m, (SendMessage_reg_handle m,
      (SendMessage_op_id m, (SendMessage_offset m, (SendMessage_size m, tt))))));
    of_fields v := let '(x0, (x1, (x2, (x3, (x4, (x5, _)))))) := v in mkSendMessage x0 x1 x2 x3
      x4 x5;
    command_of m := SendMessage_command m;
    GetCommand := kSend
  |}.
  - by intros [].
  - fields_eta.
Defined.

Record SendAckMessage := mkSendAckMessage {
  SendAckMessage_command : Z;
  SendAckMessage_op_id : Z;
  SendAckMessage_status : Z;
  SendAckMessage_req_status : Z
}.

#[export] Instance SendAckMessage_packed : PackedStruct SendAckMessage.
Proof.
  refine {|
    layout := [U 1; U 8; U 1; I 1];
    to_fields m := (SendAckMessage_command m, (SendAckMessage_op_id m, (SendAckMessage_status m,
      (SendAckMessage_req_status m, tt))));
    of_fields v := let '(x0, (x1, (x2, (x3, _)))) := v in mkSendAckMessage x0 x1 x2 x3;
    command_of m := SendAckMessage_command m;
    GetCommand := kSendAck
  |}.
  - by intros [].
  - fields_eta.
Defined.

Record RecvMessage := mkRecvMessage {
  RecvMessage_command : Z;
  RecvMessage_sock : Z;
  RecvMessage_offset : Z;
  RecvMessage_size : Z;
  RecvMessage_reg_handle : Z;
  RecvMessage_op_id : Z
}.

#[export] Instance RecvMessage_packed : PackedStruct RecvMessage.
Proof.
  refine {|
    layout := [U 1; U 8; U 8; U 8; U 8; U 8];
    to_fields m := (RecvMessage_command m, (RecvMessage_sock m, (RecvMessage_offset m,
      (RecvMessage_size m, (RecvMessage_reg_handle m, (RecvMessage_op_id m, tt))))));
    of_fields v := let '(x0, (x1, (x2, (x3, (x4, (x5, _)))))) := v in mkRecvMessage x0 x1 x2 x3
      x4 x5;
    command_of m := RecvMessage_command m;
    GetCommand := kRecv
  |}.
  - by intros [].
  - fields_eta.
Defined.

Record RecvAckMessage := mkRecvAckMessage {
  RecvAckMessage_command : Z;
  RecvAckMessage_op_id : Z;
  RecvAckMessage_status : Z;
  RecvAckMessage_size : Z;
  RecvAckMessage_req_status : Z
}.

#[export] Instance RecvAckMessage_packed : PackedStruct RecvAckMessage.
Proof.
  refine {|
    layout := [U 1; U 8; U 1; U 8; I 1];
    to_fields m := (RecvAckMessage_command m, (RecvAckMessage_op_id m, (RecvAckMessage_status m,
      (RecvAckMessage_size m, (RecvAckMessage_req_status m, tt)))));
    of_fields v := let '(x0, (x1, (x2, (x3, (x4, _))))) := v in mkRecvAckMessage x0 x1 x2 x3 x4;
    command_of m := RecvAckMessage_command m;
    GetCommand := kRecvAck
  |}.
  - by intros [].
  - fields_eta.
Defined.

Record ReleaseMessage := mkReleaseMessage {
  ReleaseMessage_command : Z;
  ReleaseMessage_sock : Z;
  ReleaseMessage_op_id : Z
}.

#[export] Instance ReleaseMessage_packed : PackedStruct ReleaseMessage.
Proof.
  refine {|
    layout := [U 1; U 8; U 8];
    to_fields m := (ReleaseMessage_command m, (ReleaseMessage_sock m, (ReleaseMessage_op_id m,
      tt)));
    of_fields v := let '(x0, (x1, (x2, _))) := v in mkReleaseMessage x0 x1 x2;
    command_of m := ReleaseMessage_command m;
    GetCommand := kRelease
  |}.
  - by intros [].
  - fields_eta.
Defined.

Record CloseDataSockMessage := mkCloseDataSockMessage {
  CloseDataSockMessage_command : Z;
  CloseDataSockMessage_sock : Z
}.

#[export] Instance CloseDataSockMessage_packed : PackedStruct CloseDataSockMessage.
Proof.
  refine {|
    layout := [U 1; U 8];
    to_fields m := (CloseDataSockMessage_command m, (CloseDataSockMessage_sock m, tt));
    of_fields v := let '(x0, (x1, _)) := v in mkCloseDataSockMessage x0 x1;
    command_of m := CloseDataSockMessage_command m;
    GetCommand := kCloseDataSock
  |}.
  - by intros [].
  - fields_eta.
Defined.

Record RegBufferMessage := mkRegBufferMessage {
  RegBufferMessage_command : Z;
  RegBufferMessage_more : bool;
  RegBufferMessage_is_bounce_buffer : bool;
  RegBufferMessage_num_gpas : Z
}.

#[export] Instance RegBufferMessage_packed : PackedStruct RegBufferMessage.
Proof.
  refine {|
    layout := [U 1; B; B; U 1];
    to_fields m := (RegBufferMessage_command m, (RegBufferMessage_more m,
      (RegBufferMessage_is_bounce_buffer m, (RegBufferMessage_num_gpas m, tt))));
    of_fields v := let '(x0, (x1, (x2, (x3, _)))) := v in mkRegBufferMessage x0 x1 x2 x3;
    command_of m := RegBufferMessage_command m;
    GetCommand := kRegBuffer
  |}.
  - by intros [].
  - fields_eta.
Defined.

Record RegBufferAckMessage := mkRegBufferAckMessage {
  RegBufferAckMessage_command : Z;
  RegBufferAckMessage_reg_handle : Z;
  RegBufferAckMessage_num_gpas : Z;
  RegBufferAckMessage_status : Z
}.

#[export] Instance RegBufferAckMessage_packed : PackedStruct RegBufferAckMessage.
Proof.
  refine {|
    layout := [U 1; U 8; U 4; I 1];
    to_fields m := (RegBufferAckMessage_command m, (RegBufferAckMessage_reg_handle m,
      (RegBufferAckMessage_num_gpas m, (RegBufferAckMessage_status m, tt))));
    of_fields v := let '(x0, (x1, (x2, (x3, _)))) := v in mkRegBufferAckMessage x0 x1 x2 x3;
    command_of m := RegBufferAckMessage_command m;
    GetCommand := kRegBufferAck
  |}.
  - by intros [].
  - fields_eta.
Defined.

Record DeregBufferMessage := mkDeregBufferMessage {
  DeregBufferMessage_command : Z;
  DeregBufferMessage_reg_handle : Z;
  DeregBufferMessage_is_bounce_buffer : bool
}.

#[export] Instance DeregBufferMessage_packed : PackedStruct DeregBufferMessage.
Proof.
  refine {|
    layout := [U 1; U 8; B];
    to_fields m := (DeregBufferMessage_command m, (DeregBufferMessage_reg_handle m,
      (DeregBufferMessage_is_bounce_buffer m, tt)));
    of_fields v := let '(x0, (x1, (x2, _))) := v in mkDeregBufferMessage x0 x1 x2;
    command_of m := DeregBufferMessage_command m;
    GetCommand := kDeregBuffer
  |}.
  - by intros [].
  - fields_eta.
Defined.

Record DeregBufferAckMessage := mkDeregBufferAckMessage {
  DeregBufferAckMessage_command : Z;
  DeregBufferAckMessage_status : Z
}.

#[export] Instance DeregBufferAckMessage_packed : PackedStruct DeregBufferAckMessage.
Proof.
  refine {|
    layout := [U 1; I 1];
    to_fields m := (DeregBufferAckMessage_command m, (DeregBufferAckMessage_status m, tt));
    of_fields v := let '(x0, (x1, _)) := v in mkDeregBufferAckMessage x0 x1;
    command_of m := DeregBufferAckMessage_command m;
    GetCommand := kDeregBufferAck
  |}.
  - by intros [].
  - fields_eta.
Defined.

Record PingMessage := mkPingMessage {
  PingMessage_command : Z;
  PingMessage_seq : Z
}.

#[export] Instance PingMessage_packed : PackedStruct PingMessage.
Proof.
  refine {|
    layout := [U 1; I 4];
    to_fields m := (PingMessage_command m, (PingMessage_seq m, tt));
    of_fields v := let '(x0, (x1, _)) := v in mkPingMessage x0 x1;
    command_of m := PingMessage_command m;
    GetCommand := kPing
  |}.
  - by intros [].
  - fields_eta.
Defined.

Record PongMessage := mkPongMessage {
  PongMessage_command : Z;
  PongMessage_seq : Z
}.

#[export] Instance PongMessage_packed : PackedStruct PongMessage.
Proof.
  refine {|
    layout := [U 1; I 4];
    to_fields m := (PongMessage_command m, (PongMessage_seq m, tt));
    of_fields v := let '(x0, (x1, _)) := v in mkPongMessage x0 x1;
    command_of m := PongMessage_command m;
    GetCommand := kPong
  |}.
  - by intros [].
  - fields_eta.
Defined.

Record SubscribeToPeriodicStatsMessage := mkSubscribeToPeriodicStatsMessage {
  SubscribeToPeriodicStatsMessage_command : Z;
  SubscribeToPeriodicStatsMessage_payload_size : Z
}.

#[export] Instance SubscribeToPeriodicStatsMessage_packed :
  PackedStruct SubscribeToPeriodicStatsMessage.
Proof.
  refine {|
    layout := [U 1; U 2];
    to_fields m := (SubscribeToPeriodicStatsMessage_command m,
      (SubscribeToPeriodicStatsMessage_payload_size m, tt));
    of_fields v := let '(x0, (x1, _)) := v in mkSubscribeToPeriodicStatsMessage x0 x1;
    command_of m := SubscribeToPeriodicStatsMessage_command m;
    GetCommand := kSubscribeToPeriodicStats
  |}.
  - by intros [].
  - fields_eta.
Defined.

Record PeriodicStatsUpdateMessage := mkPeriodicStatsUpdateMessage {
  PeriodicStatsUpdateMessage_command : Z;
  PeriodicStatsUpdateMessage_payload_size : Z
}.

#[export] Instance PeriodicStatsUpdateMessage_packed : PackedStruct PeriodicStatsUpdateMessage.
Proof.
  refine {|
    layout := [U 1; U 2];
    to_fields m := (PeriodicStatsUpdateMessage_command m,
      (PeriodicStatsUpdateMessage_payload_size m, tt));
    of_fields v := let '(x0, (x1, _)) := v in mkPeriodicStatsUpdateMessage x0 x1;
    command_of m := PeriodicStatsUpdateMessage_command m;
    GetCommand := kPeriodicStatsUpdate
  |}.
  - by intros [].
  - fields_eta.
Defined.

#[export] Instance ControlCommand_eq_dec : EqDecision ControlCommand.
Proof. solve_decision. Defined.

(** ** Encoding and validation *)

Section codec.
Context {M : Type} `{PackedStruct M}.

Lemma encode_length (m : M) : msg_ok m -> Zlen (encode m) = sizeof M.
Proof. intros Hm. unfold Zlen, encode, sizeof. by rewrite encode_fields_length. Qed.

Lemma encode_bytes (m : M) : msg_ok m -> Forall byte_ok (encode m).
Proof. apply encode_fields_bytes. Qed.

Lemma validate_encode (m : M) : msg_ok m -> ValidateAndGetMessage (encode m) = Some m.
Proof.
  intros Hm. unfold ValidateAndGetMessage. rewrite encode_length, Z.eqb_refl by done. cbn.
  f_equal. unfold encode. by rewrite decode_encode_fields, of_to.
Qed.

Lemma validate_inv packet (m : M) :
  ValidateAndGetMessage packet = Some m -> length packet = layout_size layout
  /\ m = of_fields (decode_fields layout packet).
Proof.
  unfold ValidateAndGetMessage, Zlen, sizeof. case_match; [done|]. intros [= <-]. zbool. by split; [lia|].
Qed.

End codec.

#[export] Hint Resolve encode_bytes : tcpx.

(** ** Properties *)


(** A received packet that [ValidateAndGetMessage] accepts
    is exactly the bytes of the message it returns (its [bool] bytes being 0
    or 1), and packets of any other length are refused. *)
Theorem packet_roundtrip M (P : PackedStruct M) (packet : list Z) :
  Forall byte_ok packet -> canonical layout packet ->
  match ValidateAndGetMessage packet with
  | Some m => encode (m : M) = packet /\ Zlen packet = sizeof M
  | None => Zlen packet <> sizeof M
  end.
Proof.
  intros Hb Hc. destruct (ValidateAndGetMessage packet) as [m|] eqn:E.
  - destruct (validate_inv _ _ E) as [HL ->]. unfold encode. rewrite to_of.
    split; [by apply encode_decode_fields|]. unfold Zlen, sizeof. lia.
  - unfold ValidateAndGetMessage in E. case_match; [|done]. zbool. done.
Qed.


Lemma packet_roundtrip_witness :
  match ValidateAndGetMessage [23; 1; 2; 0; 128] with
  | Some m => encode (m : PongMessage) = [23; 1; 2; 0; 128]
              /\ Zlen [23; 1; 2; 0; 128] = sizeof PongMessage
  | None => Zlen [23; 1; 2; 0; 128] <> sizeof PongMessage
  end.
Proof.
  apply (packet_roundtrip PongMessage _ [23; 1; 2; 0; 128]).
  - repeat constructor; lia.
  - repeat split. done.
Defined.
