(* ===== verification/ControlCommandText.v ===== *)
(** * Texts of control messages (dxs/client/control-command.cc, data-sock.cc)

    [ToString] of the enumerations and of the messages and the detailed
    descriptions of the status values. *)

From stdpp Require Import pretty.
From S2P Require Import Prelude Packed ControlCommand.

(** [std::to_string] of an integer. *)
Definition std_to_string (x : Z) : string := pretty x.

(** ** Names of enumerators *)

Definition ToString_ControlCommand (v : Z) : string :=
  match ControlCommand_of v with
  | kInvalid => "kInvalid"
  | kInit => "kInit"
  | kInitAck => "kInitAck"
  | kListen => "kListen"
  | kListenAck => "kListenAck"
  | kIncomingConnection => "kIncomingConnection"
  | kAccept => "kAccept"
  | kAcceptAck => "kAcceptAck"
  | kCloseListenSock => "kCloseListenSock"
  | kConnect => "kConnect"
  | kConnectAck => "kConnectAck"
  | kSend => "kSend"
  | kSendAck => "kSendAck"
  | kRecv => "kRecv"
  | kRecvAck => "kRecvAck"
  | kRelease => "kRelease"
  | kCloseDataSock => "kCloseDataSock"
  | kRegBuffer => "kRegBuffer"
  | kRegBufferAck => "kRegBufferAck"
  | kDeregBuffer => "kDeregBuffer"
  | kDeregBufferAck => "kDeregBufferAck"
  | kPing => "kPing"
  | kPong => "kPong"
  | kVersionedInit => "kVersionedInit"
  | kVersionedInitAck => "kVersionedInitAck"
  | kInitLlcm => "kInitLlcm"
  | kInitLlcmAck => "kInitLlcmAck"
  | kSubscribeToPeriodicStats => "kSubscribeToPeriodicStats"
  | kPeriodicStatsUpdate => "kPeriodicStatsUpdate"
  | _ => "Unknown(" ++ std_to_string (u8 v) ++ ")"
  end%string.

Definition ToString_ClientType (v : Z) : string :=
  match ClientType_of v with
  | ClientType_kBufferManager => "kBufferManager"
  | ClientType_kSnapClient => "kSnapClient"
  | _ => "Unknown(" ++ std_to_string (u8 v) ++ ")"
  end%string.

Definition ToString_InitAckStatus (v : Z) : string :=
  match InitAckStatus_of v with
  | InitAck_kOk => "kOk"
  | InitAck_kExists => "kExists"
  | InitAck_kSecureInitRequired => "kSecureInitRequired"
  | InitAck_kRejected => "kRejected"
  | InitAck_kInvalidRequest => "kInvalidRequest"
  | InitAck_kUnsupportedClientVersion => "kUnsupportedClientVersion"
  | _ => "Unknown(" ++ std_to_string v ++ ")"
  end%string.

Definition ToString_InitLlcmAckStatus (v : Z) : string :=
  match InitLlcmAckStatus_of v with
  | InitLlcmAck_kOk => "kOk"
  | InitLlcmAck_kFailed => "kFailed"
  | _ => "Unknown(" ++ std_to_string v ++ ")"
  end%string.

Definition ToString_AcceptAckStatus (v : Z) : string :=
  match AcceptAckStatus_of v with
  | AcceptAck_kOk => "kOk"
  | AcceptAck_kInvalidRequest => "kInvalidRequest"
  | AcceptAck_kInvalidListenSocket => "kInvalidListenSocket"
  | AcceptAck_kInternalError => "kInternalError"
  | AcceptAck_kNoPendingConnection => "kNoPendingConnection"
  | AcceptAck_kInvalidClientType => "kInvalidClientType"
  | _ => "Unknown(" ++ std_to_string v ++ ")"
  end%string.

Definition ToString_RegBufferAckStatus (v : Z) : string :=
  match RegBufferAckStatus_of v with
  | RegBufferAck_kOk => "kOk"
  | RegBufferAck_kInvalidRegion => "kInvalidRegion"
  | RegBufferAck_kOverlappingRegions => "kOverlappingRegions"
  | RegBufferAck_kAlreadyRegistered => "kAlreadyRegistered"
  | RegBufferAck_kMismatchedDirection => "kMismatchedDirection"
  | RegBufferAck_kRegistrationFailed => "kRegistrationFailed"
  | RegBufferAck_kNotAllowed => "kNotAllowed"
  | _ => "Unknown(" ++ std_to_string v ++ ")"
  end%string.

Definition ToString_DeregBufferAckStatus (v : Z) : string :=
  match DeregBufferAckStatus_of v with
  | DeregBufferAck_kOk => "kOk"
  | DeregBufferAck_kNotFound => "kNotFound"
  | DeregBufferAck_kNotAllowed => "kNotAllowed"
  | DeregBufferAck_kInternal => "kInternal"
  | _ => "Unknown(" ++ std_to_string v ++ ")"
  end%string.

Definition ToString_OpStatus (v : Z) : string :=
  match OpStatus_of v with
  | OpStatus_kComplete => "kComplete"
  | OpStatus_kPending => "kPending"
  | OpStatus_kError => "kError"
  | _ => "Unknown(" ++ std_to_string (u8 v) ++ ")"
  end%string.

Definition ToString_DataSockStatus (v : Z) : string :=
  match DataSockStatus_of v with
  | DataSock_kConnected => "kConnected"
  | DataSock_kPendingConnect => "kPendingConnect"
  | DataSock_kInvalid => "kInvalid"
  | DataSock_kConnectionRefused => "kConnectionRefused"
  | DataSock_kTimeout => "kTimeout"
  | DataSock_kUnreachable => "kUnreachable"
  | DataSock_kUnknownError => "kUnknownError"
  | DataSock_kInternalError => "kInternalErrorINVALID"
  | _ => "INVALID"
  end%string.

(** ** Detailed descriptions of status values *)

Definition GetDetailedStatus_InitAck (v : Z) : string :=
  match InitAckStatus_of v with
  | InitAck_kOk => "Everything is OK. DXS client should now be initialized."
  | InitAck_kExists => "The client is already initialized."
  | InitAck_kSecureInitRequired => "kSecureInitRequired"
  | InitAck_kRejected =>
      "Init request rejected (Possible reasons: (1) Client's source port " ++
      "doesn't match the buffer manager port that DXS is using or (2) Buffer " ++
      "manager client already exists)."
  | InitAck_kInvalidRequest => "Init request is invalid (or not provided)"
  | InitAck_kUnsupportedClientVersion => "Client version is no longer supported."
  | _ => "Unknown(" ++ std_to_string v ++ ")"
  end%string.

Definition GetDetailedStatus_RegBufferAck (v : Z) : string :=
  match RegBufferAckStatus_of v with
  | RegBufferAck_kOk => "Everything is OK. Buffer should now be registered."
  | RegBufferAck_kInvalidRegion => "Truncated packet or malicious client."
  | RegBufferAck_kOverlappingRegions => "Iovec overlaps existing pending buffer registration."
  | RegBufferAck_kAlreadyRegistered => "Buffer is already registered."
  | RegBufferAck_kMismatchedDirection =>
      "Direction of buffer requested, isn't what DXS is expecting."
  | RegBufferAck_kRegistrationFailed =>
      "Registration failed. Possibly, malformed (or empty) RegBuffer request."
  | RegBufferAck_kNotAllowed =>
      "The client associated with this request isn't allowed to register the " ++
      "buffer. Please use this method with a buffer manager client."
  | _ => "Unknown(" ++ std_to_string v ++ ")"
  end%string.

Definition GetDetailedStatus_DeregBufferAck (v : Z) : string :=
  match DeregBufferAckStatus_of v with
  | DeregBufferAck_kOk => "Everything is OK. Buffer should now be deregistered."
  | DeregBufferAck_kNotFound =>
      "Dereg Buffer request is either malformed (or empty) or receive buffer " ++
      "reg handle not found."
  | DeregBufferAck_kNotAllowed =>
      "The client associated with this request isn't allowed to deregister " ++
      "the buffer. Please use this method with a buffer manager client."
  | DeregBufferAck_kInternal => "Failed to uninstall LEM rules."
  | _ => "Unknown(" ++ std_to_string v ++ ")"
  end%string.

Definition GetDetailedStatus_ListenAck (v : Z) : string :=
  match ListenAckStatus_of v with
  | ListenAck_kOk => "Everything is OK."
  | ListenAck_kInvalidRequest => "Listen request is invalid (or not provided)"
  | ListenAck_kOutOfFreePorts => "Free ports unavailable."
  | ListenAck_kHandlerAlreadyInUse => "Listen handler is already in use."
  | _ => "Unknown(" ++ std_to_string v ++ ")"
  end%string.

Definition GetDetailedStatus_AcceptAck (v : Z) : string :=
  match AcceptAckStatus_of v with
  | AcceptAck_kOk => "Everything is OK."
  | AcceptAck_kInvalidRequest => "Accept request is invalid (or not provided)"
  | AcceptAck_kInvalidListenSocket => "Accept request had an invalid listen socket handle"
  | AcceptAck_kInternalError => "Server error processing the accept request"
  | AcceptAck_kNoPendingConnection =>
      "Accept called when no connection was pending on the listening socket"
  | AcceptAck_kInvalidClientType => "Accept request had an unknown client type"
  | _ => "Unknown(" ++ std_to_string v ++ ")"
  end%string.

Definition GetDetailedStatus_ConnectAck (v : Z) : string :=
  match ConnectAckStatus_of v with
  | ConnectAck_kOk => "Everything is OK. Connection successful."
  | ConnectAck_kInvalid => "Invalid (or empty) connection request."
  | ConnectAck_kNotServingVM => "Got connection request but not serving any VM."
  | ConnectAck_kVIPNotFound => "VIP not found."
  | ConnectAck_kAddSocketToEngineError => "Unable to add socket to engine."
  | ConnectAck_kClientDisconnected => "Error opening to connection to DXS data channel."
  | ConnectAck_kConnectionFailed => "Connection failed."
  | ConnectAck_kSnapNotEnabled => "Snap not enabled."
  | _ => "Unknown(" ++ std_to_string v ++ ")"
  end%string.

(** The public error code and the message. *)
Definition GetDetailedStatus_SendAck_parts (v : Z) : Z * string :=
  match SendAckStatus_of v with
  | SendAck_kOk => (v, "Everything is OK.")
  | SendAck_kInvalidRegHandle => (v, "Invalid send buffer reg handle.")
  | SendAck_kInvalidRegisteredBuffer => (v, "Invalid registered buffer.")
  | SendAck_kInvalidSocket => (v, "Invalid socket.")
  | SendAck_kInvalidPipeline => (v, "Invalid pipeline.")
  | SendAck_kAckError => (v, "Error sent in the ack; completion failed.")
  | SendAck_kBadConnection =>
      (v, "Bad connection (Possible early connection teardown from remote side).")
  | SendAck_kSendRecvSizeMismatch => (v, "Send and Receive sides have mismatched size.")
  | SendAck_kControlChannelFailure => (v, "SCTP or LLCM control channel failed.")
  | _ => (1, "Unknown failure in Send Ack.")
  end%string.

Definition GetDetailedStatus_SendAck (v : Z) : string :=
  let '(public_error_code, message) := GetDetailedStatus_SendAck_parts v in
  ("Code (" ++ std_to_string public_error_code ++ "): " ++ message)%string.

(** The public error code and the message. *)
Definition GetDetailedStatus_RecvAck_parts (v : Z) : Z * string :=
  match RecvAckStatus_of v with
  | RecvAck_kOk => (v, "Everything is OK.")
  | RecvAck_kNoRegisteredReceiveBuffer => (v, "Receive buffer is not registered.")
  | RecvAck_kInvalidRegHandle => (v, "Invalid receive buffer reg handle.")
  | RecvAck_kInvalidRegisteredBuffer => (v, "Invalid registered buffer.")
  | RecvAck_kInvalidSocket => (v, "Invalid socket.")
  | RecvAck_kInvalidPipeline => (v, "Invalid pipeline.")
  | RecvAck_kAckError => (v, "Error sent in the ack; completion failed.")
  | RecvAck_kWrongElement => (v, "Wrong element.")
  | RecvAck_kBadConnection =>
      (v, "Bad connection (Possible early connection teardown from remote side).")
  | RecvAck_kSendRecvSizeMismatch => (v, "Send and Receive sides have mismatched size.")
  | RecvAck_kControlChannelFailure => (v, "SCTP or LLCM control channel failed.")
  | _ => (1, "Unknown failure in Recv Ack.")
  end%string.

Definition GetDetailedStatus_RecvAck (v : Z) : string :=
  let '(public_error_code, message) := GetDetailedStatus_RecvAck_parts v in
  ("Code (" ++ std_to_string public_error_code ++ "): " ++ message)%string.

(** ** Textual form of messages *)

Definition FormatCommand (cmd : Z) (delim : string) : string :=
  ("Command: " ++ ToString_ControlCommand cmd ++ delim)%string.

Definition FormatFieldStr (field_name value delim : string) : string :=
  (field_name ++ ": " ++ value ++ delim)%string.

Definition FormatFieldNum (field_name : string) (value : Z) (delim : string) : string :=
  FormatFieldStr field_name (std_to_string value) delim.

Definition FormatFieldBool (field_name : string) (value : bool) (delim : string) : string :=
  FormatFieldStr field_name (if value then "True" else "False") delim.

(** A [char] array read as a C string. *)
Fixpoint c_string (bs : list Z) : string :=
  match bs with
  | [] => EmptyString
  | b :: bs' => if b =? 0 then EmptyString
                else String (Ascii.ascii_of_nat (Z.to_nat b)) (c_string bs')
  end.

Definition ToString_InitMessage (msg : InitMessage) (delim : string) : string :=
  (FormatCommand (InitMessage_command msg) delim ++
   FormatFieldStr "client_type" (ToString_ClientType (InitMessage_client_type msg)) EmptyString)%string.

Definition ToString_InitAckMessage (msg : InitAckMessage) (delim : string) : string :=
  (FormatCommand (InitAckMessage_command msg) delim ++
   FormatFieldStr "status" (ToString_InitAckStatus (InitAckMessage_status msg)) EmptyString)%string.

Definition ToString_VersionedInitMessage (msg : VersionedInitMessage) (delim : string) : string :=
  (FormatCommand (VersionedInitMessage_command msg) delim ++
   FormatFieldStr "client_build_id" (c_string (VersionedInitMessage_client_build_id msg)) delim ++
   FormatFieldNum "client_version" (VersionedInitMessage_client_version msg) EmptyString)%string.

Definition ToString_VersionedInitAckMessage (msg : VersionedInitAckMessage) (delim : string) : string :=
  (FormatCommand (VersionedInitAckMessage_command msg) delim ++
   FormatFieldStr "server_build_id" (c_string (VersionedInitAckMessage_server_build_id msg)) delim ++
   FormatFieldNum "server_version" (VersionedInitAckMessage_server_version msg) EmptyString)%string.

Definition ToString_InitLlcmMessage (msg : InitLlcmMessage) (delim : string) : string :=
  (FormatCommand (InitLlcmMessage_command msg) EmptyString)%string.

Definition ToString_InitLlcmAckMessage (msg : InitLlcmAckMessage) (delim : string) : string :=
  (FormatCommand (InitLlcmAckMessage_command msg) delim ++
   FormatFieldStr "status" (ToString_InitLlcmAckStatus (InitLlcmAckMessage_status msg)) delim ++
   FormatFieldNum "a_queue_offset" (InitLlcmAckMessage_llcm_queue_offset msg) delim ++
   FormatFieldNum "a_queue_size" (InitLlcmAckMessage_llcm_queue_size msg) delim ++
   FormatFieldNum "ra_queue_offset" (InitLlcmAckMessage_reverse_llcm_queue_offset msg) delim ++
   FormatFieldNum "ra_queue_size" (InitLlcmAckMessage_reverse_llcm_queue_size msg) EmptyString)%string.

Definition ToString_ListenMessage (msg : ListenMessage) (delim : string) : string :=
  (FormatCommand (ListenMessage_command msg) delim ++
   FormatFieldStr "sock" (std_to_string (ListenMessage_sock msg)) EmptyString)%string.

Definition ToString_ListenAckMessage (msg : ListenAckMessage) (delim : string) : string :=
  (FormatCommand (ListenAckMessage_command msg) delim ++
   FormatFieldStr "sock" (std_to_string (ListenAckMessage_sock msg)) delim ++
   FormatFieldNum "port" (ListenAckMessage_port msg) EmptyString)%string.

Definition ToString_IncomingConnectionMessage (msg : IncomingConnectionMessage) (delim : string) : string :=
  (FormatCommand (IncomingConnectionMessage_command msg) delim ++
   FormatFieldStr "sock" (std_to_string (IncomingConnectionMessage_sock msg)) EmptyString)%string.

Definition ToString_AcceptMessage (msg : AcceptMessage) (delim : string) : string :=
  (FormatCommand (AcceptMessage_command msg) delim ++
   FormatFieldStr "listen_sock" (std_to_string (AcceptMessage_listen_sock msg)) delim ++
   FormatFieldStr "data_sock" (std_to_string (AcceptMessage_data_sock msg)) EmptyString)%string.

Definition ToString_AcceptAckMessage (msg : AcceptAckMessage) (delim : string) : string :=
  (FormatCommand (AcceptAckMessage_command msg) delim ++
   FormatFieldStr "sock" (std_to_string (AcceptAckMessage_sock msg)) delim ++
   FormatFieldStr "status" (ToString_AcceptAckStatus (AcceptAckMessage_status msg)) EmptyString)%string.

Definition ToString_CloseListenSockMessage (msg : CloseListenSockMessage) (delim : string) : string :=
  (FormatCommand (CloseListenSockMessage_command msg) delim ++
   FormatFieldStr "sock" (std_to_string (CloseListenSockMessage_sock msg)) EmptyString)%string.

Definition ToString_ConnectAckMessage (msg : ConnectAckMessage) (delim : string) : string :=
  (FormatCommand (ConnectAckMessage_command msg) delim ++
   FormatFieldStr "sock" (std_to_string (ConnectAckMessage_sock msg)) delim ++
   FormatFieldStr "status" (ToString_DataSockStatus (ConnectAckMessage_status msg)) EmptyString)%string.

Definition ToString_SendMessage (msg : SendMessage) (delim : string) : string :=
  (FormatCommand (SendMessage_command msg) delim ++
   FormatFieldStr "sock" (std_to_string (SendMessage_sock msg)) delim ++
   FormatFieldNum "reg_handle" (SendMessage_reg_handle msg) delim ++
   FormatFieldNum "op_id" (SendMessage_op_id msg) delim ++
   FormatFieldNum "offset)" (SendMessage_offset msg) delim ++
   FormatFieldNum "size" (SendMessage_size msg) EmptyString)%string.

Definition ToString_SendAckMessage (msg : SendAckMessage) (delim : string) : string :=
  (FormatCommand (SendAckMessage_command msg) delim ++
   FormatFieldNum "op_id" (SendAckMessage_op_id msg) delim ++
   FormatFieldStr "status" (ToString_OpStatus (SendAckMessage_status msg)) EmptyString)%string.

Definition ToString_RecvMessage (msg : RecvMessage) (delim : string) : string :=
  (FormatCommand (RecvMessage_command msg) delim ++
   FormatFieldStr "sock" (std_to_string (RecvMessage_sock msg)) delim ++
   FormatFieldNum "offset" (RecvMessage_offset msg) delim ++
   FormatFieldNum "size" (RecvMessage_size msg) delim ++
   FormatFieldNum "reg_handle" (RecvMessage_reg_handle msg) delim ++
   FormatFieldNum "op_id" (RecvMessage_op_id msg) EmptyString)%string.

Definition ToString_RecvAckMessage (msg : RecvAckMessage) (delim : string) : string :=
  (FormatCommand (RecvAckMessage_command msg) delim ++
   FormatFieldNum "op_id" (RecvAckMessage_op_id msg) delim ++
   FormatFieldStr "status" (ToString_OpStatus (RecvAckMessage_status msg)) delim ++
   FormatFieldNum "size" (RecvAckMessage_size msg) EmptyString)%string.

Definition ToString_ReleaseMessage (msg : ReleaseMessage) (delim : string) : string :=
  (FormatCommand (ReleaseMessage_command msg) delim ++
   FormatFieldStr "sock" (std_to_string (ReleaseMessage_sock msg)) delim ++
   FormatFieldNum "op_id" (ReleaseMessage_op_id msg) EmptyString)%string.

Definition ToString_CloseDataSockMessage (msg : CloseDataSockMessage) (delim : string) : string :=
  (FormatCommand (CloseDataSockMessage_command msg) delim ++
   FormatFieldStr "sock" (std_to_string (CloseDataSockMessage_sock msg)) EmptyString)%string.

Definition ToString_RegBufferMessage (msg : RegBufferMessage) (delim : string) : string :=
  (FormatCommand (RegBufferMessage_command msg) delim ++
   FormatFieldBool "more" (RegBufferMessage_more msg) delim ++
   FormatFieldNum "num_gpas" (RegBufferMessage_num_gpas msg) EmptyString)%string.

Definition ToString_RegBufferAckMessage (msg : RegBufferAckMessage) (delim : string) : string :=
  (FormatCommand (RegBufferAckMessage_command msg) delim ++
   FormatFieldNum "reg_handle" (RegBufferAckMessage_reg_handle msg) delim ++
   FormatFieldNum "num_gpas" (RegBufferAckMessage_num_gpas msg) delim ++
   FormatFieldStr "status" (ToString_RegBufferAckStatus (RegBufferAckMessage_status msg)) EmptyString)%string.

Definition ToString_DeregBufferMessage (msg : DeregBufferMessage) (delim : string) : string :=
  (FormatCommand (DeregBufferMessage_command msg) delim ++
   FormatFieldNum "reg_handle" (DeregBufferMessage_reg_handle msg) delim ++
   FormatFieldBool "is_bounce_buffer" (DeregBufferMessage_is_bounce_buffer msg) EmptyString)%string.

Definition ToString_DeregBufferAckMessage (msg : DeregBufferAckMessage) (delim : string) : string :=
  (FormatCommand (DeregBufferAckMessage_command msg) delim ++
   FormatFieldStr "status" (ToString_DeregBufferAckStatus (DeregBufferAckMessage_status msg)) EmptyString)%string.

Definition ToString_PingMessage (msg : PingMessage) (delim : string) : string :=
  (FormatCommand (PingMessage_command msg) delim ++
   FormatFieldNum "seq" (PingMessage_seq msg) EmptyString)%string.

Definition ToString_PongMessage (msg : PongMessage) (delim : string) : string :=
  (FormatCommand (PongMessage_command msg) delim ++
   FormatFieldNum "seq" (PongMessage_seq msg) EmptyString)%string.

Definition ToString_SubscribeToPeriodicStatsMessage (msg : SubscribeToPeriodicStatsMessage) (delim : string) : string :=
  (FormatCommand (SubscribeToPeriodicStatsMessage_command msg) delim)%string.

(** [inet_ntop] is a library function: [ntop ipv6 addr] is the text of the
    address, or [None] when it fails. *)
Definition ToString_ConnectMessage (ntop : bool -> list Z -> option string)
    (msg : ConnectMessage) (delim : string) : string :=
  (FormatCommand (ConnectMessage_command msg) delim ++
   "addr: " ++
   match ntop (ConnectMessage_ipv6 msg) (ConnectMessage_addr msg) with
   | None => "[]"
   | Some addr => "[" ++ addr ++ "]"
   end ++ delim ++
   FormatFieldStr "sock" (std_to_string (ConnectMessage_sock msg)) delim ++
   FormatFieldNum "port" (ConnectMessage_port msg) delim ++
   FormatFieldBool "ipv6" (ConnectMessage_ipv6 msg) EmptyString)%string.

(** [dump] prints the protobuf payload that follows the struct. *)
Definition ToString_PeriodicStatsUpdateMessage (dump : list Z -> string)
    (msg : PeriodicStatsUpdateMessage) (payload : list Z) (delim : string) : string :=
  (FormatCommand (PeriodicStatsUpdateMessage_command msg) delim ++
   FormatFieldStr "payload" (dump payload) EmptyString)%string.


(** ** Properties *)

(** [ToString] maps different command bytes to different
    names, over all 256 values of the underlying type; the command
    kIncomingConnectionV2 has no name and prints as "Unknown(55)". *)
Theorem command_names_distinct :
  NoDup (ToString_ControlCommand <$> seqZ 0 256)
  /\ ToString_ControlCommand (ControlCommand_code kIncomingConnectionV2) = "Unknown(55)"%string.
Proof.
  split; [|reflexivity]. apply (bool_decide_unpack (NoDup _)). vm_compute. exact Logic.I.
Qed.

(** The public error code of a failed receive is its
    negative request status for every defined status, and 1 for any other
    value; for a failed send the same holds except for kWrongElement, which is
    reported as the unknown failure. *)
Theorem public_error_codes :
  (forall v, fst (GetDetailedStatus_RecvAck_parts v) = if (-10 <=? v) && (v <=? 0) then v else 1)
  /\ (forall v, fst (GetDetailedStatus_SendAck_parts v)
                = if (-9 <=? v) && (v <=? 0) && negb (v =? SendAckStatus_code SendAck_kWrongElement)
                  then v else 1).
Proof.
  split; intros v.
  - unfold GetDetailedStatus_RecvAck_parts, RecvAckStatus_of.
    repeat case_match; zbool; cbn; try lia; try done;
      repeat match goal with H : _ \/ _ |- _ => destruct H end; zbool; try lia; done.
  - unfold GetDetailedStatus_SendAck_parts, SendAckStatus_of. cbn [SendAckStatus_code].
    repeat case_match; zbool; cbn; try lia; try done;
      repeat match goal with H : _ \/ _ |- _ => destruct H end; zbool; try lia; done.
Qed.
