(* ===== verification/ControlInterface.v ===== *)
(** * Interfaces between the control channel and its users
    (dxs/client/control-message-handler-interface.h, sequence-number.h,
    derive_dxs_address.cc)

    A control channel ([ControlMessageHandlerInterface]) sends byte messages
    and, when polled, delivers messages or the failure of the channel to its
    receiver. *)

From S2P Require Import Prelude Packed ControlCommand.

(** What a control channel calls on its receiver: [ReceiveControlMessage]
    and [OnControlChannelFailure]. *)
Inductive RxEvent : Type :=
  | RxMessage (buffer : list Z)
  | RxFailure.

Class ControlMessageHandlerInterface (H : Type) := {
  SendControlMessage : list Z -> H -> Status * H;
  RxPoll : H -> H * list RxEvent
}.

(** [SendMessage] of a typed message. *)
Definition SendTyped {H M} `{ControlMessageHandlerInterface H} `{PackedStruct M}
    (message : M) (h : H) : Status * H :=
  SendControlMessage (encode message) h.

(** [SendMessageWithPayload] for a struct that ends in [payload_size]:
    the struct with its size field set, then the serialized payload. *)
Definition SendMessageWithPayload {H M} `{ControlMessageHandlerInterface H} `{PackedStruct M}
    (with_size : Z -> M) (payload : list Z) (h : H) : Status * H :=
  SendControlMessage (encode (with_size (u16 (Zlen payload))) ++ payload) h.

(** [SequenceNumber::Next]: the value returned and the next state. *)
Definition Next (next_ : Z) : Z * Z := (next_, u64 (next_ + 1)).

(** ** Addresses *)

Definition FromIp4 (addr : list Z) (port : Z) : WireSocketAddr :=
  mkWireSocketAddr false (addr ++ replicate 12 0) port.

Definition FromIp6 (addr : list Z) (port : Z) : WireSocketAddr :=
  mkWireSocketAddr true addr port.

(** [pton4] and [pton6] are [inet_pton] for the two families, [None] when it
    does not return 1. *)
Definition PackIpAddress (pton4 pton6 : string -> option (list Z))
    (dxs_addr : string) (port : Z) : StatusOr WireSocketAddr :=
  match pton4 dxs_addr with
  | Some addr => Ok (FromIp4 addr port)
  | None =>
      match pton6 dxs_addr with
      | Some addr6 => Ok (FromIp6 addr6 port)
      | None => Err kInvalidArgument
      end
  end.

(** [ntop ipv6 bytes] is [inet_ntop], [None] when it fails; for IPv4 it
    reads the first four bytes of [addr]. *)
Definition UnpackIpAddress (ntop : bool -> list Z -> option string) (addr : WireSocketAddr)
    : StatusOr string :=
  if WireSocketAddr_is_ipv6 addr then
    match ntop true (WireSocketAddr_addr addr) with Some s => Ok s | None => Err kInternal end
  else
    match ntop false (take 4 (WireSocketAddr_addr addr)) with
    | Some s => Ok s
    | None => Err kInternal
    end.
