(* ===== verification/LlcmHandler.v ===== *)
(** * The low-latency control channel (dxs/client/llcm-handler.{h,cc})

    [LlcmHandler] sends latency-critical control messages over the SPSC
    message queue, keeps an overflow queue for when the ring is full and
    answers pings by itself.  Its theorems are proved against the interface
    [MsgTransport] of the message queue. *)

From S2P Require Import Prelude Ring SpscQueuePair SpscMessaging Packed ControlCommand.
From S2P Require Import ControlInterface.

Section llcm.
Context {W : Type} `{MsgTransport W}.
(** The state of the slow handler. *)
Context {S : Type}.

Record LlcmHandler := mkLlcmHandler {
  llcmq_ : W;
  overflow_ : list (list Z);
  slow_handler_ : option S
}.

(** The loop of [TrySendLlcmOverflow], over the queue contents. *)
Fixpoint TrySendOverflow (w : W) (overflow : list (list Z)) : StatusCode * W * list (list Z) :=
  match overflow with
  | [] => (kOk, w, [])
  | message :: rest =>
      let '(code, w') := w_send message w in
      if bool_decide (code = kOk) then TrySendOverflow w' rest
      else (code, w', overflow)
  end.

Definition TrySendLlcmOverflow (h : LlcmHandler) : StatusCode * LlcmHandler :=
  let '(code, w', rest) := TrySendOverflow (llcmq_ h) (overflow_ h) in
  (code, mkLlcmHandler w' rest (slow_handler_ h)).

(** [overflow_.emplace(buffer)] *)
Definition emplace (h : LlcmHandler) (buffer : list Z) : LlcmHandler :=
  mkLlcmHandler (llcmq_ h) (overflow_ h ++ [buffer]) (slow_handler_ h).

Definition LlcmSendLockHeld (h : LlcmHandler) (buffer : list Z) : Status * LlcmHandler :=
  let '(code, h) := TrySendLlcmOverflow h in
  if bool_decide (code = kResourceExhausted) then (OkStatus, emplace h buffer)
  else if negb (bool_decide (code = kOk)) then (Err code, h)
  else
    let '(code, w') := w_send buffer (llcmq_ h) in
    let h := mkLlcmHandler w' (overflow_ h) (slow_handler_ h) in
    if bool_decide (code = kResourceExhausted) then (OkStatus, emplace h buffer)
    else if negb (bool_decide (code = kOk)) then (Err code, h)
    else (OkStatus, h).

(** [LlcmSend] is [LlcmSendLockHeld] under the mutex. *)
Definition LlcmSend (h : LlcmHandler) (buffer : list Z) : Status * LlcmHandler :=
  LlcmSendLockHeld h buffer.

(** [SlowSendControlMessage] is the slow handler's implementation of
    [ControlMessageHandlerInterface::SendControlMessage]. *)
Definition LlcmSendControlMessage (SlowSendControlMessage : list Z -> S -> Status * S)
    (h : LlcmHandler) (buffer : list Z) : Status * LlcmHandler :=
  match slow_handler_ h with
  | None => LlcmSend h buffer
  | Some slow =>
      match ControlCommand_of (nthZ buffer 0) with
      | kSend | kSendAck | kRecv | kRecvAck | kRelease | kPing | kPong => LlcmSend h buffer
      | _ =>
          let '(status, slow') := SlowSendControlMessage buffer slow in
          (status, mkLlcmHandler (llcmq_ h) (overflow_ h) (Some slow'))
      end
  end.

(** Whether [LlcmRecv] answers the message itself. *)
Definition is_ping (buffer : list Z) : bool :=
  (Zlen buffer =? sizeof PingMessage)
  && bool_decide (ControlCommand_of (nthZ buffer 0) = kPing).

Definition LlcmRecv (h : LlcmHandler) : bool * LlcmHandler * list RxEvent :=
  let '(recv, w') := w_recv (llcmq_ h) in
  let h := mkLlcmHandler w' (overflow_ h) (slow_handler_ h) in
  if bool_decide (status_code recv = kUnavailable) then (false, h, [])
  else
    match recv with
    | Ok buffer =>
        if is_ping buffer then
          match ValidateAndGetMessage buffer with
          | None => (true, h, [])
          | Some message =>
              let pong := mkPongMessage (ControlCommand_code kPong) (PingMessage_seq message) in
              let '(_, h) := LlcmSendLockHeld h (encode pong) in (true, h, [])
          end
        else (true, h, [RxMessage buffer])
    | Err _ => (true, h, [RxFailure])
    end.

(** The receive loop of [RxPoll], at most [n] messages. *)
Fixpoint LlcmRecvLoop (n : nat) (h : LlcmHandler) : LlcmHandler * list RxEvent :=
  match n with
  | O => (h, [])
  | Datatypes.S n' =>
      let '(more, h1, evs) := LlcmRecv h in
      if more then
        let '(h2, evs') := LlcmRecvLoop n' h1 in (h2, evs ++ evs')
      else (h1, evs)
  end.

Definition kBatchSize : nat := 256.

Definition LlcmRxPoll (h : LlcmHandler) : LlcmHandler * list RxEvent :=
  let '(code, h) := TrySendLlcmOverflow h in
  if negb (bool_decide (code = kOk)) && negb (bool_decide (code = kResourceExhausted))
  then (h, [RxFailure])
  else LlcmRecvLoop kBatchSize h.

(** ** What the handler maintains

    [llcm_ok h sent inc]: [sent] are the accepted messages the peer has not
    received yet (those in the ring, then those in the overflow queue), [inc]
    the messages waiting for this end. *)

Definition sendable (m : list Z) : Prop := Forall byte_ok m /\ Zlen m <= kMaxMessageSize.

Definition llcm_ok (h : LlcmHandler) (sent inc : list (list Z)) : Prop :=
  exists out, w_ok (llcmq_ h) out inc /\ sent = out ++ overflow_ h
              /\ Forall sendable (overflow_ h).

Lemma TrySendOverflow_ok : forall overflow w out inc,
  w_ok w out inc -> Forall sendable overflow ->
  let '(code, w', rest) := TrySendOverflow w overflow in
  exists out', w_ok w' out' inc /\ out' ++ rest = out ++ overflow /\ Forall sendable rest
    /\ (code = kOk /\ rest = [] \/ code = kResourceExhausted /\ rest <> []).
Proof.
  induction overflow as [|m rest IH]; intros w out inc Hw Hs; cbn [TrySendOverflow].
  - exists out. naive_solver.
  - inversion_clear Hs as [|? ? [Hb Hl] Hrest].
    destruct (w_fits w out m) eqn:Hf.
    + destruct (w_send_fits m w out inc Hw Hb Hl Hf) as (w' & -> & Hw' & _).
      rewrite bool_decide_true by done. specialize (IH w' _ inc Hw' Hrest).
      by rewrite <- app_assoc in IH.
    + destruct (w_send_full m w out inc Hw Hb Hl Hf) as (w' & -> & Hw' & _).
      rewrite bool_decide_false by done. exists out. split_and!; try done.
      * by constructor.
      * naive_solver.
Qed.

(** A message handed to [LlcmSendLockHeld] joins the accepted messages as
    the last one. *)
Lemma LlcmSendLockHeld_ok h buffer sent inc :
  llcm_ok h sent inc -> sendable buffer ->
  let '(status, h') := LlcmSendLockHeld h buffer in
  status = OkStatus /\ llcm_ok h' (sent ++ [buffer]) inc.
Proof.
  intros (out & Hw & -> & Hs) [Hb Hl]. unfold LlcmSendLockHeld, TrySendLlcmOverflow.
  pose proof (TrySendOverflow_ok _ _ _ _ Hw Hs) as HT.
  destruct (TrySendOverflow (llcmq_ h) (overflow_ h)) as [[code w'] rest].
  destruct HT as (out' & Hw' & E & Hr & [[-> ->]|[-> Hne]]).
  - rewrite bool_decide_false, bool_decide_true by done. cbn.
    rewrite app_nil_r in E. subst out'. destruct (w_fits w' (out ++ overflow_ h) buffer) eqn:Hf.
    + destruct (w_send_fits buffer w' _ inc Hw' Hb Hl Hf) as (w2 & -> & Hw2 & _). cbn.
      split; [done|]. eexists. split_and!; [exact Hw2|cbn; by rewrite app_nil_r|done].
    + destruct (w_send_full buffer w' _ inc Hw' Hb Hl Hf) as (w2 & -> & Hw2 & _). cbn.
      split; [done|]. eexists. split_and!; [exact Hw2|done|by repeat constructor].
  - rewrite bool_decide_true by done. split; [done|]. exists out'. cbn.
    rewrite app_assoc, E. split_and!; [done|done|]. apply Forall_app; split; [done|].
    by repeat constructor.
Qed.

(** The reply to a ping, the replies to a sequence of incoming messages and
    the messages of the sequence handed to the receiver. *)
Definition pong_of (buffer : list Z) : list Z :=
  match ValidateAndGetMessage buffer with
  | Some message => encode (mkPongMessage (ControlCommand_code kPong) (PingMessage_seq message))
  | None => []
  end.

Definition pongs (ms : list (list Z)) : list (list Z) :=
  omap (fun m => if is_ping m then Some (pong_of m) else None) ms.

Definition deliveries (ms : list (list Z)) : list RxEvent :=
  omap (fun m => if is_ping m then None else Some (RxMessage m)) ms.

Lemma pong_sendable seq : sendable (encode (mkPongMessage (ControlCommand_code kPong) seq)).
Proof.
  split.
  - unfold encode; cbn [encode_fields layout to_fields PongMessage_packed fst snd].
    repeat (apply Forall_app; split); try apply le_encode_ok. constructor.
  - by vm_compute.
Qed.

Lemma is_ping_valid buffer :
  is_ping buffer = true -> exists m : PingMessage, ValidateAndGetMessage buffer = Some m.
Proof.
  unfold is_ping, ValidateAndGetMessage. intros Hp. zbool.
  match goal with E : Zlen buffer = _ |- _ => rewrite E, Z.eqb_refl end. cbn. eauto.
Qed.

Lemma LlcmRecv_none h sent :
  llcm_ok h sent [] -> LlcmRecv h = (false, h, []).
Proof.
  intros (out & Hw & _). unfold LlcmRecv. rewrite (w_recv_empty _ _ Hw). by destruct h.
Qed.

Lemma LlcmRecv_some h sent m inc :
  llcm_ok h sent (m :: inc) ->
  exists h', LlcmRecv h = (true, h', deliveries [m]) /\ llcm_ok h' (sent ++ pongs [m]) inc.
Proof.
  intros (out & Hw & -> & Hs). unfold LlcmRecv.
  destruct (w_recv_msg _ _ _ _ Hw) as (w' & -> & Hw' & _). cbn [status_code].
  rewrite bool_decide_false by done. cbn [deliveries pongs omap list_omap].
  set (h1 := mkLlcmHandler w' (overflow_ h) (slow_handler_ h)).
  assert (H1 : llcm_ok h1 (out ++ overflow_ h) inc) by (by exists out).
  destruct (is_ping m) eqn:Ep.
  - destruct (is_ping_valid m Ep) as (msg & Em).
    pose proof (LlcmSendLockHeld_ok h1 _ _ _ H1 (pong_sendable (PingMessage_seq msg))) as HS.
    unfold pong_of. rewrite Em. destruct (LlcmSendLockHeld h1 _) as [status h2].
    destruct HS as [_ HS]. exists h2. by split.
  - exists h1. split; [done|]. by rewrite app_nil_r.
Qed.

Lemma LlcmRecvLoop_ok : forall n h sent inc,
  llcm_ok h sent inc ->
  exists h', LlcmRecvLoop n h = (h', deliveries (take n inc))
    /\ llcm_ok h' (sent ++ pongs (take n inc)) (drop n inc).
Proof.
  induction n as [|n IH]; intros h sent inc Hh; cbn [LlcmRecvLoop].
  - exists h. rewrite take_0, drop_0. cbn. by rewrite app_nil_r.
  - destruct inc as [|m inc].
    + rewrite (LlcmRecv_none h sent Hh). exists h. cbn. by rewrite app_nil_r.
    + destruct (LlcmRecv_some h sent m inc Hh) as (h1 & -> & H1).
      destruct (IH h1 _ inc H1) as (h2 & -> & H2). exists h2. split.
      * f_equal. cbn. by destruct (is_ping m).
      * rewrite <- app_assoc in H2. cbn. cbn in H2. by destruct (is_ping m).
Qed.

Lemma LlcmRxPoll_ok h sent inc :
  llcm_ok h sent inc ->
  exists h', LlcmRxPoll h = (h', deliveries (take kBatchSize inc))
    /\ llcm_ok h' (sent ++ pongs (take kBatchSize inc)) (drop kBatchSize inc).
Proof.
  intros (out & Hw & -> & Hs). unfold LlcmRxPoll, TrySendLlcmOverflow.
  pose proof (TrySendOverflow_ok _ _ _ _ Hw Hs) as HT.
  destruct (TrySendOverflow (llcmq_ h) (overflow_ h)) as [[code w'] rest].
  destruct HT as (out' & Hw' & E & Hr & Hc).
  replace (negb _ && negb _) with false by (by destruct Hc as [[-> _]|[-> _]]).
  apply LlcmRecvLoop_ok. exists out'. split_and!; [done|by rewrite <- E|done].
Qed.

(** ** Calls on the handler and their abstract effect *)

Inductive LlcmCall : Type :=
  | LlcmCallSend (buffer : list Z)
  | LlcmCallRxPoll.

Definition llcm_call (c : LlcmCall) (h : LlcmHandler) : LlcmHandler * list RxEvent :=
  match c with
  | LlcmCallSend buffer => (snd (LlcmSend h buffer), [])
  | LlcmCallRxPoll => LlcmRxPoll h
  end.

Fixpoint llcm_run (cs : list LlcmCall) (h : LlcmHandler) : LlcmHandler * list RxEvent :=
  match cs with
  | [] => (h, [])
  | c :: cs' =>
      let '(h1, evs) := llcm_call c h in
      let '(h2, evs') := llcm_run cs' h1 in (h2, evs ++ evs')
  end.

(** The messages accepted for the peer by a sequence of calls, the incoming
    messages being [inc]. *)
Fixpoint llcm_accepts (cs : list LlcmCall) (inc : list (list Z)) : list (list Z) :=
  match cs with
  | [] => []
  | LlcmCallSend buffer :: cs' => buffer :: llcm_accepts cs' inc
  | LlcmCallRxPoll :: cs' =>
      pongs (take kBatchSize inc) ++ llcm_accepts cs' (drop kBatchSize inc)
  end.

Fixpoint polls (cs : list LlcmCall) : nat :=
  match cs with
  | [] => 0
  | LlcmCallSend _ :: cs' => polls cs'
  | LlcmCallRxPoll :: cs' => Datatypes.S (polls cs')
  end.

Definition call_sendable (c : LlcmCall) : Prop :=
  match c with LlcmCallSend buffer => sendable buffer | LlcmCallRxPoll => True end.

Lemma omap_app_take {A B} (f : A -> option B) n m (l : list A) :
  omap f (take n l) ++ omap f (take m (drop n l)) = omap f (take (n + m) l).
Proof. by rewrite <- omap_app, take_take_drop. Qed.

(** ** Properties *)


End llcm.

Arguments LlcmHandler W S : clear implicits.

(** The handler is itself a control channel, over a slow one. *)
#[export] Instance LlcmChannel W S `{MsgTransport W} `{ControlMessageHandlerInterface S}
    : ControlMessageHandlerInterface (LlcmHandler W S) := {|
  SendControlMessage buffer h := LlcmSendControlMessage SendControlMessage h buffer;
  RxPoll h := LlcmRxPoll h
|}.

Definition ex_handler : LlcmHandler Link unit :=
  mkLlcmHandler (mkLink (qp ex_a) (region ex_a) (qp ex_b) (region ex_b)) [] None.

