(* ===== verification/DxsClient.v ===== *)
(** * The DXS client (dxs/client/dxs-client.{h,cc}, listen-socket.h,
    send-socket.h, recv-socket.h, send-op.h, linearized-recv-op.h)

    [DxsClient] hands out listen sockets, data sockets and operations, keeps
    the shared state of each of them in a map under a handle, and updates that
    state from the messages of the DXS server.  Objects refer to their shared
    state by handle; destroying an object first erases the map entry (the
    cleanup bound by [MakeUniqueWithCleanup]) and then runs the destructor of
    the class. *)

From S2P Require Import Prelude Packed ControlCommand ControlInterface.

Definition kWireVersion : Z := 7.
Definition kMinimumWireVersion : Z := 1.
Definition kAcceptAckVersion : Z := 4.

(** ** Shared state of the objects *)

(** [SendOp::SharedState]; [None] is [absl::InfinitePast()]. *)
Record SendOpState := mkSendOpState {
  so_status : Z;
  so_req_status : Z;
  so_completion_time : option Z
}.

Definition new_SendOpState : SendOpState :=
  mkSendOpState (OpStatus_code OpStatus_kPending) (SendAckStatus_code SendAck_kOk) None.

(** [LinearizedRecvOp::SharedState] *)
Record RecvOpState := mkRecvOpState {
  ro_status : Z;
  ro_req_status : Z;
  ro_size : Z;
  ro_completion_time : option Z
}.

Definition new_RecvOpState : RecvOpState :=
  mkRecvOpState (OpStatus_code OpStatus_kPending) (RecvAckStatus_code RecvAck_kOk) 0 None.

(** [ListenSocket::SharedState] *)
Record ListenState := mkListenState {
  port_ : Z;
  pending_connections_ : list WireSocketAddr
}.

Definition new_ListenState : ListenState := mkListenState 0 [].

Definition AddPendingConnection (s : ListenState) (peer_saddr : WireSocketAddr) : ListenState :=
  mkListenState (port_ s) (pending_connections_ s ++ [peer_saddr]).

Definition PopPendingConnection (s : ListenState) : option WireSocketAddr * ListenState :=
  match pending_connections_ s with
  | [] => (None, s)
  | result :: rest => (Some result, mkListenState (port_ s) rest)
  end.

Record LlcmInfo := mkLlcmInfo {
  llcm_queue_offset : Z;
  llcm_queue_size : Z;
  reverse_llcm_queue_offset : Z;
  reverse_llcm_queue_size : Z
}.

(** ** The client *)

Record DxsClient := mkDxsClient {
  send_close_on_teardown_ : bool;
  next_op_id_ : Z;
  next_data_socket_handle_ : Z;
  next_listen_socket_handle_ : Z;
  outstanding_send_ops_ : gmap Z SendOpState;
  outstanding_linearized_recv_ops_ : gmap Z RecvOpState;
  outstanding_data_sockets_ : gmap Z Z;
  outstanding_listen_sockets_ : gmap Z ListenState;
  initialized_ : bool;
  server_build_id_ : list Z;
  server_version_ : Z;
  failed_ : bool;
  llcm_info_ : option LlcmInfo;
  ping_seq_ : Z;
  outstanding_pings_ : gmap Z Z;
  ping_results_ : gmap Z Z
}.

Definition new_DxsClient (send_close_on_teardown : bool) : DxsClient :=
  mkDxsClient send_close_on_teardown 1000 1 1 ∅ ∅ ∅ ∅ false
    (* "<unknown>" *) [60; 117; 110; 107; 110; 111; 119; 110; 62] 0 false None 0 ∅ ∅.

Definition set_next_op_id (v : Z) (c : DxsClient) : DxsClient :=
  let '(mkDxsClient a _ d e f g h i j k l m n o p q) := c in
  mkDxsClient a v d e f g h i j k l m n o p q.

Definition set_next_data_socket_handle (v : Z) (c : DxsClient) : DxsClient :=
  let '(mkDxsClient a b _ e f g h i j k l m n o p q) := c in
  mkDxsClient a b v e f g h i j k l m n o p q.

Definition set_next_listen_socket_handle (v : Z) (c : DxsClient) : DxsClient :=
  let '(mkDxsClient a b d _ f g h i j k l m n o p q) := c in
  mkDxsClient a b d v f g h i j k l m n o p q.

Definition set_send_ops (v : gmap Z SendOpState) (c : DxsClient) : DxsClient :=
  let '(mkDxsClient a b d e _ g h i j k l m n o p q) := c in
  mkDxsClient a b d e v g h i j k l m n o p q.

Definition set_recv_ops (v : gmap Z RecvOpState) (c : DxsClient) : DxsClient :=
  let '(mkDxsClient a b d e f _ h i j k l m n o p q) := c in
  mkDxsClient a b d e f v h i j k l m n o p q.

Definition set_data_sockets (v : gmap Z Z) (c : DxsClient) : DxsClient :=
  let '(mkDxsClient a b d e f g _ i j k l m n o p q) := c in
  mkDxsClient a b d e f g v i j k l m n o p q.

Definition set_listen_sockets (v : gmap Z ListenState) (c : DxsClient) : DxsClient :=
  let '(mkDxsClient a b d e f g h _ j k l m n o p q) := c in
  mkDxsClient a b d e f g h v j k l m n o p q.

Definition set_server (init : bool) (build : list Z) (version : Z) (failed : bool)
    (c : DxsClient) : DxsClient :=
  let '(mkDxsClient a b d e f g h i _ _ _ _ n o p q) := c in
  mkDxsClient a b d e f g h i init build version failed n o p q.

Definition set_failed (v : bool) (c : DxsClient) : DxsClient :=
  set_server (initialized_ c) (server_build_id_ c) (server_version_ c) v c.

Definition set_llcm_info (v : option LlcmInfo) (c : DxsClient) : DxsClient :=
  let '(mkDxsClient a b d e f g h i j k l m _ o p q) := c in
  mkDxsClient a b d e f g h i j k l m v o p q.

Definition set_pings (seq : Z) (out res : gmap Z Z) (c : DxsClient) : DxsClient :=
  let '(mkDxsClient a b d e f g h i j k l m n _ _ _) := c in
  mkDxsClient a b d e f g h i j k l m n seq out res.

(** ** Handlers of the messages of the server

    [now] is the time the clock returns while the message is handled. *)

(** [server_build_id_.assign] and the erasure from the first NUL on. *)
Fixpoint until_nul (bs : list Z) : list Z :=
  match bs with
  | [] => []
  | b :: bs' => if b =? 0 then [] else b :: until_nul bs'
  end.

Definition HandleVersionedInitAck (packet : list Z) (c : DxsClient) : DxsClient :=
  if initialized_ c then c
  else
    match ValidateAndGetMessage packet with
    | None => c
    | Some message =>
        if negb (VersionedInitAckMessage_status message =? InitAckStatus_code InitAck_kOk)
        then set_failed true c
        else
          let build := until_nul (VersionedInitAckMessage_server_build_id message) in
          let version := VersionedInitAckMessage_server_version message in
          if version <? kMinimumWireVersion
          then set_server (initialized_ c) build version true c
          else set_server true build version (failed_ c) c
    end.

Definition HandleInitLlcmAck (packet : list Z) (c : DxsClient) : DxsClient :=
  match llcm_info_ c with
  | Some _ => c
  | None =>
      match ValidateAndGetMessage packet with
      | None => c
      | Some message =>
          if negb (InitLlcmAckMessage_status message =? InitLlcmAckStatus_code InitLlcmAck_kOk)
          then set_failed true c
          else set_llcm_info
                 (Some (mkLlcmInfo (InitLlcmAckMessage_llcm_queue_offset message)
                          (InitLlcmAckMessage_llcm_queue_size message)
                          (InitLlcmAckMessage_reverse_llcm_queue_offset message)
                          (InitLlcmAckMessage_reverse_llcm_queue_size message))) c
      end
  end.

Definition HandleListenAck (packet : list Z) (c : DxsClient) : DxsClient :=
  match ValidateAndGetMessage packet with
  | None => c
  | Some message =>
      match outstanding_listen_sockets_ c !! ListenAckMessage_sock message with
      | None => c
      | Some st =>
          set_listen_sockets
            (<[ListenAckMessage_sock message :=
                 mkListenState (ListenAckMessage_port message) (pending_connections_ st)]>
               (outstanding_listen_sockets_ c)) c
      end
  end.

(** The common part of the two forms of an incoming connection. *)
Definition IncomingConnectionOn (sock : Z) (peer : WireSocketAddr) (c : DxsClient) : DxsClient :=
  match outstanding_listen_sockets_ c !! sock with
  | None => c
  | Some st =>
      if port_ st <=? 0 then c
      else set_listen_sockets
             (<[sock := AddPendingConnection st peer]> (outstanding_listen_sockets_ c)) c
  end.

Definition HandleIncomingConnection (packet : list Z) (c : DxsClient) : DxsClient :=
  match ValidateAndGetMessage packet with
  | None => c
  | Some message =>
      IncomingConnectionOn (IncomingConnectionMessage_sock message)
        (mkWireSocketAddr false (replicate 16 0) 0) c
  end.

Definition HandleIncomingConnectionV2 (packet : list Z) (c : DxsClient) : DxsClient :=
  match ValidateAndGetMessage packet with
  | None => c
  | Some message =>
      IncomingConnectionOn (IncomingConnectionMessageV2_sock message)
        (mkWireSocketAddr (IncomingConnectionMessageV2_peer_saddr_is_ipv6 message)
           (IncomingConnectionMessageV2_peer_saddr_addr message)
           (IncomingConnectionMessageV2_peer_saddr_port message)) c
  end.

(** Store of the status of a data socket, if it exists. *)
Definition StoreDataSockStatus (sock status : Z) (c : DxsClient) : DxsClient :=
  match outstanding_data_sockets_ c !! sock with
  | None => c
  | Some _ => set_data_sockets (<[sock := status]> (outstanding_data_sockets_ c)) c
  end.

Definition HandleConnectAck (packet : list Z) (c : DxsClient) : DxsClient :=
  match ValidateAndGetMessage packet with
  | None => c
  | Some message =>
      StoreDataSockStatus (ConnectAckMessage_sock message) (ConnectAckMessage_status message) c
  end.

Definition HandleAcceptAck (packet : list Z) (c : DxsClient) : DxsClient :=
  match ValidateAndGetMessage packet with
  | None => c
  | Some message =>
      StoreDataSockStatus (AcceptAckMessage_sock message)
        (if AcceptAckMessage_status message =? AcceptAckStatus_code AcceptAck_kOk
         then DataSockStatus_code DataSock_kConnected
         else DataSockStatus_code DataSock_kInvalid) c
  end.

Definition HandleSendAck (now : Z) (packet : list Z) (c : DxsClient) : DxsClient :=
  match ValidateAndGetMessage packet with
  | None => c
  | Some message =>
      match outstanding_send_ops_ c !! SendAckMessage_op_id message with
      | None => c
      | Some op =>
          let completion_time :=
            if SendAckMessage_status message =? OpStatus_code OpStatus_kComplete
            then Some now else so_completion_time op in
          set_send_ops
            (<[SendAckMessage_op_id message :=
                 mkSendOpState (SendAckMessage_status message)
                   (SendAckMessage_req_status message) completion_time]>
               (outstanding_send_ops_ c)) c
      end
  end.

Definition HandleRecvAck (now : Z) (packet : list Z) (c : DxsClient) : DxsClient :=
  match ValidateAndGetMessage packet with
  | None => c
  | Some message =>
      match outstanding_linearized_recv_ops_ c !! RecvAckMessage_op_id message with
      | None => c
      | Some op =>
          let complete := RecvAckMessage_status message =? OpStatus_code OpStatus_kComplete in
          set_recv_ops
            (<[RecvAckMessage_op_id message :=
                 mkRecvOpState (RecvAckMessage_status message)
                   (RecvAckMessage_req_status message)
                   (if complete then RecvAckMessage_size message else ro_size op)
                   (if complete then Some now else ro_completion_time op)]>
               (outstanding_linearized_recv_ops_ c)) c
      end
  end.

(** The [int] sequence number of the message is converted to [uint32_t]. *)
Definition HandlePong (now : Z) (packet : list Z) (c : DxsClient) : DxsClient :=
  match ValidateAndGetMessage packet with
  | None => c
  | Some message =>
      let seq := u32 (PongMessage_seq message) in
      match outstanding_pings_ c !! seq with
      | None => c
      | Some sent =>
          set_pings (ping_seq_ c) (delete seq (outstanding_pings_ c))
            (<[seq := now - sent]> (ping_results_ c)) c
      end
  end.

Definition ReceiveControlMessage (now : Z) (buffer : list Z) (c : DxsClient) : DxsClient :=
  if Zlen buffer <? 1 then c
  else
    match ControlCommand_of (nthZ buffer 0) with
    | kVersionedInitAck => HandleVersionedInitAck buffer c
    | kInitLlcmAck => HandleInitLlcmAck buffer c
    | kListenAck => HandleListenAck buffer c
    | kIncomingConnection => HandleIncomingConnection buffer c
    | kIncomingConnectionV2 => HandleIncomingConnectionV2 buffer c
    | kConnectAck => HandleConnectAck buffer c
    | kAcceptAck => HandleAcceptAck buffer c
    | kSendAck => HandleSendAck now buffer c
    | kRecvAck => HandleRecvAck now buffer c
    | kPong => HandlePong now buffer c
    | _ => c
    end.

Definition OnControlChannelFailure (c : DxsClient) : DxsClient :=
  set_failed true
    (set_send_ops
       ((fun op => mkSendOpState (OpStatus_code OpStatus_kError)
                     (SendAckStatus_code SendAck_kControlChannelFailure)
                     (so_completion_time op)) <$> outstanding_send_ops_ c)
    (set_recv_ops
       ((fun op => mkRecvOpState (OpStatus_code OpStatus_kError)
                     (RecvAckStatus_code RecvAck_kControlChannelFailure)
                     (ro_size op) (ro_completion_time op))
          <$> outstanding_linearized_recv_ops_ c)
    (set_data_sockets
       ((fun _ => DataSockStatus_code DataSock_kInternalError) <$> outstanding_data_sockets_ c)
    (set_listen_sockets
       ((fun st => mkListenState (-1) (pending_connections_ st)) <$> outstanding_listen_sockets_ c)
       c)))).

Definition deliver (now : Z) (c : DxsClient) (e : RxEvent) : DxsClient :=
  match e with
  | RxMessage buffer => ReceiveControlMessage now buffer c
  | RxFailure => OnControlChannelFailure c
  end.

(** The condition [DxsClient::Init] waits for. *)
Definition init_done (enable_llcm : bool) (c : DxsClient) : bool :=
  let awaiting_llcm := enable_llcm && negb (bool_decide (is_Some (llcm_info_ c))) in
  failed_ c || (initialized_ c && negb awaiting_llcm).

(** What [Init] returns once the condition holds (before the LLCM handler is
    set up). *)
Definition init_result (c : DxsClient) : Status :=
  if failed_ c then Err kInternal else OkStatus.

(** ** Registration of the objects *)

Definition RegisterSendOp (id : Z) (c : DxsClient) : DxsClient :=
  set_send_ops (<[id := new_SendOpState]> (outstanding_send_ops_ c)) c.

Definition RegisterLinearizedRecvOp (id : Z) (c : DxsClient) : DxsClient :=
  set_recv_ops (<[id := new_RecvOpState]> (outstanding_linearized_recv_ops_ c)) c.

Definition RegisterRecvSocket (handle : Z) (c : DxsClient) : DxsClient :=
  let status := if kAcceptAckVersion <=? server_version_ c
                then DataSockStatus_code DataSock_kPendingConnect
                else DataSockStatus_code DataSock_kConnected in
  set_data_sockets (<[handle := status]> (outstanding_data_sockets_ c)) c.

Definition RegisterSendSocket (handle : Z) (c : DxsClient) : DxsClient :=
  set_data_sockets
    (<[handle := DataSockStatus_code DataSock_kPendingConnect]> (outstanding_data_sockets_ c)) c.

Definition RegisterListenSocket (handle : Z) (c : DxsClient) : DxsClient :=
  set_listen_sockets (<[handle := new_ListenState]> (outstanding_listen_sockets_ c)) c.

(** ** Objects handed out to the user *)

Record ListenSocket := mkListenSocket { ls_handle_ : Z }.

Record SendSocket := mkSendSocket {
  ss_handle_ : Z;
  ss_peer_ : WireSocketAddr;
  close_on_teardown_ : bool
}.

Record RecvSocket := mkRecvSocket { rs_handle_ : Z; rs_peer_ : WireSocketAddr }.

Record SendOp := mkSendOp { send_op_id_ : Z }.

Record LinearizedRecvOp := mkLinearizedRecvOp { recv_data_sock_ : Z; recv_op_id_ : Z }.

Section client.
Context {H : Type} `{ControlMessageHandlerInterface H}.

(** The client and its control channel. *)
Record Dxs := mkDxs { client : DxsClient; channel : H }.

(** Destruction of the objects: cleanup, then the destructor.  A failed close
    message is logged. *)
Definition destroy_ListenSocket (s : ListenSocket) (w : Dxs) : Dxs :=
  let c := client w in
  let c := set_listen_sockets (delete (ls_handle_ s) (outstanding_listen_sockets_ c)) c in
  mkDxs c (snd (SendTyped (mkCloseListenSockMessage (ControlCommand_code kCloseListenSock)
                             (ls_handle_ s)) (channel w))).

Definition erase_data_socket (handle : Z) (c : DxsClient) : DxsClient :=
  set_data_sockets (delete handle (outstanding_data_sockets_ c)) c.

Definition destroy_SendSocket (s : SendSocket) (w : Dxs) : Dxs :=
  let c := erase_data_socket (ss_handle_ s) (client w) in
  if close_on_teardown_ s then
    mkDxs c (snd (SendTyped (mkCloseDataSockMessage (ControlCommand_code kCloseDataSock)
                               (ss_handle_ s)) (channel w)))
  else mkDxs c (channel w).

Definition destroy_RecvSocket (s : RecvSocket) (w : Dxs) : Dxs :=
  let c := erase_data_socket (rs_handle_ s) (client w) in
  mkDxs c (snd (SendTyped (mkCloseDataSockMessage (ControlCommand_code kCloseDataSock)
                             (rs_handle_ s)) (channel w))).

Definition destroy_SendOp (o : SendOp) (w : Dxs) : Dxs :=
  mkDxs (set_send_ops (delete (send_op_id_ o) (outstanding_send_ops_ (client w))) (client w))
    (channel w).

Definition destroy_LinearizedRecvOp (o : LinearizedRecvOp) (w : Dxs) : Dxs :=
  mkDxs (set_recv_ops (delete (recv_op_id_ o) (outstanding_linearized_recv_ops_ (client w)))
           (client w)) (channel w).

(** ** Operations *)

Definition Listen (w : Dxs) : StatusOr ListenSocket * Dxs :=
  let '(handle, next) := Next (next_listen_socket_handle_ (client w)) in
  let c := RegisterListenSocket handle (set_next_listen_socket_handle next (client w)) in
  let sock := mkListenSocket handle in
  let '(status, h) := SendTyped (mkListenMessage (ControlCommand_code kListen) handle) (channel w) in
  match status with
  | Err code => (Err code, destroy_ListenSocket sock (mkDxs c h))
  | Ok _ => (Ok sock, mkDxs c h)
  end.

Definition Connect (pton4 pton6 : string -> option (list Z)) (addr : string) (port : Z) (w : Dxs)
    : StatusOr SendSocket * Dxs :=
  match PackIpAddress pton4 pton6 addr port with
  | Err code => (Err code, w)
  | Ok wire_addr =>
      let '(handle, next) := Next (next_data_socket_handle_ (client w)) in
      let message :=
        mkConnectMessage (ControlCommand_code kConnect) (WireSocketAddr_addr wire_addr) handle
          (WireSocketAddr_port wire_addr) (WireSocketAddr_is_ipv6 wire_addr) in
      let c := RegisterSendSocket handle (set_next_data_socket_handle next (client w)) in
      let sock := mkSendSocket handle wire_addr (send_close_on_teardown_ c) in
      let '(status, h) := SendTyped message (channel w) in
      match status with
      | Err code => (Err code, destroy_SendSocket sock (mkDxs c h))
      | Ok _ => (Ok sock, mkDxs c h)
      end
  end.

(** [RxPoll] of the channel with the events delivered to the client. *)
Definition Poll (now : Z) (w : Dxs) : Dxs :=
  let '(h, evs) := RxPoll (channel w) in
  mkDxs (fold_left (deliver now) evs (client w)) h.

(** [Ping] up to its loop. *)
Definition PingSend (now : Z) (w : Dxs) : StatusOr Z * Dxs :=
  let c := client w in
  let seq := u32 (ping_seq_ c + 1) in
  let c := set_pings seq (<[seq := now]> (outstanding_pings_ c)) (ping_results_ c) c in
  (* [message.seq] is an [int] *)
  let '(status, h) :=
    SendTyped (mkPingMessage (ControlCommand_code kPing) (sign_extend 4 seq)) (channel w) in
  match status with
  | Err code => (Err code, mkDxs c h)
  | Ok _ => (Ok seq, mkDxs c h)
  end.

(** One iteration of the loop of [Ping]; [None] means another iteration. *)
Definition PingPoll (now seq : Z) (w : Dxs) : option (StatusOr Z) * Dxs :=
  let w := Poll now w in
  let c := client w in
  if failed_ c || negb (bool_decide (is_Some (outstanding_pings_ c !! seq))) then
    match ping_results_ c !! seq with
    | None => (Some (Err kNotFound), w)
    | Some ret =>
        (Some (Ok ret),
         mkDxs (set_pings (ping_seq_ c) (outstanding_pings_ c) (delete seq (ping_results_ c)) c)
           (channel w))
    end
  else (None, w).

(** [ListenSocket::SocketReady]; the outer option is [None] when the socket
    has no shared state, which the invariant below excludes. *)
Definition ListenSocket_SocketReady (now : Z) (s : ListenSocket) (w : Dxs)
    : option (option Status) * Dxs :=
  let w := Poll now w in
  (st ← outstanding_listen_sockets_ (client w) !! ls_handle_ s;
   Some (if port_ st =? -1 then Some (Err kInternal)
         else if port_ st =? 0 then None else Some OkStatus), w).

Definition Accept (s : ListenSocket) (w : Dxs) : option (StatusOr (option RecvSocket)) * Dxs :=
  match outstanding_listen_sockets_ (client w) !! ls_handle_ s with
  | None => (None, w)
  | Some st =>
      if port_ st <=? 0 then (Some (Err kFailedPrecondition), w)
      else
        let '(peer, st') := PopPendingConnection st in
        match peer with
        | None => (Some (Ok None), w)
        | Some peer =>
            let c := client w in
            let c := set_listen_sockets
                       (<[ls_handle_ s := st']> (outstanding_listen_sockets_ c)) c in
            let '(handle, next) := Next (next_data_socket_handle_ c) in
            let c := RegisterRecvSocket handle (set_next_data_socket_handle next c) in
            let sock := mkRecvSocket handle peer in
            let '(status, h) :=
              SendTyped (mkAcceptMessage (ControlCommand_code kAccept) (ls_handle_ s) handle)
                (channel w) in
            match status with
            | Err code => (Some (Err code), destroy_RecvSocket sock (mkDxs c h))
            | Ok _ => (Some (Ok (Some sock)), mkDxs c h)
            end
        end
  end.

(** [SocketReady] of send and receive sockets. *)
Definition DataSocket_SocketReady (now handle : Z) (w : Dxs) : option (option Status) * Dxs :=
  let w := Poll now w in
  (status ← outstanding_data_sockets_ (client w) !! handle;
   Some (match DataSockStatus_of status with
         | DataSock_kPendingConnect => None
         | DataSock_kConnected => Some OkStatus
         | _ => Some (Err kInternal)
         end), w).

Definition Send (s : SendSocket) (offset size reg_handle : Z) (w : Dxs) : StatusOr SendOp * Dxs :=
  let '(op_id, next) := Next (next_op_id_ (client w)) in
  let c := RegisterSendOp op_id (set_next_op_id next (client w)) in
  let message := mkSendMessage (ControlCommand_code kSend) (ss_handle_ s) reg_handle op_id
                   offset size in
  let '(status, h) := SendTyped message (channel w) in
  match status with
  | Err code => (Err code, destroy_SendOp (mkSendOp op_id) (mkDxs c h))
  | Ok _ => (Ok (mkSendOp op_id), mkDxs c h)
  end.

Definition RecvLinearized (s : RecvSocket) (offset size reg_handle : Z) (w : Dxs)
    : StatusOr LinearizedRecvOp * Dxs :=
  let '(op_id, next) := Next (next_op_id_ (client w)) in
  let c := RegisterLinearizedRecvOp op_id (set_next_op_id next (client w)) in
  let message := mkRecvMessage (ControlCommand_code kRecv) (rs_handle_ s) offset size
                   reg_handle op_id in
  let op := mkLinearizedRecvOp (rs_handle_ s) op_id in
  let '(status, h) := SendTyped message (channel w) in
  match status with
  | Err code => (Err code, destroy_LinearizedRecvOp op (mkDxs c h))
  | Ok _ => (Ok op, mkDxs c h)
  end.

(** [SendOp::Test] *)
Definition SendOp_Test (now : Z) (o : SendOp) (w : Dxs) : option (option Status) * Dxs :=
  let w := Poll now w in
  (op ← outstanding_send_ops_ (client w) !! send_op_id_ o;
   Some (match OpStatus_of (so_status op) with
         | OpStatus_kPending => None
         | OpStatus_kComplete => Some OkStatus
         | _ => Some (Err kInternal)
         end), w).

(** [LinearizedRecvOp::Test] *)
Definition LinearizedRecvOp_Test (now : Z) (o : LinearizedRecvOp) (w : Dxs)
    : option (option (StatusOr Z)) * Dxs :=
  let w := Poll now w in
  (op ← outstanding_linearized_recv_ops_ (client w) !! recv_op_id_ o;
   Some (match OpStatus_of (ro_status op) with
         | OpStatus_kPending => None
         | OpStatus_kComplete => Some (Ok (ro_size op))
         | _ => Some (Err kInternal)
         end), w).

(** ** Executions: the client with the objects its user holds *)

Record Sys := mkSys {
  dxs : Dxs;
  listens : list ListenSocket;
  sends : list SendSocket;
  recvs : list RecvSocket;
  send_ops : list SendOp;
  recv_ops : list LinearizedRecvOp
}.

(** No handle counter is about to wrap around 2^64. *)
Definition counters_ok (c : DxsClient) : Prop :=
  1000 <= next_op_id_ c < 2 ^ 64 - 1 /\ 1 <= next_data_socket_handle_ c < 2 ^ 64 - 1
  /\ 1 <= next_listen_socket_handle_ c < 2 ^ 64 - 1.

(** Calls of the user on objects it holds, destruction of objects and
    asynchronous delivery of messages by the control channel. *)
Inductive step : Sys -> Sys -> Prop :=
  | step_Listen w w' s ls ss rs so ro :
      counters_ok (client w) -> Listen w = (Ok s, w') ->
      step (mkSys w ls ss rs so ro) (mkSys w' (s :: ls) ss rs so ro)
  | step_Listen_error w w' e ls ss rs so ro :
      counters_ok (client w) -> Listen w = (Err e, w') ->
      step (mkSys w ls ss rs so ro) (mkSys w' ls ss rs so ro)
  | step_Connect p4 p6 addr port w w' s ls ss rs so ro :
      counters_ok (client w) -> Connect p4 p6 addr port w = (Ok s, w') ->
      step (mkSys w ls ss rs so ro) (mkSys w' ls (s :: ss) rs so ro)
  | step_Connect_error p4 p6 addr port w w' e ls ss rs so ro :
      counters_ok (client w) -> Connect p4 p6 addr port w = (Err e, w') ->
      step (mkSys w ls ss rs so ro) (mkSys w' ls ss rs so ro)
  | step_Accept l w w' s ls ss rs so ro :
      counters_ok (client w) -> l ∈ ls -> Accept l w = (Some (Ok (Some s)), w') ->
      step (mkSys w ls ss rs so ro) (mkSys w' ls ss (s :: rs) so ro)
  | step_Accept_none l w w' r ls ss rs so ro :
      counters_ok (client w) -> l ∈ ls -> Accept l w = (r, w') ->
      (forall s, r <> Some (Ok (Some s))) ->
      step (mkSys w ls ss rs so ro) (mkSys w' ls ss rs so ro)
  | step_Send s off sz reg w w' o ls ss rs so ro :
      counters_ok (client w) -> s ∈ ss -> Send s off sz reg w = (Ok o, w') ->
      step (mkSys w ls ss rs so ro) (mkSys w' ls ss rs (o :: so) ro)
  | step_Send_error s off sz reg w w' e ls ss rs so ro :
      counters_ok (client w) -> s ∈ ss -> Send s off sz reg w = (Err e, w') ->
      step (mkSys w ls ss rs so ro) (mkSys w' ls ss rs so ro)
  | step_Recv s off sz reg w w' o ls ss rs so ro :
      counters_ok (client w) -> s ∈ rs -> RecvLinearized s off sz reg w = (Ok o, w') ->
      step (mkSys w ls ss rs so ro) (mkSys w' ls ss rs so (o :: ro))
  | step_Recv_error s off sz reg w w' e ls ss rs so ro :
      counters_ok (client w) -> s ∈ rs -> RecvLinearized s off sz reg w = (Err e, w') ->
      step (mkSys w ls ss rs so ro) (mkSys w' ls ss rs so ro)
  | step_PingSend now w ls ss rs so ro :
      step (mkSys w ls ss rs so ro) (mkSys (snd (PingSend now w)) ls ss rs so ro)
  | step_PingPoll now seq w ls ss rs so ro :
      step (mkSys w ls ss rs so ro) (mkSys (snd (PingPoll now seq w)) ls ss rs so ro)
  | step_Poll now w ls ss rs so ro :
      step (mkSys w ls ss rs so ro) (mkSys (Poll now w) ls ss rs so ro)
  | step_deliver now e c h h' ls ss rs so ro :
      step (mkSys (mkDxs c h) ls ss rs so ro) (mkSys (mkDxs (deliver now c e) h') ls ss rs so ro)
  | step_close_listen w s l1 l2 ss rs so ro :
      step (mkSys w (l1 ++ s :: l2) ss rs so ro)
           (mkSys (destroy_ListenSocket s w) (l1 ++ l2) ss rs so ro)
  | step_close_send w s ls l1 l2 rs so ro :
      step (mkSys w ls (l1 ++ s :: l2) rs so ro)
           (mkSys (destroy_SendSocket s w) ls (l1 ++ l2) rs so ro)
  | step_close_recv w s ls ss l1 l2 so ro :
      step (mkSys w ls ss (l1 ++ s :: l2) so ro)
           (mkSys (destroy_RecvSocket s w) ls ss (l1 ++ l2) so ro)
  | step_drop_send_op w o ls ss rs l1 l2 ro :
      step (mkSys w ls ss rs (l1 ++ o :: l2) ro)
           (mkSys (destroy_SendOp o w) ls ss rs (l1 ++ l2) ro)
  | step_drop_recv_op w o ls ss rs so l1 l2 :
      step (mkSys w ls ss rs so (l1 ++ o :: l2))
           (mkSys (destroy_LinearizedRecvOp o w) ls ss rs so (l1 ++ l2)).

(** [~DxsClient]: whether the client can be destroyed, [false] when it aborts
    because objects are outstanding. *)
Definition destroy_DxsClient (c : DxsClient) : bool :=
  bool_decide (outstanding_listen_sockets_ c = ∅) && bool_decide (outstanding_data_sockets_ c = ∅)
  && bool_decide (outstanding_linearized_recv_ops_ c = ∅)
  && bool_decide (outstanding_send_ops_ c = ∅).

(** ** The registry invariant *)

(** The keys of a map are exactly the handles [hs], without repetition, and
    all of them were issued, i.e. lie below the counter [next]. *)
Record tracks {V} (m : gmap Z V) (hs : list Z) (lo next : Z) : Prop := {
  tr_nodup : NoDup hs;
  tr_dom : dom m = list_to_set hs;
  tr_range : Forall (fun k => lo <= k < next) hs
}.

Definition registry_ok (s : Sys) : Prop :=
  let c := client (dxs s) in
  tracks (outstanding_listen_sockets_ c) (ls_handle_ <$> listens s) 1 (next_listen_socket_handle_ c)
  /\ tracks (outstanding_data_sockets_ c) ((ss_handle_ <$> sends s) ++ (rs_handle_ <$> recvs s)) 1
       (next_data_socket_handle_ c)
  /\ tracks (outstanding_send_ops_ c) (send_op_id_ <$> send_ops s) 1000 (next_op_id_ c)
  /\ tracks (outstanding_linearized_recv_ops_ c) (recv_op_id_ <$> recv_ops s) 1000 (next_op_id_ c).

Lemma tracks_weaken {V} (m : gmap Z V) hs lo next next' :
  next <= next' -> tracks m hs lo next -> tracks m hs lo next'.
Proof.
  intros Hn [H1 H2 H3]. constructor; auto. eapply Forall_impl; [|exact H3]. cbn. lia.
Qed.

Lemma tracks_insert {V} (m : gmap Z V) hs lo next v :
  lo <= next -> tracks m hs lo next -> tracks (<[next := v]> m) (next :: hs) lo (next + 1).
Proof.
  intros Hlo T. pose proof T as T0; destruct T0 as [H1 H2 H3]. constructor.
  - constructor; [|done]. intros Hin.
    rewrite list.Forall_forall in H3. specialize (H3 _ Hin). lia.
  - rewrite dom_insert_L, H2. done.
  - constructor; [lia|]. apply (tracks_weaken m hs lo next (next + 1)); [lia|done].
Qed.

Lemma tracks_insert_delete {V} (m : gmap Z V) hs lo next v :
  tracks m hs lo next -> tracks (delete next (<[next := v]> m)) hs lo (next + 1).
Proof.
  intros T. pose proof T as T0; destruct T0 as [H1 H2 H3].
  rewrite delete_insert_id.
  - by apply (tracks_weaken m hs lo next (next + 1)); [lia|].
  - apply not_elem_of_dom. rewrite H2, elem_of_list_to_set. intros Hin.
    rewrite list.Forall_forall in H3. specialize (H3 _ Hin). lia.
Qed.

Lemma tracks_delete {V} (m : gmap Z V) l1 k l2 lo next :
  tracks m (l1 ++ k :: l2) lo next -> tracks (delete k m) (l1 ++ l2) lo next.
Proof.
  intros [H1 H2 H3]. rewrite <- Permutation_middle in H1. apply list.NoDup_cons in H1 as [Hk H1].
  constructor; [done| |].
  - rewrite dom_delete_L, H2. rewrite !list_to_set_app_L, list_to_set_cons.
    apply not_elem_of_app in Hk as [? ?].
    apply set_eq. intros x. set_solver.
  - rewrite Forall_app, list.Forall_cons in H3. rewrite Forall_app. naive_solver.
Qed.

(** A map with the same keys is tracked by the same handles. *)
Lemma tracks_dom {V V'} (m : gmap Z V) (m' : gmap Z V') hs lo next :
  dom m' = dom m -> tracks m hs lo next -> tracks m' hs lo next.
Proof. intros E [? ? ?]. constructor; auto. congruence. Qed.

Lemma dom_insert_same {V} (m : gmap Z V) k v v' :
  m !! k = Some v -> dom (<[k := v']> m) = dom m.
Proof.
  intros Hk. rewrite dom_insert_L. assert (k ∈ dom m) by (by apply elem_of_dom). set_solver.
Qed.

(** What the registry of a client consists of. *)
Definition registry_eq (c c' : DxsClient) : Prop :=
  dom (outstanding_listen_sockets_ c') = dom (outstanding_listen_sockets_ c)
  /\ dom (outstanding_data_sockets_ c') = dom (outstanding_data_sockets_ c)
  /\ dom (outstanding_send_ops_ c') = dom (outstanding_send_ops_ c)
  /\ dom (outstanding_linearized_recv_ops_ c') = dom (outstanding_linearized_recv_ops_ c)
  /\ next_op_id_ c' = next_op_id_ c /\ next_data_socket_handle_ c' = next_data_socket_handle_ c
  /\ next_listen_socket_handle_ c' = next_listen_socket_handle_ c.

Lemma registry_eq_refl c : registry_eq c c.
Proof. by repeat split. Qed.

Lemma registry_eq_trans c1 c2 c3 : registry_eq c1 c2 -> registry_eq c2 c3 -> registry_eq c1 c3.
Proof.
  intros (?&?&?&?&?&?&?) (?&?&?&?&?&?&?). unfold registry_eq. split_and!; congruence.
Qed.

Lemma registry_ok_eq w w' ls ss rs so ro :
  registry_eq (client w) (client w') -> registry_ok (mkSys w ls ss rs so ro) ->
  registry_ok (mkSys w' ls ss rs so ro).
Proof.
  intros (E1 & E2 & E3 & E4 & N1 & N2 & N3) (T1 & T2 & T3 & T4). unfold registry_ok. cbn in *.
  rewrite N1, N2, N3. split_and!; eapply tracks_dom; eauto.
Qed.

(** A setter followed by a projection computes on a constructed client. *)
Ltac destruct_client c := destruct c as [????????????????]; cbn in *.

Lemma deliver_registry now e c : registry_eq c (deliver now c e).
Proof.
  assert (D : forall sock peer c, registry_eq c (IncomingConnectionOn sock peer c)).
  { intros sock peer c'. unfold IncomingConnectionOn.
    destruct (_ !! _) as [st|] eqn:E; [|apply registry_eq_refl]. case_match; [apply registry_eq_refl|].
    destruct_client c'. repeat split; cbn. by apply (dom_insert_same _ _ st). }
  assert (S : forall sock status c, registry_eq c (StoreDataSockStatus sock status c)).
  { intros sock status c'. unfold StoreDataSockStatus.
    destruct (_ !! _) as [st|] eqn:E; [|apply registry_eq_refl].
    destruct_client c'. repeat split; cbn. by apply (dom_insert_same _ _ st). }
  destruct e as [buffer|]; cbn [deliver].
  2: { unfold OnControlChannelFailure. destruct_client c.
       repeat split; cbn; apply dom_fmap_L. }
  unfold ReceiveControlMessage. destruct (_ <? _); [apply registry_eq_refl|].
  destruct (ControlCommand_of _); try apply registry_eq_refl.
  - unfold HandleListenAck.
    destruct (ValidateAndGetMessage buffer) as [message|]; [|apply registry_eq_refl].
    destruct (_ !! _) as [st|] eqn:E; [|apply registry_eq_refl].
    destruct_client c. repeat split; cbn. by apply (dom_insert_same _ _ st).
  - unfold HandleIncomingConnection. case_match; [apply D|apply registry_eq_refl].
  - unfold HandleConnectAck. case_match; [apply S|apply registry_eq_refl].
  - unfold HandleSendAck.
    destruct (ValidateAndGetMessage buffer) as [message|]; [|apply registry_eq_refl].
    destruct (_ !! _) as [st|] eqn:E; [|apply registry_eq_refl].
    destruct_client c. repeat split; cbn. by apply (dom_insert_same _ _ st).
  - unfold HandleRecvAck.
    destruct (ValidateAndGetMessage buffer) as [message|]; [|apply registry_eq_refl].
    destruct (_ !! _) as [st|] eqn:E; [|apply registry_eq_refl].
    destruct_client c. repeat split; cbn. by apply (dom_insert_same _ _ st).
  - unfold HandlePong. repeat case_match; destruct_client c; by repeat split.
  - unfold HandleVersionedInitAck. repeat case_match; destruct_client c; by repeat split.
  - unfold HandleInitLlcmAck. repeat case_match; destruct_client c; by repeat split.
  - unfold HandleAcceptAck. case_match; [apply S|apply registry_eq_refl].
  - unfold HandleIncomingConnectionV2. case_match; [apply D|apply registry_eq_refl].
Qed.

Lemma deliver_all_registry now evs : forall c, registry_eq c (fold_left (deliver now) evs c).
Proof.
  induction evs as [|e evs IH]; intros c; cbn; [apply registry_eq_refl|].
  eapply registry_eq_trans; [apply deliver_registry|apply IH].
Qed.

Lemma Poll_registry now w : registry_eq (client w) (client (Poll now w)).
Proof. unfold Poll. destruct (RxPoll (channel w)). apply deliver_all_registry. Qed.

Lemma PingSend_registry now w : registry_eq (client w) (client (snd (PingSend now w))).
Proof.
  unfold PingSend. destruct w as [c h]; cbn [client channel]. destruct_client c.
  destruct (SendTyped _ _) as [[]]; by repeat split.
Qed.

Lemma PingPoll_registry now seq w : registry_eq (client w) (client (snd (PingPoll now seq w))).
Proof.
  unfold PingPoll. eapply registry_eq_trans; [apply (Poll_registry now)|].
  destruct (Poll now w) as [c h]; cbn [client channel].
  repeat case_match; destruct_client c; by repeat split.
Qed.

Lemma tracks_perm {V} (m : gmap Z V) hs hs' lo next :
  hs ≡ₚ hs' -> tracks m hs lo next -> tracks m hs' lo next.
Proof.
  intros E [H1 H2 H3]. constructor.
  - by rewrite <- E.
  - rewrite H2. by apply list_to_set_perm_L.
  - by rewrite <- E.
Qed.

Lemma tracks_insert_middle {V} (m : gmap Z V) l1 l2 lo next v :
  lo <= next -> tracks m (l1 ++ l2) lo next ->
  tracks (<[next := v]> m) (l1 ++ next :: l2) lo (next + 1).
Proof.
  intros Hlo T. eapply tracks_perm; [apply Permutation_middle|]. by apply tracks_insert.
Qed.

(** Closes the goals that remain of [registry_ok] after an operation. *)
Ltac registry :=
  repeat match goal with |- context [fmap _ (_ :: _)] => rewrite fmap_cons
                       | |- context [fmap _ (_ ++ _)] => rewrite fmap_app end;
  rewrite ?u64_small by lia; cbn [ls_handle_ ss_handle_ rs_handle_ send_op_id_ recv_op_id_];
  rewrite <- ?app_comm_cons, <- ?app_assoc;
  first
    [ assumption
    | apply tracks_insert; [lia|assumption]
    | apply tracks_insert_middle; [lia|assumption]
    | apply tracks_insert_delete; assumption
    | apply tracks_delete; assumption
    | eapply tracks_weaken; [|eassumption]; lia ].

Lemma registry_Listen w r w' ls ss rs so ro :
  counters_ok (client w) -> Listen w = (r, w') -> registry_ok (mkSys w ls ss rs so ro) ->
  registry_ok (mkSys w' (match r with Ok s => s :: ls | Err _ => ls end) ss rs so ro).
Proof.
  intros (? & ? & ?) E (T1 & T2 & T3 & T4). destruct w as [c h]. destruct_client c.
  unfold Listen in E. cbn in E.
  destruct (SendTyped _ h) as [[[]|e] h'] eqn:Es; simplify_eq; unfold registry_ok; cbn;
    split_and!; registry.
Qed.

Lemma registry_Connect p4 p6 addr port w r w' ls ss rs so ro :
  counters_ok (client w) -> Connect p4 p6 addr port w = (r, w') ->
  registry_ok (mkSys w ls ss rs so ro) ->
  registry_ok (mkSys w' ls (match r with Ok s => s :: ss | Err _ => ss end) rs so ro).
Proof.
  intros (? & ? & ?) E (T1 & T2 & T3 & T4). destruct w as [c h]. destruct_client c.
  unfold Connect in E. destruct (PackIpAddress _ _ _ _) as [wire|e]; [|by simplify_eq]. cbn in E.
  destruct (SendTyped _ h) as [[[]|e] h'] eqn:Es; simplify_eq.
  - unfold registry_ok; cbn; split_and!; registry.
  - unfold destroy_SendSocket, erase_data_socket; cbn.
    case_match; unfold registry_ok; cbn; split_and!; registry.
Qed.

Lemma registry_Accept l w r w' ls ss rs so ro :
  counters_ok (client w) -> Accept l w = (r, w') -> registry_ok (mkSys w ls ss rs so ro) ->
  registry_ok (mkSys w' ls ss (match r with Some (Ok (Some s)) => s :: rs | _ => rs end) so ro).
Proof.
  intros (? & ? & ?) E HR. pose proof HR as (T1 & T2 & T3 & T4). destruct w as [c h].
  unfold Accept in E. destruct (_ !! _) as [st|] eqn:El; [|by simplify_eq].
  destruct (_ <=? _); [by simplify_eq|].
  destruct (PopPendingConnection st) as [[peer|] st']; [|by simplify_eq].
  destruct_client c. destruct (SendTyped _ h) as [[[]|e] h'] eqn:Es; simplify_eq;
    unfold registry_ok; cbn; split_and!; try registry;
    (eapply tracks_dom; [by apply (dom_insert_same _ _ st)|assumption]).
Qed.

Lemma registry_Send s off sz reg w r w' ls ss rs so ro :
  counters_ok (client w) -> Send s off sz reg w = (r, w') -> registry_ok (mkSys w ls ss rs so ro) ->
  registry_ok (mkSys w' ls ss rs (match r with Ok o => o :: so | Err _ => so end) ro).
Proof.
  intros (? & ? & ?) E (T1 & T2 & T3 & T4). destruct w as [c h]. destruct_client c.
  unfold Send in E. cbn in E.
  destruct (SendTyped _ h) as [[[]|e] h'] eqn:Es; simplify_eq; unfold registry_ok; cbn;
    split_and!; registry.
Qed.

Lemma registry_Recv s off sz reg w r w' ls ss rs so ro :
  counters_ok (client w) -> RecvLinearized s off sz reg w = (r, w') ->
  registry_ok (mkSys w ls ss rs so ro) ->
  registry_ok (mkSys w' ls ss rs so (match r with Ok o => o :: ro | Err _ => ro end)).
Proof.
  intros (? & ? & ?) E (T1 & T2 & T3 & T4). destruct w as [c h]. destruct_client c.
  unfold RecvLinearized in E. cbn in E.
  destruct (SendTyped _ h) as [[[]|e] h'] eqn:Es; simplify_eq; unfold registry_ok; cbn;
    split_and!; registry.
Qed.

Lemma registry_destroy w ls ss rs so ro :
  (forall s l1 l2, registry_ok (mkSys w (l1 ++ s :: l2) ss rs so ro) ->
     registry_ok (mkSys (destroy_ListenSocket s w) (l1 ++ l2) ss rs so ro))
  /\ (forall s l1 l2, registry_ok (mkSys w ls (l1 ++ s :: l2) rs so ro) ->
     registry_ok (mkSys (destroy_SendSocket s w) ls (l1 ++ l2) rs so ro))
  /\ (forall s l1 l2, registry_ok (mkSys w ls ss (l1 ++ s :: l2) so ro) ->
     registry_ok (mkSys (destroy_RecvSocket s w) ls ss (l1 ++ l2) so ro))
  /\ (forall o l1 l2, registry_ok (mkSys w ls ss rs (l1 ++ o :: l2) ro) ->
     registry_ok (mkSys (destroy_SendOp o w) ls ss rs (l1 ++ l2) ro))
  /\ (forall o l1 l2, registry_ok (mkSys w ls ss rs so (l1 ++ o :: l2)) ->
     registry_ok (mkSys (destroy_LinearizedRecvOp o w) ls ss rs so (l1 ++ l2))).
Proof.
  destruct w as [c h]. destruct_client c.
  split_and!; intros x l1 l2 (T1 & T2 & T3 & T4); unfold destroy_SendSocket; try case_match;
    unfold registry_ok in *; cbn in *; rewrite ?fmap_app, ?fmap_cons in *;
    split_and!; try assumption; try (by apply tracks_delete).
  1,2: rewrite <- app_assoc in T2 |- *; by apply tracks_delete.
  rewrite app_assoc in T2 |- *. by apply tracks_delete.
Qed.

Lemma step_registry s s' : step s s' -> registry_ok s -> registry_ok s'.
Proof.
  intros St HR. destruct St;
    try (eapply (registry_Listen _ (Ok _)); eassumption);
    try (eapply (registry_Listen _ (Err _)); eassumption);
    try (eapply (registry_Connect _ _ _ _ _ (Ok _)); eassumption);
    try (eapply (registry_Connect _ _ _ _ _ (Err _)); eassumption);
    try (eapply (registry_Accept _ _ (Some (Ok (Some _)))); eassumption);
    try (eapply (registry_Send _ _ _ _ _ (Ok _)); eassumption);
    try (eapply (registry_Send _ _ _ _ _ (Err _)); eassumption);
    try (eapply (registry_Recv _ _ _ _ _ (Ok _)); eassumption);
    try (eapply (registry_Recv _ _ _ _ _ (Err _)); eassumption).
  - match goal with E : Accept _ _ = _, N : forall s, _ <> _ |- _ =>
      pose proof (registry_Accept _ _ _ _ _ _ _ _ _ ltac:(eassumption) E HR) as K;
      destruct r as [[[s|]|]|]; [by destruct (N s)|exact K..] end.
  - eapply registry_ok_eq; [apply PingSend_registry|done].
  - eapply registry_ok_eq; [apply PingPoll_registry|done].
  - eapply registry_ok_eq; [apply Poll_registry|done].
  - eapply registry_ok_eq; [|exact HR]. apply deliver_registry.
  - by apply (registry_destroy w [] ss rs so ro).
  - by apply (registry_destroy w ls [] rs so ro).
  - by apply (registry_destroy w ls ss [] so ro).
  - by apply (registry_destroy w ls ss rs [] ro).
  - by apply (registry_destroy w ls ss rs so []).
Qed.

(** States reachable from a new client over any channel. *)
Inductive reachable (teardown : bool) (h0 : H) : Sys -> Prop :=
  | reach_init : reachable teardown h0 (mkSys (mkDxs (new_DxsClient teardown) h0) [] [] [] [] [])
  | reach_step s s' : reachable teardown h0 s -> step s s' -> reachable teardown h0 s'.

Lemma tracks_empty {V} lo next : tracks (∅ : gmap Z V) [] lo next.
Proof. constructor; [constructor|by rewrite dom_empty_L|constructor]. Qed.

Lemma reachable_registry teardown h0 s : reachable teardown h0 s -> registry_ok s.
Proof.
  induction 1 as [|s s' _ IH St]; [|by eapply step_registry].
  unfold registry_ok; cbn. split_and!; apply tracks_empty.
Qed.

Lemma tracks_lookup {V} (m : gmap Z V) hs lo next k :
  tracks m hs lo next -> (is_Some (m !! k) <-> k ∈ hs).
Proof. intros [_ E _]. by rewrite <- elem_of_dom, E, elem_of_list_to_set. Qed.

Lemma tracks_nil {V} {m : gmap Z V} {hs lo next} : tracks m hs lo next -> (m = ∅ <-> hs = []).
Proof.
  intros [_ E _]. rewrite <- (dom_empty_iff_L m), E. destruct hs; [done|].
  cbn. split; [set_solver|done].
Qed.

Lemma fmap_nil_iff {A B} (f : A -> B) l : f <$> l = [] <-> l = [].
Proof. by destruct l. Qed.

(** ** Properties *)

(** C5 (registry).  In every reachable state of a client whose 64-bit
    counters have not wrapped, the maps of outstanding listen sockets, data
    sockets, send operations and receive operations have exactly the handles
    of the objects the user holds, each handle once: no object refers to freed
    shared state, no entry outlives its object (also when sending the request
    failed), and no two objects share a handle, whatever the server sends.
    Destroying the client aborts exactly when the user still holds an object. *)
Theorem registry_matches_objects teardown h0 s :
  reachable teardown h0 s ->
  let c := client (dxs s) in
  NoDup (ls_handle_ <$> listens s)
  /\ (forall k, is_Some (outstanding_listen_sockets_ c !! k) <-> k ∈ ls_handle_ <$> listens s)
  /\ NoDup ((ss_handle_ <$> sends s) ++ (rs_handle_ <$> recvs s))
  /\ (forall k, is_Some (outstanding_data_sockets_ c !! k)
                <-> k ∈ (ss_handle_ <$> sends s) ++ (rs_handle_ <$> recvs s))
  /\ NoDup (send_op_id_ <$> send_ops s)
  /\ (forall k, is_Some (outstanding_send_ops_ c !! k) <-> k ∈ send_op_id_ <$> send_ops s)
  /\ NoDup (recv_op_id_ <$> recv_ops s)
  /\ (forall k, is_Some (outstanding_linearized_recv_ops_ c !! k)
                <-> k ∈ recv_op_id_ <$> recv_ops s)
  /\ (destroy_DxsClient c = true
      <-> listens s = [] /\ sends s = [] /\ recvs s = [] /\ send_ops s = [] /\ recv_ops s = []).
Proof.
  intros R. destruct (reachable_registry _ _ _ R) as (T1 & T2 & T3 & T4).
  split_and!; try apply T1; try apply T2; try apply T3; try apply T4;
    try (intros k; eapply tracks_lookup; eassumption).
  unfold destroy_DxsClient. rewrite !andb_true_iff, !bool_decide_eq_true.
  rewrite (tracks_nil T1), (tracks_nil T2), (tracks_nil T3), (tracks_nil T4).
  rewrite app_nil, !fmap_nil_iff. tauto.
Qed.

(** C24 (error).  When the control channel has failed, the next poll of any
    outstanding operation or socket that brings no further message reports an
    internal error, for send operations, receive operations, data sockets and
    listen sockets alike, and initialization reports an error. *)
Theorem channel_failure_fails_everything now (c : DxsClient) (h h' : H) :
  RxPoll h = (h', []) ->
  let w := mkDxs (OnControlChannelFailure c) h in
  (forall o, is_Some (outstanding_send_ops_ c !! send_op_id_ o) ->
     fst (SendOp_Test now o w) = Some (Some (Err kInternal)))
  /\ (forall o, is_Some (outstanding_linearized_recv_ops_ c !! recv_op_id_ o) ->
     fst (LinearizedRecvOp_Test now o w) = Some (Some (Err kInternal)))
  /\ (forall k, is_Some (outstanding_data_sockets_ c !! k) ->
     fst (DataSocket_SocketReady now k w) = Some (Some (Err kInternal)))
  /\ (forall l, is_Some (outstanding_listen_sockets_ c !! ls_handle_ l) ->
     fst (ListenSocket_SocketReady now l w) = Some (Some (Err kInternal)))
  /\ (forall llcm, init_done llcm (client w) = true) /\ init_result (client w) = Err kInternal.
Proof.
  intros E w. subst w.
  unfold SendOp_Test, LinearizedRecvOp_Test, DataSocket_SocketReady, ListenSocket_SocketReady, Poll.
  cbn [channel]. rewrite E. cbn [fold_left client fst]. unfold OnControlChannelFailure.
  destruct_client c. split_and!; try done; intros x [y Hy]; rewrite lookup_fmap, Hy; done.
Qed.

(** The statuses [Init] relies on. *)
Definition init_inv (c : DxsClient) : Prop :=
  initialized_ c = true -> kMinimumWireVersion <= server_version_ c.

Lemma deliver_init_inv now e c : init_inv c -> init_inv (deliver now c e).
Proof.
  unfold init_inv. intros Hi. destruct e as [buffer|]; cbn [deliver].
  2: { unfold OnControlChannelFailure. by destruct_client c. }
  unfold ReceiveControlMessage, HandleVersionedInitAck, HandleInitLlcmAck, HandleListenAck,
    HandleIncomingConnection, HandleIncomingConnectionV2, IncomingConnectionOn, HandleConnectAck,
    HandleAcceptAck, StoreDataSockStatus, HandleSendAck, HandleRecvAck, HandlePong.
  repeat case_match; unfold kMinimumWireVersion in *; zbool;
    destruct_client c; intros; auto; try lia; try congruence; done.
Qed.

Lemma deliver_all_init_inv now evs : forall c,
  init_inv c -> init_inv (fold_left (deliver now) evs c).
Proof. induction evs; intros; cbn; auto using deliver_init_inv. Qed.

Lemma Poll_init_inv now w : init_inv (client w) -> init_inv (client (Poll now w)).
Proof. unfold Poll. destruct (RxPoll _). apply deliver_all_init_inv. Qed.

Lemma step_init_inv s s' : step s s' -> init_inv (client (dxs s)) -> init_inv (client (dxs s')).
Proof.
  intros St Hi. destruct St; cbn [dxs] in *;
    try (by apply Poll_init_inv); try (by apply deliver_init_inv);
    try (apply (Poll_init_inv now) in Hi; unfold PingPoll; destruct (Poll now w) as [c' h'];
         cbn [client channel] in *; repeat case_match; by destruct_client c').
  all: destruct w as [c h]; cbn [client] in *; destruct_client c; unfold init_inv in *; cbn in *.
  all: try match goal with E : _ = (_, _) |- _ =>
         unfold Listen, Connect, Accept, Send, RecvLinearized, destroy_SendSocket in E; cbn in E;
         repeat case_match; simplify_eq/= end; auto.
  all: unfold PingSend, destroy_SendSocket; cbn; repeat case_match; simplify_eq/=; auto.
Qed.

Lemma reachable_init_inv teardown h0 s : reachable teardown h0 s -> init_inv (client (dxs s)).
Proof. induction 1; [done|by eapply step_init_inv]. Qed.

(** When [Init] stops waiting and reports success, the
    server has acknowledged a wire version of at least 1, and if LLCM was
    requested the server has sent the description of its queues. *)
Theorem init_success teardown h0 s llcm :
  reachable teardown h0 s ->
  init_done llcm (client (dxs s)) = true -> init_result (client (dxs s)) = OkStatus ->
  initialized_ (client (dxs s)) = true /\ kMinimumWireVersion <= server_version_ (client (dxs s))
  /\ (llcm = true -> is_Some (llcm_info_ (client (dxs s)))).
Proof.
  intros R Hd Hr. pose proof (reachable_init_inv _ _ _ R) as Hi. unfold init_inv in Hi.
  unfold init_done, init_result in *. destruct (failed_ _); [done|]. cbn [orb] in Hd.
  apply andb_prop in Hd as [Hin Hl]. rewrite Hin in *. split_and!; auto.
  intros ->. cbn in Hl. apply negb_true_iff, negb_false_iff in Hl. by apply bool_decide_eq_true in Hl.
Qed.

(** C23 (functional).  A SendAck or RecvAck packet for an outstanding
    operation sets the result of exactly that operation (and, when complete,
    its completion time and received size) and changes nothing else; an ack
    for an unknown operation changes nothing. *)
Theorem acks_complete_operations now (c : DxsClient) id status req sz :
  msg_ok (mkSendAckMessage (ControlCommand_code kSendAck) id status req) ->
  msg_ok (mkRecvAckMessage (ControlCommand_code kRecvAck) id status sz req) ->
  let complete := status =? OpStatus_code OpStatus_kComplete in
  ReceiveControlMessage now
    (encode (mkSendAckMessage (ControlCommand_code kSendAck) id status req)) c
  = match outstanding_send_ops_ c !! id with
    | None => c
    | Some op =>
        set_send_ops (<[id := mkSendOpState status req
                                (if complete then Some now else so_completion_time op)]>
                        (outstanding_send_ops_ c)) c
    end
  /\ ReceiveControlMessage now
       (encode (mkRecvAckMessage (ControlCommand_code kRecvAck) id status sz req)) c
     = match outstanding_linearized_recv_ops_ c !! id with
       | None => c
       | Some op =>
           set_recv_ops (<[id := mkRecvOpState status req (if complete then sz else ro_size op)
                                   (if complete then Some now else ro_completion_time op)]>
                           (outstanding_linearized_recv_ops_ c)) c
       end.
Proof.
  intros Hs Hr complete. split; unfold ReceiveControlMessage; rewrite encode_length by done.
  - change (ControlCommand_of _) with kSendAck. cbn [sizeof layout_size Z.ltb].
    change (sizeof SendAckMessage <? 1) with false. cbn iota.
    unfold HandleSendAck. by rewrite validate_encode.
  - change (ControlCommand_of _) with kRecvAck.
    change (sizeof RecvAckMessage <? 1) with false. cbn iota.
    unfold HandleRecvAck. by rewrite validate_encode.
Qed.

End client.

Arguments Dxs H : clear implicits.
Arguments Sys H : clear implicits.

(** *** Witnesses: a channel that accepts every message and keeps a log *)

Definition LogChannel : ControlMessageHandlerInterface (list (list Z)) := {|
  SendControlMessage buffer h := (OkStatus, h ++ [buffer]);
  RxPoll h := (h, [])
|}.

#[local] Existing Instance LogChannel.

Definition ex_dxs0 : Dxs (list (list Z)) := mkDxs (new_DxsClient true) [].

Lemma ex_reachable :
  reachable true [] (mkSys (snd (Listen ex_dxs0)) [mkListenSocket 1] [] [] [] []).
Proof.
  eapply reach_step; [apply reach_init|].
  apply (step_Listen ex_dxs0 (snd (Listen ex_dxs0)) (mkListenSocket 1)); [|reflexivity].
  unfold counters_ok; cbn; lia.
Qed.

Lemma registry_matches_objects_witness :
  is_Some (outstanding_listen_sockets_ (client (snd (Listen ex_dxs0))) !! 1)
  <-> 1 ∈ ls_handle_ <$> [mkListenSocket 1].
Proof. exact (proj1 (proj2 (registry_matches_objects true [] _ ex_reachable)) 1). Defined.

Lemma channel_failure_fails_everything_witness :
  fst (ListenSocket_SocketReady 5 (mkListenSocket 1)
         (mkDxs (OnControlChannelFailure (client (snd (Listen ex_dxs0)))) []))
  = Some (Some (Err kInternal)).
Proof.
  refine (proj1 (proj2 (proj2 (proj2 (channel_failure_fails_everything 5
            (client (snd (Listen ex_dxs0))) [] [] eq_refl)))) (mkListenSocket 1) _).
  eexists; reflexivity.
Defined.

(** The acknowledgement of a server that speaks wire version 7. *)
Definition ex_init_ack : list Z :=
  encode (mkVersionedInitAckMessage (ControlCommand_code kVersionedInitAck) 0
            (replicate 256 0) 7).

Lemma init_success_witness :
  let c := deliver 0 (new_DxsClient true) (RxMessage ex_init_ack) in
  initialized_ c = true /\ kMinimumWireVersion <= server_version_ c.
Proof.
  assert (R : reachable true [] (mkSys (mkDxs (deliver 0 (new_DxsClient true) (RxMessage ex_init_ack))
                                          ([] : list (list Z))) [] [] [] [] [])).
  { eapply reach_step; [apply reach_init|apply step_deliver]. }
  destruct (init_success true [] _ false R) as (Hi & Hv & _).
  - by vm_compute.
  - by vm_compute.
  - split; assumption.
Defined.

Lemma acks_complete_operations_witness :
  ReceiveControlMessage 9 (encode (mkSendAckMessage (ControlCommand_code kSendAck) 1000 1 0))
    (RegisterSendOp 1000 (new_DxsClient true))
  = set_send_ops {[1000 := mkSendOpState 1 0 (Some 9)]} (new_DxsClient true).
Proof.
  refine (proj1 (acks_complete_operations 9 (RegisterSendOp 1000 (new_DxsClient true)) 1000 1 0 0 _ _));
    repeat split; cbn; lia.
Defined.
