(* ===== verification/BufferManager.v ===== *)
(** * Buffer registration (BufferManager of dxs/client/dxs-client.{h,cc},
    dxs/client/mtu_utils.h)

    [RegBuffer] splits the guest physical addresses of a buffer into messages
    that fit the MTU, sends them all and waits until each is acknowledged;
    acknowledgements arrive on another thread while it sends and while it
    waits.  A call is modelled as one function of the events that arrive after
    each of its sends and of those that arrive while it waits: the state
    shared with the receiving thread changes only under [mu_], so these are
    the points at which an event makes a difference. *)

From S2P Require Import Prelude Packed ControlCommand ControlInterface DxsClient.

Definition GetUsableSizeForMtu (mtu : Z) : Z := u64 (mtu - 40 - 8 - 12 - 4 - 12).

Definition kMinMtu : Z := 1460.
Definition kBufferSize : Z := kMinMtu.
Definition kAvailableBufferSize : Z := GetUsableSizeForMtu kMinMtu.
Definition kSubscribeToPeriodicStatsVersion : Z := 5.

(** [struct iovec] of the platform, 16 bytes. *)
Record iovec := mkIovec { iov_base : Z; iov_len : Z }.

#[export] Instance iovec_eq_dec : EqDecision iovec.
Proof. solve_decision. Defined.

Definition sizeof_iovec : Z := 16.
Definition iovec_bytes (v : iovec) : list Z := le_encode 8 (iov_base v) ++ le_encode 8 (iov_len v).

(** [kMaxGpaPerMessage] *)
Definition kMaxGpaPerMessage : Z := (kAvailableBufferSize - sizeof RegBufferMessage) / sizeof_iovec.

Section buffer_manager.
(** [PeriodicStatsUpdate], a protobuf message, and [ParseFromString] of it. *)
Context {Stats : Type} (ParseStats : list Z -> option Stats).

(** [bm_stats_handler] is [None] while the [std::function] is empty and
    otherwise the updates it has been called with. *)
Record BufferManager := mkBufferManager {
  bm_initialized_ : bool;
  bm_failed_ : bool;
  bm_server_build_id_ : list Z;
  bm_server_version_ : Z;
  outstanding_registrations_ : Z;
  last_reg_buffer_ack_ : RegBufferAckMessage;
  awaiting_unreg_buffer_ : bool;
  last_dereg_buffer_ack_ : DeregBufferAckMessage;
  bm_stats_handler : option (list Stats)
}.

(** The acks are left uninitialized, so they are arguments; the build id is
    the text "<unknown>". *)
Definition new_BufferManager (reg : RegBufferAckMessage) (dereg : DeregBufferAckMessage)
    : BufferManager :=
  mkBufferManager false false [60; 117; 110; 107; 110; 111; 119; 110; 62] 0 0 reg false dereg None.

Definition bm_set_failed (b : BufferManager) : BufferManager :=
  mkBufferManager (bm_initialized_ b) true (bm_server_build_id_ b) (bm_server_version_ b)
    (outstanding_registrations_ b) (last_reg_buffer_ack_ b) (awaiting_unreg_buffer_ b)
    (last_dereg_buffer_ack_ b) (bm_stats_handler b).

Definition bm_set_reg (n : Z) (ack : RegBufferAckMessage) (b : BufferManager) : BufferManager :=
  mkBufferManager (bm_initialized_ b) (bm_failed_ b) (bm_server_build_id_ b) (bm_server_version_ b)
    n ack (awaiting_unreg_buffer_ b) (last_dereg_buffer_ack_ b) (bm_stats_handler b).

Definition bm_set_dereg (w : bool) (ack : DeregBufferAckMessage) (b : BufferManager)
    : BufferManager :=
  mkBufferManager (bm_initialized_ b) (bm_failed_ b) (bm_server_build_id_ b) (bm_server_version_ b)
    (outstanding_registrations_ b) (last_reg_buffer_ack_ b) w ack (bm_stats_handler b).

Definition bm_set_handler (s : option (list Stats)) (b : BufferManager) : BufferManager :=
  mkBufferManager (bm_initialized_ b) (bm_failed_ b) (bm_server_build_id_ b) (bm_server_version_ b)
    (outstanding_registrations_ b) (last_reg_buffer_ack_ b) (awaiting_unreg_buffer_ b)
    (last_dereg_buffer_ack_ b) s.

(** ** Messages from the server *)

Definition HandleVersionedInitAck (packet : list Z) (b : BufferManager) : BufferManager :=
  if bm_initialized_ b then b
  else
    match ValidateAndGetMessage packet with
    | None => b
    | Some message =>
        if negb (VersionedInitAckMessage_status message =? InitAckStatus_code InitAck_kOk)
        then bm_set_failed b
        else
          mkBufferManager true (bm_failed_ b)
            (until_nul (VersionedInitAckMessage_server_build_id message))
            (VersionedInitAckMessage_server_version message)
            (outstanding_registrations_ b) (last_reg_buffer_ack_ b) (awaiting_unreg_buffer_ b)
            (last_dereg_buffer_ack_ b) (bm_stats_handler b)
    end.

Definition HandleRegBufferAck (packet : list Z) (b : BufferManager) : BufferManager :=
  match ValidateAndGetMessage packet with
  | None => b
  | Some message =>
      if outstanding_registrations_ b <=? 0 then b
      else bm_set_reg (outstanding_registrations_ b - 1) message b
  end.

Definition HandleDeregBufferAck (packet : list Z) (b : BufferManager) : BufferManager :=
  match ValidateAndGetMessage packet with
  | None => b
  | Some message =>
      if negb (awaiting_unreg_buffer_ b) then b else bm_set_dereg false message b
  end.

(** [ValidateAndGetMessageWithTail]: the message and the bytes after it. *)
Definition ValidateAndGetMessageWithTail {M} `{PackedStruct M} (packet : list Z)
    : option (M * list Z) :=
  if Zlen packet <? sizeof M then None
  else Some (of_fields (decode_fields layout (takeZ (sizeof M) packet)), dropZ (sizeof M) packet).

(** [None]: the payload size of the message exceeds the packet, which is
    read beyond its end, or the empty [std::function] is called. *)
Definition HandlePeriodicStatsUpdate (packet : list Z) (b : BufferManager) : option BufferManager :=
  match ValidateAndGetMessageWithTail packet with
  | None => Some b
  | Some (message, payload) =>
      let payload_size := PeriodicStatsUpdateMessage_payload_size message in
      if Zlen payload <? payload_size then None
      else
        match ParseStats (takeZ payload_size payload) with
        | None => Some b
        | Some stats =>
            match bm_stats_handler b with
            | None => None
            | Some calls => Some (bm_set_handler (Some (calls ++ [stats])) b)
            end
        end
  end.

Definition ReceiveControlMessage (buffer : list Z) (b : BufferManager) : option BufferManager :=
  if Zlen buffer <? 1 then Some b
  else
    match ControlCommand_of (nthZ buffer 0) with
    | kVersionedInitAck => Some (HandleVersionedInitAck buffer b)
    | kRegBufferAck => Some (HandleRegBufferAck buffer b)
    | kDeregBufferAck => Some (HandleDeregBufferAck buffer b)
    | kPeriodicStatsUpdate => HandlePeriodicStatsUpdate buffer b
    | _ => Some b
    end.

Definition OnControlChannelFailure (b : BufferManager) : BufferManager := bm_set_failed b.

Definition bm_deliver (e : RxEvent) (b : BufferManager) : option BufferManager :=
  match e with
  | RxMessage buffer => ReceiveControlMessage buffer b
  | RxFailure => Some (OnControlChannelFailure b)
  end.

Fixpoint bm_deliver_all (evs : list RxEvent) (b : BufferManager) : option BufferManager :=
  match evs with
  | [] => Some b
  | e :: evs' => b' ← bm_deliver e b; bm_deliver_all evs' b'
  end.

(** ** Requests *)

Context {H : Type} `{ControlMessageHandlerInterface H}.

Record Bm := mkBm { bm : BufferManager; bm_channel : H }.

(** [Init], after the channel has been created: [wait] arrives before the
    acknowledgement is seen or the timeout expires.  [subscription] is the
    serialized [SubscribeToPeriodicStats], when statistics are requested. *)
Definition Init (wait : list RxEvent) (subscription : option (list Z)) (w : Bm)
    : option (Status * Bm) :=
  b ← bm_deliver_all wait (bm w);
  if negb (bm_failed_ b || bm_initialized_ b)
  then Some (Err kDeadlineExceeded, mkBm b (bm_channel w))
  else if bm_failed_ b then Some (Err kInternal, mkBm b (bm_channel w))
  else
    match subscription with
    | None => Some (OkStatus, mkBm b (bm_channel w))
    | Some payload =>
        if negb (kSubscribeToPeriodicStatsVersion <=? bm_server_version_ b)
        then Some (OkStatus, mkBm b (bm_channel w))
        else
          let b := bm_set_handler (Some []) b in
          let '(status, h) :=
            SendMessageWithPayload
              (mkSubscribeToPeriodicStatsMessage (ControlCommand_code kSubscribeToPeriodicStats))
              payload (bm_channel w) in
          Some (status, mkBm b h)
    end.

(** The message of the loop iteration at [i]. *)
Definition reg_message (gpas : list iovec) (i : Z) : list Z :=
  let num_gpas := u8 (Z.min kMaxGpaPerMessage (Zlen gpas - i)) in
  encode (mkRegBufferMessage (ControlCommand_code kRegBuffer)
            (i + kMaxGpaPerMessage <? Zlen gpas) false num_gpas)
  ++ concat (iovec_bytes <$> takeZ num_gpas (dropZ i gpas)).

(** The send loop; [i] is an [unsigned int].  The events of the head of
    [arrivals] arrive once the counter has been incremented. *)
Fixpoint RegBufferLoop (fuel : nat) (gpas : list iovec) (i : Z) (arrivals : list (list RxEvent))
    (w : Bm) : option (Status * Bm) :=
  if i <? Zlen gpas then
    match fuel with
    | O => None
    | S fuel' =>
        let b := bm_set_reg (outstanding_registrations_ (bm w) + 1)
                   (last_reg_buffer_ack_ (bm w)) (bm w) in
        let '(status, h) := SendControlMessage (reg_message gpas i) (bm_channel w) in
        match status with
        | Err e => Some (Err e, mkBm b h)
        | Ok _ =>
            b ← bm_deliver_all (hd [] arrivals) b;
            RegBufferLoop fuel' gpas (u32 (i + kMaxGpaPerMessage)) (tl arrivals) (mkBm b h)
        end
    end
  else Some (OkStatus, w).

Definition reg_done (b : BufferManager) : bool :=
  bm_failed_ b || (outstanding_registrations_ b =? 0).

(** What [RegBufferWithDxsServer] returns after the wait. *)
Definition reg_result (b : BufferManager) : StatusOr Z :=
  if negb (reg_done b) then Err kDeadlineExceeded
  else if bm_failed_ b then Err kInternal
  else if negb (RegBufferAckMessage_status (last_reg_buffer_ack_ b)
                =? RegBufferAckStatus_code RegBufferAck_kOk)
  then Err kInternal
  else Ok (RegBufferAckMessage_reg_handle (last_reg_buffer_ack_ b)).

Definition RegBuffer (arrivals : list (list RxEvent)) (wait : list RxEvent) (gpas : list iovec)
    (w : Bm) : option (StatusOr Z * Bm) :=
  if negb (outstanding_registrations_ (bm w) =? 0) then Some (Err kFailedPrecondition, w)
  else
    r ← RegBufferLoop (length gpas) gpas 0 arrivals w;
    let '(status, w) := r in
    match status with
    | Err e => Some (Err e, w)
    | Ok _ =>
        b ← bm_deliver_all wait (bm w);
        Some (reg_result b, mkBm b (bm_channel w))
    end.

Definition dereg_result (b : BufferManager) : Status :=
  if negb (bm_failed_ b || negb (awaiting_unreg_buffer_ b)) then Err kDeadlineExceeded
  else if bm_failed_ b then Err kInternal
  else if negb (DeregBufferAckMessage_status (last_dereg_buffer_ack_ b)
                =? DeregBufferAckStatus_code DeregBufferAck_kOk)
  then Err kInternal
  else OkStatus.

Definition DeregBuffer (wait : list RxEvent) (reg_handle : Z) (w : Bm) : option (Status * Bm) :=
  if awaiting_unreg_buffer_ (bm w) then Some (Err kFailedPrecondition, w)
  else
    let b := bm_set_dereg true (last_dereg_buffer_ack_ (bm w)) (bm w) in
    let '(status, h) :=
      SendTyped (mkDeregBufferMessage (ControlCommand_code kDeregBuffer) reg_handle false)
        (bm_channel w) in
    match status with
    | Err e => Some (Err e, mkBm b h)
    | Ok _ =>
        b ← bm_deliver_all wait b;
        Some (dereg_result b, mkBm b h)
    end.

End buffer_manager.

Arguments BufferManager Stats : clear implicits.
Arguments Bm Stats H : clear implicits.

(** ** What the server reads

    The server collects the addresses of the messages of a group, which ends
    with the first message whose [more] is false (dxs/client/control-command.h,
    RegBufferMessage and RegBufferAckMessage). *)

Fixpoint read_iovecs (n : nat) (bs : list Z) : list iovec :=
  match n with
  | O => []
  | S n' => mkIovec (le_decode (take 8 bs)) (le_decode (take 8 (drop 8 bs)))
            :: read_iovecs n' (drop 16 bs)
  end.

Definition read_RegBuffer (packet : list Z) : option (bool * list iovec) :=
  match ValidateAndGetMessageWithTail (M := RegBufferMessage) packet with
  | None => None
  | Some (message, tail) =>
      let n := RegBufferMessage_num_gpas message in
      if Zlen tail =? n * sizeof_iovec
      then Some (RegBufferMessage_more message, read_iovecs (Z.to_nat n) tail)
      else None
  end.

(** The completed groups and the addresses of the open one. *)
Fixpoint server_groups (msgs : list (list Z)) (group : list iovec)
    : option (list (list iovec) * list iovec) :=
  match msgs with
  | [] => Some ([], group)
  | packet :: rest =>
      '(more, gpas) ← read_RegBuffer packet;
      if (more : bool) then server_groups rest (group ++ gpas)
      else '(groups, last) ← server_groups rest []; Some ((group ++ gpas) :: groups, last)
  end.

Definition iovec_ok (v : iovec) : Prop := is_u64 (iov_base v) /\ is_u64 (iov_len v).

Lemma kMaxGpaPerMessage_eq : kMaxGpaPerMessage = 86.
Proof. reflexivity. Qed.

Lemma Zlen_iovec_bytes l : Zlen (concat (iovec_bytes <$> l)) = 16 * Zlen l.
Proof.
  induction l as [|v l IH]; [done|]. cbn [fmap list_fmap concat].
  rewrite Zlen_app, IH, Zlen_cons. unfold iovec_bytes.
  rewrite Zlen_app, !Zlen_le_encode. lia.
Qed.

Lemma read_iovecs_bytes l : Forall iovec_ok l ->
  read_iovecs (length l) (concat (iovec_bytes <$> l)) = l.
Proof.
  induction 1 as [|[base len] l [Hb Hl] _ IH]; [done|]. cbn [fmap list_fmap concat length].
  unfold iovec_bytes at 1; cbn [iov_base iov_len].
  set (a := le_encode 8 base). set (b := le_encode 8 len).
  assert (La : length a = 8%nat) by apply le_encode_length.
  assert (Lb : length b = 8%nat) by apply le_encode_length.
  cbn [read_iovecs].
  rewrite <- app_assoc, (take_app_length' a), (drop_app_length' a), (take_app_length' b) by lia.
  assert (E : drop 16 (a ++ b ++ concat (iovec_bytes <$> l)) = concat (iovec_bytes <$> l)).
  { rewrite app_assoc. apply drop_app_length'. rewrite length_app. lia. }
  rewrite E, IH. subst a b. rewrite !le_decode_encode. cbn in Hb, Hl. unfold is_u64 in *.
  rewrite !Z.mod_small by (cbn in *; lia). done.
Qed.

(** The messages of the loop from [i] on. *)
Fixpoint reg_messages (fuel : nat) (gpas : list iovec) (i : Z) : list (list Z) :=
  match fuel with
  | O => []
  | S fuel' =>
      if i <? Zlen gpas
      then reg_message gpas i :: reg_messages fuel' gpas (i + kMaxGpaPerMessage)
      else []
  end.

Section messages.
Context (gpas : list iovec) (gpas_ok : Forall iovec_ok gpas).

Lemma reg_message_read i : 0 <= i < Zlen gpas ->
  read_RegBuffer (reg_message gpas i)
  = Some (i + 86 <? Zlen gpas, takeZ 86 (dropZ i gpas))
  /\ Zlen (reg_message gpas i) <= kAvailableBufferSize.
Proof using gpas_ok.
  intros Hi. unfold reg_message, read_RegBuffer, ValidateAndGetMessageWithTail.
  rewrite kMaxGpaPerMessage_eq. set (n := u8 _).
  assert (Hn : n = Z.min 86 (Zlen gpas - i)) by (unfold n, u8; rewrite Z.mod_small; lia).
  set (msg := mkRegBufferMessage _ _ _ _).
  assert (Hm : msg_ok msg) by (unfold msg; repeat split; cbn; lia).
  pose proof (encode_length msg Hm) as Hlen. change (sizeof RegBufferMessage) with 4 in *.
  assert (Hd : Zlen (dropZ i gpas) = Zlen gpas - i) by (apply Zlen_dropZ; lia).
  assert (Ht : Zlen (takeZ n (dropZ i gpas)) = n) by (apply Zlen_takeZ; lia).
  rewrite Zlen_app, Zlen_iovec_bytes, Ht, Hlen, (proj2 (Z.ltb_ge _ _)) by lia.
  rewrite takeZ_app_exact, dropZ_app_exact by lia.
  unfold encode. rewrite decode_encode_fields, of_to by done.
  split; [|change kAvailableBufferSize with 1384; lia].
  cbn [RegBufferMessage_num_gpas RegBufferMessage_more msg].
  rewrite Zlen_iovec_bytes, Ht, (proj2 (Z.eqb_eq _ _)) by (unfold sizeof_iovec; lia).
  do 2 f_equal. replace (Z.to_nat n) with (length (takeZ n (dropZ i gpas)))
    by (unfold Zlen in Ht; lia).
  rewrite read_iovecs_bytes by (by apply Forall_take, Forall_drop).
  unfold takeZ. destruct (decide (Zlen gpas - i < 86)).
  - rewrite !take_ge; [done| |]; unfold Zlen in *; lia.
  - f_equal. lia.
Qed.

Lemma reg_messages_read fuel : forall i group, 0 <= i < Zlen gpas ->
  Zlen gpas - i <= Z.of_nat fuel ->
  server_groups (reg_messages fuel gpas i) group = Some ([group ++ dropZ i gpas], []).
Proof using gpas_ok.
  induction fuel as [|fuel IH]; intros i group Hi Hf; [lia|].
  cbn [reg_messages]. rewrite (proj2 (Z.ltb_lt _ _)) by lia. cbn [server_groups].
  rewrite (proj1 (reg_message_read i Hi)), kMaxGpaPerMessage_eq. cbn [mbind option_bind].
  destruct (Z.ltb_spec (i + 86) (Zlen gpas)).
  - rewrite IH by lia. do 3 f_equal. rewrite <- app_assoc. f_equal.
    rewrite <- (take_dropZ 86 (dropZ i gpas)) at 2. f_equal.
    unfold dropZ. rewrite drop_drop. f_equal. lia.
  - assert (E : reg_messages fuel gpas (i + 86) = []).
    { destruct fuel; cbn; [done|]. by rewrite (proj2 (Z.ltb_ge _ _)) by lia. }
    rewrite E. cbn. do 3 f_equal. unfold takeZ. rewrite take_ge; [done|].
    unfold dropZ, Zlen in *. rewrite length_drop. lia.
Qed.

Lemma reg_messages_fit fuel : forall i, 0 <= i ->
  Forall (fun m => Zlen m <= kAvailableBufferSize) (reg_messages fuel gpas i).
Proof using gpas_ok.
  induction fuel as [|fuel IH]; intros i Hi; cbn [reg_messages]; [constructor|].
  case_match; zbool; constructor; [by apply reg_message_read|].
  apply IH. rewrite kMaxGpaPerMessage_eq. lia.
Qed.

End messages.

(** ** What a registration does *)

(** Every event but a statistics update. *)
Definition harmless (e : RxEvent) : Prop :=
  match e with
  | RxMessage buffer => ControlCommand_of (nthZ buffer 0) <> kPeriodicStatsUpdate
  | RxFailure => True
  end.

Definition ack_event (ack : RegBufferAckMessage) : RxEvent := RxMessage (encode ack).

Definition ack_ok (ack : RegBufferAckMessage) : Prop :=
  msg_ok ack /\ RegBufferAckMessage_command ack = ControlCommand_code kRegBufferAck.

(** The server acknowledges no message before it has been sent; [k] messages
    are unacknowledged at the start. *)
Fixpoint in_time {A} (k : Z) (acks : list (list A)) : Prop :=
  match acks with
  | [] => True
  | now :: later => Zlen now <= k + 1 /\ in_time (k + 1 - Zlen now) later
  end.

#[local] Existing Instance LogChannel.

Section registration.
Context {Stats : Type} (ParseStats : list Z -> option Stats).
#[local] Abbreviation deliver_all := (bm_deliver_all ParseStats).

Lemma deliver_harmless evs : forall b, Forall harmless evs -> is_Some (deliver_all evs b).
Proof.
  induction evs as [|e evs IH]; intros b Hh; [by eexists|].
  inversion_clear Hh as [|? ? He Hr]. cbn [bm_deliver_all].
  assert (exists b', bm_deliver ParseStats e b = Some b') as [b' ->]; [|by apply IH].
  destruct e; cbn; [|by eexists]. unfold ReceiveControlMessage.
  case_match; [by eexists|]. cbn in He. case_match; congruence || by eexists.
Qed.

Lemma deliver_ack ack b : ack_ok ack -> 1 <= outstanding_registrations_ b ->
  bm_deliver ParseStats (ack_event ack) b
  = Some (bm_set_reg (outstanding_registrations_ b - 1) ack b).
Proof.
  intros [Hm Hc] Hb. unfold bm_deliver, ack_event, ReceiveControlMessage.
  rewrite encode_length by done. change (sizeof RegBufferAckMessage <? 1) with false.
  assert (E : nthZ (encode ack) 0 = ControlCommand_code kRegBufferAck).
  { destruct ack; cbn in Hc; subst. done. }
  rewrite E. change (ControlCommand_of _) with kRegBufferAck. cbn iota.
  unfold HandleRegBufferAck. rewrite validate_encode by done.
  by rewrite (proj2 (Z.leb_gt _ _)) by lia.
Qed.

Lemma deliver_acks acks : forall b, Forall ack_ok acks -> Zlen acks <= outstanding_registrations_ b ->
  deliver_all (ack_event <$> acks) b
  = Some (bm_set_reg (outstanding_registrations_ b - Zlen acks)
            (List.last acks (last_reg_buffer_ack_ b)) b).
Proof.
  induction acks as [|a acks IH]; intros b Ha Hl.
  - cbn. rewrite Zlen_nil, Z.sub_0_r. by destruct b.
  - inversion_clear Ha. rewrite Zlen_cons in *. pose proof (Zlen_nonneg acks).
    cbn [fmap list_fmap bm_deliver_all]. rewrite deliver_ack by (done || lia).
    cbn [mbind option_bind]. rewrite IH by (done || cbn; lia).
    destruct b; unfold bm_set_reg; cbn. do 2 f_equal; [lia|].
    symmetry. apply (last_app_default [a] acks).
Qed.

(** Whatever harmless events arrive, the loop sends the messages of the
    buffer and ends. *)
Lemma RegBufferLoop_sends gpas (Hg : Zlen gpas + 86 <= 2 ^ 32) fuel :
  forall i arrivals b (h : list (list Z)), 0 <= i -> Zlen gpas - i <= Z.of_nat fuel ->
  Forall (Forall harmless) arrivals ->
  exists b', RegBufferLoop ParseStats fuel gpas i arrivals (mkBm b h)
             = Some (OkStatus, mkBm b' (h ++ reg_messages fuel gpas i)).
Proof using.
  induction fuel as [|fuel IH]; intros i arrivals b h Hi Hf Ha; cbn [RegBufferLoop reg_messages].
  - rewrite (proj2 (Z.ltb_ge _ _)) by lia. exists b. by rewrite app_nil_r.
  - destruct (Z.ltb_spec i (Zlen gpas)); [|exists b; by rewrite app_nil_r].
    cbn [SendControlMessage LogChannel bm bm_channel].
    assert (Forall harmless (hd [] arrivals) /\ Forall (Forall harmless) (tl arrivals)) as [Hh Ht].
    { destruct Ha; cbn; repeat constructor; done. }
    destruct (deliver_harmless _ (bm_set_reg (outstanding_registrations_ b + 1)
                (last_reg_buffer_ack_ b) b) Hh) as [b1 ->]. cbn [mbind option_bind].
    rewrite kMaxGpaPerMessage_eq. unfold u32. rewrite Z.mod_small by lia.
    destruct (IH (i + 86) (tl arrivals) b1 (h ++ [reg_message gpas i])) as [b' ->];
      [lia|lia|done|]. exists b'. by rewrite <- app_assoc.
Qed.

Lemma RegBufferLoop_acks gpas (Hg : Zlen gpas + 86 <= 2 ^ 32) fuel :
  forall i acks b (h : list (list Z)), 0 <= i -> Zlen gpas - i <= Z.of_nat fuel ->
  Forall (Forall ack_ok) acks -> length acks = length (reg_messages fuel gpas i) ->
  in_time (outstanding_registrations_ b) acks ->
  RegBufferLoop ParseStats fuel gpas i (map (fmap ack_event) acks) (mkBm b h)
  = Some (OkStatus,
          mkBm (bm_set_reg (outstanding_registrations_ b + Zlen acks - Zlen (concat acks))
                  (List.last (concat acks) (last_reg_buffer_ack_ b)) b)
               (h ++ reg_messages fuel gpas i)).
Proof using.
  induction fuel as [|fuel IH]; intros i acks b h Hi Hf Ha Hl Ht; cbn [RegBufferLoop reg_messages] in *.
  - rewrite (proj2 (Z.ltb_ge _ _)) by lia. destruct acks; [|done].
    rewrite app_nil_r. cbn. rewrite Zlen_nil, Z.add_0_r, Z.sub_0_r. by destruct b.
  - destruct (Z.ltb_spec i (Zlen gpas)).
    2:{ destruct acks; [|done]. rewrite app_nil_r. cbn.
        rewrite Zlen_nil, Z.add_0_r, Z.sub_0_r. by destruct b. }
    destruct acks as [|now later]; [done|]. cbn [length] in Hl. injection Hl as Hl.
    inversion_clear Ha as [|? ? Hn Hr]. destruct Ht as [Hnow Hlater].
    cbn [SendControlMessage LogChannel bm bm_channel map hd tl].
    rewrite deliver_acks by (done || cbn; lia). cbn [mbind option_bind].
    rewrite kMaxGpaPerMessage_eq in *. unfold u32. rewrite Z.mod_small by lia.
    rewrite IH; [|lia|lia|done|done|by cbn]. rewrite <- app_assoc.
    cbn [concat]. rewrite Zlen_app, Zlen_cons, last_app_default.
    destruct b; unfold bm_set_reg; cbn.
    match goal with
    | |- context [mkBufferManager _ _ _ _ ?x] =>
        replace x with (outstanding_registrations_0 + (Zlen later + 1)
                        - (Zlen now + Zlen (concat later))) by lia
    end. done.
Qed.

(** C10 (registration, messages).  For every non-empty list of fewer than
    2^32 - 86 addresses [RegBuffer] terminates whatever arrives meanwhile, and
    what it sends are messages that fit the MTU and from which the server
    reads exactly one group: the addresses, in order. *)
Theorem RegBuffer_sends_buffer arrivals wait gpas b (h : list (list Z)) :
  gpas <> [] -> Zlen gpas + 86 <= 2 ^ 32 -> Forall iovec_ok gpas ->
  outstanding_registrations_ b = 0 ->
  Forall (Forall harmless) arrivals -> Forall harmless wait ->
  exists r b' msgs,
    RegBuffer ParseStats arrivals wait gpas (mkBm b h) = Some (r, mkBm b' (h ++ msgs))
    /\ server_groups msgs [] = Some ([gpas], [])
    /\ Forall (fun m => Zlen m <= kAvailableBufferSize) msgs.
Proof.
  intros Hne Hl Hg Ho Ha Hw. unfold RegBuffer. cbn [bm]. rewrite Ho. cbn [Z.eqb negb].
  assert (0 < Zlen gpas) by (destruct gpas; [done|]; rewrite Zlen_cons; pose proof (Zlen_nonneg gpas); lia).
  destruct (RegBufferLoop_sends gpas Hl (length gpas) 0 arrivals b h) as [b1 ->];
    [lia|unfold Zlen; lia|done|]. cbn [mbind option_bind OkStatus bm bm_channel].
  destruct (deliver_harmless wait b1 Hw) as [b2 ->]. cbn [mbind option_bind].
  do 3 eexists. split; [reflexivity|]. split.
  - rewrite reg_messages_read; [done|done|lia|unfold Zlen; lia].
  - apply reg_messages_fit; [done|lia].
Qed.

(** C11 (registration, result).  When the server acknowledges each message
    once, not before it was sent, the call returns the handle of the last
    acknowledgement if that one reports success and an error otherwise, in
    every interleaving of sends and acknowledgements, and leaves no
    registration outstanding. *)
Theorem RegBuffer_result acks rest gpas b (h : list (list Z)) :
  gpas <> [] -> Zlen gpas + 86 <= 2 ^ 32 ->
  outstanding_registrations_ b = 0 -> bm_failed_ b = false ->
  Forall (Forall ack_ok) acks -> Forall ack_ok rest ->
  length acks = length (reg_messages (length gpas) gpas 0) -> in_time 0 acks ->
  Zlen (concat acks ++ rest) = Zlen acks ->
  exists b',
    let ack := List.last (concat acks ++ rest) (last_reg_buffer_ack_ b) in
    RegBuffer ParseStats (map (fmap ack_event) acks) (ack_event <$> rest) gpas (mkBm b h)
    = Some (if RegBufferAckMessage_status ack =? 0 then Ok (RegBufferAckMessage_reg_handle ack)
            else Err kInternal,
            mkBm b' (h ++ reg_messages (length gpas) gpas 0))
    /\ outstanding_registrations_ b' = 0.
Proof.
  intros Hne Hl Ho Hf Ha Hr Hn Ht Hc. unfold RegBuffer. cbn [bm]. rewrite Ho. cbn [Z.eqb negb].
  rewrite RegBufferLoop_acks; [|done|lia|unfold Zlen; lia|done|done|by rewrite Ho].
  cbn [mbind option_bind OkStatus bm bm_channel]. rewrite Zlen_app in Hc.
  rewrite deliver_acks by (done || cbn; lia). cbn [mbind option_bind].
  destruct b; cbn in Ho, Hf; subst. eexists. split.
  - unfold reg_result, reg_done. cbn.
    rewrite (proj2 (Z.eqb_eq _ _)) by lia. cbn. rewrite last_app_default.
    destruct (RegBufferAckMessage_status _ =? 0); reflexivity.
  - cbn. lia.
Qed.

(** When the channel refuses the first message of a
    registration, the call reports the channel's error and every later
    registration is refused without sending anything; likewise when it refuses
    a deregistration, although nothing was requested from the server. *)
Theorem failed_send_is_sticky {H} `{ControlMessageHandlerInterface H} e gpas reg b (h : H) :
  gpas <> [] -> outstanding_registrations_ b = 0 -> awaiting_unreg_buffer_ b = false ->
  (forall m h, fst (SendControlMessage m h) = Err e) ->
  (exists w', forall arrivals wait,
     RegBuffer ParseStats arrivals wait gpas (mkBm b h) = Some (Err e, w')
     /\ forall arrivals' wait' gpas',
          RegBuffer ParseStats arrivals' wait' gpas' w' = Some (Err kFailedPrecondition, w'))
  /\ (exists w', forall wait,
     DeregBuffer ParseStats wait reg (mkBm b h) = Some (Err e, w')
     /\ forall wait' reg',
          DeregBuffer ParseStats wait' reg' w' = Some (Err kFailedPrecondition, w')).
Proof.
  intros Hne Ho Ha Hs. split.
  - unfold RegBuffer. cbn [bm]. rewrite Ho. destruct gpas as [|g gpas]; [done|].
    cbn [Z.eqb negb length RegBufferLoop]. rewrite (proj2 (Z.ltb_lt _ _))
      by (rewrite Zlen_cons; pose proof (Zlen_nonneg gpas); lia).
    cbn [bm bm_channel]. specialize (Hs (reg_message (g :: gpas) 0) h).
    destruct (SendControlMessage _ _) as [st h']. cbn in Hs. subst st.
    eexists. intros arrivals wait. split; [reflexivity|]. intros. cbn. by rewrite Ho.
  - unfold DeregBuffer, SendTyped. cbn [bm bm_channel]. rewrite Ha.
    match goal with |- context [SendControlMessage ?m h] => specialize (Hs m h) end.
    destruct (SendControlMessage _ _) as [st h']. cbn in Hs. subst st.
    eexists. intros wait. split; [reflexivity|]. by intros.
Qed.

End registration.

(** *** Witnesses: 90 addresses, i.e. two messages *)

Definition ex_gpas : list iovec := map (fun i => mkIovec (4096 * Z.of_nat i) 4096) (seq 0 90).

Definition ex_ack (handle : Z) : RegBufferAckMessage :=
  mkRegBufferAckMessage (ControlCommand_code kRegBufferAck) handle 86 0.

Definition ex_bm : BufferManager unit :=
  new_BufferManager (ex_ack 0) (mkDeregBufferAckMessage 0 0).

Lemma ex_gpas_ok : Forall iovec_ok ex_gpas.
Proof.
  apply List.Forall_forall. intros v (i & <- & Hi%in_seq)%in_map_iff. split; unfold is_u64; cbn [iov_base iov_len]; lia.
Qed.

Lemma ex_ack_ok handle : 0 <= handle < 100 -> ack_ok (ex_ack handle).
Proof. split; [repeat split; cbn; lia|done]. Qed.

Lemma RegBuffer_sends_buffer_witness : exists r b' msgs,
  RegBuffer (fun _ => None) [[ack_event (ex_ack 0)]; [RxFailure]] [] ex_gpas
    (mkBm ex_bm ([] : list (list Z))) = Some (r, mkBm b' msgs)
  /\ server_groups msgs [] = Some ([ex_gpas], []).
Proof.
  destruct (RegBuffer_sends_buffer (fun _ => None) [[ack_event (ex_ack 0)]; [RxFailure]] []
              ex_gpas ex_bm []) as (r & b' & msgs & E & G & _);
    [done|by vm_compute|apply ex_gpas_ok|done| | |].
  - repeat constructor. by vm_compute.
  - constructor.
  - exists r, b', msgs. by split.
Defined.

Lemma RegBuffer_result_witness : exists b',
  RegBuffer (fun _ => None) [[]; [ack_event (ex_ack 0)]] [ack_event (ex_ack 7)] ex_gpas
    (mkBm ex_bm ([] : list (list Z)))
  = Some (Ok 7, mkBm b' (reg_messages 90 ex_gpas 0)).
Proof.
  destruct (RegBuffer_result (fun _ => None) [[]; [ex_ack 0]] [ex_ack 7] ex_gpas ex_bm [])
    as (b' & E & _); try done.
  - repeat constructor; cbn; lia.
  - repeat constructor; cbn; lia.
  - by exists b'.
Defined.

(** A channel that refuses every message. *)
Definition ClosedChannel : ControlMessageHandlerInterface unit := {|
  SendControlMessage _ h := (Err kUnavailable, h);
  RxPoll h := (h, [])
|}.

Lemma failed_send_is_sticky_witness : exists w', forall wait,
  DeregBuffer (H0 := ClosedChannel) (fun _ => None) wait 3 (mkBm ex_bm tt)
  = Some (Err kUnavailable, w')
  /\ forall wait' reg', DeregBuffer (H0 := ClosedChannel) (fun _ => None) wait' reg' w'
                        = Some (Err kFailedPrecondition, w').
Proof.
  exact (proj2 (failed_send_is_sticky (H0 := ClosedChannel) (fun _ => None) kUnavailable ex_gpas 3
                  ex_bm tt ltac:(done) eq_refl eq_refl (fun _ _ => eq_refl))).
Defined.
