(* ===== verification/Coalesce.v ===== *)
(** * Coalescing of address ranges (dxs/client/coalesce-iovecs.cc)

    [CoalesceIovecs] merges neighbouring ranges of a vector in place, with a
    write index that trails the read index.  The in-place loop is related to
    a recursion over the list, and the result to the addresses it covers. *)

From S2P Require Import Prelude Packed ControlCommand ControlInterface DxsClient BufferManager.

Definition WouldAddOverflow (len1 len2 : Z) : bool :=
  let result := u32 (u32 len1 + u32 len2) in result <? u32 len1.

(** The condition of the loop; pointer arithmetic is on 64 bits. *)
Definition mergeable (m x : iovec) : bool :=
  (u64 (iov_base m + iov_len m) =? iov_base x) && negb (WouldAddOverflow (iov_len m) (iov_len x)).

Definition merge_into (m x : iovec) : iovec := mkIovec (iov_base m) (u64 (iov_len m + iov_len x)).

(** The loop with [n] elements left to read; [merge] and [it] are the two
    iterators. *)
Fixpoint CoalesceLoop (n merge it : nat) (iovecs : list iovec) : list iovec * nat :=
  match n with
  | O => (iovecs, merge)
  | S n' =>
      match iovecs !! merge, iovecs !! it with
      | Some m, Some x =>
          if mergeable m x
          then CoalesceLoop n' merge (S it) (<[merge := merge_into m x]> iovecs)
          else CoalesceLoop n' (S merge) (S it) (<[S merge := x]> iovecs)
      | _, _ => (iovecs, merge)
      end
  end.

(** [None]: for an empty vector the loop starts beyond the end. *)
Definition CoalesceIovecs (iovecs : list iovec) : option (list iovec) :=
  match iovecs with
  | [] => None
  | _ =>
      let '(iovecs, merge) := CoalesceLoop (length iovecs - 1) 0 1 iovecs in
      Some (take (S merge) iovecs)
  end.

(** ** The recursion the loop performs *)

Fixpoint coalesce (m : iovec) (l : list iovec) : list iovec :=
  match l with
  | [] => [m]
  | x :: l' => if mergeable m x then coalesce (merge_into m x) l' else m :: coalesce x l'
  end.

Lemma CoalesceLoop_spec n : forall merge it v m,
  v !! merge = Some m -> (merge < it)%nat -> (it + n = length v)%nat ->
  let '(v', merge') := CoalesceLoop n merge it v in
  take (S merge') v' = take merge v ++ coalesce m (drop it v).
Proof.
  induction n as [|n IH]; intros merge it v m Hm Hlt Hlen; cbn [CoalesceLoop].
  - rewrite drop_ge by lia. by apply take_S_r.
  - destruct (lookup_lt_is_Some_2 v it) as [x Hx]; [lia|].
    rewrite Hm, Hx, (drop_S _ _ _ Hx). cbn [coalesce].
    assert (merge < length v)%nat by lia. destruct (mergeable m x).
    + specialize (IH merge (S it) (<[merge := merge_into m x]> v) (merge_into m x)).
      destruct (CoalesceLoop _ _ _ _) as [v' merge'].
      rewrite IH; [|by rewrite list_lookup_insert_eq by lia|lia|rewrite length_insert; lia].
      rewrite take_insert_ge, drop_insert_lt by lia. done.
    + specialize (IH (S merge) (S it) (<[S merge := x]> v) x).
      destruct (CoalesceLoop _ _ _ _) as [v' merge'].
      rewrite IH; [|by rewrite list_lookup_insert_eq by lia|lia|rewrite length_insert; lia].
      rewrite take_insert_ge, drop_insert_lt by lia. by rewrite (take_S_r _ _ _ Hm), <- app_assoc.
Qed.

Lemma CoalesceIovecs_spec m l : CoalesceIovecs (m :: l) = Some (coalesce m l).
Proof.
  unfold CoalesceIovecs.
  pose proof (CoalesceLoop_spec (length (m :: l) - 1) 0 1 (m :: l) m) as E.
  destruct (CoalesceLoop _ _ _ _) as [v' merge']. rewrite E; [|done|lia|cbn; lia].
  by rewrite take_0.
Qed.

(** ** What the result covers *)

(** The addresses of a range, and a range that does not wrap around. *)
Definition addresses (v : iovec) : list Z := seqZ (iov_base v) (iov_len v).

Definition range_ok (v : iovec) : Prop :=
  0 <= iov_base v /\ 0 <= iov_len v /\ iov_base v + iov_len v < 2 ^ 64.

(** No element can be merged with its predecessor. *)
Fixpoint coalesced (l : list iovec) : Prop :=
  match l with
  | m :: (x :: _) as l' => mergeable m x = false /\ coalesced l'
  | _ => True
  end.

Lemma mergeable_inv m x : range_ok m -> range_ok x -> mergeable m x = true ->
  range_ok (merge_into m x) /\ addresses (merge_into m x) = addresses m ++ addresses x
  /\ (iov_len m < 2 ^ 32 -> iov_len x < 2 ^ 32 -> iov_len (merge_into m x) < 2 ^ 32).
Proof.
  intros (? & ? & ?) (? & ? & ?) [Hb Ho]%andb_prop. zbool.
  unfold merge_into, addresses, range_ok, WouldAddOverflow in *; cbn [iov_base iov_len].
  unfold u64 in *. rewrite Z.mod_small in Hb by lia.
  rewrite (Z.mod_small (iov_len m + iov_len x)) by lia. split_and!; try lia.
  - by rewrite seqZ_app, Hb by lia.
  - intros. unfold u32 in Ho. dmlia.
Qed.

(** A range of less than 4 GiB, as the 32-bit overflow check expects. *)
Definition small (v : iovec) : Prop := range_ok v /\ iov_len v < 2 ^ 32.

Lemma coalesce_addresses l : forall m, range_ok m -> Forall range_ok l ->
  concat (addresses <$> coalesce m l) = addresses m ++ concat (addresses <$> l).
Proof.
  induction l as [|x l IH]; intros m Hm Hl; cbn [coalesce]; [done|].
  inversion_clear Hl. destruct (mergeable m x) eqn:E.
  - destruct (mergeable_inv m x) as (Hr & Ha & _); [done..|].
    rewrite IH, Ha by done. cbn. by rewrite <- app_assoc.
  - cbn. by rewrite IH.
Qed.

Lemma coalesce_length l : forall m, (length (coalesce m l) <= S (length l))%nat.
Proof.
  induction l as [|x l IH]; intros m; cbn; [done|].
  case_match; [specialize (IH (merge_into m x))|specialize (IH x); cbn]; lia.
Qed.

Lemma mergeable_small m x : small m -> small x -> mergeable m x = true ->
  small (merge_into m x) /\ iov_len m <= iov_len (merge_into m x).
Proof.
  intros [Hm Sm] [Hx Sx] E. destruct (mergeable_inv m x Hm Hx E) as (Hr & _ & Hs).
  pose proof (Hs Sm Sx). unfold small, range_ok, merge_into, u64 in *; cbn in *. dmlia.
Qed.

(** The first range only grows while it absorbs its successors. *)
Lemma coalesce_head l : forall m, small m -> Forall small l ->
  exists m' rest, coalesce m l = m' :: rest /\ iov_base m' = iov_base m
                  /\ iov_len m <= iov_len m' < 2 ^ 32 /\ 0 <= iov_len m.
Proof.
  induction l as [|x l IH]; intros m Hm Hl; cbn [coalesce].
  - destruct Hm as [(? & ? & ?) ?]. by exists m, [].
  - inversion_clear Hl. destruct (mergeable m x) eqn:E.
    + destruct (mergeable_small m x) as [Hs Hle]; [done..|].
      destruct (IH _ Hs) as (m' & rest & -> & Hb & Hlen & _); [done|].
      exists m', rest. destruct Hm as [(? & ? & ?) ?]. split_and!; try done; lia.
    + destruct Hm as [(? & ? & ?) ?]. by exists m, (coalesce x l).
Qed.

Lemma coalesce_maximal l : forall m, small m -> Forall small l ->
  coalesced (coalesce m l) /\ Forall small (coalesce m l).
Proof.
  induction l as [|x l IH]; intros m Hm Hl; cbn [coalesce].
  - split; [done|constructor; [done|constructor]].
  - inversion_clear Hl as [|? ? Hx Hr]. destruct (mergeable m x) eqn:E.
    + apply IH; [by apply mergeable_small|done].
    + destruct (IH x Hx Hr) as [Hc Hs]. split; [|by constructor].
      destruct (coalesce_head l x Hx Hr) as (x' & rest & Ex & Hb & Hlen).
      rewrite Ex in *. split; [|done].
      unfold mergeable, WouldAddOverflow, u32 in *. rewrite Hb.
      destruct Hm as [(? & ? & ?) ?]. apply andb_false_iff in E as [->|E]; [done|].
      apply andb_false_iff. right. apply negb_false_iff, Z.ltb_lt.
      apply negb_false_iff, Z.ltb_lt in E. dmlia.
Qed.

(** For every non-empty vector of ranges the result covers
    the same addresses in the same order and is not longer; if the ranges are
    shorter than 4 GiB, so are those of the result, and no two neighbours of
    the result can be merged further. *)
Theorem CoalesceIovecs_correct iovecs :
  iovecs <> [] -> Forall range_ok iovecs ->
  exists out, CoalesceIovecs iovecs = Some out
    /\ concat (addresses <$> out) = concat (addresses <$> iovecs)
    /\ (length out <= length iovecs)%nat
    /\ (Forall (fun v => iov_len v < 2 ^ 32) iovecs ->
        Forall (fun v => iov_len v < 2 ^ 32) out /\ coalesced out).
Proof.
  intros Hne Hr. destruct iovecs as [|m l]; [done|]. exists (coalesce m l).
  inversion_clear Hr. split_and!.
  - apply CoalesceIovecs_spec.
  - by apply coalesce_addresses.
  - apply coalesce_length.
  - intros Hs. inversion_clear Hs.
    destruct (coalesce_maximal l m) as [Hc Hsm]; [by split|by apply list.Forall_and|].
    split; [|done]. eapply list.Forall_impl; [exact Hsm|]. by intros ? [].
Qed.

Lemma CoalesceIovecs_correct_witness : exists out,
  CoalesceIovecs [mkIovec 4096 4096; mkIovec 8192 4096; mkIovec 65536 16] = Some out
  /\ concat (addresses <$> out)
     = concat (addresses <$> [mkIovec 4096 4096; mkIovec 8192 4096; mkIovec 65536 16]).
Proof.
  destruct (CoalesceIovecs_correct [mkIovec 4096 4096; mkIovec 8192 4096; mkIovec 65536 16])
    as (out & E & A & _); [done| |by exists out].
  repeat constructor; cbn; lia.
Defined.
