(* ===== verification/MrCache.v ===== *)
(** * The cache of memory registrations of a network device
    (tcpdirect_plugin/fastrak_offload/nccl_shim.cc, common.h)

    [RegMrDmaBuf] keeps the regions registered through one device in an array
    sorted by start address, with reference counts; [DeregMr] releases them.
    The buffer manager is used through [BufferManagerClientInterface].  A call
    holds [reg_mutex] throughout, so calls are atomic. *)

From stdpp Require Import sorting.
From S2P Require Import Prelude Packed ControlCommand ControlInterface DxsClient BufferManager.

Definition kInvalidRegistration : Z := 0.

(** What the cache relies on: registrations get fresh valid handles, and
    failed requests change nothing. *)
Class BufferManagerClientInterface (BM : Type) := {
  RegBuf : Z -> Z -> BM -> StatusOr Z * BM;
  DeregBuf : Z -> BM -> Status * BM;
  registered : BM -> gset Z;
  RegBuf_ok fd len b h b' : RegBuf fd len b = (Ok h, b') ->
    (h ∉ registered b) /\ h <> kInvalidRegistration /\ registered b' = {[h]} ∪ registered b;
  RegBuf_err fd len b e b' : RegBuf fd len b = (Err e, b') -> registered b' = registered b;
  DeregBuf_ok h b b' : DeregBuf h b = (OkStatus, b') -> registered b' = registered b ∖ {[h]};
  DeregBuf_err h b e b' : DeregBuf h b = (Err e, b') -> registered b' = registered b
}.

Record MemoryHandle := mkMemoryHandle {
  reg_handle : Z;
  mem_type : Z;
  start_addr : Z;
  mh_size : Z;
  dmabuf_fd : Z
}.

Record ncclMr := mkNcclMr { mr_handle : MemoryHandle; mr_pages : Z; mr_refs : Z }.

(** [slots] is [None] for the null pointer and otherwise the [population]
    elements in use. *)
Record ncclMrCache := mkNcclMrCache {
  slots : option (list ncclMr);
  capacity : Z;
  population : Z
}.

Definition empty_cache : ncclMrCache := mkNcclMrCache None 0 0.

Section mr_cache.
Context {BM : Type} `{BufferManagerClientInterface BM}.
(** Constants of the NCCL headers and [sysconf(_SC_PAGESIZE)]. *)
Context (NCCL_PTR_CUDA pageSize : Z).
(** The parameter [FASTRAK_CACHE_MR]. *)
Context (kFastrakCacheMr : bool).

(** One device: its cache, its buffer manager and the open descriptors of
    the process. *)
Record MrDev := mkMrDev { mr_cache : ncclMrCache; buffer_manager : BM; open_fds : gset Z }.

Definition is_cuda (type : Z) : bool := negb (Z.land type NCCL_PTR_CUDA =? 0).

Definition page_addr (base : Z) : Z := Z.land base (u64 (- pageSize)).

Definition page_count (base len : Z) : Z :=
  u64 (base + len - page_addr base + pageSize - 1) / pageSize.

(** [new_fd] is what [getDmabufFd] returns, if it is called. *)
Definition RegMrDmaBufInternal (new_fd : StatusOr Z) (data : iovec) (fd : option Z) (w : MrDev)
    : StatusOr MemoryHandle * MrDev :=
  let register (fd : Z) (fd_created : bool) :=
    let fds := if fd_created then {[fd]} ∪ open_fds w else open_fds w in
    let '(r, b) := RegBuf fd (iov_len data) (buffer_manager w) in
    match r with
    | Err e =>
        (Err e, mkMrDev (mr_cache w) b (if fd_created then fds ∖ {[fd]} else fds))
    | Ok handle =>
        (Ok (mkMemoryHandle handle 0 (iov_base data) (s32 (iov_len data)) fd),
         mkMrDev (mr_cache w) b fds)
    end in
  match fd with
  | Some fd => register fd false
  | None =>
      match new_fd with
      | Err e => (Err e, w)
      | Ok fd => register fd true
      end
  end.

Definition set_mem_type (type : Z) (h : MemoryHandle) : MemoryHandle :=
  mkMemoryHandle (reg_handle h) type (start_addr h) (mh_size h) (dmabuf_fd h).

Definition set_refs (refs : Z) (mr : ncclMr) : ncclMr := mkNcclMr (mr_handle mr) (mr_pages mr) refs.

(** Whether a slot contains the pages of the request. *)
Definition covers (addr pages : Z) (mr : ncclMr) : bool :=
  let slot_addr := start_addr (mr_handle mr) in
  (slot_addr <=? addr) && (u64 ((addr - slot_addr) / pageSize + pages) <=? u64 (mr_pages mr)).

Inductive SlotSearch : Set :=
  | NotFound (slot : nat)
  | Found (slot : nat).

(** The loop over the slots, from index [slot]. *)
Fixpoint find_slot (addr pages : Z) (l : list ncclMr) (slot : nat) : SlotSearch :=
  match l with
  | [] => NotFound slot
  | mr :: l' =>
      if addr <? start_addr (mr_handle mr) then NotFound slot
      else if covers addr pages mr then Found slot
      else find_slot addr pages l' (S slot)
  end.

(** The branch that adds a slot; [realloc_ok] is whether [realloc] succeeds. *)
Definition insert_slot (realloc_ok : bool) (new_fd : StatusOr Z) (addr pages type : Z)
    (fd : option Z) (slot : nat) (w : MrDev) : StatusOr MemoryHandle * MrDev :=
  let c := mr_cache w in
  let expand := population c =? capacity c in
  let cap := if expand then (if capacity c <? 32 then 32 else 2 * capacity c) else capacity c in
  if expand && negb realloc_ok then
    (Err kUnavailable,
     mkMrDev (mkNcclMrCache None cap (population c)) (buffer_manager w) (open_fds w))
  else
    let l := default [] (slots c) in
    let w := mkMrDev (mkNcclMrCache (Some l) cap (population c)) (buffer_manager w) (open_fds w) in
    let '(r, w) := RegMrDmaBufInternal new_fd (mkIovec addr (u64 (pageSize * pages))) fd w in
    match r with
    | Err e => (Err e, w)
    | Ok mhandle =>
        let mhandle := set_mem_type type mhandle in
        let mr := mkNcclMr mhandle (s32 pages) 1 in
        (Ok mhandle,
         mkMrDev (mkNcclMrCache (Some (take slot l ++ mr :: drop slot l)) cap (population c + 1))
           (buffer_manager w) (open_fds w))
    end.

(** [None]: the null pointer is dereferenced. *)
Definition RegMrDmaBuf (realloc_ok : bool) (new_fd : StatusOr Z) (data : iovec) (type : Z)
    (fd : option Z) (w : MrDev) : option (StatusOr MemoryHandle * MrDev) :=
  if negb (is_cuda type) then
    Some (Ok (mkMemoryHandle kInvalidRegistration type (iov_base data) (s32 (iov_len data)) (-1)), w)
  else
    let addr := page_addr (iov_base data) in
    let pages := page_count (iov_base data) (iov_len data) in
    if negb kFastrakCacheMr then
      let '(r, w) := RegMrDmaBufInternal new_fd (mkIovec addr (u64 (pageSize * pages))) fd w in
      Some (set_mem_type type <$> r, w)
    else
      let c := mr_cache w in
      match slots c with
      | None =>
          if population c =? 0 then Some (insert_slot realloc_ok new_fd addr pages type fd 0 w)
          else None
      | Some l =>
          match find_slot addr pages l 0 with
          | NotFound slot => Some (insert_slot realloc_ok new_fd addr pages type fd slot w)
          | Found slot =>
              mr ← l !! slot;
              Some (Ok (mr_handle mr),
                    mkMrDev (mkNcclMrCache (Some (<[slot := set_refs (mr_refs mr + 1) mr]> l))
                               (capacity c) (population c))
                      (buffer_manager w) (open_fds w))
          end
      end.

Definition DeregMrInternal (mhandle : MemoryHandle) (w : MrDev) : Status * MrDev :=
  let fds := if 0 <? dmabuf_fd mhandle then open_fds w ∖ {[dmabuf_fd mhandle]} else open_fds w in
  let '(status, b) := DeregBuf (reg_handle mhandle) (buffer_manager w) in
  (status, mkMrDev (mr_cache w) b fds).

(** The index of the first slot with the registration. *)
Fixpoint find_handle (handle : Z) (l : list ncclMr) : option (nat * ncclMr) :=
  match l with
  | [] => None
  | mr :: l' =>
      if handle =? reg_handle (mr_handle mr) then Some (O, mr)
      else prod_map S id <$> find_handle handle l'
  end.

Definition DeregMr (mhandle : MemoryHandle) (w : MrDev) : Status * MrDev :=
  if negb (is_cuda (mem_type mhandle)) then (OkStatus, w)
  else if reg_handle mhandle =? kInvalidRegistration then (OkStatus, w)
  else if negb kFastrakCacheMr then DeregMrInternal mhandle w
  else
    let c := mr_cache w in
    let l := default [] (slots c) in
    match find_handle (reg_handle mhandle) l with
    | None => (Err kInternal, w)
    | Some (i, mr) =>
        if mr_refs mr - 1 =? 0 then
          let l := take i l ++ drop (S i) l in
          let c := if population c - 1 =? 0 then empty_cache
                   else mkNcclMrCache (Some l) (capacity c) (population c - 1) in
          DeregMrInternal mhandle (mkMrDev c (buffer_manager w) (open_fds w))
        else
          (OkStatus,
           mkMrDev (mkNcclMrCache (Some (<[i := set_refs (mr_refs mr - 1) mr]> l))
                      (capacity c) (population c))
             (buffer_manager w) (open_fds w))
    end.

End mr_cache.

Arguments MrDev BM : clear implicits.

(** ** The users of a device and the invariant *)

Section mr_invariant.
Context {BM : Type} `{BufferManagerClientInterface BM}.
Context (NCCL_PTR_CUDA pageSize : Z).

#[local] Abbreviation live mh := (is_cuda NCCL_PTR_CUDA (mem_type mh) = true).

(** The handles given to NCCL and not returned yet, and the registrations
    the buffer manager refused to release. *)
Record MrSys := mkMrSys { dev : MrDev BM; held : list MemoryHandle; lost : gset Z }.

(** A buffer of the lower half of the address space with fewer than 2^31
    pages, which is what [ncclMr::pages] can represent. *)
Definition request_ok (data : iovec) : Prop :=
  0 <= iov_base data /\ 0 <= iov_len data
  /\ iov_base data + iov_len data + pageSize <= 2 ^ 63
  /\ page_count pageSize (iov_base data) (iov_len data) < 2 ^ 31.

Inductive mr_step : MrSys -> MrSys -> Prop :=
  | mr_step_reg new_fd data type fd mh w w' hs lost :
      request_ok data ->
      RegMrDmaBuf NCCL_PTR_CUDA pageSize true true new_fd data type fd w = Some (Ok mh, w') ->
      mr_step (mkMrSys w hs lost) (mkMrSys w' (mh :: hs) lost)
  | mr_step_reg_err new_fd data type fd e w w' hs lost :
      RegMrDmaBuf NCCL_PTR_CUDA pageSize true true new_fd data type fd w = Some (Err e, w') ->
      mr_step (mkMrSys w hs lost) (mkMrSys w' hs lost)
  | mr_step_dereg mh w w' hs1 hs2 lost :
      DeregMr NCCL_PTR_CUDA true mh w = (OkStatus, w') ->
      mr_step (mkMrSys w (hs1 ++ mh :: hs2) lost) (mkMrSys w' (hs1 ++ hs2) lost)
  | mr_step_dereg_err mh e w w' hs1 hs2 lost :
      DeregMr NCCL_PTR_CUDA true mh w = (Err e, w') ->
      mr_step (mkMrSys w (hs1 ++ mh :: hs2) lost)
              (mkMrSys w' (hs1 ++ hs2) ({[reg_handle mh]} ∪ lost)).

(** The number of users of a registration. *)
Definition users (h : Z) (hs : list MemoryHandle) : Z :=
  Zlen (filter (fun mh => is_cuda NCCL_PTR_CUDA (mem_type mh) = true /\ reg_handle mh = h) hs).

Definition slot_list (c : ncclMrCache) : list ncclMr := default [] (slots c).

(** The reference counts are the numbers of users, every user's handle has a
    slot, and the buffer manager knows exactly the slots and what it refused to
    release. *)
Record accounts (reg : gset Z) (hs : list MemoryHandle) (lost : gset Z) (l : list ncclMr) : Prop := {
  acc_nodup : NoDup (reg_handle ∘ mr_handle <$> l);
  acc_live : Forall (fun mr => live (mr_handle mr)
                               /\ reg_handle (mr_handle mr) <> kInvalidRegistration) l;
  acc_held : forall mh, mh ∈ hs -> live mh -> mh ∈ mr_handle <$> l;
  acc_refs : Forall (fun mr => mr_refs mr = users (reg_handle (mr_handle mr)) hs
                               /\ 1 <= mr_refs mr) l;
  acc_registered : reg = list_to_set (reg_handle ∘ mr_handle <$> l) ∪ lost;
  acc_lost : forall h, h ∈ reg_handle ∘ mr_handle <$> l -> h ∉ lost
}.

(** The slots are sorted and fit the allocation. *)
Record shape (c : ncclMrCache) (l : list ncclMr) : Prop := {
  shape_slots : slot_list c = l;
  shape_population : population c = Zlen l;
  shape_capacity : population c <= capacity c;
  shape_sorted : StronglySorted (fun a b => start_addr (mr_handle a) <= start_addr (mr_handle b)) l
}.

Definition mr_inv (s : MrSys) (l : list ncclMr) : Prop :=
  shape (mr_cache (dev s)) l
  /\ accounts (registered (buffer_manager (dev s))) (held s) (lost s) l.

Lemma users_cons h mh hs :
  users h (mh :: hs)
  = users h hs + (if decide (live mh /\ reg_handle mh = h) then 1 else 0).
Proof. unfold users. rewrite filter_cons. case_decide; [rewrite Zlen_cons|]; lia. Qed.

Lemma users_middle h mh hs1 hs2 : users h (hs1 ++ mh :: hs2) = users h (mh :: hs1 ++ hs2).
Proof.
  rewrite users_cons. unfold users. rewrite !list.filter_app, filter_cons, !Zlen_app.
  case_decide; [rewrite Zlen_cons|]; lia.
Qed.

Lemma users_pos h mh hs : mh ∈ hs -> live mh -> reg_handle mh = h -> 1 <= users h hs.
Proof.
  intros (hs1 & hs2 & ->)%list_elem_of_split Hl Hh. rewrite users_middle, users_cons, decide_True by done.
  unfold users. pose proof (Zlen_nonneg (filter (fun mh => live mh /\ reg_handle mh = h) (hs1 ++ hs2))). lia.
Qed.

Lemma users_none h hs : (forall mh, mh ∈ hs -> live mh -> reg_handle mh <> h) -> users h hs = 0.
Proof.
  induction hs as [|mh hs IH]; intros Hn; [done|]. rewrite users_cons, IH by set_solver.
  rewrite decide_False; [done|]. intros []. eapply Hn; [left|done..].
Qed.

(** *** The search loops *)

Lemma find_slot_split addr pages l : forall n,
  match find_slot pageSize addr pages l n with
  | NotFound k => exists l1 l2, l = l1 ++ l2 /\ (k = n + length l1)%nat
      /\ Forall (fun mr => start_addr (mr_handle mr) <= addr /\ covers pageSize addr pages mr = false) l1
      /\ (forall mr l2', l2 = mr :: l2' -> addr < start_addr (mr_handle mr))
  | Found k => exists l1 mr l2, l = l1 ++ mr :: l2 /\ (k = n + length l1)%nat
      /\ covers pageSize addr pages mr = true
  end.
Proof.
  induction l as [|mr l IH]; intros n; cbn [find_slot].
  - exists [], []. split_and!; [done|cbn; lia|constructor|done].
  - destruct (Z.ltb_spec addr (start_addr (mr_handle mr))).
    { exists [], (mr :: l). split_and!; [done|cbn; lia|constructor|]. by intros ? ? [= <- _]. }
    destruct (covers pageSize addr pages mr) eqn:E.
    { exists [], mr, l. split_and!; [done|cbn; lia|done]. }
    specialize (IH (S n)). destruct (find_slot _ _ _ _ _).
    + destruct IH as (l1 & l2 & -> & -> & Hf & Hh). exists (mr :: l1), l2.
      split_and!; try (cbn; lia); try by constructor. done.
    + destruct IH as (l1 & mr' & l2 & -> & -> & Hc). exists (mr :: l1), mr', l2.
      split_and!; try (cbn; lia); done.
Qed.

Lemma find_handle_split l1 mr l2 :
  NoDup (reg_handle ∘ mr_handle <$> (l1 ++ mr :: l2)) ->
  find_handle (reg_handle (mr_handle mr)) (l1 ++ mr :: l2) = Some (length l1, mr).
Proof.
  induction l1 as [|m l1 IH]; intros Hnd; cbn.
  - by rewrite Z.eqb_refl.
  - cbn in Hnd. apply list.NoDup_cons in Hnd as [Hni Hnd]. rewrite IH by done.
    case_match; [|done]. zbool. exfalso. apply Hni. cbn. rewrite <- H0, fmap_app. set_solver.
Qed.

(** *** Preservation *)

Lemma users_perm h hs hs' : hs ≡ₚ hs' -> users h hs = users h hs'.
Proof. intros P. unfold users, Zlen. by rewrite P. Qed.

Lemma accounts_perm reg hs hs' lost l l' : hs ≡ₚ hs' -> l ≡ₚ l' ->
  accounts reg hs lost l -> accounts reg hs' lost l'.
Proof.
  intros Ph P [A1 A2 A3 A4 A5 A6]. constructor.
  - by rewrite <- P.
  - by rewrite <- P.
  - intros mh. rewrite <- Ph, <- P. apply A3.
  - rewrite <- P. eapply list.Forall_impl; [exact A4|]. intros mr Hm. cbn beta in *. by rewrite <- (users_perm _ _ _ Ph).
  - rewrite A5. f_equal. apply list_to_set_perm_L. by rewrite P.
  - intros h. rewrite <- P. apply A6.
Qed.

Lemma handle_in mr (l : list ncclMr) : mr ∈ l -> reg_handle (mr_handle mr) ∈ reg_handle ∘ mr_handle <$> l.
Proof. apply (list_elem_of_fmap_2 (reg_handle ∘ mr_handle)). Qed.

(** A new registration with its first user. *)
Lemma accounts_cons reg hs lost l mr :
  accounts reg hs lost l ->
  live (mr_handle mr) -> reg_handle (mr_handle mr) <> kInvalidRegistration -> mr_refs mr = 1 ->
  reg_handle (mr_handle mr) ∉ reg ->
  accounts ({[reg_handle (mr_handle mr)]} ∪ reg) (mr_handle mr :: hs) lost (mr :: l).
Proof.
  intros [A1 A2 A3 A4 A5 A6] Hl Hk H1 Hf. rewrite A5 in Hf.
  apply not_elem_of_union in Hf as [Hf1 Hf2]. rewrite elem_of_list_to_set in Hf1.
  constructor.
  - by constructor.
  - by constructor.
  - intros mh [->|Hin]%elem_of_cons Hlive; [left|right]. by apply A3.
  - constructor.
    + rewrite users_cons, decide_True by done. rewrite users_none; [lia|].
      intros mh Hin Hlive E. apply Hf1. rewrite <- E.
      apply A3 in Hin as (y & -> & Hy)%list_elem_of_fmap; [|done]. by apply handle_in.
    + apply list.Forall_forall. intros x Hx. rewrite list.Forall_forall in A4.
      rewrite users_cons, decide_False; [rewrite Z.add_0_r; by apply A4|].
      intros [_ E]. apply Hf1. rewrite E. by apply handle_in.
  - rewrite A5. cbn [fmap list_fmap]. rewrite list_to_set_cons, (assoc_L (∪)). done.
  - cbn [fmap list_fmap]. intros h [->|Hh]%elem_of_cons; [done|by apply A6].
Qed.

(** One more, or one fewer, user of a registration that stays. *)
Lemma accounts_count reg hs hs' lost l mr n :
  accounts reg hs lost (mr :: l) ->
  (forall mh, mh ∈ hs' -> live mh -> mh ∈ mr_handle <$> mr :: l) ->
  (forall h, users h hs' = users h hs
             + (if decide (h = reg_handle (mr_handle mr)) then n - mr_refs mr else 0)) ->
  1 <= n ->
  accounts reg hs' lost (set_refs n mr :: l).
Proof.
  intros [A1 A2 A3 A4 A5 A6] Hh Hu Hn. cbn in A1.
  apply list.NoDup_cons in A1 as [N1 N2]. inversion_clear A2 as [|? ? C1 C2]. inversion_clear A4 as [|? ? [B1 B2] B3].
  constructor; cbn; try done.
  - by constructor.
  - by constructor.
  - constructor; cbn.
    + rewrite Hu, decide_True by done. lia.
    + apply list.Forall_forall. intros y Hy. rewrite list.Forall_forall in B3.
      rewrite Hu, decide_False, Z.add_0_r; [by apply B3|].
      intros E. apply N1. change ((reg_handle ∘ mr_handle) mr) with (reg_handle (mr_handle mr)).
      rewrite <- E. by apply handle_in.
Qed.

(** The last user is gone. *)
Lemma accounts_release reg hs lost l mr :
  accounts reg (mr_handle mr :: hs) lost (mr :: l) -> mr_refs mr = 1 ->
  accounts (reg ∖ {[reg_handle (mr_handle mr)]}) hs lost l
  /\ accounts reg hs ({[reg_handle (mr_handle mr)]} ∪ lost) l.
Proof.
  intros [A1 A2 A3 A4 A5 A6] H1. cbn in A1, A5, A6.
  apply list.NoDup_cons in A1 as [N1 N2]. inversion_clear A2 as [|? ? [L1 L2] L3].
  inversion_clear A4 as [|? ? [B1 B2] B3].
  rewrite users_cons, decide_True in B1 by done.
  assert (U0 : users (reg_handle (mr_handle mr)) hs = 0) by lia.
  assert (Hh : forall mh, mh ∈ hs -> live mh -> mh ∈ mr_handle <$> l).
  { intros mh Hin Hlive. pose proof (A3 mh ltac:(by right) Hlive) as [->|]%elem_of_cons; [|done].
    pose proof (users_pos _ _ _ Hin Hlive eq_refl). lia. }
  assert (Hr : Forall (fun x => mr_refs x = users (reg_handle (mr_handle x)) hs /\ 1 <= mr_refs x) l).
  { apply list.Forall_forall. intros y Hy. rewrite list.Forall_forall in B3. specialize (B3 y Hy). cbn beta in B3.
    rewrite users_cons, decide_False, Z.add_0_r in B3; [done|].
    intros [_ E]. apply N1. cbn. rewrite E. by apply handle_in. }
  split; constructor; try done.
  - rewrite A5. apply set_eq. intros h. specialize (A6 h). cbn in N1.
    rewrite elem_of_difference, !elem_of_union, !elem_of_list_to_set, elem_of_singleton in *.
    rewrite elem_of_cons in *. unfold compose in *. naive_solver.
  - intros h Hin. apply A6. by right.
  - rewrite A5. unfold compose. rewrite (assoc_L (∪)), (comm_L (∪) _ {[_]}). done.
  - intros h Hin. apply not_elem_of_union. split; [|apply A6; by right].
    apply not_elem_of_singleton. by intros ->.
Qed.

Lemma RegMrDmaBufInternal_spec new_fd data fd w :
  match RegMrDmaBufInternal new_fd data fd w with
  | (Ok mh, w') =>
      mr_cache w' = mr_cache w /\ start_addr mh = iov_base data
      /\ reg_handle mh <> kInvalidRegistration
      /\ (reg_handle mh ∉ registered (buffer_manager w))
      /\ registered (buffer_manager w') = {[reg_handle mh]} ∪ registered (buffer_manager w)
  | (Err _, w') =>
      mr_cache w' = mr_cache w /\ registered (buffer_manager w') = registered (buffer_manager w)
  end.
Proof.
  unfold RegMrDmaBufInternal.
  destruct fd as [f|]; [|destruct new_fd as [f|e]; [|done]];
    (destruct (RegBuf _ _ _) as [[h|e] b] eqn:E;
     [apply RegBuf_ok in E as (? & ? & ?)|apply RegBuf_err in E]; by split_and!).
Qed.

Lemma shape_insert c c' l1 mr l2 :
  shape c (l1 ++ l2) ->
  slots c' = Some (l1 ++ mr :: l2) -> population c' = population c + 1 ->
  population c + 1 <= capacity c' ->
  Forall (fun x => start_addr (mr_handle x) <= start_addr (mr_handle mr)) l1 ->
  (forall x l2', l2 = x :: l2' -> start_addr (mr_handle mr) < start_addr (mr_handle x)) ->
  shape c' (l1 ++ mr :: l2).
Proof.
  intros [_ Sp _ Ss] Es Ep Ec H1 H2. constructor.
  - unfold slot_list. by rewrite Es.
  - rewrite Ep, Sp, !Zlen_app, Zlen_cons. lia.
  - lia.
  - apply StronglySorted_app in Ss as (Hc & Ss1 & Ss2). rewrite list.Forall_forall in H1.
    apply StronglySorted_app. split_and!; [|done|].
    + intros x1 x2 Hx1 [->|Hx2]%elem_of_cons; [by apply H1|by apply Hc].
    + constructor; [done|]. destruct Ss2 as [|x l2 Ss2 Hx]; [constructor|].
      specialize (H2 x l2 eq_refl). constructor; [lia|].
      eapply list.Forall_impl; [exact Hx|]. cbn. intros. lia.
Qed.

Lemma insert_slot_inv new_fd addr pages type fd w hs lost l1 l2 :
  mr_inv (mkMrSys w hs lost) (l1 ++ l2) -> is_cuda NCCL_PTR_CUDA type = true ->
  Forall (fun x => start_addr (mr_handle x) <= addr) l1 ->
  (forall x l2', l2 = x :: l2' -> addr < start_addr (mr_handle x)) ->
  match insert_slot pageSize true new_fd addr pages type fd (length l1) w with
  | (Ok mh, w') =>
      start_addr mh = addr
      /\ mr_inv (mkMrSys w' (mh :: hs) lost) (l1 ++ mkNcclMr mh (s32 pages) 1 :: l2)
  | (Err _, w') => mr_inv (mkMrSys w' hs lost) (l1 ++ l2)
  end.
Proof.
  intros [Sh Ac] Ht H1 H2. cbn in Sh, Ac. unfold insert_slot. rewrite andb_false_r.
  change (default [] (slots (mr_cache w))) with (slot_list (mr_cache w)).
  rewrite (shape_slots _ _ Sh). set (cap := if _ =? _ then _ else _).
  assert (Hcap : population (mr_cache w) + 1 <= cap).
  { pose proof (shape_capacity _ _ Sh). unfold cap. repeat case_match; zbool; lia. }
  match goal with |- context [RegMrDmaBufInternal ?a ?d ?f ?w0] =>
    pose proof (RegMrDmaBufInternal_spec a d f w0) as Sp;
    destruct (RegMrDmaBufInternal a d f w0) as [[mh|e] w'] end.
  - destruct Sp as (Ec & Es & Hk & Hf & Er). cbn [buffer_manager iov_base] in *.
    destruct mh as [h t a sz d]; cbn in Es, Hk, Hf, Er. subst a.
    unfold set_mem_type; cbn [start_addr reg_handle mem_type mh_size dmabuf_fd].
    split; [done|]. split; cbn [dev held mr_cache buffer_manager].
    + rewrite take_app_length, drop_app_length. by eapply shape_insert.
    + rewrite Er. eapply accounts_perm; [reflexivity|apply Permutation_middle|].
      by apply (accounts_cons _ hs lost _ (mkNcclMr (mkMemoryHandle h type addr sz d) (s32 pages) 1)).
  - destruct Sp as [Ec Er]. split; cbn; [|by rewrite Er].
    rewrite Ec. cbn. destruct Sh as [S1 S2 S3 S4]. constructor; try done. cbn. lia.
Qed.

(** Host memory is not counted. *)
Lemma accounts_host reg mh hs lost l : ~ live mh ->
  accounts reg (mh :: hs) lost l <-> accounts reg hs lost l.
Proof.
  intros Hn. assert (Hu : forall h, users h (mh :: hs) = users h hs).
  { intros h. rewrite users_cons, decide_False by (by intros []). lia. }
  split; intros [A1 A2 A3 A4 A5 A6]; constructor; try done.
  - intros x Hin. apply A3. by right.
  - eapply list.Forall_impl; [exact A4|]. intros x. cbn. by rewrite Hu.
  - intros x [->|Hin]%elem_of_cons Hl; [done|by apply A3].
  - eapply list.Forall_impl; [exact A4|]. intros x. cbn. by rewrite Hu.
Qed.

Lemma sorted_handles l : forall l', mr_handle <$> l' = mr_handle <$> l ->
  StronglySorted (fun a b => start_addr (mr_handle a) <= start_addr (mr_handle b)) l ->
  StronglySorted (fun a b => start_addr (mr_handle a) <= start_addr (mr_handle b)) l'.
Proof.
  induction l as [|x l IH]; intros [|x' l'] E S; try done. injection E as E1 E2.
  change (mr_handle <$> l' = mr_handle <$> l) in E2.
  inversion_clear S as [|? ? S' Hx]. constructor; [by apply IH|]. rewrite E1.
  apply list.Forall_forall. intros y Hy. rewrite list.Forall_forall in Hx.
  assert (mr_handle y ∈ mr_handle <$> l) as (z & -> & Hz)%list_elem_of_fmap.
  { rewrite <- E2. by apply list_elem_of_fmap_2. }
  by apply Hx.
Qed.

Lemma shape_handles c c' l l' :
  shape c l -> slots c' = Some l' -> population c' = population c -> capacity c' = capacity c ->
  mr_handle <$> l' = mr_handle <$> l -> shape c' l'.
Proof.
  intros [S1 S2 S3 S4] E1 E2 E3 E4.
  assert (length l' = length l) by (apply (f_equal length) in E4; by rewrite !length_fmap in E4).
  constructor; [unfold slot_list; by rewrite E1|unfold Zlen in *; lia|lia|].
  by eapply sorted_handles.
Qed.

Lemma shape_remove c l1 mr l2 : shape c (l1 ++ mr :: l2) ->
  shape (if population c - 1 =? 0 then empty_cache
         else mkNcclMrCache (Some (l1 ++ l2)) (capacity c) (population c - 1)) (l1 ++ l2).
Proof.
  intros [_ S2 S3 S4]. rewrite Zlen_app, Zlen_cons in S2.
  pose proof (Zlen_nonneg l1). pose proof (Zlen_nonneg l2). case_match; zbool.
  - assert (l1 = [] /\ l2 = []) as [-> ->].
    { split; apply nil_length_inv; unfold Zlen in *; lia. }
    by repeat constructor.
  - constructor; cbn; [done|rewrite Zlen_app; lia|lia|].
    apply StronglySorted_app in S4 as (Hc & S5 & S6). inversion_clear S6.
    apply StronglySorted_app. split_and!; [|done|done]. intros x y Hx Hy. apply Hc; [done|by right].
Qed.

Lemma list_insert_middle {A} (l1 l2 : list A) (x y : A) :
  <[length l1 := y]> (l1 ++ x :: l2) = l1 ++ y :: l2.
Proof. by rewrite insert_app_r_alt, Nat.sub_diag by done. Qed.

Lemma drop_middle {A} (l1 l2 : list A) (x : A) : drop (S (length l1)) (l1 ++ x :: l2) = l2.
Proof. by rewrite cons_middle, app_assoc, drop_app_length' by (rewrite length_app; cbn; lia). Qed.

Lemma found_inv w hs lost l1 mr l2 :
  mr_inv (mkMrSys w hs lost) (l1 ++ mr :: l2) ->
  mr_inv (mkMrSys (mkMrDev
      (mkNcclMrCache (Some (<[length l1 := set_refs (mr_refs mr + 1) mr]> (l1 ++ mr :: l2)))
         (capacity (mr_cache w)) (population (mr_cache w)))
      (buffer_manager w) (open_fds w)) (mr_handle mr :: hs) lost)
    (l1 ++ set_refs (mr_refs mr + 1) mr :: l2).
Proof.
  intros [Sh Ac]. cbn in Sh, Ac. pose proof (acc_live _ _ _ _ Ac) as Hl.
  pose proof (acc_refs _ _ _ _ Ac) as Hr.
  rewrite list.Forall_app, list.Forall_cons in Hl, Hr. destruct Hl as (_ & [Hl _] & _), Hr as (_ & [_ Hr] & _).
  split; cbn.
  - rewrite list_insert_middle. eapply shape_handles; [exact Sh|done..|].
    by rewrite !fmap_app.
  - eapply accounts_perm; [reflexivity|apply Permutation_middle|].
    eapply accounts_perm in Ac; [|reflexivity|symmetry; apply Permutation_middle].
    eapply accounts_count; [exact Ac| | |lia].
    + intros mh [->|Hin]%elem_of_cons Hlive; [left|by apply (acc_held _ _ _ _ Ac)].
    + intros h. rewrite users_cons. repeat case_decide; try naive_solver lia.
Qed.

Lemma not_covered addr pages l1 l2 :
  StronglySorted (fun a b => start_addr (mr_handle a) <= start_addr (mr_handle b)) (l1 ++ l2) ->
  Forall (fun mr => start_addr (mr_handle mr) <= addr /\ covers pageSize addr pages mr = false) l1 ->
  (forall x l2', l2 = x :: l2' -> addr < start_addr (mr_handle x)) ->
  forall mr, mr ∈ l1 ++ l2 -> covers pageSize addr pages mr = false.
Proof.
  intros (_ & _ & S)%StronglySorted_app H1 H2 mr [Hm|Hm]%elem_of_app.
  - rewrite list.Forall_forall in H1. by apply H1.
  - unfold covers. apply andb_false_iff. left. apply Z.leb_gt.
    destruct S as [|x l2 S Hx]; [by apply not_elem_of_nil in Hm|].
    specialize (H2 x l2 eq_refl). rewrite list.Forall_forall in Hx.
    apply elem_of_cons in Hm as [->|Hm]; [done|]. specialize (Hx _ Hm). cbn in Hx. lia.
Qed.

(** A request never dereferences a null pointer.  It finds a slot exactly when
    one contains it, and then leaves the buffer manager alone. *)
Definition regions (l : list ncclMr) : list (Z * Z) :=
  (fun mr => (start_addr (mr_handle mr), mr_pages mr)) <$> l.

Lemma RegMrDmaBuf_inv new_fd data type fd w hs lost l :
  mr_inv (mkMrSys w hs lost) l ->
  let addr := page_addr pageSize (iov_base data) in
  let pages := page_count pageSize (iov_base data) (iov_len data) in
  exists r w', RegMrDmaBuf NCCL_PTR_CUDA pageSize true true new_fd data type fd w = Some (r, w')
  /\ match r with
     | Err _ =>
         mr_inv (mkMrSys w' hs lost) l
         /\ (is_cuda NCCL_PTR_CUDA type = true ->
             forall mr, mr ∈ l -> covers pageSize addr pages mr = false)
     | Ok mh =>
         exists l', mr_inv (mkMrSys w' (mh :: hs) lost) l'
         /\ (regions l' = regions l \/ regions l' ≡ₚ (addr, s32 pages) :: regions l)
         /\ (is_cuda NCCL_PTR_CUDA type = true ->
              (exists mr, mr ∈ l /\ mr_handle mr = mh /\ covers pageSize addr pages mr = true
                          /\ buffer_manager w' = buffer_manager w
                          /\ exists mr', mr' ∈ l' /\ mr_handle mr' = mh /\ mr_pages mr' = mr_pages mr)
              \/ (forall mr, mr ∈ l -> covers pageSize addr pages mr = false)
                 /\ (exists mr, mr ∈ l' /\ mr_handle mr = mh /\ start_addr mh = addr
                                /\ mr_pages mr = s32 pages))
     end.
Proof.
  intros [Sh Ac] addr pages. cbn in Sh, Ac. unfold RegMrDmaBuf.
  destruct (is_cuda NCCL_PTR_CUDA type) eqn:Ht; cbn [negb].
  2:{ do 2 eexists. split; [reflexivity|]. exists l. split_and!; [split; [done|]|by left|done].
      apply accounts_host; [by cbn; rewrite Ht|done]. }
  fold addr pages.
  assert (Hins : forall l1 l2, l = l1 ++ l2 ->
    Forall (fun mr => start_addr (mr_handle mr) <= addr /\ covers pageSize addr pages mr = false) l1 ->
    (forall x l2', l2 = x :: l2' -> addr < start_addr (mr_handle x)) ->
    exists r w', Some (insert_slot pageSize true new_fd addr pages type fd (length l1) w) = Some (r, w')
    /\ match r with
       | Err _ => mr_inv (mkMrSys w' hs lost) l
           /\ (forall mr, mr ∈ l -> covers pageSize addr pages mr = false)
       | Ok mh => exists l', mr_inv (mkMrSys w' (mh :: hs) lost) l'
           /\ regions l' ≡ₚ (addr, s32 pages) :: regions l
           /\ (forall mr, mr ∈ l -> covers pageSize addr pages mr = false)
           /\ exists mr, mr ∈ l' /\ mr_handle mr = mh /\ start_addr mh = addr /\ mr_pages mr = s32 pages
       end).
  { intros l1 l2 -> H1 H2.
    pose proof (insert_slot_inv new_fd addr pages type fd w hs lost l1 l2) as I.
    destruct (insert_slot _ _ _ _ _ _ _ _ _) as [[mh|e] w']; do 2 eexists; (split; [reflexivity|]).
    - destruct I as [Es Hi]; [by split|done|eapply list.Forall_impl; [exact H1|by intros ? []]|done|].
      eexists. split; [exact Hi|]. split.
      { unfold regions. rewrite <- Permutation_middle. cbn. by rewrite Es. }
      split; [|eexists; split; [apply elem_of_app; right; left|done]].
      apply not_covered; [apply Sh|done..].
    - split; [|apply not_covered; [apply Sh|done..]].
      apply I; [by split|done|eapply list.Forall_impl; [exact H1|by intros ? []]|done]. }
  destruct (slots (mr_cache w)) as [l0|] eqn:Es; cbn [negb].
  - assert (l0 = l) as -> by (rewrite <- (shape_slots _ _ Sh); unfold slot_list; by rewrite Es).
    pose proof (find_slot_split addr pages l 0) as F.
    destruct (find_slot pageSize addr pages l 0) as [k|k].
    + destruct F as (l1 & l2 & E & -> & H1 & H2). cbn [Nat.add].
      destruct (Hins l1 l2 E H1 H2) as (r & w' & E' & Hr). do 2 eexists. split; [exact E'|].
      destruct r; [|naive_solver]. destruct Hr as (l' & ? & ? & ?). exists l'. split_and!; [done|by right|by right].
    + destruct F as (l1 & mr & l2 & -> & -> & Hc). cbn [Nat.add].
      rewrite list_lookup_middle by done. cbn [mbind option_bind].
      do 2 eexists. split; [reflexivity|]. exists (l1 ++ set_refs (mr_refs mr + 1) mr :: l2). split.
      * apply found_inv. by split.
      * split; [left; unfold regions; by rewrite !fmap_app|]. intros _. left. exists mr. split_and!; try done.
        { apply elem_of_app. right. left. }
        exists (set_refs (mr_refs mr + 1) mr). split_and!; try done. apply elem_of_app. right. left.
  - assert (l = []) as -> by (rewrite <- (shape_slots _ _ Sh); unfold slot_list; by rewrite Es).
    pose proof (shape_population _ _ Sh) as Hp. rewrite Hp. cbn [Zlen length Z.of_nat Z.eqb].
    destruct (Hins [] [] eq_refl) as (r & w' & E' & Hr); [constructor|done|].
    do 2 eexists. split; [exact E'|]. destruct r; [|naive_solver].
    destruct Hr as (l' & ? & ? & ?). exists l'. split_and!; [done|by right|by right].
Qed.

Lemma DeregMrInternal_spec mh w :
  match DeregMrInternal mh w with
  | (Ok _, w') => mr_cache w' = mr_cache w
      /\ registered (buffer_manager w') = registered (buffer_manager w) ∖ {[reg_handle mh]}
  | (Err _, w') => mr_cache w' = mr_cache w
      /\ registered (buffer_manager w') = registered (buffer_manager w)
  end.
Proof.
  unfold DeregMrInternal. destruct (DeregBuf _ _) as [[[]|e] b] eqn:E; cbn; (split; [done|]).
  - by apply DeregBuf_ok.
  - by eapply DeregBuf_err.
Qed.

Lemma DeregMr_inv mh w hs1 hs2 lost l :
  mr_inv (mkMrSys w (hs1 ++ mh :: hs2) lost) l ->
  match DeregMr NCCL_PTR_CUDA true mh w with
  | (Ok _, w') => exists l', mr_inv (mkMrSys w' (hs1 ++ hs2) lost) l'
                             /\ regions l' ⊆ regions l
  | (Err _, w') => exists l', mr_inv (mkMrSys w' (hs1 ++ hs2) ({[reg_handle mh]} ∪ lost)) l'
                              /\ regions l' ⊆ regions l
  end.
Proof.
  intros [Sh Ac]. cbn in Sh, Ac.
  eapply accounts_perm in Ac; [|symmetry; apply Permutation_middle|reflexivity].
  unfold DeregMr. destruct (is_cuda NCCL_PTR_CUDA (mem_type mh)) eqn:Ht; cbn [negb].
  2:{ exists l. split; [|done]. split; [done|]. eapply accounts_host; [|exact Ac]. by rewrite Ht. }
  assert (Hin : mh ∈ mr_handle <$> l) by (apply (acc_held _ _ _ _ Ac); [left|done]).
  apply list_elem_of_fmap in Hin as (mr & -> & (l1 & l2 & ->)%list_elem_of_split).
  pose proof (acc_live _ _ _ _ Ac) as Hl. pose proof (acc_refs _ _ _ _ Ac) as Hr.
  rewrite list.Forall_app, list.Forall_cons in Hl, Hr.
  destruct Hl as (_ & [_ Hk] & _), Hr as (_ & [_ Hr] & _).
  rewrite (proj2 (Z.eqb_neq _ _)) by done.
  change (default [] (slots (mr_cache w))) with (slot_list (mr_cache w)).
  rewrite (shape_slots _ _ Sh), (find_handle_split _ _ _ (acc_nodup _ _ _ _ Ac)).
  eapply accounts_perm in Ac; [|reflexivity|symmetry; apply Permutation_middle].
  destruct (Z.eqb_spec (mr_refs mr - 1) 0).
  - rewrite take_app_length, drop_middle.
    destruct (accounts_release _ _ _ _ _ Ac) as [A1 A2]; [lia|].
    match goal with |- context [DeregMrInternal ?m ?w0] =>
      pose proof (DeregMrInternal_spec m w0) as Sp;
      destruct (DeregMrInternal m w0) as [[[]|err] w'] end;
      destruct Sp as [Ec Er]; (exists (l1 ++ l2)); (split;
        [split; cbn; [rewrite Ec; by eapply shape_remove|by rewrite Er]
        |unfold regions; rewrite !fmap_app; set_solver]).
  - exists (l1 ++ set_refs (mr_refs mr - 1) mr :: l2). split;
      [|unfold regions; by rewrite !fmap_app].
    rewrite list_insert_middle. split; cbn.
    + eapply shape_handles; [exact Sh|done..|]. by rewrite !fmap_app.
    + eapply accounts_perm; [reflexivity|apply Permutation_middle|].
      eapply accounts_count; [exact Ac| | |lia].
      * intros mh Hin Hlive. apply (acc_held _ _ _ _ Ac); [by right|done].
      * intros h. rewrite users_cons. repeat case_decide; try naive_solver lia.
Qed.

Inductive mr_reachable (s0 : MrSys) : MrSys -> Prop :=
  | mr_reach_init : mr_reachable s0 s0
  | mr_reach_step s s' : mr_reachable s0 s -> mr_step s s' -> mr_reachable s0 s'.

(** A device after initialization. *)
Definition fresh_dev (b : BM) (fds : gset Z) : MrSys := mkMrSys (mkMrDev empty_cache b fds) [] ∅.

(** *** Pages *)

Definition region_ok (r : Z * Z) : Prop :=
  0 <= r.1 < 2 ^ 63 /\ r.1 mod pageSize = 0 /\ 0 <= r.2 < 2 ^ 31.

Lemma page_addr_eq k base : 0 <= k < 64 -> pageSize = 2 ^ k -> 0 <= base < 2 ^ 64 ->
  page_addr pageSize base = base - base mod pageSize.
Proof.
  intros Hk Hp Hb. unfold page_addr, u64. rewrite Hp.
  assert (E : (- 2 ^ k) mod 2 ^ 64 = Z.shiftl (Z.ones (64 - k)) k).
  { rewrite Z.shiftl_mul_pow2, Z.ones_equiv by lia.
    assert (2 ^ 64 = 2 ^ (64 - k) * 2 ^ k) as E by (rewrite <- Z.pow_add_r by lia; f_equal; lia).
    assert (0 < 2 ^ k) by (apply Z.pow_pos_nonneg; lia).
    assert (2 ^ k <= 2 ^ 64) by (apply Z.pow_le_mono_r; lia).
    rewrite <- (Z.mod_add _ 1), Z.mod_small by lia. lia. }
  rewrite E. replace (base - base mod 2 ^ k) with (Z.shiftl (Z.shiftr base k) k).
  2:{ rewrite Z.shiftl_mul_pow2, Z.shiftr_div_pow2 by lia.
      assert (0 < 2 ^ k) by (apply Z.pow_pos_nonneg; lia). pose proof (Z.div_mod base (2 ^ k)). lia. }
  apply Z.bits_inj'. intros i Hi. rewrite Z.land_spec, !Z.shiftl_spec by lia.
  destruct (Z.ltb_spec i k).
  - rewrite !(Z.testbit_neg_r _ (i - k)) by lia. apply andb_false_r.
  - rewrite Z.shiftr_spec by lia. replace (i - k + k) with i by lia.
    destruct (Z.ltb_spec i 64).
    + rewrite Z.ones_spec_low by lia. apply andb_true_r.
    + rewrite (Z.bits_above_log2 base i); [done|lia|].
      destruct (Z.eq_dec base 0) as [->|]; [cbn; lia|]. apply Z.log2_lt_pow2; [lia|].
      assert (2 ^ 64 <= 2 ^ i) by (apply Z.pow_le_mono_r; lia). lia.
Qed.

(** The pages of a request contain it, and they form a region. *)
Lemma request_pages k data : 0 <= k < 32 -> pageSize = 2 ^ k -> request_ok data ->
  let addr := page_addr pageSize (iov_base data) in
  let pages := page_count pageSize (iov_base data) (iov_len data) in
  region_ok (addr, pages) /\ addr <= iov_base data
  /\ iov_base data + iov_len data <= addr + pageSize * pages.
Proof.
  intros Hk Hp (H1 & H2 & H3 & H4) addr pages.
  assert (0 < pageSize <= 2 ^ 32).
  { rewrite Hp. split; [apply Z.pow_pos_nonneg; lia|apply Z.pow_le_mono_r; lia]. }
  assert (Ea : addr = iov_base data - iov_base data mod pageSize) by (apply (page_addr_eq k); lia).
  pose proof (Z.mod_pos_bound (iov_base data) pageSize).
  pose proof (Z.mod_le (iov_base data) pageSize).
  unfold pages, page_count in *. fold addr in H4 |- *. unfold u64 in *.
  rewrite Z.mod_small in * by lia.
  set (n := iov_base data + iov_len data - addr + pageSize - 1) in *.
  pose proof (Z.div_mod n pageSize). pose proof (Z.mod_pos_bound n pageSize).
  assert (0 <= n / pageSize) by (apply Z.div_pos; lia).
  split_and!; [split_and!; cbn; try lia|lia|lia].
  rewrite Ea, Zminus_mod_idemp_r, Z.sub_diag. done.
Qed.

Lemma covers_region addr pages mr :
  0 < pageSize -> region_ok (addr, pages) -> region_ok (start_addr (mr_handle mr), mr_pages mr) ->
  covers pageSize addr pages mr = true ->
  start_addr (mr_handle mr) <= addr
  /\ addr + pageSize * pages <= start_addr (mr_handle mr) + pageSize * mr_pages mr.
Proof.
  intros Hp (Ha & Ma & Hg) (Hs & Ms & Hq) [H1 H2]%andb_prop. cbn in *. zbool. split; [done|].
  set (d := addr - start_addr (mr_handle mr)) in *.
  assert (Hd : d = pageSize * (d / pageSize)).
  { apply Z.div_exact; [lia|]. unfold d. by rewrite Zminus_mod, Ma, Ms. }
  assert (0 <= d / pageSize) by (apply Z.div_pos; lia).
  assert (d / pageSize <= d) by (apply Z.div_le_upper_bound; nia).
  unfold u64 in H2. rewrite !Z.mod_small in H2 by lia. nia.
Qed.

Section reachable.
Context (k : Z) (Hk : 0 <= k < 32) (Hps : pageSize = 2 ^ k).
Context (b0 : BM) (Hb0 : registered b0 = ∅) (fds : gset Z).

Lemma fresh_inv : mr_inv (fresh_dev b0 fds) [].
Proof using Hb0.
  split; [by repeat constructor|].
  constructor; cbn; try (by constructor); try (by intros ? ?%not_elem_of_nil).
  by rewrite Hb0, (left_id_L ∅ (∪)).
Qed.

Lemma mr_reachable_inv s : mr_reachable (fresh_dev b0 fds) s ->
  exists l, mr_inv s l /\ Forall region_ok (regions l).
Proof using Hk Hps Hb0.
  induction 1 as [|s s' _ IH St]; [exists []; split; [apply fresh_inv|constructor]|].
  destruct IH as (l & Hi & Hr).
  destruct St as [new_fd data type fd mh w w' hs lost Hd E|new_fd data type fd e w w' hs lost E
                 |mh w w' hs1 hs2 lost E|mh e w w' hs1 hs2 lost E].
  - destruct (RegMrDmaBuf_inv new_fd data type fd w hs lost l Hi) as (r & w1 & E' & Hr').
    rewrite E in E'. injection E' as <- <-. destruct Hr' as (l' & Hi' & Hp & _).
    exists l'. split; [done|]. destruct Hp as [->| ->]; [done|]. constructor; [|done].
    destruct (request_pages k data Hk Hps Hd) as ([Ra [Rb Rc]] & _).
    unfold s32. rewrite Z.mod_small by (cbn in Rc; lia). split_and!; cbn in *; try done; lia.
  - destruct (RegMrDmaBuf_inv new_fd data type fd w hs lost l Hi) as (r & w1 & E' & Hr').
    rewrite E in E'. injection E' as <- <-. destruct Hr' as [Hi' _]. by exists l.
  - pose proof (DeregMr_inv mh w hs1 hs2 lost l Hi) as D. rewrite E in D.
    destruct D as (l' & Hi' & Hsub). exists l'. split; [done|].
    apply list.Forall_forall. intros r Hin. rewrite list.Forall_forall in Hr. by apply Hr, Hsub.
  - pose proof (DeregMr_inv mh w hs1 hs2 lost l Hi) as D. rewrite E in D.
    destruct D as (l' & Hi' & Hsub). exists l'. split; [done|].
    apply list.Forall_forall. intros r Hin. rewrite list.Forall_forall in Hr. by apply Hr, Hsub.
Qed.


(** A request for device memory in a reachable state returns
    (no null pointer is dereferenced), and on success the returned handle is
    that of a slot whose pages contain the requested buffer.  If a slot of the
    cache already contains the pages, the buffer manager is not involved. *)
Theorem mr_cache_lookup s new_fd data type fd :
  mr_reachable (fresh_dev b0 fds) s -> request_ok data -> is_cuda NCCL_PTR_CUDA type = true ->
  let addr := page_addr pageSize (iov_base data) in
  let pages := page_count pageSize (iov_base data) (iov_len data) in
  exists r w', RegMrDmaBuf NCCL_PTR_CUDA pageSize true true new_fd data type fd (dev s) = Some (r, w')
  /\ (forall mh, r = Ok mh ->
       exists n, start_addr mh <= iov_base data
                 /\ iov_base data + iov_len data <= start_addr mh + pageSize * n
                 /\ (mh, n) ∈ (fun mr => (mr_handle mr, mr_pages mr)) <$> slot_list (mr_cache w'))
  /\ ((exists mr, mr ∈ slot_list (mr_cache (dev s)) /\ covers pageSize addr pages mr = true) ->
      buffer_manager w' = buffer_manager (dev s)).
Proof using Hk Hps Hb0.
  intros R Hd Ht addr pages. destruct (mr_reachable_inv s R) as (l & Hi & Hreg).
  assert (Hp : 0 < pageSize) by (rewrite Hps; apply Z.pow_pos_nonneg; lia).
  destruct (request_pages k data Hk Hps Hd) as (Hr & Hlo & Hhi). fold addr pages in Hr, Hlo, Hhi.
  destruct s as [w hs lo]. cbn [dev] in *.
  destruct (RegMrDmaBuf_inv new_fd data type fd w hs lo l Hi) as (r & w' & E & Hcase).
  fold addr pages in Hcase. exists r, w'. split; [exact E|].
  destruct Hi as [Sh _]. cbn [dev] in Sh. rewrite (shape_slots _ _ Sh). destruct r as [mh|e].
  - destruct Hcase as (l' & [Sh' _] & _ & Hcase). specialize (Hcase Ht).
    cbn [dev] in Sh'. rewrite (shape_slots _ _ Sh').
    destruct Hcase as [(mr & Hin & <- & Hc & Hb & mr' & Hin' & Eh & Ep)|(Hn & mr & Hin & Eh & Ea & Ep)].
    + split; [|done]. intros mh [= <-]. exists (mr_pages mr).
      destruct (covers_region addr pages mr) as [C1 C2]; [done|done| |done|].
      { rewrite list.Forall_forall in Hreg. apply Hreg, list_elem_of_fmap. by exists mr. }
      split_and!; [lia|lia|]. apply list_elem_of_fmap. exists mr'. by rewrite Eh, Ep.
    + split; [|intros (mr0 & Hin0 & Hc); by rewrite Hn in Hc].
      intros mh' [= <-]. exists (mr_pages mr). destruct Hr as (_ & _ & Hr). cbn in Hr.
      unfold s32 in Ep. rewrite Z.mod_small in Ep by lia.
      split_and!; [lia|rewrite Ea, Ep; lia|]. apply list_elem_of_fmap. exists mr. by rewrite Eh.
  - split; [done|]. intros (mr & Hin & Hc). destruct Hcase as [_ Hn]. by rewrite Hn in Hc.
Qed.

End reachable.
End mr_invariant.

(** *** Witnesses: a buffer manager that numbers its registrations *)

Record TableBm := mkTableBm { next_handle : Z; table : gset Z }.

(** Handles are issued in increasing order and never reused. *)
Definition TableBm_RegBuf (fd len : Z) (b : TableBm) : StatusOr Z * TableBm :=
  let h := Z.max 1 (set_fold Z.max (next_handle b) (table b) + 1) in
  (Ok h, mkTableBm h ({[h]} ∪ table b)).

Lemma fold_max_ge (X : gset Z) d : forall x, x ∈ X -> x <= set_fold Z.max d X.
Proof.
  apply (set_fold_ind_L (fun r X => forall x, x ∈ X -> x <= r)); [set_solver|].
  intros x Y r Hx IH y Hy. apply elem_of_union in Hy as [->%elem_of_singleton|Hy]; [lia|].
  specialize (IH y Hy). lia.
Qed.

#[export] Instance TableBm_client : BufferManagerClientInterface TableBm.
Proof.
  refine {| RegBuf := TableBm_RegBuf;
            DeregBuf h b := (OkStatus, mkTableBm (next_handle b) (table b ∖ {[h]}));
            registered := table |}; unfold TableBm_RegBuf.
  - intros fd len b h b' [= <- <-]. split_and!; [|unfold kInvalidRegistration; lia|done].
    intros Hin. pose proof (fold_max_ge _ (next_handle b) _ Hin). lia.
  - done.
  - by intros h b b' [= <-].
  - done.
Defined.

Definition ex_dev : MrSys := fresh_dev (mkTableBm 0 ∅) ∅.

Definition ex_mh : MemoryHandle := mkMemoryHandle 1 2 8192 8192 5.

Lemma ex_empty : registered (mkTableBm 0 ∅) = ∅.
Proof. reflexivity. Qed.

(** Two overlapping requests of device memory: one registration. *)
Lemma ex_mr_reachable :
  mr_reachable 2 4096 ex_dev
    (mkMrSys (mkMrDev (mkNcclMrCache (Some [mkNcclMr ex_mh 2 2]) 32 1) (mkTableBm 1 {[1]}) {[5]})
       [ex_mh; ex_mh] ∅).
Proof.
  eapply mr_reach_step; [eapply mr_reach_step; [apply mr_reach_init|]|].
  - eapply (mr_step_reg 2 4096 (Ok 5) (mkIovec 8192 8192) 2 None ex_mh); [|reflexivity].
    repeat split; vm_compute; congruence.
  - eapply (mr_step_reg 2 4096 (Ok 6) (mkIovec 12300 100) 2 None ex_mh); [|reflexivity].
    repeat split; vm_compute; congruence.
Qed.


Lemma mr_cache_lookup_witness : exists r w',
  RegMrDmaBuf 2 4096 true true (Ok 9) (mkIovec 12300 100) 2 None
    (mkMrDev (mkNcclMrCache (Some [mkNcclMr ex_mh 2 2]) 32 1) (mkTableBm 1 {[1]}) {[5]}) = Some (r, w')
  /\ buffer_manager w' = mkTableBm 1 {[1]}.
Proof.
  destruct (mr_cache_lookup 2 4096 12 ltac:(lia) eq_refl (mkTableBm 0 ∅) ex_empty ∅ _ (Ok 9)
              (mkIovec 12300 100) 2 None ex_mr_reachable) as (r & w' & E & _ & Hb).
  - repeat split; vm_compute; congruence.
  - reflexivity.
  - exists r, w'. split; [exact E|]. apply Hb. exists (mkNcclMr ex_mh 2 2). split; [left|reflexivity].
Defined.
