(* ===== verification/NcclShim.v ===== *)
(** * Requests and connections of the plugin
    (tcpdirect_plugin/fastrak_offload/nccl_shim.cc, request.h, common.h, stats.cc)

    A connection has one DXS socket per flow; requests go to the flows round
    robin, so that both ends agree on the flow of each request.  The model runs
    on the client of DxsClient.v over any control channel.  Statistics other
    than the request counters, the profiler hooks, and the addresses and trace
    identifier that are kept for messages, have no effect on the behaviour and
    are left out. *)

From S2P Require Import Prelude Packed ControlCommand ControlInterface DxsClient BufferManager MrCache.

(** [Timer::CheckTimeout] of a timer started at [start]. *)
Definition CheckTimeout (start now timeout : Z) : Status :=
  if timeout =? 0 then OkStatus
  else if timeout <? now - start then Err kDeadlineExceeded
  else OkStatus.

(** A connected socket behind [ConnectedSocketInterface]. *)
Inductive ConnectedSocket : Type :=
  | SendSock (s : SendSocket)
  | RecvSock (s : RecvSocket).

Definition sock_handle (s : ConnectedSocket) : Z :=
  match s with SendSock s => ss_handle_ s | RecvSock s => rs_handle_ s end.

Record Communication := mkCommunication {
  comm_idx : Z;
  comm_send : bool;
  dxs_socks : list (option ConnectedSocket);
  connection_timeout : Z;
  curr_flow_group_base : Z;
  selected_dev : Z;
  offload_scheduled : Z;
  offload_completed : Z;
  offload_backlog_peak : Z
}.

(** A new communication with the null sockets of [kFastrakMaxNumFlows] flows
    and its timer started. *)
Definition kFastrakMaxNumFlows : nat := 8.

Definition new_Communication (now idx : Z) (send : bool) : Communication :=
  mkCommunication idx send (replicate kFastrakMaxNumFlows None) now 0 (-1) 0 0 0.

Definition set_socks (socks : list (option ConnectedSocket)) (c : Communication) : Communication :=
  mkCommunication (comm_idx c) (comm_send c) socks (connection_timeout c) (curr_flow_group_base c)
    (selected_dev c) (offload_scheduled c) (offload_completed c) (offload_backlog_peak c).

Definition set_dev (dev : Z) (c : Communication) : Communication :=
  mkCommunication (comm_idx c) (comm_send c) (dxs_socks c) (connection_timeout c)
    (curr_flow_group_base c) dev (offload_scheduled c) (offload_completed c)
    (offload_backlog_peak c).

Definition GetOffloadBacklog (c : Communication) : Z :=
  u64 (offload_scheduled c - offload_completed c).

Inductive Op : Type :=
  | OpSend (o : SendOp)
  | OpRecv (o : LinearizedRecvOp).

(** [completion_time] is [None] for the infinite past. *)
Record ncclSocketRequest := mkRequest {
  req_size : Z;
  req_offset : Z;
  op_impl : Op;
  received_size : Z;
  start_time : Z;
  slowness_timeout : Z;
  completion_time : option Z
}.

Section requests.
Context {H : Type} `{ControlMessageHandlerInterface H}.
(** Constants of the NCCL headers, and the parameters [FASTRAK_NUM_FLOWS],
    [FASTRAK_DATA_TRANSFER_SLOWNESS_MS] and [FASTRAK_DATA_TRANSFER_TIMEOUT_MS]. *)
Context (NCCL_PTR_HOST NCCL_PTR_CUDA : Z).
Context (kFastrakNumFlows kSlowness kTransferTimeout : Z).

(** [None]: a null socket, or one of the other kind, is used. *)
Definition schedule (sock : option ConnectedSocket) (send : bool) (offset size reg : Z) (w : Dxs H)
    : option (StatusOr Op * Dxs H) :=
  match send, sock with
  | true, Some (SendSock s) =>
      let '(r, w) := Send s offset size reg w in Some (OpSend <$> r, w)
  | false, Some (RecvSock s) =>
      let '(r, w) := RecvLinearized s offset size reg w in Some (OpRecv <$> r, w)
  | _, _ => None
  end.

Definition GetRequest (now : Z) (data : iovec) (mhandle : MemoryHandle) (comm : Communication)
    (w : Dxs H) : option (StatusOr ncclSocketRequest * Communication * Dxs H) :=
  if negb (iov_len data =? 0) && negb (Z.land (mem_type mhandle) NCCL_PTR_HOST =? 0)
  then Some (Err kInvalidArgument, comm, w)
  else if Z.land (mem_type mhandle) (Z.lor NCCL_PTR_HOST NCCL_PTR_CUDA) =? 0
  then Some (Err kInvalidArgument, comm, w)
  else
    let offset := u64 (iov_base data - start_addr mhandle) in
    let size := iov_len data in
    sock ← dxs_socks comm !! Z.to_nat (curr_flow_group_base comm);
    '(r, w) ← schedule sock (comm_send comm) offset size (reg_handle mhandle) w;
    match r with
    | Err e => Some (Err e, comm, w)
    | Ok op =>
        let peak := Z.max (offload_backlog_peak comm) (GetOffloadBacklog comm) in
        let next := curr_flow_group_base comm + 1 in
        let next := if next =? kFastrakNumFlows then 0 else next in
        Some (Ok (mkRequest size (iov_base data - start_addr mhandle) op 0 now kSlowness None),
              mkCommunication (comm_idx comm) (comm_send comm) (dxs_socks comm)
                (connection_timeout comm) next (selected_dev comm)
                (u64 (offload_scheduled comm + 1)) (offload_completed comm) peak,
              w)
    end.

Definition Isend (now : Z) (data : iovec) (mhandle : MemoryHandle) (comm : Communication) (w : Dxs H)
    : option (StatusOr ncclSocketRequest * Communication * Dxs H) :=
  if negb (comm_send comm) then Some (Err kInvalidArgument, comm, w)
  else GetRequest now data mhandle comm w.

Definition Irecv (now : Z) (data : iovec) (mhandle : MemoryHandle) (comm : Communication) (w : Dxs H)
    : option (StatusOr ncclSocketRequest * Communication * Dxs H) :=
  if comm_send comm then Some (Err kInvalidArgument, comm, w)
  else GetRequest now data mhandle comm w.

Definition later (a b : option Z) : option Z :=
  match a, b with
  | Some x, Some y => Some (Z.max x y)
  | Some x, None => Some x
  | None, _ => b
  end.

Definition set_done (received : Z) (completion : option Z) (r : ncclSocketRequest)
    : ncclSocketRequest :=
  mkRequest (req_size r) (req_offset r) (op_impl r) received (start_time r) (slowness_timeout r)
    completion.

(** The two [pollFromDxs]; [None] when the operation has no shared state. *)
Definition pollFromDxs (now : Z) (r : ncclSocketRequest) (w : Dxs H)
    : option (StatusOr bool * ncclSocketRequest * Dxs H) :=
  match op_impl r with
  | OpSend op =>
      let '(t, w) := SendOp_Test now op w in
      test ← t;
      match test with
      | None => Some (Ok false, r, w)
      | Some (Err e) => Some (Err e, r, w)
      | Some (Ok _) =>
          st ← outstanding_send_ops_ (client w) !! send_op_id_ op;
          Some (Ok true,
                set_done (received_size r) (later (completion_time r) (so_completion_time st)) r, w)
      end
  | OpRecv op =>
      let '(t, w) := LinearizedRecvOp_Test now op w in
      result ← t;
      match result with
      | None => Some (Ok false, r, w)
      | Some (Err e) => Some (Err e, r, w)
      | Some (Ok size) =>
          st ← outstanding_linearized_recv_ops_ (client w) !! recv_op_id_ op;
          Some (Ok true, set_done size (later (completion_time r) (ro_completion_time st)) r, w)
      end
  end.

(** Deleting a request destroys its operation. *)
Definition delete_request (r : ncclSocketRequest) (w : Dxs H) : Dxs H :=
  match op_impl r with
  | OpSend op => destroy_SendOp op w
  | OpRecv op => destroy_LinearizedRecvOp op w
  end.

(** [PrintTest] warns about a slow request and doubles the time to the next
    warning. *)
Definition PrintTest (now : Z) (r : ncclSocketRequest) : ncclSocketRequest :=
  if is_ok (CheckTimeout (start_time r) now (slowness_timeout r)) then r
  else mkRequest (req_size r) (req_offset r) (op_impl r) (received_size r) (start_time r)
         (slowness_timeout r * 2) (completion_time r).

(** [Test]; a request is deleted when the result is [Ok (Some size)]. *)
Definition NcclShim_Test (now : Z) (r : ncclSocketRequest) (comm : Communication) (w : Dxs H)
    : option (StatusOr (option Z) * ncclSocketRequest * Communication * Dxs H) :=
  '(polled, r, w) ← pollFromDxs now r w;
  match polled with
  | Err e => Some (Err e, r, comm, w)
  | Ok false =>
      let r := PrintTest now r in
      match CheckTimeout (start_time r) now kTransferTimeout with
      | Err e => Some (Err e, r, comm, w)
      | Ok _ => Some (Ok None, r, comm, w)
      end
  | Ok true =>
      let size := if comm_send comm then req_size r else received_size r in
      let r := mkRequest size (req_offset r) (op_impl r) (received_size r) (start_time r)
                 (slowness_timeout r) (completion_time r) in
      let comm := mkCommunication (comm_idx comm) (comm_send comm) (dxs_socks comm)
                    (connection_timeout comm) (curr_flow_group_base comm) (selected_dev comm)
                    (offload_scheduled comm) (u64 (offload_completed comm + 1))
                    (offload_backlog_peak comm) in
      (* the result type is [int] *)
      Some (Ok (Some (s32 size)), r, comm, delete_request r w)
  end.

End requests.

(** ** A communication and its requests *)

Section comm_steps.
Context {H : Type} `{ControlMessageHandlerInterface H}.
Context (NCCL_PTR_HOST NCCL_PTR_CUDA kFastrakNumFlows kSlowness kTransferTimeout : Z).

#[local] Abbreviation get_request := (GetRequest NCCL_PTR_HOST NCCL_PTR_CUDA kFastrakNumFlows kSlowness).
#[local] Abbreviation shim_test := (NcclShim_Test kTransferTimeout).

(** The requests NCCL polls, and those that failed, which the plugin keeps
    because NCCL may poll them again. *)
Record CommSys := mkCommSys {
  comm : Communication;
  pending : list ncclSocketRequest;
  errored : list ncclSocketRequest;
  comm_dxs : Dxs H
}.

Inductive comm_step : CommSys -> CommSys -> Prop :=
  | step_request now data mh r c c' w w' ps es :
      offload_scheduled c < 2 ^ 64 - 1 ->
      get_request now data mh c w = Some (Ok r, c', w') ->
      comm_step (mkCommSys c ps es w) (mkCommSys c' (r :: ps) es w')
  | step_request_err now data mh e c c' w w' ps es :
      get_request now data mh c w = Some (Err e, c', w') ->
      comm_step (mkCommSys c ps es w) (mkCommSys c' ps es w')
  | step_test_pending now r r' c c' w w' ps1 ps2 es :
      shim_test now r c w = Some (Ok None, r', c', w') ->
      comm_step (mkCommSys c (ps1 ++ r :: ps2) es w) (mkCommSys c' (ps1 ++ r' :: ps2) es w')
  | step_test_done now r r' n c c' w w' ps1 ps2 es :
      shim_test now r c w = Some (Ok (Some n), r', c', w') ->
      comm_step (mkCommSys c (ps1 ++ r :: ps2) es w) (mkCommSys c' (ps1 ++ ps2) es w')
  | step_test_err now r r' e c c' w w' ps1 ps2 es :
      shim_test now r c w = Some (Err e, r', c', w') ->
      comm_step (mkCommSys c (ps1 ++ r :: ps2) es w) (mkCommSys c' (ps1 ++ ps2) (r' :: es) w')
  | step_dxs c w w' ps es : comm_step (mkCommSys c ps es w) (mkCommSys c ps es w').

(** A connected communication without requests. *)
Inductive comm_reachable (now idx : Z) (send : bool) (socks : list (option ConnectedSocket))
    (w : Dxs H) : CommSys -> Prop :=
  | comm_init : comm_reachable now idx send socks w
      (mkCommSys (set_socks socks (new_Communication now idx send)) [] [] w)
  | comm_next s s' : comm_reachable now idx send socks w s -> comm_step s s' ->
      comm_reachable now idx send socks w s'.

Definition comm_inv (s : CommSys) : Prop :=
  0 <= offload_completed (comm s) /\ offload_scheduled (comm s) < 2 ^ 64
  /\ offload_scheduled (comm s) - offload_completed (comm s)
     = Zlen (pending s) + Zlen (errored s)
  /\ curr_flow_group_base (comm s) = offload_scheduled (comm s) mod kFastrakNumFlows.

(** What a request changes in the communication. *)
Lemma GetRequest_comm now data mh c w r c' w' :
  get_request now data mh c w = Some (r, c', w') ->
  dxs_socks c' = dxs_socks c /\ comm_send c' = comm_send c
  /\ offload_completed c' = offload_completed c
  /\ match r with
     | Ok _ =>
         offload_scheduled c' = u64 (offload_scheduled c + 1)
         /\ curr_flow_group_base c'
            = (if curr_flow_group_base c + 1 =? kFastrakNumFlows then 0
               else curr_flow_group_base c + 1)
     | Err _ => c' = c
     end.
Proof.
  unfold GetRequest. destruct (_ && _); [by intros [= <- <- <-]|].
  destruct (_ =? 0); [by intros [= <- <- <-]|].
  destruct (dxs_socks c !! _) as [sock|]; [|done]. cbn.
  destruct (schedule _ _ _ _ _ _) as [[[op|e] w1]|]; [| |done]; cbn; by intros [= <- <- <-].
Qed.

Lemma flow_succ s : 0 < kFastrakNumFlows -> 0 <= s ->
  (if s mod kFastrakNumFlows + 1 =? kFastrakNumFlows then 0 else s mod kFastrakNumFlows + 1)
  = (s + 1) mod kFastrakNumFlows.
Proof.
  intros Hn Hs. pose proof (Z.mod_pos_bound s kFastrakNumFlows Hn) as Hb.
  rewrite <- (Zplus_mod_idemp_l s 1). generalize dependent (s mod kFastrakNumFlows). intros m Hb.
  destruct (Z.eqb_spec (m + 1) kFastrakNumFlows) as [->|E].
  - by rewrite Z.mod_same by lia.
  - by rewrite Z.mod_small by lia.
Qed.

(** What a test changes in the communication. *)
Lemma Test_comm now r c w res r' c' w' :
  shim_test now r c w = Some (res, r', c', w') ->
  offload_scheduled c' = offload_scheduled c /\ curr_flow_group_base c' = curr_flow_group_base c
  /\ dxs_socks c' = dxs_socks c /\ comm_send c' = comm_send c
  /\ match res with
     | Ok (Some _) => offload_completed c' = u64 (offload_completed c + 1)
     | _ => c' = c
     end.
Proof.
  unfold NcclShim_Test. destruct (pollFromDxs _ _ _) as [[[polled r1] w1]|]; [|done].
  cbn. repeat case_match; intros; simplify_eq/=; done.
Qed.

Lemma comm_step_inv s s' : 0 < kFastrakNumFlows ->
  comm_step s s' -> comm_inv s -> comm_inv s'.
Proof.
  intros Hn St (I0 & I1 & I2 & I3). unfold comm_inv.
  destruct St as [now data mh r c c' w w' ps es Hlt E|now data mh e c c' w w' ps es E
                 |now r r' c c' w w' ps1 ps2 es E|now r r' n c c' w w' ps1 ps2 es E
                 |now r r' e c c' w w' ps1 ps2 es E|c w w' ps es]; cbn in *;
    rewrite ?Zlen_app, ?Zlen_cons in *; try done;
    try (pose proof (Zlen_nonneg ps1); pose proof (Zlen_nonneg ps2));
    try (pose proof (Zlen_nonneg ps)); pose proof (Zlen_nonneg es);
    try apply GetRequest_comm in E as (_ & _ & Ec & Es);
    try apply Test_comm in E as (Ec & Ef & _ & _ & Es).
  - destruct Es as [-> ->]. rewrite I3, flow_succ, Ec by lia.
    unfold u64. rewrite Z.mod_small by lia. split_and!; try done; lia.
  - by subst.
  - subst. split_and!; try done; lia.
  - rewrite Ec, Ef, Es. unfold u64. rewrite Z.mod_small by lia. split_and!; try done; lia.
  - subst. split_and!; try done; lia.
Qed.

(** In every execution of a communication, whatever the
    client delivers: the next request goes to the flow whose index is the number
    of requests accepted so far modulo the number of flows (so the k-th send of
    one end and the k-th receive of the other use the same flow, also after
    refused requests), and the backlog is the number of accepted requests whose
    completion was not reported. *)
Theorem requests_round_robin now idx send socks w s :
  0 < kFastrakNumFlows -> comm_reachable now idx send socks w s ->
  curr_flow_group_base (comm s) = offload_scheduled (comm s) mod kFastrakNumFlows
  /\ 0 <= curr_flow_group_base (comm s) < kFastrakNumFlows
  /\ GetOffloadBacklog (comm s) = Zlen (pending s) + Zlen (errored s).
Proof.
  intros Hn R. assert (Hi : comm_inv s).
  { induction R as [|s s' _ IH St]; [|by eapply comm_step_inv].
    unfold comm_inv; cbn. by rewrite Z.mod_0_l by lia. }
  destruct Hi as (I0 & I1 & I2 & I3). rewrite I3.
  pose proof (Z.mod_pos_bound (offload_scheduled (comm s)) kFastrakNumFlows Hn).
  split_and!; try done; try lia. unfold GetOffloadBacklog, u64. rewrite I2, Z.mod_small; [done|].
  pose proof (Zlen_nonneg (pending s)). pose proof (Zlen_nonneg (errored s)). lia.
Qed.

End comm_steps.

(** ** What the server sees *)

(** The data socket a request message names. *)
Definition message_sock (m : list Z) : option Z :=
  match ControlCommand_of (nthZ m 0) with
  | kSend => SendMessage_sock <$> ValidateAndGetMessage m
  | kRecv => RecvMessage_sock <$> ValidateAndGetMessage m
  | _ => None
  end.

#[local] Existing Instance LogChannel.

Section wire.
Context (NCCL_PTR_HOST NCCL_PTR_CUDA kFastrakNumFlows kSlowness : Z).
Context (flows_pos : 0 < kFastrakNumFlows).

#[local] Abbreviation get_request := (GetRequest NCCL_PTR_HOST NCCL_PTR_CUDA kFastrakNumFlows kSlowness).

(** A sequence of requests, accepted or refused, over a channel that accepts
    every message. *)
Fixpoint issue (now : Z) (calls : list (iovec * MemoryHandle)) (c : Communication)
    (w : Dxs (list (list Z))) : option (Communication * Dxs (list (list Z))) :=
  match calls with
  | [] => Some (c, w)
  | (data, mh) :: calls' =>
      '(_, c, w) ← get_request now data mh c w;
      issue now calls' c w
  end.

(** The sockets of all flows are connected and of the kind of the communication. *)
Definition flow_ok (c : Communication) (f : Z) : Prop :=
  exists s, dxs_socks c !! Z.to_nat f = Some (Some s) /\ is_u64 (sock_handle s)
            /\ match s with SendSock _ => comm_send c = true | RecvSock _ => comm_send c = false end.

Definition call_ok (x : iovec * MemoryHandle) : Prop :=
  is_u64 (iov_len x.1) /\ is_u64 (reg_handle x.2).

Lemma schedule_wire s send offset size reg (w : Dxs (list (list Z))) :
  is_u64 offset -> is_u64 size -> is_u64 reg -> is_u64 (next_op_id_ (client w)) ->
  is_u64 (sock_handle s) ->
  match s with SendSock _ => send = true | RecvSock _ => send = false end ->
  exists op w' m, schedule (Some s) send offset size reg w = Some (Ok op, w')
    /\ channel w' = channel w ++ [m] /\ message_sock m = Some (sock_handle s)
    /\ is_u64 (next_op_id_ (client w')).
Proof.
  intros Ho Hs Hr Hn Hh Hk. destruct w as [c h]. destruct c. destruct s as [s|s]; subst send; cbn [schedule sock_handle] in *.
  - do 3 eexists. split_and!; [reflexivity|reflexivity| |apply u64_range].
    unfold message_sock. change (ControlCommand_of _) with kSend. cbn iota.
    rewrite validate_encode; [done|]. repeat split; unfold is_u64 in *; cbn in *; lia.
  - do 3 eexists. split_and!; [reflexivity|reflexivity| |apply u64_range].
    unfold message_sock. change (ControlCommand_of _) with kRecv. cbn iota.
    rewrite validate_encode; [done|]. repeat split; unfold is_u64 in *; cbn in *; lia.
Qed.

(** One request sends one message, on the current flow, or nothing. *)
Lemma GetRequest_wire now data mh c w :
  flow_ok c (curr_flow_group_base c) -> call_ok (data, mh) -> is_u64 (next_op_id_ (client w)) ->
  exists r c' w', get_request now data mh c w = Some (r, c', w')
    /\ is_u64 (next_op_id_ (client w'))
    /\ match r with
       | Err _ => channel w' = channel w
       | Ok _ => exists s m, dxs_socks c !! Z.to_nat (curr_flow_group_base c) = Some (Some s)
           /\ channel w' = channel w ++ [m] /\ message_sock m = Some (sock_handle s)
       end.
Proof.
  intros (s & Es & Hs & Hk) [Hd Hm] Hn. unfold GetRequest.
  destruct (_ && _); [by do 3 eexists|]. destruct (_ =? 0); [by do 3 eexists|].
  rewrite Es. cbn [mbind option_bind].
  destruct (schedule_wire s (comm_send c) (u64 (iov_base data - start_addr mh)) (iov_len data)
              (reg_handle mh) w (u64_range _) Hd Hm Hn Hs Hk) as (op & w' & m & -> & Hw & Hsock & Hn').
  do 3 eexists. split; [reflexivity|]. split; [done|]. by exists s, m.
Qed.

(** C14 (flows on the wire).  A sequence of requests, some possibly refused,
    on a communication whose flows are all connected sends one message per
    accepted request; the j-th of them names the socket of the flow with index
    (accepted before + j) modulo the number of flows. *)
Theorem flows_on_wire now calls : forall c w,
  (forall f, 0 <= f < kFastrakNumFlows -> flow_ok c f) -> Forall call_ok calls ->
  is_u64 (next_op_id_ (client w)) ->
  0 <= offload_scheduled c -> offload_scheduled c + Zlen calls < 2 ^ 64 ->
  curr_flow_group_base c = offload_scheduled c mod kFastrakNumFlows ->
  exists c' w' msgs, issue now calls c w = Some (c', w') /\ channel w' = channel w ++ msgs
    /\ offload_scheduled c' = offload_scheduled c + Zlen msgs
    /\ forall j m, msgs !! j = Some m -> exists s,
         dxs_socks c !! Z.to_nat ((offload_scheduled c + Z.of_nat j) mod kFastrakNumFlows)
         = Some (Some s)
         /\ message_sock m = Some (sock_handle s).
Proof using flows_pos.
  induction calls as [|[data mh] calls IH]; intros c w Hf Hc Hn H0 H1 Hcur.
  - exists c, w, []. rewrite app_nil_r, Zlen_nil. split_and!; [done|done|lia|done].
  - inversion_clear Hc as [|? ? Hd Hcs]. rewrite Zlen_cons in H1.
    pose proof (Z.mod_pos_bound (offload_scheduled c) kFastrakNumFlows flows_pos) as Hb.
    rewrite <- Hcur in Hb. pose proof (Zlen_nonneg calls).
    destruct (GetRequest_wire now data mh c w (Hf _ Hb) Hd Hn) as (r & c1 & w1 & E & Hn1 & Hr).
    cbn [issue]. rewrite E. cbn [mbind option_bind].
    destruct (GetRequest_comm _ _ _ _ _ _ _ _ _ _ _ _ E) as (Es & Ek & _ & Ec).
    assert (Hf1 : forall f, 0 <= f < kFastrakNumFlows -> flow_ok c1 f).
    { intros f Hfl. unfold flow_ok. rewrite Es, Ek. by apply Hf. }
    destruct r as [rq|e].
    + destruct Ec as [Ec Eb], Hr as (s & m & Hs & Hch & Hm).
      unfold u64 in Ec. rewrite Z.mod_small in Ec by lia.
      destruct (IH c1 w1) as (c' & w' & msgs & -> & Hch' & Hsc & Hj); try done; try lia.
      { rewrite Eb, Hcur, flow_succ, Ec by lia. done. }
      exists c', w', (m :: msgs). rewrite Hch', Hch, <- app_assoc, Zlen_cons.
      split_and!; try done; try lia. intros [|j] m' Hj'; cbn in Hj'.
      * injection Hj' as <-. exists s. by rewrite Z.add_0_r, <- Hcur.
      * destruct (Hj j m' Hj') as (s' & Hs' & Hm'). exists s'. rewrite Es, Ec in Hs'.
        split; [|done]. rewrite <- Hs'. do 3 f_equal. lia.
    + subst c1. destruct (IH c w1) as (c' & w' & msgs & -> & Hch' & Hsc & Hj); try done; try lia.
      exists c', w', msgs. rewrite Hch', Hr. by split_and!.
Qed.

End wire.

(** *** Witnesses: a sending communication with two flows *)

Definition ex_addr : WireSocketAddr := FromIp4 [10; 0; 0; 1] 5000.

Definition ex_socks : list (option ConnectedSocket) :=
  [Some (SendSock (mkSendSocket 1 ex_addr false)); Some (SendSock (mkSendSocket 2 ex_addr false))].

Definition ex_comm : Communication := set_socks ex_socks (new_Communication 0 1 true).

Definition ex_region : MemoryHandle := mkMemoryHandle 7 2 4096 8192 5.

Lemma requests_round_robin_witness :
  match GetRequest 1 2 2 5 0 (mkIovec 4096 100) ex_region ex_comm ex_dxs0 with
  | Some (Ok r, c, w) => curr_flow_group_base c = 1 /\ GetOffloadBacklog c = 1
  | _ => False
  end.
Proof.
  destruct (GetRequest 1 2 2 5 0 (mkIovec 4096 100) ex_region ex_comm ex_dxs0)
    as [[[[r|e] c] w]|] eqn:E; try discriminate E.
  assert (R : comm_reachable 1 2 2 5 0 0 1 true ex_socks ex_dxs0 (mkCommSys c [r] [] w)).
  { eapply comm_next; [apply comm_init|]. eapply step_request; [|exact E]. reflexivity. }
  destruct (requests_round_robin 1 2 2 5 0 0 1 true ex_socks ex_dxs0 _ eq_refl R) as (_ & Hb & Hl).
  split; [|exact Hl]. injection E as _ <- _. reflexivity.
Defined.

Lemma flows_on_wire_witness : exists c' w' msgs,
  issue 1 2 2 5 0 [(mkIovec 4096 100, ex_region); (mkIovec 4196 50, ex_region);
                   (mkIovec 4096 8, mkMemoryHandle 0 1 4096 8 0); (mkIovec 4096 7, ex_region)]
    ex_comm ex_dxs0 = Some (c', w')
  /\ channel w' = msgs /\ offload_scheduled c' = Zlen msgs.
Proof.
  destruct (flows_on_wire 1 2 2 5 ltac:(lia) 0
              [(mkIovec 4096 100, ex_region); (mkIovec 4196 50, ex_region);
               (mkIovec 4096 8, mkMemoryHandle 0 1 4096 8 0); (mkIovec 4096 7, ex_region)]
              ex_comm ex_dxs0) as (c' & w' & msgs & E & Hc & Hs & _).
  - intros f Hf. assert (f = 0 \/ f = 1) as [->| ->] by lia.
    + exists (SendSock (mkSendSocket 1 ex_addr false)). by vm_compute.
    + exists (SendSock (mkSendSocket 2 ex_addr false)). by vm_compute.
  - repeat constructor; by vm_compute.
  - by vm_compute.
  - by vm_compute.
  - by vm_compute.
  - reflexivity.
  - exists c', w', msgs. by split_and!.
Defined.
