(* ===== verification/PciTopology.v ===== *)
(** * GPUs and NICs in the PCI tree
    (buffer_mgmt_daemon/pci_utils.{h,cc},
    buffer_mgmt_daemon/a3_gpu_rxq_configurator.{h,cc})

    The daemon finds the network interfaces that are PCI devices, the switches
    above them and the GPUs below those switches in sysfs, and pairs every GPU
    with a NIC of its switch.  Sysfs is a tree of directories and files. *)

From Stdlib Require Import Ascii.
From stdpp Require Import sorting.
From S2P Require Import Prelude.

(** ** Strings *)

Definition lower_ascii (a : ascii) : ascii :=
  let n := N_of_ascii a in
  if (65 <=? n)%N && (n <=? 90)%N then ascii_of_N (n + 32) else a.

Fixpoint AsciiStrToLower (s : string) : string :=
  match s with
  | EmptyString => EmptyString
  | String a s' => String (lower_ascii a) (AsciiStrToLower s')
  end.

Lemma lower_ascii_idem a : lower_ascii (lower_ascii a) = lower_ascii a.
Proof. destruct a as [[] [] [] [] [] [] [] []]; reflexivity. Qed.

Lemma AsciiStrToLower_idem s : AsciiStrToLower (AsciiStrToLower s) = AsciiStrToLower s.
Proof. induction s as [|a s IH]; cbn; [done|]. by rewrite lower_ascii_idem, IH. Qed.

(** [std::sort] of strings, which are ordered by bytes. *)
Definition sort_strings (l : list string) : list string := merge_sort String.le l.

Lemma StronglySorted_lookup_le {A} (R : relation A) `{!Reflexive R} l i j x y :
  StronglySorted R l -> l !! i = Some x -> l !! j = Some y -> (i <= j)%nat -> R x y.
Proof.
  intros Hs Hi Hj Hle. destruct (decide (i = j)) as [->|Hne]; [by simplify_eq|].
  rewrite <- (take_drop_middle l i x Hi), (cons_middle x), app_assoc in Hs.
  eapply StronglySorted_app_1_elem_of; [exact Hs|apply elem_of_app; right; by apply list_elem_of_singleton|].
  apply list_elem_of_lookup_2 with (j - S i)%nat. rewrite lookup_drop. by replace (S i + (j - S i))%nat with j by lia.
Qed.

(** What is before and after the last slash. *)
Fixpoint strrchr_slash (s : string) : option (string * string) :=
  match s with
  | EmptyString => None
  | String a s' =>
      match strrchr_slash s' with
      | Some (before, after) => Some (String a before, after)
      | None => if Ascii.eqb a "/"%char then Some (EmptyString, s') else None
      end
  end.

(** ** [sscanf] with [%hx] *)

Definition is_space (a : ascii) : bool :=
  let n := N_of_ascii a in (n =? 32)%N || (9 <=? n)%N && (n <=? 13)%N.

Definition hex_digit (a : ascii) : option Z :=
  let n := Z.of_N (N_of_ascii a) in
  if (48 <=? n) && (n <=? 57) then Some (n - 48)
  else if (65 <=? n) && (n <=? 70) then Some (n - 55)
  else if (97 <=? n) && (n <=? 102) then Some (n - 87)
  else None.

Fixpoint skip_spaces (s : string) : string :=
  match s with
  | String a s' => if is_space a then skip_spaces s' else s
  | EmptyString => s
  end.

(** The longest prefix of digits, most significant first, added to [acc]. *)
Fixpoint hex_digits (acc : Z) (s : string) : Z * string :=
  match s with
  | String a s' =>
      match hex_digit a with Some d => hex_digits (16 * acc + d) s' | None => (acc, s) end
  | EmptyString => (acc, s)
  end.

(** A hexadecimal number after white space, an optional sign and an optional
    prefix, saturated to 64 bits and stored in 16 bits. *)
Definition scan_hx (s : string) : option (Z * string) :=
  let '(negative, s) :=
    match skip_spaces s with
    | String "+"%char s' => (false, s')
    | String "-"%char s' => (true, s')
    | s' => (false, s')
    end in
  let s := match s with String "0"%char (String "x"%char s') | String "0"%char (String "X"%char s') => String "0"%char s' | _ => s end in
  match s with
  | String a _ =>
      match hex_digit a with
      | None => None
      | Some _ =>
          let '(n, rest) := hex_digits 0 s in
          let n := Z.min n (2 ^ 64 - 1) in
          Some (u16 (if (negative : bool) then - n else n), rest)
      end
  | EmptyString => None
  end.

(** A character of the format that is not a directive. *)
Definition scan_char (a : ascii) (s : string) : option string :=
  match s with String b s' => if Ascii.eqb a b then Some s' else None | EmptyString => None end.

(** ** pci_utils.cc *)

Definition parse_pci_addr (pci_addr : string) : option (Z * Z * Z * Z) :=
  '(domain, s) ← scan_hx pci_addr;
  s ← scan_char ":"%char s;
  '(bus, s) ← scan_hx s;
  s ← scan_char ":"%char s;
  '(device, s) ← scan_hx s;
  s ← scan_char "."%char s;
  '(function, _) ← scan_hx s;
  Some (domain, bus, device, function).

Definition is_pci_addr (s : string) : bool := bool_decide (is_Some (parse_pci_addr s)).

Inductive Sysfs : Type :=
  | File (contents : string)
  | Dir (entries : list (string * Sysfs)).

Definition PCI_ID_LEN : nat := 6.

(** A C string ends at the first null. *)
Fixpoint c_string (s : string) : string :=
  match s with
  | String a s' => if Ascii.eqb a zero then EmptyString else String a (c_string s')
  | EmptyString => EmptyString
  end.

(** [read_pci_id] of what is at the path; a directory cannot be read. *)
Definition read_pci_id (path : option Sysfs) : string :=
  match path with
  | Some (File contents) => c_string (String.substring 0 PCI_ID_LEN contents)
  | _ => EmptyString
  end.

Fixpoint find_entry (name : string) (entries : list (string * Sysfs)) : option Sysfs :=
  match entries with
  | [] => None
  | (n, node) :: entries => if String.eqb n name then Some node else find_entry name entries
  end.

Definition entry (name : string) (node : Sysfs) : option Sysfs :=
  match node with Dir entries => find_entry name entries | File _ => None end.

(** The vendor matches, and the device unless any will do. *)
Definition vendor_match (vendor_id : string) (device_id : option string) (node : Sysfs) : bool :=
  String.eqb (read_pci_id (entry "vendor" node)) vendor_id
  && match device_id with
     | None => true
     | Some device_id => String.eqb (read_pci_id (entry "device" node)) device_id
     end.

(** [None] for -1. *)
Fixpoint list_vendor_devices (vendor_id : string) (device_id : option string) (root_dir : Sysfs)
    : option (list string) :=
  match root_dir with
  | File _ => None
  | Dir entries =>
      Some ((fix loop (entries : list (string * Sysfs)) : list string :=
        match entries with
        | [] => []
        | (d_name, subdir) :: entries =>
            if is_pci_addr d_name then
              (if vendor_match vendor_id device_id subdir then [d_name] else [])
              ++ default [] (list_vendor_devices vendor_id device_id subdir)
              ++ loop entries
            else loop entries
        end) entries)
  end.

Definition kNvidiaVendorId : string := "0x10de"%string.
Definition kH100DeviceId : string := "0x2330"%string.

(** ** a3_gpu_rxq_configurator.cc *)

Record GpuRxqConfiguration := mkConfig {
  gpu_pci_addr : string;
  nic_pci_addr : string;
  ifname : string;
  ip_addr : string
}.

#[export] Instance GpuRxqConfiguration_eq_dec : EqDecision GpuRxqConfiguration.
Proof. solve_decision. Defined.

(** [ifa_addr] is the address family and the bytes of the address. *)
Record ifaddrs := mkIfaddrs { ifa_name : string; ifa_addr : option (Z * list Z) }.

Definition AF_INET : Z := 2.
Definition AF_INET6 : Z := 10.
Definition MAX_HOPS : Z := 4.

Record A3GpuRxqConfigurator := mkConfigurator {
  netdev_pci_to_netdev_ : gmap string (string * string);
  parent_switches_ : gset string;
  nic_vendor_id_ : string;
  nic_device_id_ : string
}.

Definition new_Configurator : A3GpuRxqConfigurator := mkConfigurator ∅ ∅ EmptyString EmptyString.

Section configurator.
(** [inet_ntop], [realpath], and what is at a path. *)
Context (inet_ntop : Z -> list Z -> option string).
Context (realpath : string -> option string) (node_at : string -> option Sysfs).

Definition get_ip_from_sockaddr (sa : Z * list Z) : string :=
  if (sa.1 =? AF_INET) || (sa.1 =? AF_INET6) then default EmptyString (inet_ntop sa.1 sa.2) else EmptyString.

Definition drop_trailing_slash (s : string) : string :=
  match strrchr_slash s with Some (before, EmptyString) => before | _ => s end.

(** The loop over the hops: the PCI address and the path of the switch.  [None]
    when it writes through a null pointer. *)
Fixpoint climb (num_hops : nat) (pci_addr : option string) (path : string) : option (option string * string) :=
  match num_hops with
  | O => Some (pci_addr, path)
  | S num_hops =>
      '(before, after) ← strrchr_slash path;
      climb num_hops (match pci_addr with Some _ => pci_addr | None => Some after end) before
  end.

(** An iteration of [DiscoverAllNics]; [None] for a crash. *)
Definition DiscoverNic (num_hops : Z) (head : ifaddrs) (c : A3GpuRxqConfigurator)
    : option A3GpuRxqConfigurator :=
  match ifa_addr head with
  | None => Some c
  | Some sa =>
      if negb (sa.1 =? AF_INET) && negb (sa.1 =? AF_INET6) then Some c
      else
        let if_sysfs_path := ("/sys/class/net/" +:+ ifa_name head +:+ "/device/")%string in
        match realpath if_sysfs_path with
        | None => Some c
        | Some if_sysfs_realpath =>
            if bool_decide (is_Some (String.index 0 "/virtual" if_sysfs_realpath)) then Some c
            else
              let c := mkConfigurator (netdev_pci_to_netdev_ c) (parent_switches_ c)
                         (read_pci_id (node_at (if_sysfs_path +:+ "/vendor")))
                         (read_pci_id (node_at (if_sysfs_path +:+ "/device"))) in
              '(pci_addr, switch) ← climb (Z.to_nat num_hops) None (drop_trailing_slash if_sysfs_realpath);
              pci_addr ← pci_addr;
              if negb (is_pci_addr pci_addr) then Some c
              else
                let if_ip_addr := get_ip_from_sockaddr sa in
                if String.eqb if_ip_addr EmptyString then Some c
                else
                  match netdev_pci_to_netdev_ c !! AsciiStrToLower pci_addr with
                  | Some _ => Some c
                  | None =>
                      Some (mkConfigurator
                              (<[AsciiStrToLower pci_addr := (ifa_name head, if_ip_addr)]> (netdev_pci_to_netdev_ c))
                              ({[switch]} ∪ parent_switches_ c) (nic_vendor_id_ c) (nic_device_id_ c))
                  end
        end
  end.

Fixpoint DiscoverLoop (num_hops : Z) (all_ifs : list ifaddrs) (c : A3GpuRxqConfigurator)
    : option A3GpuRxqConfigurator :=
  match all_ifs with
  | [] => Some c
  | head :: all_ifs => c ← DiscoverNic num_hops head c; DiscoverLoop num_hops all_ifs c
  end.

(** [getifaddrs] may fail. *)
Definition DiscoverAllNics (FLAGS_num_hops : Z) (getifaddrs : option (list ifaddrs)) (c : A3GpuRxqConfigurator)
    : option A3GpuRxqConfigurator :=
  match getifaddrs with
  | None => Some c
  | Some all_ifs => DiscoverLoop (Z.min FLAGS_num_hops MAX_HOPS) all_ifs c
  end.

(** The loop over the sorted GPUs of a switch, from the [i]-th on; [None] when
    it divides by zero or reads after the end of [nics]. *)
Fixpoint PairLoop (netdevs : gmap string (string * string)) (gpus_per_nic i : Z) (gpus nics : list string)
    : option (list GpuRxqConfiguration) :=
  match gpus with
  | [] => Some []
  | gpu :: gpus =>
      if gpus_per_nic =? 0 then None
      else
        nic ← nics !! Z.to_nat (i / gpus_per_nic);
        configurations ← PairLoop netdevs gpus_per_nic (i + 1) gpus nics;
        let netdev_pci := AsciiStrToLower nic in
        match netdevs !! netdev_pci with
        | None => Some configurations
        | Some (netdev_name, ip_addr) =>
            Some (mkConfig (AsciiStrToLower gpu) netdev_pci netdev_name ip_addr :: configurations)
        end
  end.

(** The order of [GpuRxqConfigurationComparator]. *)
Definition config_le (a b : GpuRxqConfiguration) : Prop :=
  if decide (nic_pci_addr a = nic_pci_addr b)
  then String.le (gpu_pci_addr a) (gpu_pci_addr b)
  else String.le (nic_pci_addr a) (nic_pci_addr b).

#[export] Instance config_le_dec : RelDecision config_le.
Proof. intros a b. unfold config_le. case_decide; apply _. Defined.

(** What an iteration over the switches adds; [Some None] when it does nothing
    else, [None] for a crash. *)
Definition SwitchConfigurations (c : A3GpuRxqConfigurator) (parent_switch : string)
    : option (option (list GpuRxqConfiguration)) :=
  match node_at parent_switch ≫= list_vendor_devices kNvidiaVendorId (Some kH100DeviceId) with
  | None => Some None
  | Some gpus =>
      match node_at parent_switch ≫= list_vendor_devices (nic_vendor_id_ c) (Some (nic_device_id_ c)) with
      | None => Some None
      | Some nics =>
          if bool_decide (nics = []) || bool_decide (gpus = []) then Some None
          else
            let gpus := sort_strings gpus in
            let nics := sort_strings nics in
            let gpus_per_nic := Zlen gpus / Zlen nics in
            Some <$> PairLoop (netdev_pci_to_netdev_ c) gpus_per_nic 0 gpus nics
      end
  end.

(** The loop over the switches; [std::sort] puts configurations that are
    equivalent in any order. *)
Fixpoint SwitchLoop (c : A3GpuRxqConfigurator) (switches : list string)
    (configurations : list GpuRxqConfiguration) : option (list GpuRxqConfiguration) :=
  match switches with
  | [] => Some configurations
  | switch :: switches =>
      added ← SwitchConfigurations c switch;
      SwitchLoop c switches
        (match added with
         | None => configurations
         | Some added => merge_sort config_le (configurations ++ added)
         end)
  end.

(** The order in which a hash set is traversed. *)
Context (hash_order : gset string -> list string).

Definition GetConfigurations (FLAGS_num_hops : Z) (getifaddrs : option (list ifaddrs)) (c : A3GpuRxqConfigurator)
    : option (list GpuRxqConfiguration * A3GpuRxqConfigurator) :=
  c ← DiscoverAllNics FLAGS_num_hops getifaddrs c;
  configurations ← SwitchLoop c (hash_order (parent_switches_ c)) [];
  Some (configurations, c).
End configurator.

(** ** Devices below a directory *)

Section sysfs_ind.
Context (P : Sysfs -> Prop).
Context (P_file : forall contents, P (File contents)).
Context (P_dir : forall entries, (forall name node, (name, node) ∈ entries -> P node) -> P (Dir entries)).

Fixpoint Sysfs_nested_ind (node : Sysfs) : P node.
Proof.
  destruct node as [contents|entries]; [apply P_file|apply P_dir].
  induction entries as [|[n d] entries IH]; [intros name node H; destruct (not_elem_of_nil _ H)|].
  intros name node H. apply elem_of_cons in H as [[= -> ->]|H]; [apply Sysfs_nested_ind|exact (IH _ _ H)].
Qed.
End sysfs_ind.

(** A device below a directory through directories with names of devices. *)
Inductive pci_device : Sysfs -> string -> Sysfs -> Prop :=
  | device_here entries name node :
      (name, node) ∈ entries -> is_pci_addr name = true -> pci_device (Dir entries) name node
  | device_below entries bridge subdir name node :
      (bridge, subdir) ∈ entries -> is_pci_addr bridge = true -> pci_device subdir name node ->
      pci_device (Dir entries) name node.

Lemma pci_device_dir entries name node :
  pci_device (Dir entries) name node
  <-> exists bridge subdir, (bridge, subdir) ∈ entries /\ is_pci_addr bridge = true
        /\ (bridge = name /\ subdir = node \/ pci_device subdir name node).
Proof.
  split.
  - intros H. inversion H; subst; eauto 8.
  - intros (b & d & Hin & Hb & [[-> ->]|H]); [by apply device_here|by eapply device_below].
Qed.

(** The names [list_vendor_devices] finds are those of the devices at any depth
    below the directory whose vendor, and device if given, match. *)
Theorem list_vendor_devices_complete vendor_id device_id entries :
  exists l, list_vendor_devices vendor_id device_id (Dir entries) = Some l
    /\ forall name, name ∈ l <->
         exists node, pci_device (Dir entries) name node /\ vendor_match vendor_id device_id node = true.
Proof.
  cut (forall root, match root with File _ => True | Dir _ =>
         exists l, list_vendor_devices vendor_id device_id root = Some l
           /\ forall name, name ∈ l <->
                exists node, pci_device root name node /\ vendor_match vendor_id device_id node = true end).
  { intros H. exact (H (Dir entries)). }
  clear entries. intros root. induction root as [|entries IH] using Sysfs_nested_ind; [done|].
  eexists. split; [reflexivity|]. intros name. setoid_rewrite pci_device_dir.
  induction entries as [|[d_name subdir] entries IHe].
  { split; [by intros ?%not_elem_of_nil|]. by intros (? & (? & ? & ?%not_elem_of_nil & _) & _). }
  specialize (IHe (fun n d H => IH n d (list_elem_of_further _ _ _ H))).
  pose proof (IH d_name subdir (list_elem_of_here _ _)) as Hsub. setoid_rewrite elem_of_cons.
  destruct (is_pci_addr d_name) eqn:Epci.
  2:{ rewrite IHe. clear IHe IH Hsub. split; intros (node & (b & d & Hin & Hb & Hd) & Hv).
      - eauto 10.
      - destruct Hin as [[= -> ->]|Hin]; [congruence|]. eauto 10. }
  rewrite !elem_of_app, IHe. clear IHe.
  assert (Hrec : name ∈ default [] (list_vendor_devices vendor_id device_id subdir)
                 <-> exists node, pci_device subdir name node /\ vendor_match vendor_id device_id node = true).
  { destruct subdir as [contents|sub]; [|destruct Hsub as (l & -> & Hl); apply Hl]. cbn.
    split; [by intros ?%not_elem_of_nil|]. intros (node & H & _). inversion H. }
  rewrite Hrec. clear Hrec Hsub IH. split.
  - intros [Hin|[(node & Hd & Hv)|(node & (b & d & Hin & Hb & Hd) & Hv)]].
    + destruct (vendor_match _ _ subdir) eqn:Ev; [|by apply not_elem_of_nil in Hin].
      apply list_elem_of_singleton in Hin as ->. eauto 10.
    + eauto 10.
    + eauto 10.
  - intros (node & (b & d & [[= -> ->]|Hin] & Hb & Hd) & Hv).
    + destruct Hd as [[-> ->]|Hd]; [|eauto]. left. rewrite Hv. by apply list_elem_of_singleton.
    + eauto 10.
Qed.

(** ** Pairing *)

Definition configure (netdevs : gmap string (string * string)) (p : string * string) : option GpuRxqConfiguration :=
  '(netdev_name, ip) ← netdevs !! AsciiStrToLower p.2;
  Some (mkConfig (AsciiStrToLower p.1) (AsciiStrToLower p.2) netdev_name ip).

Lemma replicate_lookup {A} (k : nat) (l : list A) i :
  (0 < k)%nat -> (l ≫= replicate k) !! i = l !! (i / k)%nat.
Proof.
  intros Hk. revert i. induction l as [|x l IH]; intros i; cbn.
  { by rewrite !lookup_nil. }
  destruct (decide (i < k)%nat) as [Hi|Hi].
  - rewrite lookup_app_l by (by rewrite length_replicate). rewrite Nat.div_small by done. by apply lookup_replicate_2.
  - rewrite lookup_app_r by (rewrite length_replicate; lia). rewrite length_replicate, IH.
    replace (i / k)%nat with (S ((i - k) / k)); [done|].
    replace i with (1 * k + (i - k))%nat at 2 by lia. rewrite Nat.div_add_l by lia. lia.
Qed.

Lemma length_bind_replicate {A} (k : nat) (l : list A) : length (l ≫= replicate k) = (length l * k)%nat.
Proof. induction l as [|x l IH]; cbn; [done|]. rewrite length_app, length_replicate. f_equal. apply IH. Qed.

Lemma PairLoop_ok netdevs (k i : nat) gpus nics :
  (0 < k)%nat -> (i + length gpus <= length nics * k)%nat ->
  PairLoop netdevs (Z.of_nat k) (Z.of_nat i) gpus nics
  = Some (omap (configure netdevs) (zip gpus (drop i (nics ≫= replicate k)))).
Proof.
  intros Hk. revert i. induction gpus as [|g gpus IH]; intros i Hi; cbn [PairLoop]; [done|].
  cbn in Hi. destruct (Z.eqb_spec (Z.of_nat k) 0); [lia|].
  rewrite <- Nat2Z.inj_div, Nat2Z.id, <- replicate_lookup by done.
  destruct (lookup_lt_is_Some_2 (nics ≫= replicate k) i) as [nic Hn]; [rewrite length_bind_replicate; lia|].
  rewrite (drop_S _ _ _ Hn), Hn. cbn [mbind option_bind]. replace (Z.of_nat i + 1) with (Z.of_nat (S i)) by lia.
  rewrite IH by lia. cbn. unfold configure. cbn. by destruct (netdevs !! AsciiStrToLower nic) as [[name ip]|].
Qed.

Lemma PairLoop_crash netdevs (k i : nat) gpus nics :
  gpus <> [] -> (length nics * k < i + length gpus)%nat ->
  PairLoop netdevs (Z.of_nat k) (Z.of_nat i) gpus nics = None.
Proof.
  revert i. induction gpus as [|g gpus IH]; intros i Hne Hi; [done|]. cbn [PairLoop]. cbn in Hi.
  destruct (Z.eqb_spec (Z.of_nat k) 0) as [|Hk]; [done|].
  rewrite <- Nat2Z.inj_div, Nat2Z.id.
  destruct (nics !! (i / k)%nat) as [nic|] eqn:En; [|done]. cbn. apply lookup_lt_Some in En.
  assert (i < length nics * k)%nat.
  { pose proof (Nat.div_mod i k ltac:(lia)). pose proof (Nat.mod_upper_bound i k ltac:(lia)). nia. }
  replace (Z.of_nat i + 1) with (Z.of_nat (S i)) by lia.
  rewrite IH; [done| |lia]. intros ->. cbn in Hi. lia.
Qed.

(** [gpus] are shared out evenly: the first [k] to the first NIC, and so on. *)
Definition share_out (netdevs : gmap string (string * string)) (gpus nics : list string)
    : list GpuRxqConfiguration :=
  omap (configure netdevs) (zip gpus (nics ≫= replicate (length gpus / length nics))).

Lemma PairLoop_spec netdevs gpus nics :
  gpus <> [] -> nics <> [] ->
  PairLoop netdevs (Zlen gpus / Zlen nics) 0 gpus nics
  = if decide (length gpus mod length nics = 0)%nat then Some (share_out netdevs gpus nics) else None.
Proof.
  intros Hg Hn. unfold Zlen. rewrite <- Nat2Z.inj_div. change 0 with (Z.of_nat 0).
  assert (Hl : length nics <> 0%nat) by (by intros ?%length_zero_iff_nil).
  assert (Hgl : length gpus <> 0%nat) by (by intros ?%length_zero_iff_nil).
  pose proof (Nat.div_mod (length gpus) (length nics) Hl) as Hdm.
  case_decide as Hd.
  - rewrite PairLoop_ok; [done| |lia]. destruct (length gpus / length nics)%nat; [|lia]. lia.
  - apply PairLoop_crash; [done|]. lia.
Qed.

(** The name and the address of a configuration are those of its NIC. *)
Definition consistent (netdevs : gmap string (string * string)) (g : GpuRxqConfiguration) : Prop :=
  netdevs !! nic_pci_addr g = Some (ifname g, ip_addr g).

Lemma share_out_consistent netdevs gpus nics : Forall (consistent netdevs) (share_out netdevs gpus nics).
Proof.
  apply list.Forall_forall. intros g ([gpu nic] & _ & Hg)%list_elem_of_omap.
  unfold configure in Hg. apply bind_Some in Hg as ([name ip] & Hn & [= <-]). exact Hn.
Qed.

Lemma config_le_iff a b :
  config_le a b <-> nic_pci_addr a = nic_pci_addr b /\ String.le (gpu_pci_addr a) (gpu_pci_addr b)
                 \/ nic_pci_addr a <> nic_pci_addr b /\ String.le (nic_pci_addr a) (nic_pci_addr b).
Proof. unfold config_le. case_decide; tauto. Qed.

#[export] Instance config_le_total : Total config_le.
Proof.
  intros a b. rewrite !config_le_iff. destruct (decide (nic_pci_addr a = nic_pci_addr b)) as [->|Hne].
  - destruct (String.le_total (gpu_pci_addr a) (gpu_pci_addr b)); tauto.
  - assert (nic_pci_addr b <> nic_pci_addr a) by congruence.
    destruct (String.le_total (nic_pci_addr a) (nic_pci_addr b)); tauto.
Qed.

#[export] Instance config_le_trans : Transitive config_le.
Proof.
  intros a b c. rewrite !config_le_iff.
  intros [[E1 H1]|[E1 H1]] [[E2 H2]|[E2 H2]]; rewrite ?E1, <- ?E2 in *.
  - left. split; [done|]. by etrans.
  - by right.
  - by right.
  - destruct (decide (nic_pci_addr a = nic_pci_addr c)) as [E|]; [|right; split; [done|by etrans]].
    exfalso. apply E1. rewrite E in H1 |- *. symmetry. by apply (anti_symm String.le).
Qed.

(** Equivalent consistent configurations are equal, so sorting them has one
    result. *)
Lemma sort_consistent netdevs l1 l2 :
  Forall (consistent netdevs) l1 -> l1 ≡ₚ l2 -> merge_sort config_le l1 = merge_sort config_le l2.
Proof.
  intros Hc Hp. eapply (StronglySorted_unique_strong config_le);
    [|apply StronglySorted_merge_sort; apply _..|by rewrite !merge_sort_Permutation].
  intros x1 x2. rewrite !merge_sort_Permutation, <- Hp. intros Hx1 Hx2 H1 H2.
  rewrite list.Forall_forall in Hc. pose proof (Hc _ Hx1) as C1. pose proof (Hc _ Hx2) as C2. clear Hc Hx1 Hx2.
  unfold consistent in C1, C2. rewrite !config_le_iff in H1, H2.
  assert (nic_pci_addr x1 = nic_pci_addr x2) as E.
  { destruct (decide (nic_pci_addr x1 = nic_pci_addr x2)); [done|].
    apply (anti_symm String.le); [tauto|]. destruct H2 as [[]|[]]; congruence. }
  assert (gpu_pci_addr x1 = gpu_pci_addr x2) as Eg by (apply (anti_symm String.le); [tauto|symmetry in E; tauto]).
  rewrite E in C1. rewrite C1 in C2. destruct x1, x2. cbn in *. congruence.
Qed.

Section switches.
Context (node_at : string -> option Sysfs).

(** The sorted GPUs and NICs of a switch that has both. *)
Definition switch_devices (c : A3GpuRxqConfigurator) (switch : string) : option (list string * list string) :=
  gpus ← node_at switch ≫= list_vendor_devices kNvidiaVendorId (Some kH100DeviceId);
  nics ← node_at switch ≫= list_vendor_devices (nic_vendor_id_ c) (Some (nic_device_id_ c));
  if bool_decide (nics = []) || bool_decide (gpus = []) then None
  else Some (sort_strings gpus, sort_strings nics).

(** The number of NICs divides the number of GPUs. *)
Definition switch_even (c : A3GpuRxqConfigurator) (switch : string) : bool :=
  match switch_devices c switch with
  | None => true
  | Some (gpus, nics) => bool_decide (length gpus mod length nics = 0)%nat
  end.

Definition switch_pairs (c : A3GpuRxqConfigurator) (switch : string) : list GpuRxqConfiguration :=
  match switch_devices c switch with
  | None => []
  | Some (gpus, nics) => share_out (netdev_pci_to_netdev_ c) gpus nics
  end.

Lemma sort_strings_nil l : sort_strings l = [] -> l = [].
Proof.
  intros E. apply Permutation_nil_r. rewrite <- (merge_sort_Permutation String.le l).
  unfold sort_strings in E. by rewrite E.
Qed.

Lemma SwitchConfigurations_spec c switch :
  if switch_even c switch
  then match SwitchConfigurations node_at c switch with
       | Some None => switch_pairs c switch = []
       | Some (Some added) => added = switch_pairs c switch
       | None => False
       end
  else SwitchConfigurations node_at c switch = None.
Proof.
  unfold switch_even, switch_pairs, switch_devices, SwitchConfigurations.
  destruct (node_at switch ≫= list_vendor_devices kNvidiaVendorId _) as [gpus|]; cbn; [|done].
  destruct (node_at switch ≫= list_vendor_devices (nic_vendor_id_ c) _) as [nics|]; cbn; [|done].
  destruct (bool_decide_reflect (nics = [])); cbn; [done|].
  destruct (bool_decide_reflect (gpus = [])); cbn; [done|].
  rewrite PairLoop_spec by (by intros ?%sort_strings_nil).
  case_bool_decide; case_decide; try done.
Qed.

Lemma switch_pairs_consistent c order : Forall (consistent (netdev_pci_to_netdev_ c)) (order ≫= switch_pairs c).
Proof.
  induction order as [|sw order IH]; cbn; [done|]. apply Forall_app. split; [|done].
  unfold switch_pairs. destruct (switch_devices c sw) as [[gpus nics]|]; [apply share_out_consistent|done].
Qed.

Lemma SwitchLoop_spec c order acc :
  Forall (consistent (netdev_pci_to_netdev_ c)) acc -> merge_sort config_le acc = acc ->
  SwitchLoop node_at c order acc
  = if forallb (switch_even c) order
    then Some (merge_sort config_le (acc ++ (order ≫= switch_pairs c))) else None.
Proof.
  revert acc. induction order as [|sw order IH]; intros acc Hc Hs; cbn [SwitchLoop forallb].
  { cbn. by rewrite app_nil_r, Hs. }
  pose proof (SwitchConfigurations_spec c sw) as H. destruct (switch_even c sw); cbn; [|by rewrite H].
  assert (Hp : Forall (consistent (netdev_pci_to_netdev_ c)) (switch_pairs c sw)).
  { pose proof (switch_pairs_consistent c [sw]) as Hp. cbn in Hp. by rewrite app_nil_r in Hp. }
  destruct (SwitchConfigurations node_at c sw) as [[added|]|]; cbn; [|rewrite H; by apply IH|done]. subst added.
  assert (Hac : Forall (consistent (netdev_pci_to_netdev_ c)) (acc ++ switch_pairs c sw)) by (by apply Forall_app).
  rewrite IH.
  - destruct (forallb _ _); [|done]. f_equal. symmetry. rewrite app_assoc.
    eapply sort_consistent; [|by rewrite (merge_sort_Permutation config_le (acc ++ switch_pairs c sw))].
    apply Forall_app. split; [done|apply switch_pairs_consistent].
  - by rewrite merge_sort_Permutation.
  - eapply sort_consistent; [by rewrite merge_sort_Permutation|]. apply merge_sort_Permutation.
Qed.
End switches.

(** The addresses of configurations are in lower case. *)
Lemma GetConfigurations_lower inet_ntop realpath node_at hash_order num_hops ifs c configs c' :
  GetConfigurations inet_ntop realpath node_at hash_order num_hops ifs c = Some (configs, c') ->
  Forall (fun g => AsciiStrToLower (gpu_pci_addr g) = gpu_pci_addr g) configs.
Proof.
  unfold GetConfigurations. intros (c1 & _ & (l & Hl & [= <- <-])%bind_Some)%bind_Some.
  rewrite SwitchLoop_spec in Hl by (constructor || reflexivity). destruct (forallb _ _); [|done]. injection Hl as <-.
  rewrite merge_sort_Permutation. cbn [app]. apply list.Forall_forall. intros g Hg.
  apply list_elem_of_bind in Hg as (sw & Hg & _). unfold switch_pairs in Hg.
  destruct (switch_devices node_at c1 sw) as [[gpus nics]|]; [|by apply not_elem_of_nil in Hg].
  apply list_elem_of_omap in Hg as ([gpu nic] & _ & Hc). unfold configure in Hc. cbn in Hc.
  destruct (_ !! AsciiStrToLower nic) as [[name ip]|]; [|done]. injection Hc as <-. apply AsciiStrToLower_idem.
Qed.


(** *** Two NICs and four GPUs under a switch *)

Definition ex_pci (vendor device : string) : Sysfs := Dir [("vendor"%string, File vendor); ("device"%string, File device)].

Definition ex_switch : Sysfs :=
  Dir [("0000:06:00.0"%string, ex_pci "0x10de" "0x2330");
       ("0000:02:00.0"%string, Dir [("0000:04:00.0"%string, ex_pci "0x10de" "0x2330");
                                    ("power"%string, Dir [])]);
       ("0000:0a:00.0"%string, ex_pci "0x1ae0" "0x0042");
       ("0000:0b:00.0"%string, ex_pci "0x1ae0" "0x0042");
       ("0000:05:00.0"%string, ex_pci "0x10de" "0x2330");
       ("0000:07:00.0"%string, ex_pci "0x10de" "0x2330")].

Definition ex_realpath (path : string) : option string :=
  if String.eqb path "/sys/class/net/eth1/device/" then Some "/sys/devices/pci0000:01/0000:0a:00.0"%string
  else if String.eqb path "/sys/class/net/eth2/device/" then Some "/sys/devices/pci0000:01/0000:0b:00.0"%string
  else None.

Definition ex_node_at (path : string) : option Sysfs :=
  if String.eqb path "/sys/devices/pci0000:01" then Some ex_switch
  else if String.eqb path "/sys/class/net/eth2/device//vendor" then Some (File "0x1ae0")
  else if String.eqb path "/sys/class/net/eth2/device//device" then Some (File "0x0042")
  else None.

Definition ex_ntop (family : Z) (bytes : list Z) : option string :=
  match bytes with [10; 0; 0; 1] => Some "10.0.0.1"%string | [10; 0; 0; 2] => Some "10.0.0.2"%string | _ => None end.

Definition ex_ifs : list ifaddrs :=
  [mkIfaddrs "lo" (Some (AF_INET, [127; 0; 0; 1])); mkIfaddrs "eth1" None;
   mkIfaddrs "eth1" (Some (AF_INET, [10; 0; 0; 1])); mkIfaddrs "eth2" (Some (AF_INET, [10; 0; 0; 2]))].


(** ** Discovery *)

Section discovery.
Context (inet_ntop : Z -> list Z -> option string).
Context (realpath : string -> option string) (node_at : string -> option Sysfs).
Context (num_hops : nat).

(** The PCI address in lower case, the switch and the IP address of an
    interface that is a PCI device and has an address. *)
Definition nic_of_interface (head : ifaddrs) : option (string * string * string) :=
  sa ← ifa_addr head;
  path ← realpath ("/sys/class/net/" +:+ ifa_name head +:+ "/device/")%string;
  '(pci_addr, switch) ← climb num_hops None (drop_trailing_slash path);
  pci_addr ← pci_addr;
  let ip := get_ip_from_sockaddr inet_ntop sa in
  if bool_decide (is_Some (String.index 0 "/virtual" path)) || negb (is_pci_addr pci_addr) || String.eqb ip EmptyString
  then None
  else Some (AsciiStrToLower pci_addr, switch, ip).

(** The first interface with a PCI address. *)
Fixpoint first_nic (pci : string) (all_ifs : list ifaddrs) : option (string * string * string) :=
  match all_ifs with
  | [] => None
  | head :: all_ifs =>
      match nic_of_interface head with
      | Some (pci', switch, ip) =>
          if String.eqb pci' pci then Some (ifa_name head, ip, switch) else first_nic pci all_ifs
      | None => first_nic pci all_ifs
      end
  end.

Lemma DiscoverNic_spec head c :
  (forall path, realpath ("/sys/class/net/" +:+ ifa_name head +:+ "/device/")%string = Some path ->
     exists pci_addr switch, climb num_hops None (drop_trailing_slash path) = Some (Some pci_addr, switch)) ->
  exists c', DiscoverNic inet_ntop realpath node_at (Z.of_nat num_hops) head c = Some c'
    /\ (netdev_pci_to_netdev_ c', parent_switches_ c')
       = match nic_of_interface head with
         | Some (pci, switch, ip) =>
             match netdev_pci_to_netdev_ c !! pci with
             | Some _ => (netdev_pci_to_netdev_ c, parent_switches_ c)
             | None => (<[pci := (ifa_name head, ip)]> (netdev_pci_to_netdev_ c), {[switch]} ∪ parent_switches_ c)
             end
         | None => (netdev_pci_to_netdev_ c, parent_switches_ c)
         end.
Proof.
  intros Hp. unfold DiscoverNic, nic_of_interface. destruct (ifa_addr head) as [[family bytes]|]; cbn; [|by eexists].
  set (path := ("/sys/class/net/" +:+ ifa_name head +:+ "/device/")%string) in *.
  destruct (negb (family =? AF_INET) && negb (family =? AF_INET6)) eqn:Ef.
  { exists c. split; [done|]. destruct (realpath path) as [p|]; cbn; [|done].
    destruct (climb _ _ _) as [[[a|] sw]|]; cbn; [|done..].
    unfold get_ip_from_sockaddr. cbn. rewrite <- negb_orb, negb_true_iff in Ef. rewrite Ef. cbn.
    by rewrite orb_true_r. }
  destruct (realpath path) as [p|]; cbn; [|by eexists]. destruct (Hp p eq_refl) as (a & sw & E).
  rewrite Nat2Z.id, E. cbn. destruct (bool_decide _); cbn; [by eexists|].
  destruct (is_pci_addr a); cbn; [|by eexists].
  destruct (String.eqb _ _); cbn; [by eexists|].
  destruct (netdev_pci_to_netdev_ c !! AsciiStrToLower a); by eexists.
Qed.

(** The loop over the hops does not run past the root of a path. *)
Context (deep : forall name path, realpath ("/sys/class/net/" +:+ name +:+ "/device/")%string = Some path ->
  exists pci_addr switch, climb num_hops None (drop_trailing_slash path) = Some (Some pci_addr, switch)).

Lemma DiscoverLoop_spec all_ifs c :
  exists c', DiscoverLoop inet_ntop realpath node_at (Z.of_nat num_hops) all_ifs c = Some c'
    /\ (forall pci, netdev_pci_to_netdev_ c' !! pci
          = match netdev_pci_to_netdev_ c !! pci with Some x => Some x | None => fst <$> first_nic pci all_ifs end)
    /\ (forall switch, switch ∈ parent_switches_ c' <-> switch ∈ parent_switches_ c
          \/ exists pci name ip, netdev_pci_to_netdev_ c !! pci = None /\ first_nic pci all_ifs = Some (name, ip, switch)).
Proof.
  revert c. induction all_ifs as [|head all_ifs IH]; intros c; cbn [DiscoverLoop].
  { exists c. split; [done|]. cbn. split; [intros pci; by destruct (_ !! pci)|]. naive_solver. }
  destruct (DiscoverNic_spec head c (deep (ifa_name head))) as (c1 & -> & Hc1). cbn.
  destruct (IH c1) as (c' & -> & Hn & Hs). exists c'. split; [done|]. clear IH.
  cbn [first_nic]. destruct (nic_of_interface head) as [[[pci sw] ip]|].
  2:{ injection Hc1 as E1 E2. rewrite E1 in Hn. rewrite E1, E2 in Hs. by split. }
  destruct (netdev_pci_to_netdev_ c !! pci) as [x|] eqn:Ec; injection Hc1 as E1 E2; rewrite E1 in Hn; rewrite E1, E2 in Hs.
  - split.
    + intros pci'. rewrite Hn. destruct (String.eqb_spec pci pci') as [<-|]; [by rewrite Ec|done].
    + intros switch. rewrite Hs. apply or_iff_compat_l. split; intros (pci' & name & ip' & Hnone & Hf);
        exists pci', name, ip'; (split; [done|]); destruct (String.eqb_spec pci pci') as [->|]; congruence.
  - split.
    + intros pci'. rewrite Hn. destruct (String.eqb_spec pci pci') as [<-|Hne].
      * by rewrite lookup_insert_eq, Ec.
      * by rewrite lookup_insert_ne.
    + intros switch. rewrite Hs, elem_of_union, elem_of_singleton. split.
      * intros [[->|Hin]|(pci' & name & ip' & [Hnone Hne]%lookup_insert_None & Hf)]; [|by left|].
        -- right. exists pci, (ifa_name head), ip. by rewrite String.eqb_refl.
        -- right. exists pci', name, ip'. split; [done|]. by destruct (String.eqb_spec pci pci').
      * intros [Hin|(pci' & name & ip' & Hnone & Hf)]; [tauto|].
        destruct (String.eqb_spec pci pci') as [->|Hne]; [left; left; congruence|].
        right. exists pci', name, ip'. split; [|done]. by apply lookup_insert_None.
Qed.
End discovery.

Fixpoint slashes (s : string) : nat :=
  match s with
  | EmptyString => 0
  | String a s' => (if Ascii.eqb a "/"%char then 1 else 0) + slashes s'
  end.

Lemma strrchr_slash_spec s :
  match strrchr_slash s with
  | Some (before, after) => slashes s = S (slashes before)
  | None => slashes s = 0%nat
  end.
Proof.
  induction s as [|a s IH]; cbn; [done|]. destruct (strrchr_slash s) as [[before after]|]; cbn.
  - rewrite IH. lia.
  - rewrite IH. by destruct (Ascii.eqb a "/"%char).
Qed.

Lemma climb_deep n pci path :
  (n <= slashes path)%nat -> (0 < n)%nat \/ is_Some pci ->
  exists pci_addr switch, climb n pci path = Some (Some pci_addr, switch).
Proof.
  revert pci path. induction n as [|n IH]; intros pci path Hn Hp; cbn.
  { destruct Hp as [Hp|[a ->]]; [lia|eauto]. }
  pose proof (strrchr_slash_spec path) as Hs. destruct (strrchr_slash path) as [[before after]|]; [|lia].
  cbn. apply IH; [lia|]. right. destruct pci; eauto.
Qed.

(** With at least one hop and device paths at least as deep as the
    hops, [DiscoverAllNics] does not crash; an interface is recorded under its
    PCI address exactly when it is the first that is a PCI device with that
    address and has an IP address, and the switches are those of the recorded
    interfaces. *)
Theorem discover_first inet_ntop realpath node_at FLAGS_num_hops all_ifs :
  1 <= FLAGS_num_hops ->
  (forall name path, realpath ("/sys/class/net/" +:+ name +:+ "/device/")%string = Some path ->
     Z.min FLAGS_num_hops MAX_HOPS <= Z.of_nat (slashes (drop_trailing_slash path))) ->
  let first := first_nic inet_ntop realpath (Z.to_nat (Z.min FLAGS_num_hops MAX_HOPS)) in
  exists c', DiscoverAllNics inet_ntop realpath node_at FLAGS_num_hops (Some all_ifs) new_Configurator = Some c'
    /\ (forall pci, netdev_pci_to_netdev_ c' !! pci = fst <$> first pci all_ifs)
    /\ (forall switch, switch ∈ parent_switches_ c'
         <-> exists pci name ip, first pci all_ifs = Some (name, ip, switch)).
Proof.
  intros Hh Hd first. unfold DiscoverAllNics, MAX_HOPS in *.
  destruct (DiscoverLoop_spec inet_ntop realpath node_at (Z.to_nat (Z.min FLAGS_num_hops 4))
              ltac:(intros name path H; specialize (Hd name path H); apply climb_deep; [lia|left; lia])
              all_ifs new_Configurator) as (c' & E & Hn & Hs).
  rewrite Z2Nat.id in E by lia. exists c'. split; [done|]. split.
  - intros pci. by rewrite Hn.
  - intros switch. rewrite Hs. split; [intros [?|(pci & name & ip & _ & H)]; [set_solver|eauto]|].
    intros (pci & name & ip & H). right. by exists pci, name, ip.
Qed.

Lemma discover_first_witness :
  exists c', DiscoverAllNics ex_ntop ex_realpath ex_node_at 1 (Some ex_ifs) new_Configurator = Some c'
    /\ netdev_pci_to_netdev_ c' !! "0000:0b:00.0"%string = Some ("eth2"%string, "10.0.0.2"%string)
    /\ "/sys/devices/pci0000:01"%string ∈ parent_switches_ c'.
Proof.
  destruct (discover_first ex_ntop ex_realpath ex_node_at 1 ex_ifs) as (c' & E & Hn & Hs); [done| |].
  - intros name path. unfold ex_realpath.
    repeat case_match; intros [= <-]; vm_compute; discriminate.
  - exists c'. split; [exact E|]. split; [rewrite Hn; vm_compute; reflexivity|].
    apply Hs. exists "0000:0b:00.0"%string, "eth2"%string, "10.0.0.2"%string. vm_compute. reflexivity.
Defined.
