(* ===== verification/NcclConnection.v ===== *)
(** * Establishing connections
    (NcclShim::Listen, Connect and Accept of
    tcpdirect_plugin/fastrak_offload/nccl_shim.cc, the GPU indices of common.cc)

    NCCL calls [Connect] and [Accept] repeatedly until they return a
    communication; the state between calls is the stage in the handle or in the
    listening communication. *)

From stdpp Require Import sorting.
From S2P Require Import Prelude Packed ControlCommand ControlInterface DxsClient BufferManager.
From S2P Require Import MrCache NcclShim PciTopology.

(** ** Indices of the GPUs (common.cc) *)

(** [flat_hash_map::insert] keeps an existing entry. *)
Definition insert_new (k : string) (v : Z) (m : gmap string Z) : gmap string Z :=
  match m !! k with Some _ => m | None => <[k := v]> m end.

(** [std::unique]: of equal neighbours the first is kept. *)
Fixpoint unique (l : list string) : list string :=
  match l with
  | x :: (y :: _) as l' => if decide (x = y) then unique l' else x :: unique l'
  | _ => l
  end.

(** The loop that numbers the GPUs; indices are [uint8_t]. *)
Fixpoint number_gpus (gpus : list string) (idx : Z) (m : gmap string Z) : gmap string Z :=
  match gpus with
  | [] => m
  | gpu :: gpus' => number_gpus gpus' (idx + 1) (insert_new (AsciiStrToLower gpu) (u8 idx) m)
  end.

(** [pci_devices] is what is at [kSysfsPciDevicesPath]. *)
Definition GetPciAddrToFastrakIdxMap (pci_devices : option Sysfs) : gmap string Z :=
  match pci_devices ≫= list_vendor_devices kNvidiaVendorId (Some kH100DeviceId) with
  | None => ∅
  | Some gpus => number_gpus (unique (sort_strings gpus)) 0 ∅
  end.

Definition GetFastrakIdxFromPci (m : gmap string Z) (pci_addr : string) : StatusOr Z :=
  match m !! AsciiStrToLower pci_addr with
  | Some idx => Ok idx
  | None => Err kNotFound
  end.

(** The loop over the map, in the order [order] of its entries. *)
Fixpoint GetPciFromFastrakIdx (order : list (string * Z)) (fastrak_idx : Z) : StatusOr string :=
  match order with
  | [] => Err kNotFound
  | (addr, idx) :: rest => if idx =? fastrak_idx then Ok addr else GetPciFromFastrakIdx rest fastrak_idx
  end.

(** [getClosestNetdev] on the mapping reported by the daemon. *)
Definition getClosestNetdev (gpu_nic_mapping : gmap string Z) (gpu_pci : string) : StatusOr Z :=
  match gpu_nic_mapping !! AsciiStrToLower gpu_pci with
  | Some dev => Ok dev
  | None => Err kInternal
  end.

(** ** Stages *)

Inductive ncclSocketCommState : Set := kStart | kConnecting | kAccepting | kDone.

Record ncclSocketCommStage := mkStage {
  state : ncclSocketCommState;
  stage_comm : option Communication
}.

Record ncclSocketHandle := mkSocketHandle {
  fastrak_idx : Z;
  dxs_addr : string;
  dxs_ports : list Z;
  stage : ncclSocketCommStage
}.

Record ListenCommunication := mkListenCommunication {
  nccl_listen : Z;
  dxs_listen : list ListenSocket;
  listen_stage : ncclSocketCommStage
}.

Definition GenerateCommTraceId (comm comm_idx : Z) : Z :=
  u32 (Z.lor (Z.land 65535 comm_idx) (Z.shiftl (Z.land 65535 comm) 16)).

Section connection.
Context {H : Type} `{ControlMessageHandlerInterface H}.
(** [inet_pton]. *)
Context (pton4 pton6 : string -> option (list Z)).
Context (kFastrakNumFlows : nat) (kNcclNetIfs : Z) (kNicRailAligned : bool).
Context (connect_timeout_ accept_timeout_ : Z).

(** The addresses of the devices, and the creation of the DXS and buffer
    manager clients of an address. *)
Context (ip_addr : Z -> string) (create : string -> StatusOr (Dxs H)).

(** [NcclShim] with the clients the router has created. *)
Record NcclShim := mkNcclShim {
  netdev_ : Z;
  comm_counter_ : Z;
  ip_addr_to_client_ : gmap string (Dxs H)
}.

Definition set_client (dev : Z) (w : Dxs H) (s : NcclShim) : NcclShim :=
  mkNcclShim (netdev_ s) (comm_counter_ s) (<[ip_addr dev := w]> (ip_addr_to_client_ s)).

(** [NicClientRouter::GetOrInitClient], behind [GetDxsClient] and
    [GetBufferManagerClient]. *)
Definition GetOrInitClient (dxs_addr : string) (s : NcclShim) : StatusOr (Dxs H) * NcclShim :=
  match ip_addr_to_client_ s !! dxs_addr with
  | Some w => (Ok w, s)
  | None =>
      match create dxs_addr with
      | Err e => (Err e, s)
      | Ok w => (Ok w, mkNcclShim (netdev_ s) (comm_counter_ s)
                         (<[dxs_addr := w]> (ip_addr_to_client_ s)))
      end
  end.

(** [++comm_counter_] *)
Definition next_comm (s : NcclShim) : Z * NcclShim :=
  let n := u32 (comm_counter_ s + 1) in (n, mkNcclShim (netdev_ s) n (ip_addr_to_client_ s)).

(** The first loop of [BeginDxsConnect], from flow [i]. *)
Fixpoint connect_flows (n i : nat) (addr : string) (ports : list Z)
    (socks : list (option ConnectedSocket)) (w : Dxs H)
    : Status * list (option ConnectedSocket) * Dxs H :=
  match n with
  | O => (OkStatus, socks, w)
  | S n' =>
      let '(r, w) := DxsClient.Connect pton4 pton6 addr (nth i ports 0) w in
      match r with
      | Err e => (Err e, socks, w)
      | Ok s => connect_flows n' (S i) addr ports (<[i := Some (SendSock s)]> socks) w
      end
  end.

Definition BeginDxsConnect (handle : ncclSocketHandle) (comm : Communication) (w : Dxs H)
    : Status * Communication * Dxs H :=
  let '(st, socks, w) :=
    connect_flows kFastrakNumFlows 0 (dxs_addr handle) (dxs_ports handle) (dxs_socks comm) w in
  (st, set_socks socks comm, w).

(** What the loop over the flows finds: all ready, one not ready yet, or one
    that failed. *)
Inductive FlowsReady : Type :=
  | AllReady
  | NotReady
  | FlowFailed (e : StatusCode).

(** The loop of [kConnecting]; [None] for a null socket or one without shared
    state. *)
Fixpoint flows_ready (now : Z) (n i : nat) (socks : list (option ConnectedSocket)) (w : Dxs H)
    : option (FlowsReady * Dxs H) :=
  match n with
  | O => Some (AllReady, w)
  | S n' =>
      match socks !! i with
      | Some (Some s) =>
          let '(r, w) := DataSocket_SocketReady now (sock_handle s) w in
          ready ← r;
          match ready with
          | None => Some (NotReady, w)
          | Some (Err e) => Some (FlowFailed e, w)
          | Some (Ok _) => flows_ready now n' (S i) socks w
          end
      | _ => None
      end
  end.

(** The case [kConnecting] of [Connect]. *)
Definition connecting (now : Z) (handle : ncclSocketHandle) (comm : Communication) (s : NcclShim)
    : option (StatusOr (option Communication) * ncclSocketHandle * NcclShim) :=
  w ← ip_addr_to_client_ s !! ip_addr (selected_dev comm);
  '(r, w) ← flows_ready now kFastrakNumFlows 0 (dxs_socks comm) w;
  let s := set_client (selected_dev comm) w s in
  let keep := mkSocketHandle (fastrak_idx handle) (dxs_addr handle) (dxs_ports handle)
                (mkStage kConnecting (Some comm)) in
  match r with
  | NotReady =>
      match CheckTimeout (connection_timeout comm) now connect_timeout_ with
      | Err e => Some (Err e, keep, s)
      | Ok _ => Some (Ok None, keep, s)
      end
  | FlowFailed e => Some (Err e, keep, s)
  | AllReady =>
      Some (Ok (Some comm),
            mkSocketHandle (fastrak_idx handle) (dxs_addr handle) (dxs_ports handle)
              (mkStage kDone None), s)
  end.

(** The device [Connect] uses: with rail alignment, the one closest to the
    local GPU with the index of the remote one. *)
Definition select_dev (pci_of : Z -> StatusOr string) (closest : string -> StatusOr Z)
    (dev : Z) (handle : ncclSocketHandle) : StatusOr Z :=
  pci ← pci_of (fastrak_idx handle);
  if kNicRailAligned then closest pci else mret dev.

Definition Connect (pci_of : Z -> StatusOr string) (closest : string -> StatusOr Z)
    (now dev : Z) (handle : ncclSocketHandle) (s : NcclShim)
    : option (StatusOr (option Communication) * ncclSocketHandle * NcclShim) :=
  if (dev <? 0) || (kNcclNetIfs <=? dev) then Some (Err kInvalidArgument, handle, s)
  else
    let with_comm c st := mkSocketHandle (fastrak_idx handle) (dxs_addr handle) (dxs_ports handle)
                            (mkStage st (Some c)) in
    match state (stage handle) with
    | kStart =>
        match select_dev pci_of closest dev handle with
        | Err e => Some (Err e, handle, s)
        | Ok dev =>
            let '(idx, s) := next_comm s in
            let comm := new_Communication now idx true in
            let '(dxs, s) := GetOrInitClient (ip_addr dev) s in
            match dxs with
            | Err e => Some (Err e, with_comm comm kStart, s)
            | Ok w =>
                let comm := set_dev dev comm in
                let '(manager, s) := GetOrInitClient (ip_addr dev) s in
                match manager with
                | Err e => Some (Err e, with_comm comm kStart, s)
                | Ok _ =>
                    let '(st, comm, w) := BeginDxsConnect handle comm w in
                    let s := set_client dev w s in
                    match st with
                    | Err e => Some (Err e, with_comm comm kStart, s)
                    | Ok _ => connecting now (with_comm comm kConnecting) comm s
                    end
                end
            end
        end
    | kConnecting =>
        comm ← stage_comm (stage handle);
        connecting now handle comm s
    | _ => Some (Err kInternal, handle, s)
    end.

(** ** Accepting *)

(** The socket of a flow, accepted now unless it was before. *)
Definition accept_sock (l : ListenSocket) (sock : option ConnectedSocket) (w : Dxs H)
    : option (StatusOr (option ConnectedSocket) * Dxs H) :=
  match sock with
  | Some s => Some (Ok (Some s), w)
  | None =>
      let '(accepted, w) := DxsClient.Accept l w in
      r ← accepted;
      match r with
      | Err e => Some (Err e, w)
      | Ok None => Some (Ok None, w)
      | Ok (Some s) => Some (Ok (Some (RecvSock s)), w)
      end
  end.

(** The socket is asked twice whether it is ready. *)
Definition accepted_ready (now handle : Z) (w : Dxs H) : option (FlowsReady * Dxs H) :=
  let '(r1, w) := DataSocket_SocketReady now handle w in
  ready ← r1;
  match ready with
  | None => Some (NotReady, w)
  | Some _ =>
      let '(r2, w) := DataSocket_SocketReady now handle w in
      again ← r2;
      status ← again;
      match status with
      | Err e => Some (FlowFailed e, w)
      | Ok _ => Some (AllReady, w)
      end
  end.

(** One iteration of the loop of [kAccepting]; [None] for undefined behaviour. *)
Definition accept_flow (now : Z) (l : ListenSocket) (sock : option ConnectedSocket) (w : Dxs H)
    : option (FlowsReady * option ConnectedSocket * Dxs H) :=
  match accept_sock l sock w with
  | None => None
  | Some (Err e, w) => Some (FlowFailed e, sock, w)
  | Some (Ok None, w) => Some (NotReady, None, w)
  | Some (Ok (Some s), w) =>
      '(r, w) ← accepted_ready now (sock_handle s) w;
      Some (r, Some s, w)
  end.

Fixpoint accept_flows (now : Z) (n i : nat) (listens : list ListenSocket)
    (socks : list (option ConnectedSocket)) (w : Dxs H)
    : option (FlowsReady * list (option ConnectedSocket) * Dxs H) :=
  match n with
  | O => Some (AllReady, socks, w)
  | S n' =>
      l ← listens !! i;
      sock ← socks !! i;
      '(r, sock, w) ← accept_flow now l sock w;
      let socks := <[i := sock]> socks in
      match r with
      | AllReady => accept_flows now n' (S i) listens socks w
      | _ => Some (r, socks, w)
      end
  end.

(** The case [kAccepting]. *)
Definition accepting (now : Z) (lc : ListenCommunication) (comm : Communication) (s : NcclShim)
    : option (StatusOr (option Communication) * ListenCommunication * NcclShim) :=
  w ← ip_addr_to_client_ s !! ip_addr (netdev_ s);
  '(r, socks, w) ← accept_flows now kFastrakNumFlows 0 (dxs_listen lc) (dxs_socks comm) w;
  let s := set_client (netdev_ s) w s in
  let comm := set_socks socks comm in
  let keep := mkListenCommunication (nccl_listen lc) (dxs_listen lc) (mkStage kAccepting (Some comm)) in
  match r with
  | NotReady =>
      match CheckTimeout (connection_timeout comm) now accept_timeout_ with
      | Err e => Some (Err e, keep, s)
      | Ok _ => Some (Ok None, keep, s)
      end
  | FlowFailed e => Some (Err e, keep, s)
  | AllReady =>
      Some (Ok (Some comm),
            mkListenCommunication (nccl_listen lc) (dxs_listen lc) (mkStage kDone None), s)
  end.

Definition Accept (now : Z) (lc : ListenCommunication) (s : NcclShim)
    : option (StatusOr (option Communication) * ListenCommunication * NcclShim) :=
  match state (listen_stage lc) with
  | kStart =>
      let '(idx, s) := next_comm s in
      let comm := set_dev (netdev_ s) (new_Communication now idx false) in
      let '(manager, s) := GetOrInitClient (ip_addr (netdev_ s)) s in
      match manager with
      | Err e =>
          Some (Err e, mkListenCommunication (nccl_listen lc) (dxs_listen lc)
                         (mkStage kStart (Some comm)), s)
      | Ok _ => accepting now lc comm s
      end
  | kAccepting =>
      comm ← stage_comm (listen_stage lc);
      accepting now lc comm s
  | _ => Some (Err kInternal, lc, s)
  end.

End connection.

(** ** Properties of the connections *)

Section connection_properties.
Context {H : Type} `{ControlMessageHandlerInterface H}.
Context (pton4 pton6 : string -> option (list Z)).
Context (kFastrakNumFlows : nat) (kNcclNetIfs : Z) (kNicRailAligned : bool).
Context (connect_timeout_ accept_timeout_ : Z).
Context (ip_addr : Z -> string) (create : string -> StatusOr (Dxs H)).
Context (pci_of : Z -> StatusOr string) (closest : string -> StatusOr Z).
(** The parameter [FASTRAK_NUM_FLOWS] is at most 8. *)
Context (flows_max : (kFastrakNumFlows <= kFastrakMaxNumFlows)%nat).

#[local] Abbreviation shim_connect :=
  (Connect pton4 pton6 kFastrakNumFlows kNcclNetIfs kNicRailAligned connect_timeout_ ip_addr create
     pci_of closest).
#[local] Abbreviation shim_accept := (Accept kFastrakNumFlows accept_timeout_ ip_addr create).

(** The socket of a flow leads to the flow's port of the handle. *)
Definition connected_to (addr : string) (ports : list Z) (socks : list (option ConnectedSocket))
    (i : nat) : Prop :=
  exists s, socks !! i = Some (Some (SendSock s))
            /\ PackIpAddress pton4 pton6 addr (nth i ports 0) = Ok (ss_peer_ s).

Lemma Connect_peer addr port (w : Dxs H) s w' :
  DxsClient.Connect pton4 pton6 addr port w = (Ok s, w') ->
  PackIpAddress pton4 pton6 addr port = Ok (ss_peer_ s).
Proof.
  unfold DxsClient.Connect. destruct (PackIpAddress _ _ _ _) as [a|]; [|done]. cbn.
  destruct (SendTyped _ _) as [[]]; [|done]. by intros [= <- _].
Qed.

Lemma connect_flows_ok addr ports n : forall i socks (w : Dxs H) socks' w',
  (i + n <= length socks)%nat ->
  connect_flows pton4 pton6 n i addr ports socks w = (OkStatus, socks', w') ->
  length socks' = length socks
  /\ (forall j, (j < i)%nat -> socks' !! j = socks !! j)
  /\ (forall j, (i <= j < i + n)%nat -> connected_to addr ports socks' j).
Proof.
  induction n as [|n IH]; intros i socks w socks' w' Hl E; cbn in E.
  - injection E as <- _. split_and!; [done|done|lia].
  - destruct (DxsClient.Connect _ _ _ _ _) as [[s|] w1] eqn:Ec; [|done].
    apply IH in E as (E1 & E2 & E3); [|rewrite length_insert; lia]. rewrite length_insert in E1.
    split_and!; [done| |].
    + intros j Hj. rewrite E2, list_lookup_insert_ne by lia. done.
    + intros j Hj. destruct (decide (j = i)) as [->|]; [|apply E3; lia].
      exists s. rewrite E2, list_lookup_insert_eq by lia. split; [done|].
      by eapply Connect_peer.
Qed.

(** Every flow was reported ready in this call. *)
Lemma flows_ready_all now n : forall i socks (w w' : Dxs H),
  flows_ready now n i socks w = Some (AllReady, w') ->
  forall j, (i <= j < i + n)%nat -> exists s w0, socks !! j = Some (Some s)
    /\ fst (DataSocket_SocketReady now (sock_handle s) w0) = Some (Some OkStatus).
Proof.
  induction n as [|n IH]; intros i socks w w' E j Hj; cbn [flows_ready] in E; [lia|].
  destruct (socks !! i) as [[s|]|] eqn:Es; [|done..].
  destruct (DataSocket_SocketReady _ _ _) as [r w1] eqn:Er.
  destruct r as [[[[]|e]|]|]; [|done..]. cbn in E.
  destruct (decide (j = i)) as [->|]; [|eapply IH; [exact E|lia]].
  exists s, w. by rewrite Er.
Qed.

(** The calls of [Connect] on one handle; between them anything may happen to
    the shim and its clients. *)
Inductive connect_calls (h0 : ncclSocketHandle) : ncclSocketHandle -> Prop :=
  | calls_nil : connect_calls h0 h0
  | calls_call now dev h s r h' s' :
      connect_calls h0 h -> shim_connect now dev h s = Some (r, h', s') -> connect_calls h0 h'.

Definition handle_inv (addr : string) (ports : list Z) (h : ncclSocketHandle) : Prop :=
  dxs_addr h = addr /\ dxs_ports h = ports
  /\ match state (stage h) with
     | kConnecting => exists c, stage_comm (stage h) = Some c /\ comm_send c = true
         /\ forall j, (j < kFastrakNumFlows)%nat -> connected_to addr ports (dxs_socks c) j
     | _ => True
     end.

Lemma connecting_inv addr ports now h c s r h' s' :
  handle_inv addr ports h -> comm_send c = true ->
  (forall j, (j < kFastrakNumFlows)%nat -> connected_to addr ports (dxs_socks c) j) ->
  connecting kFastrakNumFlows connect_timeout_ ip_addr now h c s = Some (r, h', s') ->
  handle_inv addr ports h'
  /\ forall c', r = Ok (Some c') -> c' = c /\ stage h' = mkStage kDone None
       /\ forall j, (j < kFastrakNumFlows)%nat -> exists s w, dxs_socks c !! j = Some (Some s)
            /\ fst (DataSocket_SocketReady now (sock_handle s) (w : Dxs H)) = Some (Some OkStatus).
Proof.
  intros (Ha & Hp & _) Hs Hc. unfold connecting.
  destruct (ip_addr_to_client_ _ !! _) as [w|]; [|done]. cbn.
  destruct (flows_ready _ _ _ _ _) as [[[| |e] w1]|] eqn:E; [| | |done]; cbn.
  - intros [= <- <- _]. split; [done|]. intros c' [= <-]. split_and!; [done|done|].
    intros j Hj. eapply flows_ready_all; [exact E|lia].
  - destruct (CheckTimeout _ _ _); intros [= <- <- _]; (split; [|done]);
      (split_and!; [done|done|]); by exists c.
  - intros [= <- <- _]. split; [|done]. split_and!; [done|done|]. by exists c.
Qed.

Lemma Connect_inv addr ports now dev h s r h' s' :
  handle_inv addr ports h -> shim_connect now dev h s = Some (r, h', s') ->
  handle_inv addr ports h'
  /\ forall c', r = Ok (Some c') -> stage h' = mkStage kDone None /\ comm_send c' = true
       /\ forall j, (j < kFastrakNumFlows)%nat -> connected_to addr ports (dxs_socks c') j
            /\ exists s w, dxs_socks c' !! j = Some (Some s)
            /\ fst (DataSocket_SocketReady now (sock_handle s) (w : Dxs H)) = Some (Some OkStatus).
Proof using flows_max.
  intros Hi. unfold Connect. destruct (_ || _); [by intros [= <- <- _]|].
  pose proof Hi as (Ha & Hp & Hst). destruct (state (stage h)) eqn:Es.
  - destruct (select_dev _ _ _ _ _) as [dv|e]; [|by intros [= <- <- _]]. cbn [next_comm].
    destruct (GetOrInitClient _ _ _) as [[w|e] s1]; [|by intros [= <- <- _]].
    destruct (GetOrInitClient _ _ _) as [[w2|e] s2]; [|by intros [= <- <- _]].
    unfold BeginDxsConnect. rewrite Ha, Hp.
    destruct (connect_flows _ _ _ _ _ _ _ _) as [[[[]|e] socks] w3] eqn:Ec; [|by intros [= <- <- _]].
    apply connect_flows_ok in Ec as (_ & _ & Hc); [|unfold kFastrakMaxNumFlows in *; cbn; lia].
    intros E. apply (connecting_inv addr ports) in E as [Hh Hr]; cbn; [| |done|].
    + split; [done|]. intros c' Er. destruct (Hr c' Er) as (-> & Hd & Hj). cbn in *.
      split_and!; try done. intros j Hlt. split; [apply Hc; lia|by apply Hj].
    + split_and!; [done|done|]. cbn. eexists. split_and!; [done|done|].
      intros j Hlt. apply Hc. lia.
    + intros j Hlt. apply Hc. lia.
  - destruct Hst as (c & Ecm & Hs & Hc). rewrite Ecm. cbn. intros E.
    apply (connecting_inv addr ports) in E as [Hh Hr]; [|done..].
    split; [done|]. intros c' Er. destruct (Hr c' Er) as (-> & Hd & Hj). split_and!; try done.
    intros j Hlt. split; [by apply Hc|by apply Hj].
  - by intros [= <- <- _].
  - by intros [= <- <- _].
Qed.


(** *** Accepting *)

Definition received (s : option ConnectedSocket) : Prop :=
  match s with Some (SendSock _) => False | _ => True end.

Lemma accept_flow_sock now l sock (w w' : Dxs H) r sock' :
  accept_flow now l sock w = Some (r, sock', w') ->
  (sock = None \/ sock' = sock) /\ (received sock -> received sock')
  /\ (r = AllReady -> sock' <> None).
Proof.
  unfold accept_flow, accept_sock. destruct sock as [s|]; cbn -[accepted_ready].
  - destruct (accepted_ready _ _ _) as [[r1 w1]|]; [|done]. intros [= <- <- _].
    split_and!; [by right|done|done].
  - destruct (DxsClient.Accept _ _) as [[[[s|]|e]|] w1];
      cbn -[accepted_ready]; [| | |done].
    + destruct (accepted_ready _ _ _) as [[r1 w2]|]; [|done]. intros [= <- <- _]. by split_and!; [left|..].
    + intros [= <- <- _]. by split_and!; [left|..].
    + intros [= <- <- _]. by split_and!; [left|..].
Qed.

Lemma accept_flows_socks now listens n : forall i socks (w w' : Dxs H) r socks',
  (i + n <= length socks)%nat ->
  accept_flows now n i listens socks w = Some (r, socks', w') ->
  length socks' = length socks
  /\ (forall j s, socks !! j = Some (Some s) -> socks' !! j = Some (Some s))
  /\ (Forall received socks -> Forall received socks')
  /\ (r = AllReady -> forall j, (i <= j < i + n)%nat -> exists s, socks' !! j = Some (Some s)).
Proof.
  induction n as [|n IH]; intros i socks w w' r socks' Hl E; cbn [accept_flows] in E.
  - injection E as <- <- _. split_and!; try done. lia.
  - destruct (listens !! i) as [l|]; [|done]. destruct (socks !! i) as [sock|] eqn:Es; [|done].
    cbn in E. destruct (accept_flow now l sock w) as [[[r1 sock1] w1]|] eqn:Ef; [|done]. cbn in E.
    apply accept_flow_sock in Ef as (Hk & Hrc & Hall).
    assert (Hkeep : forall j s, socks !! j = Some (Some s) -> <[i := sock1]> socks !! j = Some (Some s)).
    { intros j s Hj. destruct (decide (j = i)) as [->|]; [|by rewrite list_lookup_insert_ne].
      rewrite Es in Hj. injection Hj as ->. destruct Hk as [?| ->]; [done|].
      by rewrite list_lookup_insert_eq by lia. }
    assert (Hrecv : Forall received socks -> Forall received (<[i := sock1]> socks)).
    { intros HF. apply Forall_insert; [done|]. apply Hrc. by apply (list.Forall_lookup_1 _ _ _ _ HF Es). }
    destruct r1; try (injection E as <- <- _; split_and!; [apply length_insert|done|done|done]).
    apply IH in E as (E1 & E2 & E3 & E4); [|rewrite length_insert; lia].
    rewrite length_insert in E1. split_and!; [done|by auto|by auto|].
    intros Hr j Hj. destruct (decide (j = i)) as [->|]; [|apply E4; [done|lia]].
    destruct sock1 as [s1|]; [|by destruct Hall]. exists s1. apply E2.
    by rewrite list_lookup_insert_eq by lia.
Qed.

Inductive accept_calls (l0 : ListenCommunication) : ListenCommunication -> Prop :=
  | accepts_nil : accept_calls l0 l0
  | accepts_call now l s r l' s' :
      accept_calls l0 l -> shim_accept now l s = Some (r, l', s') -> accept_calls l0 l'.

Definition accept_comm_ok (c : Communication) : Prop :=
  comm_send c = false /\ length (dxs_socks c) = kFastrakMaxNumFlows /\ Forall received (dxs_socks c).

Definition listen_inv (l : ListenCommunication) : Prop :=
  match state (listen_stage l) with
  | kAccepting => exists c, stage_comm (listen_stage l) = Some c /\ accept_comm_ok c
  | _ => True
  end.

Lemma accepting_inv now l c s r l' s' :
  accept_comm_ok c ->
  accepting kFastrakNumFlows accept_timeout_ ip_addr now l c s = Some (r, l', s') ->
  listen_inv l'
  /\ (exists c1, (stage_comm (listen_stage l') = Some c1 \/ r = Ok (Some c1))
       /\ forall j sk, dxs_socks c !! j = Some (Some sk) -> dxs_socks c1 !! j = Some (Some sk))
  /\ forall c', r = Ok (Some c') -> listen_stage l' = mkStage kDone None /\ comm_send c' = false
       /\ forall j, (j < kFastrakNumFlows)%nat ->
           exists rs, dxs_socks c' !! j = Some (Some (RecvSock rs)).
Proof using flows_max.
  intros (Hs & Hl & Hr). unfold accepting. destruct (ip_addr_to_client_ _ !! _) as [w|]; [|done].
  cbn -[accept_flows]. destruct (accept_flows _ _ _ _ _ _) as [[[r1 socks] w1]|] eqn:E; [|done].
  apply accept_flows_socks in E as (E1 & E2 & E3 & E4); [|lia]. specialize (E3 Hr).
  assert (Hok : accept_comm_ok (set_socks socks c)) by (split_and!; [done|by cbn; lia|done]).
  destruct r1 as [| |e]; cbn -[CheckTimeout].
  - intros [= <- <- _]. split_and!; [done|by exists (set_socks socks c); split; [right|]|].
    intros c' [= <-]. split_and!; [done|done|]. intros j Hj.
    destruct (E4 eq_refl j) as [[sk|rs] Hj']; [lia| |by exists rs].
    by apply (list.Forall_lookup_1 _ _ _ _ E3) in Hj'.
  - destruct (CheckTimeout _ _ _); intros [= <- <- _];
      (split_and!; [by eexists|by eexists; split; [left|]|done]).
  - intros [= <- <- _]. split_and!; [by eexists|by eexists; split; [left|]|done].
Qed.

Lemma Accept_inv now l s r l' s' :
  listen_inv l -> shim_accept now l s = Some (r, l', s') ->
  listen_inv l'
  /\ (forall c, state (listen_stage l) = kAccepting -> stage_comm (listen_stage l) = Some c ->
       exists c1, (stage_comm (listen_stage l') = Some c1 \/ r = Ok (Some c1))
       /\ forall j sk, dxs_socks c !! j = Some (Some sk) -> dxs_socks c1 !! j = Some (Some sk))
  /\ forall c', r = Ok (Some c') -> listen_stage l' = mkStage kDone None /\ comm_send c' = false
       /\ forall j, (j < kFastrakNumFlows)%nat ->
           exists rs, dxs_socks c' !! j = Some (Some (RecvSock rs)).
Proof using flows_max.
  intros Hi. unfold Accept. destruct (state (listen_stage l)) eqn:Es.
  - cbn [next_comm]. destruct (GetOrInitClient _ _ _) as [[w|e] s1]; [|by intros [= <- <- _]].
    intros E. apply accepting_inv in E as (H1 & _ & H3); [done|].
    split_and!; [done|done|]. apply Forall_replicate. done.
  - unfold listen_inv in *. rewrite Es in *. by intros [= <- <- _]; rewrite Es.
  - unfold listen_inv in Hi. rewrite Es in Hi. destruct Hi as (c & Ec & Hc). rewrite Ec. cbn.
    intros E. apply accepting_inv in E as (H1 & H2 & H3); [|done]. split_and!; [done| |done].
    by intros c0 _ [= <-].
  - intros [= <- <- _]. split_and!; [by unfold listen_inv; rewrite Es|done|done].
Qed.

(** C17 (accepting).  However often NCCL calls [Accept] and whatever happens
    in between: a socket accepted for a flow by one call is the socket of that
    flow in every later call, and when a call returns a communication, every
    flow has a receive socket, and later calls are errors. *)
Theorem accept_all_flows l0 l now s r l' s' :
  state (listen_stage l0) = kStart -> accept_calls l0 l ->
  shim_accept now l s = Some (r, l', s') ->
  (forall c, state (listen_stage l) = kAccepting -> stage_comm (listen_stage l) = Some c ->
     exists c1, (stage_comm (listen_stage l') = Some c1 \/ r = Ok (Some c1))
     /\ forall j sk, dxs_socks c !! j = Some (Some sk) -> dxs_socks c1 !! j = Some (Some sk))
  /\ (forall c, r = Ok (Some c) ->
       comm_send c = false
       /\ (forall j, (j < kFastrakNumFlows)%nat ->
            exists rs, dxs_socks c !! j = Some (Some (RecvSock rs)))
       /\ forall now' s1, shim_accept now' l' s1 = Some (Err kInternal, l', s1)).
Proof using flows_max.
  intros H0s Hcs E. assert (Hi : listen_inv l).
  { clear E. induction Hcs as [|? ? ? ? ? ? _ IH E]; [|by apply (Accept_inv _ _ _ _ _ _ IH E)].
    unfold listen_inv. by rewrite H0s. }
  destruct (Accept_inv _ _ _ _ _ _ Hi E) as (_ & H2 & H3). split; [done|].
  intros c Er. destruct (H3 c Er) as (Hd & Hs & Hj). split_and!; [done|done|].
  intros now' s1. unfold Accept. by rewrite Hd.
Qed.

End connection_properties.

(** The trace identifier has the index in its lower and the address in its
    upper half. *)
Lemma GenerateCommTraceId_parts comm idx :
  GenerateCommTraceId comm idx mod 2 ^ 16 = idx mod 2 ^ 16
  /\ GenerateCommTraceId comm idx / 2 ^ 16 = comm mod 2 ^ 16.
Proof.
  unfold GenerateCommTraceId. rewrite !(Z.land_comm 65535).
  rewrite !(land_mask 65536 16) by lia. change 65536 with (2 ^ 16).
  pose proof (Z.mod_pos_bound idx (2 ^ 16)). pose proof (Z.mod_pos_bound comm (2 ^ 16)).
  rewrite Z.shiftl_mul_pow2 by lia.
  assert (D : Z.land (idx mod 2 ^ 16) (comm mod 2 ^ 16 * 2 ^ 16) = 0).
  { apply Z.bits_inj'. intros n Hn. rewrite Z.land_spec, Z.bits_0. destruct (Z.ltb_spec n 16).
    - by rewrite Z.mul_pow2_bits_low, andb_false_r by lia.
    - by rewrite Z.mod_pow2_bits_high by lia. }
  rewrite <- Z.lxor_lor, <- Z.add_nocarry_lxor by done. unfold u32.
  rewrite (Z.mod_small (_ + _)) by lia. rewrite Z.mod_add, Z.div_add by lia.
  rewrite Zmod_mod, Z.div_small by lia. done.
Qed.

(** ** Properties of the GPU indices *)

Lemma number_gpus_lookup gpus : forall idx m,
  NoDup (AsciiStrToLower <$> gpus) -> 0 <= idx -> idx + Zlen gpus <= 256 ->
  (forall g, g ∈ gpus -> m !! AsciiStrToLower g = None) ->
  forall k v, number_gpus gpus idx m !! k = Some v
    <-> m !! k = Some v
        \/ exists i g, gpus !! i = Some g /\ k = AsciiStrToLower g /\ v = idx + Z.of_nat i.
Proof.
  induction gpus as [|g gpus IH]; intros idx m Hnd Hi Hl Hm k v; cbn [number_gpus].
  - split; [by left|]. intros [?|(i & g & E & _)]; [done|]. by rewrite lookup_nil in E.
  - cbn in Hnd. apply list.NoDup_cons in Hnd as [Hni Hnd]. rewrite Zlen_cons in Hl.
    pose proof (Zlen_nonneg gpus). unfold insert_new, u8. rewrite (Hm g) by left.
    rewrite Z.mod_small by lia. rewrite IH; [|done|lia|lia|].
    2:{ intros g' Hg'. rewrite lookup_insert_ne; [apply Hm; by right|].
        intros E. apply Hni. rewrite E. by apply list_elem_of_fmap_2. }
    split.
    + intros [[[<- <-]|[Hne E]]%lookup_insert_Some|(i & g' & Hg & -> & ->)].
      * right. exists 0%nat, g. split_and!; [done|done|lia].
      * by left.
      * right. exists (S i), g'. split_and!; [done|done|lia].
    + intros [E|([|i] & g' & Hg & -> & ->)].
      * left. rewrite lookup_insert_ne; [done|]. intros <-. by rewrite (Hm g) in E by left.
      * cbn in Hg. injection Hg as <-. left. rewrite lookup_insert_eq. f_equal. lia.
      * right. exists i, g'. split_and!; [done|done|lia].
Qed.

Lemma GetPciFromFastrakIdx_ok order idx addr :
  GetPciFromFastrakIdx order idx = Ok addr -> (addr, idx) ∈ order.
Proof.
  induction order as [|[a i] order IH]; cbn; [done|].
  case_match; zbool; [intros [= ->]; subst; left|intros; right; by apply IH].
Qed.

Lemma GetPciFromFastrakIdx_found order idx addr :
  (addr, idx) ∈ order -> exists addr', GetPciFromFastrakIdx order idx = Ok addr'.
Proof.
  induction order as [|[a i] order IH]; [by intros ?%not_elem_of_nil|].
  intros [[= -> ->]|Hin]%elem_of_cons; cbn.
  - rewrite Z.eqb_refl. by eexists.
  - case_match; [by eexists|by apply IH].
Qed.

Lemma unique_cons x y l : unique (x :: y :: l) = if decide (x = y) then unique (y :: l) else x :: unique (y :: l).
Proof. reflexivity. Qed.

Lemma unique_elem_of x l : x ∈ unique l <-> x ∈ l.
Proof.
  induction l as [|y [|z l] IH]; [done..|]. rewrite unique_cons. case_decide as E.
  - subst z. rewrite IH. rewrite !elem_of_cons. tauto.
  - rewrite !(elem_of_cons _ x y), IH. done.
Qed.

Lemma unique_sorted l : StronglySorted String.le l -> StronglySorted String.le (unique l) /\ NoDup (unique l).
Proof.
  induction l as [|x [|y l] IH]; intros Hs.
  - split; constructor.
  - split; [done|]. apply NoDup_singleton.
  - rewrite unique_cons. apply StronglySorted_cons in Hs as [Hx Hs]. destruct (IH Hs) as [Hs' Hn].
    case_decide as E; [done|]. rewrite list.Forall_forall in Hx. split.
    + apply StronglySorted_cons. split; [|done]. apply list.Forall_forall. intros z Hz. by apply Hx, unique_elem_of.
    + apply list.NoDup_cons. split; [|done]. rewrite unique_elem_of. intros Hin. apply E.
      apply (anti_symm String.le); [apply Hx; left|].
      apply elem_of_cons in Hin as [->|Hin]; [done|].
      apply StronglySorted_cons in Hs as [Hy _]. rewrite list.Forall_forall in Hy. by apply Hy.
Qed.

(** Whatever the order in which the hash map is traversed, every
    H100 found below the PCI device directory, up to 256 of them with names in
    lower case, has an index, its address spelled in any case resolves to the
    index, and the index resolves to the address; indices follow the order of
    the addresses. *)
Theorem gpu_index_roundtrip pci_devices order gpus :
  pci_devices ≫= list_vendor_devices kNvidiaVendorId (Some kH100DeviceId) = Some gpus ->
  (forall g, g ∈ gpus -> AsciiStrToLower g = g) -> Zlen (unique (sort_strings gpus)) <= 256 ->
  order ≡ₚ map_to_list (GetPciAddrToFastrakIdxMap pci_devices) ->
  forall g, g ∈ gpus -> exists i,
    (forall g', AsciiStrToLower g' = g -> GetFastrakIdxFromPci (GetPciAddrToFastrakIdxMap pci_devices) g' = Ok i)
    /\ GetPciFromFastrakIdx order i = Ok g
    /\ forall h j, GetFastrakIdxFromPci (GetPciAddrToFastrakIdxMap pci_devices) h = Ok j -> i <= j ->
         String.le g (AsciiStrToLower h).
Proof.
  intros Hgpus Hlow Hl Ho g Hg. unfold GetPciAddrToFastrakIdxMap in *. rewrite Hgpus in *.
  destruct (unique_sorted (sort_strings gpus)) as [Hs Hn]; [apply StronglySorted_merge_sort; apply _|].
  assert (Hmem : forall x, x ∈ unique (sort_strings gpus) <-> x ∈ gpus).
  { intros x. rewrite unique_elem_of. unfold sort_strings. by rewrite merge_sort_Permutation. }
  set (l := unique (sort_strings gpus)) in *.
  assert (Hid : AsciiStrToLower <$> l = l).
  { rewrite <- (list_fmap_id l) at 2. apply list_fmap_ext. intros i x Hx. cbn. apply Hlow, Hmem.
    by eapply list_elem_of_lookup_2. }
  assert (L := number_gpus_lookup l 0 ∅ ltac:(by rewrite Hid) ltac:(lia) ltac:(lia) (fun _ _ => lookup_empty _)).
  assert (L' : forall k v, number_gpus l 0 ∅ !! k = Some v <-> exists i, l !! i = Some k /\ v = Z.of_nat i).
  { intros k v. rewrite L, lookup_empty. split; [|intros (i & Hi & ->); right].
    - intros [?|(i & x & Hx & -> & ->)]; [done|]. exists i. rewrite (Hlow x); [done|].
      apply Hmem. by eapply list_elem_of_lookup_2.
    - exists i, k. split_and!; [done| |lia]. symmetry. apply Hlow, Hmem. by eapply list_elem_of_lookup_2. }
  clear L. apply Hmem, list_elem_of_lookup_1 in Hg as [i Hi]. exists (Z.of_nat i).
  unfold GetFastrakIdxFromPci. split_and!.
  - intros g' ->. by rewrite (proj2 (L' g (Z.of_nat i))) by eauto.
  - destruct (GetPciFromFastrakIdx_found order (Z.of_nat i) g) as [a Ha].
    { rewrite Ho. apply elem_of_map_to_list, L'. eauto. }
    rewrite Ha. f_equal. apply GetPciFromFastrakIdx_ok in Ha. rewrite Ho in Ha.
    apply elem_of_map_to_list, L' in Ha as (j & Hj & ?). assert (j = i) as -> by lia. congruence.
  - intros h j Hh Hij. destruct (number_gpus l 0 ∅ !! AsciiStrToLower h) eqn:Eh; [|done]. injection Hh as ->.
    apply L' in Eh as (k & Hk & ->). eapply StronglySorted_lookup_le; eauto. lia.
Qed.

Definition ex_gpu_dir : Sysfs :=
  Dir [("0000:05:00.0"%string, ex_pci "0x10de" "0x2330");
       ("0000:02:00.0"%string, Dir [("0000:0b:00.0"%string, ex_pci "0x10de" "0x2330")]);
       ("0000:0b:00.0"%string, ex_pci "0x10de" "0x2330")].

Lemma gpu_index_roundtrip_witness :
  exists i, GetFastrakIdxFromPci (GetPciAddrToFastrakIdxMap (Some ex_gpu_dir)) "0000:0B:00.0" = Ok i
  /\ GetPciFromFastrakIdx (map_to_list (GetPciAddrToFastrakIdxMap (Some ex_gpu_dir))) i
     = Ok "0000:0b:00.0"%string.
Proof.
  destruct (gpu_index_roundtrip (Some ex_gpu_dir) (map_to_list (GetPciAddrToFastrakIdxMap (Some ex_gpu_dir)))
              ["0000:05:00.0"; "0000:0b:00.0"; "0000:0b:00.0"]%string)
    with (g := "0000:0b:00.0"%string) as (i & H1 & H2 & _).
  - vm_compute. reflexivity.
  - apply list.Forall_forall. repeat constructor.
  - vm_compute. discriminate.
  - reflexivity.
  - right. left.
  - exists i. split; [by apply H1|exact H2].
Defined.

(** *** Witnesses: one device, two flows, a server that answers at once *)

#[local] Existing Instance LogChannel.

Definition ex_pton (s : string) : option (list Z) := Some [10; 0; 0; 2].

Definition ex_shim0 : NcclShim := mkNcclShim 0 0 {[ "10.0.0.1"%string := ex_dxs0 ]}.

Definition ex_handle0 : ncclSocketHandle :=
  mkSocketHandle 0 "10.0.0.2" [5000; 5001] (mkStage kStart None).

Definition ex_connect (now : Z) (h : ncclSocketHandle) (s : NcclShim) :=
  Connect ex_pton (fun _ => None) 2 1 true 100 (fun _ => "10.0.0.1"%string)
    (fun _ => Err kUnavailable) (fun _ => Ok "0000:04:00.0"%string) (fun _ => Ok 0) now 0 h s.

(** The first call sends two requests and reports that nothing is ready. *)
Definition ex_first := ex_connect 0 ex_handle0 ex_shim0.
Definition ex_handle1 := match ex_first with Some (_, h, _) => h | None => ex_handle0 end.
Definition ex_shim1 := match ex_first with Some (_, _, s) => s | None => ex_shim0 end.

(** Then both sockets are acknowledged. *)
Definition ex_acked : NcclShim :=
  match ip_addr_to_client_ ex_shim1 !! "10.0.0.1"%string with
  | None => ex_shim1
  | Some w =>
      let ack sock := RxMessage (encode (mkConnectAckMessage (ControlCommand_code kConnectAck) sock
                                           (DataSockStatus_code DataSock_kConnected) 0)) in
      set_client (fun _ => "10.0.0.1"%string) 0
        (mkDxs (fold_left (deliver 1) [ack 1; ack 2] (client w)) (channel w)) ex_shim1
  end.


Definition ex_listen0 : ListenCommunication :=
  mkListenCommunication 3 [mkListenSocket 1; mkListenSocket 2] (mkStage kStart None).

(** Two ready listen sockets with a pending connection each, at a server
    that does not acknowledge accepted sockets. *)
Definition ex_listening : NcclShim :=
  mkNcclShim 0 0
    {[ "10.0.0.1"%string :=
         mkDxs (set_listen_sockets {[1 := mkListenState 5000 [ex_addr]; 2 := mkListenState 5001 [ex_addr]]}
                  (new_DxsClient true)) ([] : list (list Z)) ]}.

Lemma accept_all_flows_witness : exists c l' s',
  Accept 2 100 (fun _ => "10.0.0.1"%string) (fun _ => Err kUnavailable) 0 ex_listen0 ex_listening
  = Some (Ok (Some c), l', s')
  /\ forall j, (j < 2)%nat -> exists rs, dxs_socks c !! j = Some (Some (RecvSock rs)).
Proof.
  destruct (Accept 2 100 (fun _ => "10.0.0.1"%string) (fun _ => Err kUnavailable) 0 ex_listen0
              ex_listening) as [[[[[c|]|e] l'] s']|] eqn:E;
    try (exfalso; vm_compute in E; discriminate E).
  exists c, l', s'. split; [reflexivity|].
  exact (proj1 (proj2 (proj2 (accept_all_flows 2 100 (fun _ => "10.0.0.1"%string)
            (fun _ => Err kUnavailable) ltac:(unfold kFastrakMaxNumFlows; lia)
            ex_listen0 ex_listen0 0 ex_listening (Ok (Some c)) l' s' eq_refl
            (accepts_nil _ _ _ _ _) E) c eq_refl))).
Defined.
