(* ===== verification/UnixSocket.v ===== *)
(** * Messages on Unix sockets
    (buffer_mgmt_daemon/common/unix_socket_connection.{h,cc})

    A message is a text, a file descriptor, or both; a text is preceded by its
    length in network order.  Reads and writes may be partial: the amounts the
    kernel transfers are inputs of the model. *)

From S2P Require Import Prelude.

(** [UnixSocketMessage], a protobuf message with optional fields. *)
Record UnixSocketMessage := mkMessage { text : option (list Z); fd : option Z }.

Inductive State : Set := LENGTH | PAYLOAD.

Inductive SendStatus : Set := DONE | IN_PROGRESS | STOPPED | ERROR.

(** [htons] and [ntohs] on the bytes of a [uint16_t]. *)
Definition be16 (n : Z) : list Z := [u16 n / 256; u16 n mod 256].
Definition read_be16 (bs : list Z) : Z := 256 * nthZ bs 0 + nthZ bs 1.

Definition sizeof_uint16 : Z := 2.

(** ** Receiving *)

(** [read_buffer_] has the [read_offset_] bytes received so far; [closed] are
    the descriptors the connection has closed. *)
Record ReadSide := mkReadSide {
  read_state_ : State;
  read_length_ : Z;
  read_buffer_ : list Z;
  incoming_ : list UnixSocketMessage;
  closed : list Z
}.

Definition new_ReadSide : ReadSide := mkReadSide LENGTH sizeof_uint16 [] [] [].

(** [message.set_fd] if [fd > 0]. *)
Definition fd_field (fd : Z) : option Z := if 0 <? fd then Some fd else None.

(** [Receive] when [recvmsg] returns [bytes], with a descriptor if [cmsg] is
    not [None]. *)
Definition Receive (bytes : list Z) (cmsg : option Z) (r : ReadSide) : bool * ReadSide :=
  if Zlen bytes <=? 0 then (false, r)
  else
    let fd := default (-1) cmsg in
    let buffer := read_buffer_ r ++ bytes in
    if Zlen buffer =? read_length_ r then
      match read_state_ r with
      | LENGTH =>
          let len := read_be16 buffer in
          if len =? 0 then
            (true, mkReadSide LENGTH sizeof_uint16 []
                     (incoming_ r ++ [mkMessage None (fd_field fd)]) (closed r))
          else
            (true, mkReadSide PAYLOAD len [] (incoming_ r)
                     (if 0 <? fd then closed r ++ [fd] else closed r))
      | PAYLOAD =>
          (true, mkReadSide LENGTH sizeof_uint16 []
                   (incoming_ r ++ [mkMessage (Some buffer) (fd_field fd)]) (closed r))
      end
    else (true, mkReadSide (read_state_ r) (read_length_ r) buffer (incoming_ r) (closed r)).

Definition ReadMessage (r : ReadSide) : UnixSocketMessage * ReadSide :=
  match incoming_ r with
  | [] => (mkMessage None None, r)
  | ret :: rest =>
      (ret, mkReadSide (read_state_ r) (read_length_ r) (read_buffer_ r) rest (closed r))
  end.

(** ** Sending *)

(** [wire] collects what [sendmsg] has accepted: the bytes of each call with
    the descriptor passed along. *)
Record SendSide := mkSendSide {
  send_state_ : State;
  send_length_ : Z;
  send_offset_ : Z;
  send_buffer_ : list Z;
  outgoing_ : list UnixSocketMessage;
  wire : list (list Z * option Z)
}.

Definition new_SendSide : SendSide := mkSendSide LENGTH 0 0 [] [] [].

Definition AddMessageToSend (m : UnixSocketMessage) (s : SendSide) : SendSide :=
  mkSendSide (send_state_ s) (send_length_ s) (send_offset_ s) (send_buffer_ s)
    (outgoing_ s ++ [m]) (wire s).

(** [accepted] is the number of bytes [sendmsg] would accept, [None] if it
    fails. *)
Definition SendFd (fd : Z) (accepted : option Z) (s : SendSide) : SendStatus * SendSide :=
  match accepted with
  | None => (DONE, s)
  | Some n =>
      (DONE, mkSendSide (send_state_ s) (send_length_ s) (send_offset_ s) (send_buffer_ s)
               (outgoing_ s) (wire s ++ [(takeZ (Z.min n sizeof_uint16) (be16 0), Some fd)]))
  end.

Definition SendText (text : list Z) (fd : Z) (accepted : option Z) (s : SendSide)
    : SendStatus * SendSide :=
  let s :=
    match send_state_ s with
    | LENGTH =>
        if send_offset_ s =? 0
        then mkSendSide LENGTH sizeof_uint16 0 (be16 (Zlen text)) (outgoing_ s) (wire s)
        else s
    | PAYLOAD => s
    end in
  let iov_len := send_length_ s - send_offset_ s in
  let bytes_sent := if send_length_ s =? 0 then Some 0 else Z.min iov_len <$> accepted in
  match bytes_sent with
  | None => (ERROR, s)
  | Some n =>
      let chunk := (takeZ n (dropZ (send_offset_ s) (send_buffer_ s)),
                    if 0 <? fd then Some fd else None) in
      let wire := if send_length_ s =? 0 then wire s else wire s ++ [chunk] in
      let offset := send_offset_ s + n in
      if negb (offset =? send_length_ s) then
        (STOPPED, mkSendSide (send_state_ s) (send_length_ s) offset (send_buffer_ s) (outgoing_ s) wire)
      else
        match send_state_ s with
        | LENGTH =>
            (IN_PROGRESS, mkSendSide PAYLOAD (u16 (Zlen text)) 0 text (outgoing_ s) wire)
        | PAYLOAD =>
            (DONE, mkSendSide LENGTH sizeof_uint16 0 (be16 (Zlen text)) (outgoing_ s) wire)
        end
  end.

(** One iteration of the loop of [Send]. *)
Definition SendStep (accepted : option Z) (m : UnixSocketMessage) (s : SendSide)
    : SendStatus * SendSide :=
  match text m, fd m with
  | Some t, Some f => SendText t (if 0 <? f then f else -1) accepted s
  | Some t, None => SendText t (-1) accepted s
  | None, Some f => SendFd f accepted s
  | None, None => (ERROR, s)
  end.

Definition pop_outgoing (s : SendSide) : SendSide :=
  mkSendSide (send_state_ s) (send_length_ s) (send_offset_ s) (send_buffer_ s)
    (tl (outgoing_ s)) (wire s).

(** [Send]; the head of [accepts] is what the next [sendmsg] accepts (nothing,
    when the list is exhausted).  [None] when the fuel is exhausted. *)
Fixpoint Send (fuel : nat) (accepts : list (option Z)) (s : SendSide) : option (bool * SendSide) :=
  match outgoing_ s with
  | [] => Some (true, s)
  | m :: _ =>
      match fuel with
      | O => None
      | S fuel' =>
          let '(status, s) := SendStep (hd (Some 0) accepts) m s in
          match status with
          | ERROR => Some (false, s)
          | DONE => Send fuel' (tl accepts) (pop_outgoing s)
          | IN_PROGRESS => Send fuel' (tl accepts) s
          | STOPPED => Some (true, s)
          end
      end
  end.

(** ** The byte stream of a sequence of texts *)

Definition frame (t : list Z) : list Z := be16 (Zlen t) ++ t.
Definition frames (ts : list (list Z)) : list Z := concat (frame <$> ts).

Definition text_ok (t : list Z) : Prop := 0 < Zlen t < 2 ^ 16.

Lemma read_be16_be16 n : 0 <= n < 2 ^ 16 -> read_be16 (be16 n) = n.
Proof.
  intros Hn. change (256 * (u16 n / 256) + u16 n mod 256 = n).
  unfold u16. rewrite (Z.mod_small n) by lia. dmlia.
Qed.

Lemma frames_cons t ts : frames (t :: ts) = be16 (Zlen t) ++ t ++ frames ts.
Proof. change (frames (t :: ts)) with (frame t ++ frames ts). unfold frame. by rewrite app_assoc. Qed.

(** *** The receiver *)

(** [recvmsg] returns at most what was asked for; [cuts] bounds each read and
    says which descriptor comes with it. *)
Fixpoint receive_all (cuts : list (Z * option Z)) (stream : list Z) (r : ReadSide)
    : ReadSide * list Z :=
  match cuts with
  | [] => (r, stream)
  | (c, cmsg) :: cuts' =>
      let n := Z.min (Z.max 1 c) (read_length_ r - Zlen (read_buffer_ r)) in
      match stream with
      | [] => (r, [])
      | _ => receive_all cuts' (dropZ n stream) (snd (Receive (takeZ n stream) cmsg r))
      end
  end.

(** The texts [ts] are received already or will be read from [rest]. *)
Definition rcv_inv (r : ReadSide) (rest : list Z) (ts : list (list Z)) : Prop :=
  exists done todo, ts = done ++ todo /\ text <$> incoming_ r = Some <$> done
    /\ match read_state_ r with
       | LENGTH => read_length_ r = 2 /\ Zlen (read_buffer_ r) < 2
                   /\ read_buffer_ r ++ rest = frames todo
       | PAYLOAD => exists t todo', todo = t :: todo' /\ read_length_ r = Zlen t
                   /\ Zlen (read_buffer_ r) < Zlen t
                   /\ read_buffer_ r ++ rest = t ++ frames todo'
       end.

Lemma Receive_inv bytes cmsg r rest ts :
  Forall text_ok ts -> rcv_inv r (bytes ++ rest) ts ->
  0 < Zlen bytes <= read_length_ r - Zlen (read_buffer_ r) ->
  rcv_inv (snd (Receive bytes cmsg r)) rest ts.
Proof.
  intros Hok (done & todo & -> & Hin & Hst) Hb. unfold Receive.
  rewrite (proj2 (Z.leb_gt _ _)) by lia. rewrite app_assoc in Hst.
  assert (Hlen := Zlen_app (read_buffer_ r) bytes). set (buf := read_buffer_ r ++ bytes) in *.
  destruct (Z.eqb_spec (Zlen buf) (read_length_ r)) as [E|E].
  2:{ exists done, todo. split_and!; [done|done|]. cbn.
      destruct (read_state_ r); [|destruct Hst as (t & todo' & ? & ? & ? & ?); exists t, todo'];
        (split_and!; try done; try (by destruct Hst as (? & ? & ?)); cbn; lia). }
  destruct (read_state_ r).
  - destruct Hst as (E2 & _ & Es). destruct todo as [|t todo].
    { apply (f_equal Zlen) in Es. rewrite Zlen_app in Es. cbn in Es. rewrite Zlen_nil in Es.
      pose proof (Zlen_nonneg rest). lia. }
    rewrite frames_cons in Es.
    apply app_inj_1 in Es as [Eb Er]; [|unfold Zlen in *; cbn; lia].
    apply list.Forall_app in Hok as [_ Hok]. inversion_clear Hok as [|? ? Ht _].
    unfold text_ok in Ht. rewrite Eb, read_be16_be16 by lia.
    rewrite (proj2 (Z.eqb_neq _ _)) by lia.
    exists done, (t :: todo). split_and!; [done|done|]. cbn. exists t, todo.
    split_and!; try done. rewrite Zlen_nil. lia.
  - destruct Hst as (t & todo' & -> & El & _ & Es).
    apply app_inj_1 in Es as [Eb Er]; [|unfold Zlen in *; lia].
    exists (done ++ [t]), todo'. cbn. rewrite !fmap_app, Hin, Eb. cbn.
    split_and!; [by rewrite <- app_assoc|done|done|done|done].
Qed.

Lemma rcv_requested r rest ts : rcv_inv r rest ts -> 0 < read_length_ r - Zlen (read_buffer_ r).
Proof.
  intros (done & todo & _ & _ & Hst). destruct (read_state_ r); [lia|].
  destruct Hst as (t & todo' & _ & ? & ? & _). lia.
Qed.

Lemma receive_all_inv cuts : forall stream rest r ts,
  Forall text_ok ts -> rcv_inv r (stream ++ rest) ts ->
  let '(r', unread) := receive_all cuts stream r in
  rcv_inv r' (unread ++ rest) ts /\ (Zlen stream <= Zlen cuts -> unread = []).
Proof.
  induction cuts as [|[c cmsg] cuts IH]; intros stream rest r ts Hok Hi; cbn [receive_all].
  - split; [done|]. rewrite Zlen_nil. intros. destruct stream as [|x l]; [done|].
    rewrite Zlen_cons in *. pose proof (Zlen_nonneg l). lia.
  - destruct stream as [|x l]; [done|]. set (stream := x :: l) in *.
    assert (Hpos : 0 < Zlen stream) by (unfold stream; rewrite Zlen_cons; pose proof (Zlen_nonneg l); lia).
    pose proof (rcv_requested _ _ _ Hi). set (n := Z.min _ _).
    assert (Hn : 0 < Zlen (takeZ n stream) <= n).
    { unfold takeZ, Zlen in *. rewrite length_take. lia. }
    specialize (IH (dropZ n stream) rest (snd (Receive (takeZ n stream) cmsg r)) ts Hok).
    destruct (receive_all _ _ _) as [r' unread]. destruct IH as [IH1 IH2].
    + apply Receive_inv; [done| |lia]. by rewrite app_assoc, take_dropZ.
    + split; [done|]. intros Hc. apply IH2. rewrite Zlen_cons in Hc.
      unfold dropZ, Zlen in *. rewrite length_drop. lia.
Qed.

(** *** The sender *)

Definition sent_bytes (s : SendSide) : list Z := concat (fst <$> wire s).

(** The bytes sent and those still to send make up [sent]. *)
Definition snd_inv (s : SendSide) (sent : list Z) : Prop :=
  exists todo, text <$> outgoing_ s = Some <$> todo /\ Forall text_ok todo
    /\ match send_state_ s with
       | LENGTH =>
           match todo with
           | [] => send_offset_ s = 0 /\ sent_bytes s = sent
           | t :: todo' =>
               0 <= send_offset_ s < 2
               /\ (send_offset_ s <> 0 -> send_length_ s = 2 /\ send_buffer_ s = be16 (Zlen t))
               /\ sent_bytes s ++ dropZ (send_offset_ s) (be16 (Zlen t)) ++ t ++ frames todo' = sent
           end
       | PAYLOAD =>
           exists t todo', todo = t :: todo' /\ send_length_ s = Zlen t /\ send_buffer_ s = t
             /\ 0 <= send_offset_ s < Zlen t
             /\ sent_bytes s ++ dropZ (send_offset_ s) t ++ frames todo' = sent
       end.

Lemma concat_snoc_fst (w : list (list Z * option Z)) c :
  concat (fst <$> (w ++ [c])) = concat (fst <$> w) ++ fst c.
Proof. rewrite fmap_app, concat_app. cbn. by rewrite app_nil_r. Qed.

(** What one [sendmsg] takes from the bytes at an offset. *)
Lemma chunk_split (n off : Z) (buf : list Z) :
  0 <= n -> 0 <= off ->
  takeZ n (dropZ off buf) ++ dropZ (off + n) buf = dropZ off buf.
Proof.
  intros ? ?. unfold takeZ, dropZ. rewrite Z2Nat.inj_add, <- drop_drop by lia. apply take_drop.
Qed.

Lemma dropZ_all (l : list Z) : dropZ (Zlen l) l = [].
Proof. unfold dropZ, Zlen. rewrite Nat2Z.id. by apply drop_ge. Qed.

Lemma SendText_inv t fd n s m rest sent :
  outgoing_ s = m :: rest -> text m = Some t -> 0 <= n -> snd_inv s sent ->
  let '(status, s') := SendText t fd (Some n) s in
  match status with
  | ERROR => False
  | DONE => outgoing_ s' = outgoing_ s /\ send_state_ s = PAYLOAD /\ send_state_ s' = LENGTH
            /\ snd_inv (pop_outgoing s') sent
  | IN_PROGRESS => outgoing_ s' = outgoing_ s /\ send_state_ s = LENGTH /\ send_state_ s' = PAYLOAD
                   /\ snd_inv s' sent
  | STOPPED => snd_inv s' sent
  end.
Proof.
  destruct s as [st len off buf out w]. intros Eo Et Hn (todo & Etodo & Hok & Hst).
  cbn in Eo, Etodo, Hst. subst out. cbn in Etodo. rewrite Et in Etodo.
  destruct todo as [|t' todo]; [done|]. injection Etodo as <- Etodo.
  assert (Ht : text_ok t) by (by inversion Hok). unfold text_ok in Ht.
  destruct st; unfold SendText; cbn.
  - destruct Hst as (Ho & Hbuf & Es).
    assert ((if off =? 0 then mkSendSide LENGTH sizeof_uint16 0 (be16 (Zlen t)) (m :: rest) w
             else mkSendSide LENGTH len off buf (m :: rest) w)
            = mkSendSide LENGTH 2 off (be16 (Zlen t)) (m :: rest) w) as ->.
    { destruct (Z.eqb_spec off 0) as [->|E]; [done|]. by destruct Hbuf as [-> ->]. }
    cbn. pose proof (chunk_split (Z.min (2 - off) n) off (be16 (Zlen t)) ltac:(lia) ltac:(lia)) as Hc.
    rewrite <- Hc in Es. clear Hc.
    destruct (Z.eqb_spec (off + Z.min (2 - off) n) 2) as [E|E]; cbn.
    + split_and!; [done..|]. exists (t :: todo). split_and!; [by cbn; rewrite Et, Etodo|done|].
      cbn. exists t, todo. unfold u16. rewrite Z.mod_small by lia. split_and!; try done; try lia.
      unfold sent_bytes in *. cbn. rewrite concat_snoc_fst. cbn. rewrite E in Es.
      rewrite <- Es, <- !app_assoc. do 2 f_equal.
    + exists (t :: todo). split_and!; [by cbn; rewrite Et, Etodo|done|]. cbn.
      split_and!; try done; try lia.
      unfold sent_bytes in *. cbn. rewrite concat_snoc_fst. cbn. by rewrite <- Es, <- !app_assoc.
  - destruct Hst as (t2 & todo2 & [= <- <-] & -> & -> & Ho & Es).
    rewrite (proj2 (Z.eqb_neq _ _)) by lia.
    pose proof (chunk_split (Z.min (Zlen t - off) n) off t ltac:(lia) ltac:(lia)) as Hc.
    rewrite <- Hc in Es. clear Hc.
    destruct (Z.eqb_spec (off + Z.min (Zlen t - off) n) (Zlen t)) as [E|E]; cbn.
    + split_and!; [done..|]. exists todo. split_and!; [done|by inversion Hok|].
      rewrite E, dropZ_all, app_nil_r in Es. unfold sent_bytes in *. cbn. rewrite concat_snoc_fst. cbn.
      destruct todo as [|t3 todo3]; [by rewrite app_nil_r in Es|].
      split_and!; try done; try lia. by rewrite frames_cons, app_assoc in Es.
    + exists (t :: todo). split_and!; [by cbn; rewrite Et, Etodo|done|]. cbn.
      exists t, todo. split_and!; try done; try lia.
      unfold sent_bytes in *. cbn. rewrite concat_snoc_fst. cbn. by rewrite <- Es, <- !app_assoc.
Qed.

(** The iterations of [Send]: two per message, one less in the payload. *)
Definition send_fuel (s : SendSide) : nat :=
  2 * length (outgoing_ s) - match send_state_ s with LENGTH => 0 | PAYLOAD => 1 end.

Lemma Send_inv fuel : forall accepts s sent,
  (send_fuel s <= fuel)%nat ->
  Forall (fun a => exists n, a = Some n /\ 0 <= n) accepts -> snd_inv s sent ->
  exists s', Send fuel accepts s = Some (true, s') /\ snd_inv s' sent.
Proof.
  induction fuel as [|fuel IH]; intros accepts s sent Hf Ha Hi.
  all: destruct (outgoing_ s) as [|m rest] eqn:Eo; cbn [Send]; rewrite Eo; [by eexists|].
  { unfold send_fuel in Hf. rewrite Eo in Hf. cbn in Hf. destruct (send_state_ s); lia. }
  assert (exists n, hd (Some 0) accepts = Some n /\ 0 <= n) as (n & -> & Hn).
  { destruct Ha as [|a l Hx]; [by exists 0|exact Hx]. }
  assert (Ha' : Forall (fun a => exists n, a = Some n /\ 0 <= n) (tl accepts)) by by destruct Ha.
  assert (exists t, text m = Some t) as (t & Et).
  { destruct Hi as (todo & Etodo & _). rewrite Eo in Etodo.
    destruct todo as [|t todo]; [done|]. injection Etodo as Et _. eauto. }
  assert (exists f, SendStep (Some n) m s = SendText t f (Some n) s) as (f & ->).
  { unfold SendStep. rewrite Et. destruct (fd m); eauto. }
  pose proof (SendText_inv t f n s m rest sent Eo Et Hn Hi) as HS.
  destruct (SendText t f (Some n) s) as [[] s']; [| |by eauto|done].
  all: destruct HS as (Eo' & E1 & E2 & Hi'); apply IH; [|done|done].
  all: unfold send_fuel, pop_outgoing in *; cbn in *; rewrite ?Eo', ?Eo, ?E1, ?E2 in *; cbn in *; lia.
Qed.

Lemma AddMessageToSend_inv m t s sent :
  text m = Some t -> text_ok t -> snd_inv s sent ->
  snd_inv (AddMessageToSend m s) (sent ++ frame t).
Proof.
  intros Et Ht (todo & Etodo & Hok & Hst). exists (todo ++ [t]). cbn.
  split; [rewrite !fmap_app, Etodo; cbn; by rewrite Et|]. split; [apply list.Forall_app; auto|].
  assert (Hfr : forall l, frames (l ++ [t]) = frames l ++ frame t).
  { intros l. unfold frames. rewrite fmap_app, concat_app. cbn. by rewrite app_nil_r. }
  unfold sent_bytes in *. cbn. destruct (send_state_ s).
  - destruct todo as [|t0 todo]; cbn.
    + destruct Hst as (-> & <-). split_and!; [done|done|done|]. by rewrite app_nil_r.
    + destruct Hst as (Ho & Hb & <-). split_and!; try done; try lia.
      by rewrite Hfr, <- !app_assoc.
  - destruct Hst as (t0 & todo' & -> & El & Eb & Ho & <-). exists t0, (todo' ++ [t]).
    split_and!; try done; try lia. by rewrite Hfr, <- !app_assoc.
Qed.

(** *** Any schedule of the two ends *)

Inductive Event :=
  | EvAdd (m : UnixSocketMessage)
  | EvSend (accepts : list (option Z)).

(** A connection is used until [Send] returns false. *)
Fixpoint run_events (es : list Event) (s : SendSide) : option SendSide :=
  match es with
  | [] => Some s
  | EvAdd m :: es => run_events es (AddMessageToSend m s)
  | EvSend accepts :: es =>
      match Send (send_fuel s) accepts s with
      | Some (true, s) => run_events es s
      | _ => None
      end
  end.

Definition event_ok (e : Event) : Prop :=
  match e with
  | EvAdd m => exists t, text m = Some t /\ text_ok t
  | EvSend accepts => Forall (fun a => exists n, a = Some n /\ 0 <= n) accepts
  end.

Definition added (es : list Event) : list (list Z) :=
  omap (fun e => match e with EvAdd m => text m | EvSend _ => None end) es.

Lemma run_events_inv es : forall s ts,
  Forall event_ok es -> snd_inv s (frames ts) ->
  exists s', run_events es s = Some s' /\ snd_inv s' (frames (ts ++ added es)).
Proof.
  induction es as [|e es IH]; intros s ts Hok Hi; cbn [run_events].
  { exists s. by rewrite app_nil_r. }
  inversion_clear Hok as [|? ? He Hes]. destruct e as [m|accepts].
  - destruct He as (t & Et & Ht).
    destruct (IH (AddMessageToSend m s) (ts ++ [t]) Hes) as (s' & E & Hi').
    { unfold frames. rewrite fmap_app, concat_app. cbn. rewrite app_nil_r.
      by apply AddMessageToSend_inv. }
    exists s'. split; [done|]. unfold added. cbn. rewrite Et. by rewrite <- app_assoc in Hi'.
  - destruct (Send_inv (send_fuel s) accepts s _ ltac:(lia) He Hi) as (s1 & -> & Hi1).
    apply (IH s1 ts Hes Hi1).
Qed.

Lemma added_ok es : Forall event_ok es -> Forall text_ok (added es).
Proof.
  induction 1 as [|e es He _ IH]; [constructor|]. unfold added. destruct e as [m|a]; cbn; [|done].
  destruct He as (t & -> & Ht). by constructor.
Qed.

Lemma new_snd_inv : snd_inv new_SendSide (frames []).
Proof. by exists []. Qed.

Lemma new_rcv_inv ts : rcv_inv new_ReadSide (frames ts) ts.
Proof. by exists [], ts. Qed.

(** A receiver that has read everything has no partial message. *)
Lemma rcv_inv_nil r ts : rcv_inv r [] ts -> text <$> incoming_ r = Some <$> ts.
Proof.
  intros (done & todo & -> & -> & Hst). rewrite app_nil_r in Hst. destruct (read_state_ r).
  - destruct Hst as (_ & Hl & E). rewrite E in Hl.
    destruct todo as [|t todo]; [by rewrite app_nil_r|]. rewrite frames_cons, Zlen_app in Hl.
    pose proof (Zlen_nonneg (t ++ frames todo)). unfold Zlen at 1 in Hl. cbn in Hl. lia.
  - destruct Hst as (t & todo' & _ & _ & Hl & E). rewrite E, Zlen_app in Hl.
    pose proof (Zlen_nonneg (frames todo')). lia.
Qed.

Lemma snd_inv_prefix s sent :
  snd_inv s sent -> exists rest, sent_bytes s ++ rest = sent /\ (outgoing_ s = [] -> rest = []).
Proof.
  intros (todo & Etodo & _ & Hst).
  assert (Hnil : outgoing_ s = [] -> todo = []).
  { intros E. rewrite E in Etodo. by destruct todo. }
  destruct (send_state_ s).
  - destruct todo as [|t todo].
    + destruct Hst as (_ & <-). exists []. by rewrite app_nil_r.
    + destruct Hst as (_ & _ & <-). eexists. split; [done|]. intros E. by specialize (Hnil E).
  - destruct Hst as (t & todo' & -> & _ & _ & _ & <-). eexists. split; [done|].
    intros E. by specialize (Hnil E).
Qed.



(** The schedule of the witness empties the queue and delivers both texts. *)
Example unix_schedule_completes :
  match run_events [EvAdd (mkMessage (Some [104; 105]) (Some 7)); EvSend [Some 1];
                    EvAdd (mkMessage (Some [33]) None); EvSend [Some 1; Some 1];
                    EvSend [Some 9; Some 2; Some 1]] new_SendSide with
  | Some s => outgoing_ s = []
              /\ text <$> incoming_ (fst (receive_all (repeat (1, None) 4 ++ repeat (5, Some 7) 4)
                                            (sent_bytes s) new_ReadSide))
                 = [Some [104; 105]; Some [33]]
  | None => False
  end.
Proof. vm_compute. done. Qed.

(** ** Descriptors *)

(** What [sendmsg] is given for a message. *)
Definition chunks (m : UnixSocketMessage) : list (list Z * option Z) :=
  match text m with
  | Some t => [(be16 (Zlen t), fd m); (t, fd m)]
  | None => [(be16 0, fd m)]
  end.

Definition message_ok (m : UnixSocketMessage) : Prop :=
  match text m with Some t => text_ok t | None => is_Some (fd m) end
  /\ match fd m with Some f => 0 < f | None => True end.

(** A message of both parts passes its descriptor twice. *)
Definition duplicate_fd (m : UnixSocketMessage) : list Z :=
  match text m, fd m with Some _, Some f => [f] | _, _ => [] end.

Definition receive_chunks (cs : list (list Z * option Z)) (r : ReadSide) : ReadSide :=
  foldl (fun r c => snd (Receive (fst c) (snd c) r)) r cs.

(** Every [sendmsg] takes what it is given. *)
Definition accepts_all (a : option Z) : Prop := exists n, a = Some n /\ 2 ^ 16 <= n.

Definition idle_send (s : SendSide) : Prop := send_state_ s = LENGTH /\ send_offset_ s = 0.

Lemma takeZ_ge n (l : list Z) : Zlen l <= n -> takeZ n l = l.
Proof. unfold takeZ, Zlen. intros. apply take_ge. lia. Qed.

Lemma SendText_length_whole t f a s :
  accepts_all a -> idle_send s ->
  SendText t f a s
  = (IN_PROGRESS, mkSendSide PAYLOAD (u16 (Zlen t)) 0 t (outgoing_ s)
       (wire s ++ [(be16 (Zlen t), if 0 <? f then Some f else None)])).
Proof.
  intros (n & -> & Hn) [Es Eo]. unfold SendText. rewrite Es, Eo. cbn.
  by rewrite Z.min_l by (unfold sizeof_uint16; lia).
Qed.

Lemma SendText_payload_whole t f a out w :
  accepts_all a -> text_ok t ->
  SendText t f a (mkSendSide PAYLOAD (u16 (Zlen t)) 0 t out w)
  = (DONE, mkSendSide LENGTH sizeof_uint16 0 (be16 (Zlen t)) out
       (w ++ [(t, if 0 <? f then Some f else None)])).
Proof.
  intros (n & -> & Hn) Ht. unfold text_ok in Ht. unfold SendText. cbn.
  unfold u16. rewrite Z.mod_small by lia. rewrite (proj2 (Z.eqb_neq _ _)) by lia.
  rewrite Z.sub_0_r, Z.min_l by lia. rewrite Z.eqb_refl. cbn.
  change (dropZ 0 t) with t. by rewrite takeZ_all.
Qed.

Lemma Send_S fuel accepts s m rest :
  outgoing_ s = m :: rest ->
  Send (S fuel) accepts s
  = let '(status, s) := SendStep (hd (Some 0) accepts) m s in
    match status with
    | ERROR => Some (false, s)
    | DONE => Send fuel (tl accepts) (pop_outgoing s)
    | IN_PROGRESS => Send fuel (tl accepts) s
    | STOPPED => Some (true, s)
    end.
Proof. intros Eo. cbn [Send]. by rewrite Eo. Qed.

(** The fuel of [Send] suffices whatever is queued. *)
Lemma Send_terminates fuel : forall accepts s,
  (send_fuel s <= fuel)%nat -> exists b s', Send fuel accepts s = Some (b, s').
Proof.
  induction fuel as [|fuel IH]; intros accepts s Hf.
  all: destruct (outgoing_ s) as [|m rest] eqn:Eo; [cbn [Send]; rewrite Eo; eauto|].
  { unfold send_fuel in Hf. rewrite Eo in Hf. cbn in Hf. destruct (send_state_ s); lia. }
  rewrite (Send_S _ _ _ _ _ Eo). destruct (SendStep _ m s) as [st s'] eqn:E.
  assert (outgoing_ s' = outgoing_ s /\ (st = IN_PROGRESS -> send_state_ s = LENGTH /\ send_state_ s' = PAYLOAD))
    as (Eo' & H1).
  { revert E. unfold SendStep, SendText, SendFd. destruct s as [ss ? ? ? ? ?]. cbn. intros E.
    repeat case_match; simplify_eq/=; try (split_and!; done). }
  destruct st; [| |by eauto..]; apply IH; unfold send_fuel, pop_outgoing in *; cbn in *; rewrite Eo', Eo in *; cbn in *.
  - destruct (send_state_ s) eqn:Es, (send_state_ s') eqn:Es'; lia.
  - destruct H1 as [E1 E2]; [done|]. rewrite E1, E2 in *. lia.
Qed.

Lemma Send_whole msgs : forall accepts s fuel,
  outgoing_ s = msgs -> idle_send s -> Forall message_ok msgs ->
  Forall accepts_all accepts -> (2 * length msgs <= length accepts)%nat ->
  (2 * length msgs <= fuel)%nat ->
  exists s', Send fuel accepts s = Some (true, s')
    /\ outgoing_ s' = [] /\ idle_send s' /\ wire s' = wire s ++ concat (chunks <$> msgs).
Proof.
  induction msgs as [|m msgs IH]; intros accepts s fuel Eo Hs Hm Ha Hla Hf.
  { exists s. destruct fuel; cbn; rewrite Eo, app_nil_r; by split_and!. }
  inversion_clear Hm as [|? ? [Hm1 Hm2] Hms].
  destruct fuel as [|[|fuel]]; [cbn in Hf; lia..|].
  destruct accepts as [|a1 [|a2 accepts]]; [cbn in Hla; lia..|].
  inversion_clear Ha as [|? ? Ha1 Ha']. inversion_clear Ha' as [|? ? Ha2 Ha3].
  destruct m as [[t|] ofd]; cbn in Hm1, Hm2.
  - assert (exists f, (if 0 <? f then Some f else None) = ofd
              /\ forall a s, SendStep a (mkMessage (Some t) ofd) s = SendText t f a s) as (f & Ef & HS).
    { destruct ofd as [f|]; [exists f|by exists (-1)]. rewrite (proj2 (Z.ltb_lt 0 f)) by done.
      split; [done|]. intros. cbn. by rewrite (proj2 (Z.ltb_lt 0 f)). }
    rewrite (Send_S _ _ _ _ _ Eo), HS, SendText_length_whole by done. cbn iota.
    rewrite (Send_S _ _ (mkSendSide _ _ _ _ _ _) _ _ Eo), HS, SendText_payload_whole by done.
    unfold pop_outgoing. rewrite Eo. cbn -[Send chunks].
    edestruct (IH accepts) as (s' & E & H1 & H2 & H3); [..|rewrite E; exists s'; split; [done|]];
      cbn -[chunks] in *; try done; try lia.
    split_and!; [done..|]. rewrite H3. cbn. by rewrite Ef, <- !app_assoc.
  - destruct Hm1 as [f ->]. rewrite (Send_S _ _ _ _ _ Eo). destruct Ha1 as (n & -> & Hn). cbn -[Send].
    unfold pop_outgoing. rewrite Eo. cbn -[Send].
    edestruct (IH (a2 :: accepts)) as (s' & E & H1 & H2 & H3); [..|rewrite E; exists s'; split; [done|]];
      cbn -[chunks] in *; try done; try lia.
    { by constructor. }
    split_and!; [done..|]. rewrite H3. cbn. rewrite Z.min_r by (unfold sizeof_uint16; lia). by rewrite <- !app_assoc.
Qed.

(** Whole reads: the length of a text, the text, a descriptor alone. *)
Definition read_idle (r : ReadSide) : Prop :=
  read_state_ r = LENGTH /\ read_length_ r = 2 /\ read_buffer_ r = [].

Lemma Receive_length t ofd r :
  text_ok t -> read_idle r -> match ofd with Some f => 0 < f | None => True end ->
  Receive (be16 (Zlen t)) ofd r
  = (true, mkReadSide PAYLOAD (Zlen t) [] (incoming_ r) (closed r ++ from_option (fun f => [f]) [] ofd)).
Proof.
  intros Ht (Es & El & Eb) Hf. unfold text_ok in Ht. unfold Receive.
  change (Zlen (be16 (Zlen t)) <=? 0) with false. cbn iota. rewrite Eb, El, Es. cbn -[be16 read_be16].
  rewrite read_be16_be16 by lia. change (Zlen (be16 (Zlen t)) =? 2) with true. cbn iota.
  rewrite (proj2 (Z.eqb_neq _ _)) by lia.
  destruct ofd as [f|]; cbn; [by rewrite (proj2 (Z.ltb_lt 0 f))|by rewrite app_nil_r].
Qed.

Lemma Receive_payload t ofd incoming cl :
  text_ok t -> match ofd with Some f => 0 < f | None => True end ->
  Receive t ofd (mkReadSide PAYLOAD (Zlen t) [] incoming cl)
  = (true, mkReadSide LENGTH 2 [] (incoming ++ [mkMessage (Some t) ofd]) cl).
Proof.
  intros Ht Hf. unfold text_ok in Ht. unfold Receive. cbn.
  rewrite (proj2 (Z.leb_gt _ _)) by lia. rewrite Z.eqb_refl. cbn. unfold fd_field.
  destruct ofd as [f|]; cbn; [by rewrite (proj2 (Z.ltb_lt 0 f))|done].
Qed.

Lemma Receive_fd f r :
  0 < f -> read_idle r ->
  Receive (be16 0) (Some f) r
  = (true, mkReadSide LENGTH 2 [] (incoming_ r ++ [mkMessage None (Some f)]) (closed r)).
Proof.
  intros Hf (Es & El & Eb). unfold Receive. change (Zlen (be16 0) <=? 0) with false. cbn iota.
  rewrite Eb, El, Es. cbn. unfold fd_field. by rewrite (proj2 (Z.ltb_lt 0 f)).
Qed.

Lemma receive_message m r :
  message_ok m -> read_idle r ->
  receive_chunks (chunks m) r
  = mkReadSide LENGTH 2 [] (incoming_ r ++ [m]) (closed r ++ duplicate_fd m).
Proof.
  intros [Hm1 Hm2] Hr. destruct m as [[t|] ofd]; cbn in Hm1, Hm2.
  all: unfold receive_chunks, chunks; cbn -[Receive be16].
  - rewrite Receive_length by done. cbn -[Receive]. rewrite Receive_payload by done. by destruct ofd.
  - destruct Hm1 as [f ->]. rewrite Receive_fd by done. cbn. by rewrite app_nil_r.
Qed.

Lemma receive_messages msgs : forall r,
  Forall message_ok msgs -> read_idle r ->
  receive_chunks (concat (chunks <$> msgs)) r
  = mkReadSide LENGTH 2 [] (incoming_ r ++ msgs) (closed r ++ concat (duplicate_fd <$> msgs)).
Proof.
  induction msgs as [|m msgs IH]; intros r Hok Hr.
  { destruct r, Hr as (Es & El & Eb); cbn in *. subst. by rewrite !app_nil_r. }
  inversion_clear Hok. cbn [fmap list_fmap concat]. unfold receive_chunks. rewrite foldl_app.
  change (receive_chunks (concat (chunks <$> msgs)) (receive_chunks (chunks m) r)
          = mkReadSide LENGTH 2 [] (incoming_ r ++ m :: msgs)
              (closed r ++ duplicate_fd m ++ concat (duplicate_fd <$> msgs))).
  rewrite receive_message by done. rewrite IH by done. cbn. by rewrite <- !app_assoc.
Qed.

(** When no write and no read is cut, a [Send] empties the
    queue within two iterations a message, and the receiver gets every message
    with its text and its descriptor; of a message that has both it closes the
    copy of the descriptor that came with the length. *)
Theorem unix_fds_delivered msgs accepts :
  Forall message_ok msgs -> Forall accepts_all accepts ->
  (2 * length msgs <= length accepts)%nat ->
  exists s, Send (2 * length msgs) accepts (foldl (flip AddMessageToSend) new_SendSide msgs) = Some (true, s)
    /\ outgoing_ s = []
    /\ receive_chunks (wire s) new_ReadSide
       = mkReadSide LENGTH sizeof_uint16 [] msgs (concat (duplicate_fd <$> msgs)).
Proof.
  intros Hm Ha Hl.
  assert (forall l s, foldl (flip AddMessageToSend) s l
    = mkSendSide (send_state_ s) (send_length_ s) (send_offset_ s) (send_buffer_ s) (outgoing_ s ++ l) (wire s)) as ->.
  { induction l as [|m l IH]; intros s; cbn; [destruct s; cbn; by rewrite app_nil_r|].
    rewrite IH. cbn. by rewrite <- app_assoc. }
  edestruct (Send_whole msgs accepts) as (s & E & Eo & _ & Ew); [..|exists s; split; [exact E|]]; try done.
  split; [done|]. rewrite Ew. by apply (receive_messages msgs new_ReadSide).
Qed.

Lemma unix_fds_delivered_witness :
  let msgs := [mkMessage (Some [49; 50]) (Some 5); mkMessage None (Some 6); mkMessage (Some [51]) None] in
  exists s, Send 6 (repeat (Some 65536) 6) (foldl (flip AddMessageToSend) new_SendSide msgs) = Some (true, s)
    /\ outgoing_ s = []
    /\ receive_chunks (wire s) new_ReadSide = mkReadSide LENGTH sizeof_uint16 [] msgs [5].
Proof.
  cbv zeta. apply (unix_fds_delivered [mkMessage (Some [49; 50]) (Some 5); mkMessage None (Some 6);
    mkMessage (Some [51]) None] (repeat (Some 65536) 6)).
  - unfold message_ok, text_ok. repeat constructor; unfold Zlen; cbn; try lia. eauto.
  - cbn. repeat (apply list.Forall_nil_2 || apply list.Forall_cons_2); exists 65536; (split; [reflexivity|lia]).
  - cbn. lia.
Defined.

(** A descriptor that arrives with a part of the payload is neither delivered
    with the message nor closed: [fd] is local to one [Receive]. *)
Example partial_read_loses_fd :
  let r := receive_chunks [(be16 2, None); ([49], Some 5); ([50], None)] new_ReadSide in
  incoming_ r = [mkMessage (Some [49; 50]) None] /\ closed r = [].
Proof. done. Qed.

(** The length of a text is sent modulo 2^16: a text of 65537 bytes arrives as
    its first byte, and the queue is reported as sent. *)
Example long_text_truncated :
  match Send 2 (repeat (Some 65537) 2)
          (AddMessageToSend (mkMessage (Some (repeat 65 65537)) None) new_SendSide) with
  | Some (b, s) => b = true /\ outgoing_ s = []
                   /\ incoming_ (receive_chunks (wire s) new_ReadSide) = [mkMessage (Some [65]) None]
  | None => False
  end.
Proof. vm_compute. done. Qed.

(** A failed [sendmsg] of a descriptor is reported as success. *)
Example failed_SendFd_reported_done :
  Send 1 [None] (AddMessageToSend (mkMessage None (Some 5)) new_SendSide) = Some (true, new_SendSide).
Proof. done. Qed.
