(* ===== verification/UnixServer.v ===== *)
(** * Requests and responses on Unix sockets
    (buffer_mgmt_daemon/unix_socket_server.{h,cc},
    buffer_mgmt_daemon/client/unix_socket_client.{h,cc})

    The server calls a service handler for every message of a client and a
    cleanup handler when the client leaves; the client sends one request and
    waits for one response.  What the kernel reports and transfers is in the
    events. *)

From S2P Require Import Prelude UnixSocket.

(** [UnixSocketConnection]: its two directions. *)
Record Connection := mkConnection { conn_read : ReadSide; conn_send : SendSide }.

Definition new_Connection : Connection := mkConnection new_ReadSide new_SendSide.

Section server.
(** The state of the handlers, and what the environment contributes to a call
    of the service handler. *)
Context {S E : Type}.
(** The service handler sets the response and [fin]; [None] when a handler
    crashes. *)
Context (service_handler_ : E -> Z -> UnixSocketMessage -> S -> option (UnixSocketMessage * bool * S)).
Context (cleanup_handler_ : option (Z -> S -> option S)).

Record UnixSocketServer := mkServer {
  running_ : bool;
  connected_clients_ : gmap Z Connection;
  handlers : S
}.

(** [accept4] returns [accepted], [None] if it fails. *)
Definition HandleListener (epollerr epollin : bool) (accepted : option Z) (s : UnixSocketServer)
    : UnixSocketServer :=
  if epollerr then mkServer false (connected_clients_ s) (handlers s)
  else if epollin then
    match accepted with
    | None => s
    | Some socket =>
        mkServer (running_ s) (<[socket := new_Connection]> (connected_clients_ s)) (handlers s)
    end
  else s.

Definition RemoveClient (client_socket : Z) (s : UnixSocketServer) : UnixSocketServer :=
  mkServer (running_ s) (delete client_socket (connected_clients_ s)) (handlers s).

(** What happens to one ready client: [recvmsg] returns [bytes] and [cmsg],
    the calls of [sendmsg] accept [accepts]. *)
Record ClientEvent := mkClientEvent {
  ev_in : bool;
  ev_hup : bool;
  ev_bytes : list Z;
  ev_cmsg : option Z;
  ev_accepts : list (option Z);
  ev_env : E
}.

(** The part of [HandleClient] for [EPOLLIN]: the connection, [fin]. *)
Definition HandleReadable (client : Z) (ev : ClientEvent) (connection : Connection) (st : S)
    : option (Connection * bool * S) :=
  let '(received, r) := Receive (ev_bytes ev) (ev_cmsg ev) (conn_read connection) in
  if received then
    match incoming_ r with
    | [] => Some (mkConnection r (conn_send connection), false, st)
    | _ =>
        let '(request, r) := ReadMessage r in
        '(response, fin, st) ← service_handler_ (ev_env ev) client request st;
        let out := AddMessageToSend response (conn_send connection) in
        '(sent, out) ← Send (send_fuel out) (ev_accepts ev) out;
        Some (mkConnection r out, fin || negb sent, st)
    end
  else Some (mkConnection r (conn_send connection), true, st).

(** [None]: the client is not connected (a null connection is used), or a
    handler crashes. *)
Definition HandleClient (client : Z) (ev : ClientEvent) (s : UnixSocketServer)
    : option UnixSocketServer :=
  connection ← connected_clients_ s !! client;
  '(connection, fin, st) ←
    (if ev_in ev then HandleReadable client ev connection (handlers s)
     else Some (connection, false, handlers s));
  let s := mkServer (running_ s) (<[client := connection]> (connected_clients_ s)) st in
  if ev_hup ev || fin then
    st ← match cleanup_handler_ with Some cleanup => cleanup client st | None => Some st end;
    Some (RemoveClient client (mkServer (running_ s) (connected_clients_ s) st))
  else Some s.

Inductive EpollEvent :=
  | EvListener (epollerr epollin : bool) (accepted : option Z)
  | EvClient (client : Z) (ev : ClientEvent).

Definition HandleEvent (e : EpollEvent) (s : UnixSocketServer) : option UnixSocketServer :=
  match e with
  | EvListener epollerr epollin accepted => Some (HandleListener epollerr epollin accepted s)
  | EvClient client ev => HandleClient client ev s
  end.

Fixpoint HandleBatch (events : list EpollEvent) (s : UnixSocketServer) : option UnixSocketServer :=
  match events with
  | [] => Some s
  | e :: events => s ← HandleEvent e s; HandleBatch events s
  end.

(** [EventLoop] while [epoll_wait] returns the batches; an interrupted or
    failed wait is an empty batch. *)
Fixpoint EventLoop (batches : list (list EpollEvent)) (s : UnixSocketServer)
    : option UnixSocketServer :=
  match batches with
  | [] => Some s
  | events :: batches =>
      if running_ s then s ← HandleBatch events s; EventLoop batches s else Some s
  end.

(** [Stop], after the event thread is joined. *)
Definition Stop (s : UnixSocketServer) : UnixSocketServer := mkServer false ∅ (handlers s).
End server.

Arguments UnixSocketServer S : clear implicits.
Arguments ClientEvent E : clear implicits.
Arguments EpollEvent E : clear implicits.

(** ** The client *)

(** The loop that sends; [acceptss] is what each call of [Send] meets.
    [None]: still blocked when the list ends. *)
Fixpoint SendPending (acceptss : list (list (option Z))) (s : SendSide) : option SendSide :=
  match outgoing_ s with
  | [] => Some s
  | _ =>
      match acceptss with
      | [] => None
      | accepts :: acceptss =>
          '(sent, s) ← Send (send_fuel s) accepts s;
          if (sent : bool) then SendPending acceptss s else Some s
      end
  end.

(** The loop that receives; the status is that of [errno] when [Receive]
    fails.  A [StatusOr] made of an OK status has the code [kInternal]. *)
Fixpoint ReceiveResponse (errno : StatusCode) (recvs : list (list Z * option Z)) (r : ReadSide)
    : option (StatusOr UnixSocketMessage * ReadSide) :=
  match incoming_ r with
  | _ :: _ => let '(m, r) := ReadMessage r in Some (Ok m, r)
  | [] =>
      match recvs with
      | [] => None
      | (bytes, cmsg) :: recvs =>
          let '(received, r) := Receive bytes cmsg r in
          if received then ReceiveResponse errno recvs r
          else Some (Err (if decide (errno = kOk) then kInternal else errno), r)
      end
  end.

Definition MakeRequest (acceptss : list (list (option Z))) (errno : StatusCode)
    (recvs : list (list Z * option Z)) (msg : UnixSocketMessage) (conn_ : Connection)
    : option (StatusOr UnixSocketMessage * Connection) :=
  out ← SendPending acceptss (AddMessageToSend msg (conn_send conn_));
  '(res, r) ← ReceiveResponse errno recvs (conn_read conn_);
  Some (res, mkConnection r out).

(** ** A request and its response *)

(** Between messages. *)
Definition conn_idle (c : Connection) : Prop :=
  read_idle (conn_read c) /\ incoming_ (conn_read c) = []
  /\ idle_send (conn_send c) /\ outgoing_ (conn_send c) = [].

(** Enough whole writes for one message. *)
Definition whole (accepts : list (option Z)) : Prop :=
  Forall accepts_all accepts /\ (2 <= length accepts)%nat.

Lemma send_one m s accepts :
  idle_send s -> outgoing_ s = [] -> message_ok m -> whole accepts ->
  exists s', Send (send_fuel (AddMessageToSend m s)) accepts (AddMessageToSend m s) = Some (true, s')
    /\ outgoing_ s' = [] /\ idle_send s' /\ wire s' = wire s ++ chunks m.
Proof.
  intros Hs Eo Hm [Ha Hl].
  destruct (Send_whole [m] accepts (AddMessageToSend m s) (send_fuel (AddMessageToSend m s)))
    as (s' & E & H1 & H2 & H3); cbn -[chunks] in *; try done.
  - by rewrite Eo.
  - by constructor.
  - unfold send_fuel. cbn. destruct Hs as [-> _]. rewrite length_app. cbn. lia.
  - rewrite app_nil_r in H3. eauto.
Qed.

Section request.
Context {S E : Type}.
Context (service_handler_ : E -> Z -> UnixSocketMessage -> S -> option (UnixSocketMessage * bool * S)).
Context (cleanup_handler_ : option (Z -> S -> option S)).

Definition chunk_event (env : E) (accepts : list (option Z)) (client : Z) (ch : list Z * option Z)
    : EpollEvent E :=
  EvClient client (mkClientEvent true false (fst ch) (snd ch) accepts env).

Definition cleanup (client : Z) (st : S) : option S :=
  match cleanup_handler_ with Some f => f client st | None => Some st end.

(** The event that completes a message: the handler is called once, its
    response is sent, and the client is removed if the handler asks for it. *)
Lemma complete_message env accepts client ch conn m resp fin st st' r (s : UnixSocketServer S) :
  connected_clients_ s !! client = Some conn -> handlers s = st ->
  Receive (fst ch) (snd ch) (conn_read conn) = (true, r) ->
  read_idle r -> incoming_ r = [m] -> idle_send (conn_send conn) -> outgoing_ (conn_send conn) = [] ->
  whole accepts -> message_ok resp ->
  service_handler_ env client m st = Some (resp, fin, st') ->
  exists conn', conn_idle conn' /\ wire (conn_send conn') = wire (conn_send conn) ++ chunks resp
    /\ HandleEvent service_handler_ cleanup_handler_ (chunk_event env accepts client ch) s
       = if (fin : bool)
         then st'' ← cleanup client st';
              Some (mkServer (running_ s) (delete client (connected_clients_ s)) st'')
         else Some (mkServer (running_ s) (<[client := conn']> (connected_clients_ s)) st').
Proof.
  intros Hc Hst Hr Hidle Hin Hs Ho Ha Hresp Hserv.
  destruct (send_one resp (conn_send conn) accepts Hs Ho Hresp Ha) as (out & E1 & E2 & E3 & E4).
  eexists (mkConnection (mkReadSide (read_state_ r) (read_length_ r) (read_buffer_ r) [] (closed r)) out).
  split; [done|]. split; [done|].
  cbn. unfold HandleClient. rewrite Hc. cbn -[Send AddMessageToSend send_fuel]. unfold HandleReadable. cbn -[Send AddMessageToSend send_fuel].
  rewrite Hr, Hin. unfold ReadMessage. rewrite Hin, Hst, Hserv. cbn -[Send AddMessageToSend send_fuel].
  rewrite E1. cbn. rewrite orb_false_r. destruct fin; [|done]. unfold cleanup.
  destruct cleanup_handler_; cbn; unfold RemoveClient; cbn; rewrite delete_insert_eq; done.
Qed.

Lemma HandleBatch_cons e events (s : UnixSocketServer S) :
  HandleBatch service_handler_ cleanup_handler_ (e :: events) s
  = HandleEvent service_handler_ cleanup_handler_ e s
      ≫= HandleBatch service_handler_ cleanup_handler_ events.
Proof. done. Qed.

(** The request of a client, in whole chunks, at a server where its
    connection is idle. *)
Lemma serve_request env accepts client conn m resp fin st' (s : UnixSocketServer S) :
  connected_clients_ s !! client = Some conn -> conn_idle conn ->
  message_ok m -> message_ok resp -> whole accepts ->
  service_handler_ env client m (handlers s) = Some (resp, fin, st') ->
  exists conn', conn_idle conn' /\ wire (conn_send conn') = wire (conn_send conn) ++ chunks resp
    /\ HandleBatch service_handler_ cleanup_handler_ (chunk_event env accepts client <$> chunks m) s
       = if (fin : bool)
         then st'' ← cleanup client st';
              Some (mkServer (running_ s) (delete client (connected_clients_ s)) st'')
         else Some (mkServer (running_ s) (<[client := conn']> (connected_clients_ s)) st').
Proof.
  intros Hc (Hr & Hi & Hs & Ho) Hm Hresp Ha Hserv. destruct m as [[t|] ofd]; destruct Hm as [Hm1 Hm2]; cbn in Hm1, Hm2.
  - set (r1 := mkReadSide PAYLOAD (Zlen t) [] [] (closed (conn_read conn) ++ from_option (fun f => [f]) [] ofd)).
    set (s1 := mkServer (running_ s) (<[client := mkConnection r1 (conn_send conn)]> (connected_clients_ s)) (handlers s)).
    destruct (complete_message env accepts client (t, ofd) (mkConnection r1 (conn_send conn))
                (mkMessage (Some t) ofd) resp fin (handlers s) st'
                (mkReadSide LENGTH 2 [] [mkMessage (Some t) ofd] (closed r1)) s1)
      as (conn' & H1 & H2 & H3); cbn -[Receive HandleBatch chunks HandleEvent]; rewrite ?lookup_insert_eq; try done.
    { by apply Receive_payload. }
    exists conn'. split; [done|]. split; [done|].
    change (chunk_event env accepts client <$> chunks _)
      with [chunk_event env accepts client (be16 (Zlen t), ofd); chunk_event env accepts client (t, ofd)].
    rewrite !HandleBatch_cons.
    assert (HandleEvent service_handler_ cleanup_handler_
              (chunk_event env accepts client (be16 (Zlen t), ofd)) s = Some s1) as ->.
    { cbn. unfold HandleClient. rewrite Hc. cbn -[be16]. unfold HandleReadable. cbn -[be16 Receive].
      rewrite Receive_length by done. cbn. by rewrite Hi. }
    cbn [mbind option_bind]. rewrite HandleBatch_cons, H3. cbn. rewrite insert_insert_eq, delete_insert_eq.
    destruct fin; [|done]. by destruct (cleanup client st').
  - destruct Hm1 as [f ->]. destruct (complete_message env accepts client (be16 0, Some f) conn
                (mkMessage None (Some f)) resp fin (handlers s) st'
                (mkReadSide LENGTH 2 [] [mkMessage None (Some f)] (closed (conn_read conn))) s)
      as (conn' & H1 & H2 & H3); try done.
    { cbn -[Receive be16]. rewrite Receive_fd by done. by rewrite Hi. }
    exists conn'. split; [done|]. split; [done|].
    change (chunk_event env accepts client <$> chunks _) with [chunk_event env accepts client (be16 0, Some f)].
    rewrite HandleBatch_cons, H3. destruct fin; [|done]. by destruct (cleanup client st').
Qed.

End request.

Lemma receive_response errno m r :
  message_ok m -> read_idle r -> incoming_ r = [] ->
  exists r', ReceiveResponse errno (chunks m) r = Some (Ok m, r') /\ read_idle r' /\ incoming_ r' = [].
Proof.
  intros [Hm1 Hm2] Hr Hi. destruct m as [[t|] ofd]; cbn in Hm1, Hm2; cbn -[be16 Receive]; rewrite Hi.
  - rewrite Receive_length by done. cbn -[Receive]. rewrite Hi, Receive_payload by done. cbn. by eexists.
  - destruct Hm1 as [f ->]. rewrite Receive_fd by done. rewrite Hi. cbn. by eexists.
Qed.


(** A handler that answers with the text it receives and counts its calls. *)
Definition echo (env : unit) (client : Z) (m : UnixSocketMessage) (n : Z)
    : option (UnixSocketMessage * bool * Z) :=
  Some (mkMessage (text m) None, 1 <? n, n + 1).


(** ** Sessions *)

Inductive Call := CallService (client : Z) | CallCleanup (client : Z).

#[export] Instance Call_eq_dec : EqDecision Call.
Proof. solve_decision. Defined.

Section sessions.
Context {S E : Type}.
Context (service : E -> Z -> UnixSocketMessage -> S -> option (UnixSocketMessage * bool * S)).
Context (cleanup_fn : Z -> S -> option S).

(** The handlers, recording their calls. *)
Definition log_service (e : E) (c : Z) (m : UnixSocketMessage) (st : S * list Call)
    : option (UnixSocketMessage * bool * (S * list Call)) :=
  '(r, fin, st') ← service e c m (fst st);
  Some (r, fin, (st', snd st ++ [CallService c])).

Definition log_cleanup (c : Z) (st : S * list Call) : option (S * list Call) :=
  st' ← cleanup_fn c (fst st);
  Some (st', snd st ++ [CallCleanup c]).

#[local] Abbreviation step := (HandleEvent log_service (Some log_cleanup)).
#[local] Abbreviation log s := (snd (handlers s)).

(** [accept4] returns a descriptor that is not in use. *)
Definition accept_fresh (e : EpollEvent E) (s : UnixSocketServer (S * list Call)) : Prop :=
  match e with
  | EvListener _ _ (Some socket) => connected_clients_ s !! socket = None
  | _ => True
  end.

Inductive sessions : list Z -> UnixSocketServer (S * list Call) -> Prop :=
  | sessions_start st : sessions [] (mkServer true ∅ (st, []))
  | sessions_step accepted e s s' :
      sessions accepted s -> accept_fresh e s -> step e s = Some s' ->
      sessions (match e with EvListener false true (Some socket) => socket :: accepted | _ => accepted end) s'.

Definition count (c : Call) (l : list Call) : nat := length (filter (c =.) l).
Definition countZ (c : Z) (l : list Z) : nat := length (filter (c =.) l).

(** What one event does to the calls and to the connected clients. *)
Lemma client_event_calls c ev s s' :
  HandleClient log_service (Some log_cleanup) c ev s = Some s' ->
  c ∈ dom (connected_clients_ s)
  /\ exists served removed : bool,
       log s' = log s ++ (if served then [CallService c] else [])
                      ++ (if removed then [CallCleanup c] else [])
       /\ dom (connected_clients_ s') = if removed then dom (connected_clients_ s) ∖ {[c]}
                                        else dom (connected_clients_ s).
Proof.
  unfold HandleClient. intros (conn & Hc & H)%bind_Some.
  assert (Hin : c ∈ dom (connected_clients_ s)) by (apply elem_of_dom; eauto). split; [done|].
  apply bind_Some in H as ([[conn' fin] st] & H1 & H2).
  assert (exists served : bool, snd st = log s ++ if served then [CallService c] else []) as (served & Est).
  { revert H1. unfold HandleReadable. destruct (ev_in ev).
    2:{ intros [= _ _ <-]. exists false. by rewrite app_nil_r. }
    destruct (Receive _ _ _) as [[] r]; [|intros [= _ _ <-]; exists false; by rewrite app_nil_r].
    destruct (incoming_ r); [intros [= _ _ <-]; exists false; by rewrite app_nil_r|].
    destruct (ReadMessage r). unfold log_service.
    intros ([[resp f] st2] & ([[resp' f'] st3] & _ & [= <- <- <-])%bind_Some & H)%bind_Some.
    apply bind_Some in H as ([sent out] & _ & [= _ _ <-]). by exists true. }
  exists served. destruct (ev_hup ev || fin).
  - apply bind_Some in H2 as (st4 & H3 & [= <-]). unfold log_cleanup in H3.
    apply bind_Some in H3 as (st5 & _ & [= <-]). exists true. cbn. split; [by rewrite Est, <- app_assoc|].
    rewrite dom_delete_L, dom_insert_L. set_solver.
  - injection H2 as <-. exists false. cbn. rewrite app_nil_r. split; [done|]. rewrite dom_insert_L. set_solver.
Qed.

Lemma count_app c l k : count c (l ++ k) = (count c l + count c k)%nat.
Proof. unfold count. by rewrite list.filter_app, length_app. Qed.

Lemma countZ_cons c x l : countZ c (x :: l) = ((if decide (c = x) then 1 else 0) + countZ c l)%nat.
Proof. unfold countZ. rewrite filter_cons. by case_decide. Qed.

Lemma count_cleanup c c' : count (CallCleanup c) [CallCleanup c'] = (if decide (c = c') then 1 else 0)%nat.
Proof. unfold count. rewrite filter_cons. repeat case_decide; cbn; congruence. Qed.

(** Whatever the handlers do and the kernel reports, the
    cleanup handler is called exactly once for every accepted connection that
    is no longer connected and not at all for one that is; and an event causes
    at most one call of the service handler followed by at most one of the
    cleanup handler, both for the client it reports, which is connected. *)
Theorem one_cleanup_per_connection accepted s :
  sessions accepted s ->
  (forall c, countZ c accepted = count (CallCleanup c) (log s)
     + if decide (c ∈ dom (connected_clients_ s)) then 1 else 0)%nat
  /\ forall c ev s', step (EvClient c ev) s = Some s' ->
       c ∈ dom (connected_clients_ s)
       /\ exists served removed : bool,
            log s' = log s ++ (if served then [CallService c] else [])
                           ++ (if removed then [CallCleanup c] else []).
Proof.
  intros Hs. split.
  2:{ intros c ev s' (Hin & served & removed & Hl & _)%client_event_calls. eauto. }
  induction Hs as [st|accepted e s s' _ IH Hf Hstep]; intros c.
  { cbn. by rewrite decide_False by set_solver. }
  destruct e as [err inn acc|c' ev].
  - cbn in Hstep. injection Hstep as <-. unfold HandleListener.
    destruct err; [by rewrite IH|]. destruct inn; [|by rewrite IH]. destruct acc as [socket|]; [|by rewrite IH].
    apply not_elem_of_dom in Hf. rewrite countZ_cons, IH. cbn. rewrite dom_insert_L.
    destruct (decide (c = socket)) as [->|Hne].
    + rewrite decide_False, decide_True by set_solver. lia.
    + cbn. f_equal. apply decide_ext. set_solver.
  - destruct (client_event_calls _ _ _ _ Hstep) as (Hin & served & removed & Hl & Hd).
    rewrite Hl, Hd, !count_app, IH.
    assert (count (CallCleanup c) (if served then [CallService c'] else []) = 0%nat) as -> by by destruct served.
    destruct removed; [rewrite count_cleanup|cbn; lia].
    destruct (decide (c = c')) as [->|Hne].
    + rewrite decide_True, decide_False by set_solver. lia.
    + rewrite !Nat.add_0_r. f_equal. apply decide_ext. set_solver.
Qed.

End sessions.

Lemma one_cleanup_per_connection_witness :
  let s := mkServer true ∅ (0, [CallCleanup 4]) in
  (forall c, countZ c [4%Z] = count (CallCleanup c) (snd (handlers s))
     + if decide (c ∈ dom (connected_clients_ s)) then 1 else 0)%nat
  /\ forall c ev s', HandleEvent (log_service echo) (Some (log_cleanup (fun _ n => Some n))) (EvClient c ev) s
                     = Some s' ->
       c ∈ dom (connected_clients_ s)
       /\ exists served removed : bool,
            snd (handlers s') = snd (handlers s) ++ (if served then [CallService c] else [])
                           ++ (if removed then [CallCleanup c] else []).
Proof.
  apply (one_cleanup_per_connection echo (fun _ n => Some n) [4]).
  apply (sessions_step echo (fun _ n => Some n) [4] (EvClient 4 (mkClientEvent false true [] None [] tt))
           (mkServer true {[4 := new_Connection]} (0, []))); [|exact I|reflexivity].
  apply (sessions_step echo (fun _ n => Some n) [] (EvListener false true (Some 4))
           (mkServer true ∅ (0, []))); [|reflexivity|reflexivity].
  constructor.
Defined.
