(* ===== verification/MemImporter.v ===== *)
(** * The memory importer of the buffer management daemon
    (buffer_mgmt_daemon/fastrak_gpu_mem_importer.cc,
    fastrak_buffer_resource_tracker.cc, fastrak_addr_translator.cc,
    dmabuf_bridge/dmabuf_importer.c)

    A client sends the descriptor of a dmabuf; the importer maps it for the
    NIC, registers its addresses with DXS, and tracks what it did so that it
    can undo it when the client asks for it or leaves.  The results of the
    kernel's import helper are inputs. *)

From S2P Require Import Prelude BufferManager Coalesce UnixSocket.

(** ** dmabuf_importer.c *)

Record dmabuf_importer_buf := mkBuf { attach_handle : Z; num_iovecs : Z }.

(** The import helper device: [ioctl_map] is the attach handle and the number
    of vectors of [IMPORT_HELPER_MAP], [ioctl_get attach offset] the valid
    vectors of [IMPORT_HELPER_GET_IOVECS]; [None] when the call fails. *)
Record Device := mkDevice {
  ioctl_map : option (Z * Z);
  ioctl_get : Z -> Z -> option (list iovec)
}.

Definition dmabuf_importer_map (d : Device) : option dmabuf_importer_buf :=
  '(attach, iovecs_count) ← ioctl_map d; Some (mkBuf attach iovecs_count).

(** The loop of [dmabuf_importer_get_iovecs] from [offset]; [None] when an
    assertion fails, or the fuel is exhausted. *)
Fixpoint get_iovecs_loop (fuel : nat) (d : Device) (buf : dmabuf_importer_buf) (offset : Z)
    (iovecs : list iovec) : option (bool * list iovec) :=
  if offset <? num_iovecs buf then
    match fuel with
    | O => None
    | S fuel' =>
        match ioctl_get d (attach_handle buf) offset with
        | None => Some (false, iovecs)
        | Some vecs =>
            let size := u32 (Zlen vecs) in
            if u32 (size + offset) <=? num_iovecs buf then
              get_iovecs_loop fuel' d buf (u32 (offset + size))
                (takeZ offset iovecs ++ takeZ size vecs ++ dropZ (offset + size) iovecs)
            else None
        end
    end
  else Some (true, iovecs).

Definition zero_iovec : iovec := mkIovec 0 0.

Definition dmabuf_importer_get_iovecs (d : Device) (buf : dmabuf_importer_buf)
    : option (bool * list iovec) :=
  get_iovecs_loop (Z.to_nat (num_iovecs buf)) d buf 0
    (replicate (Z.to_nat (num_iovecs buf)) zero_iovec).

(** ** FasTrakAddrTranslator *)

Record AddrCtx := mkAddrCtx { ctx_buf : dmabuf_importer_buf; ctx_vecs : list iovec }.

(** [unmaps] has the attach handles passed to [IMPORT_HELPER_UNMAP]. *)
Record AddrTranslator := mkTranslator {
  addr_ctxs_ : gmap Z AddrCtx;
  next_id_ : Z;
  next_attach_handle_ : Z;
  unmaps : list Z
}.

Definition new_AddrTranslator : AddrTranslator := mkTranslator ∅ 0 0 [].

Definition Map (d : Device) (t : AddrTranslator) : StatusOr Z * AddrTranslator :=
  match dmabuf_importer_map d with
  | None => (Err kInternal, t)
  | Some buf =>
      (Ok (next_id_ t),
       mkTranslator (<[next_id_ t := mkAddrCtx buf []]> (addr_ctxs_ t))
         (u64 (next_id_ t + 1)) (next_attach_handle_ t + 1) (unmaps t))
  end.

(** With coalescing, which only tests turn off. *)
Definition PrepareIovecs (d : Device) (buf : dmabuf_importer_buf) : option (StatusOr (list iovec)) :=
  '(ok, iovecs) ← dmabuf_importer_get_iovecs d buf;
  if (ok : bool) then vecs ← CoalesceIovecs iovecs; Some (Ok vecs) else Some (Err kInternal).

Definition GetIovecs (d : Device) (id : Z) (t : AddrTranslator)
    : option (StatusOr (list iovec) * AddrTranslator) :=
  match addr_ctxs_ t !! id with
  | None => Some (Err kInternal, t)
  | Some ctx =>
      match ctx_vecs ctx with
      | _ :: _ => Some (Ok (ctx_vecs ctx), t)
      | [] =>
          r ← PrepareIovecs d (ctx_buf ctx);
          match r with
          | Err e => Some (Err e, t)
          | Ok vecs =>
              Some (Ok vecs,
                    mkTranslator (<[id := mkAddrCtx (ctx_buf ctx) vecs]> (addr_ctxs_ t))
                      (next_id_ t) (next_attach_handle_ t) (unmaps t))
          end
      end
  end.

Definition Unmap (id : Z) (t : AddrTranslator) : AddrTranslator :=
  match addr_ctxs_ t !! id with
  | None => t
  | Some ctx =>
      mkTranslator (delete id (addr_ctxs_ t)) (next_id_ t) (next_attach_handle_ t)
        (unmaps t ++ [attach_handle (ctx_buf ctx)])
  end.

(** The destructor unmaps what is left. *)
Definition destroy_AddrTranslator (t : AddrTranslator) : AddrTranslator :=
  foldr Unmap t (elements (dom (addr_ctxs_ t))).

(** ** FastrakBufferResourceTracker *)

Record BufferInfo := mkBufferInfo { info_fd : Z; info_id : Z }.

(** [client_reg_handles_]. *)
Abbreviation Tracker := (gmap Z (gmap Z BufferInfo)).

Definition TrackBuffer (client dmabuf_fd dmabuf_id reg_handle : Z) (t : Tracker) : Status * Tracker :=
  match t !! client with
  | None => (Err kInternal, t)
  | Some reg_dmabufs =>
      match reg_dmabufs !! reg_handle with
      | Some _ => (Err kInternal, t)
      | None =>
          (OkStatus,
           <[client := <[reg_handle := mkBufferInfo dmabuf_fd dmabuf_id]> reg_dmabufs]> t)
      end
  end.

Definition GetDmabufId (client reg_handle : Z) (t : Tracker) : StatusOr Z :=
  match t !! client with
  | None => Err kInternal
  | Some reg_dmabufs =>
      match reg_dmabufs !! reg_handle with
      | None => Err kInvalidArgument
      | Some info => Ok (info_id info)
      end
  end.

(** [hash_order] is the order in which the hash map is iterated. *)
Definition GetRegHandles (hash_order : list Z -> list Z) (client : Z) (t : Tracker)
    : StatusOr (list Z) :=
  match t !! client with
  | None => Err kNotFound
  | Some reg_dmabufs => Ok (hash_order (elements (dom reg_dmabufs)))
  end.

Definition GetClients (hash_order : list Z -> list Z) (t : Tracker) : list Z :=
  hash_order (elements (dom t)).

Definition RegisterClient (client : Z) (t : Tracker) : Tracker :=
  match t !! client with
  | None => <[client := ∅]> t
  | Some _ => t
  end.

Definition UnregisterClient (client : Z) (t : Tracker) : Tracker := delete client t.

(** [close] fails on a descriptor that is not open. *)
Definition close_fd (fd : Z) (fds : gset Z) : bool * gset Z :=
  if decide (fd ∈ fds) then (true, fds ∖ {[fd]}) else (false, fds).

Definition UntrackBuffer (client reg_handle : Z) (t : Tracker) (fds : gset Z)
    : Status * Tracker * gset Z :=
  match t !! client with
  | None => (Err kInternal, t, fds)
  | Some reg_dmabufs =>
      match reg_dmabufs !! reg_handle with
      | None => (Err kInternal, t, fds)
      | Some info =>
          let '(closed, fds) := close_fd (info_fd info) fds in
          if (closed : bool)
          then (OkStatus, <[client := delete reg_handle reg_dmabufs]> t, fds)
          else (Err kInternal, t, fds)
      end
  end.

(** The destructor closes the descriptors that are left. *)
Definition destroy_Tracker (t : Tracker) (fds : gset Z) : gset Z :=
  foldr (fun c fds => foldr (fun info fds => snd (close_fd (info_fd info) fds)) fds
                        (snd <$> map_to_list (snd c))) fds (map_to_list t).

(** ** FasTrakGpuMemImporter *)

(** [dxs::BufferManagerInterface] as the importer uses it: handles of live
    registrations are distinct, a failed call changes nothing. *)
Class BufferManagerInterface (D : Type) := {
  dxs_RegBuffer : list iovec -> D -> StatusOr Z * D;
  dxs_DeregBuffer : Z -> D -> Status * D;
  dxs_registered : D -> gset Z;
  dxs_RegBuffer_ok gpas d h d' : dxs_RegBuffer gpas d = (Ok h, d') ->
    (h ∉ dxs_registered d) /\ dxs_registered d' = {[h]} ∪ dxs_registered d;
  dxs_RegBuffer_err gpas d e d' : dxs_RegBuffer gpas d = (Err e, d') ->
    dxs_registered d' = dxs_registered d;
  dxs_DeregBuffer_ok h d d' : dxs_DeregBuffer h d = (OkStatus, d') ->
    dxs_registered d' = dxs_registered d ∖ {[h]};
  dxs_DeregBuffer_err h d e d' : dxs_DeregBuffer h d = (Err e, d') ->
    dxs_registered d' = dxs_registered d
}.

Definition kFtsClientMagic : Z := 0x465453.

Definition REG_BUFFER : Z := 1.
Definition DEREG_BUFFER : Z := 2.

(** The protobuf messages of a request and its response. *)
Record BufferOpReq := mkReq {
  fts_magic_value : option Z;
  op_type : Z;
  req_size : option Z;
  req_reg_handle : option Z
}.

Record BufferOpResp := mkResp { resp_reg_handle : option Z; resp_status : StatusCode }.

Section importer.
Context {D : Type} `{BufferManagerInterface D}.
(** [ParseFromString] and [SerializeToString], [None] when they fail, and the
    iteration order of the hash maps. *)
Context (parse_req : list Z -> option BufferOpReq).
Context (serialize_resp : BufferOpResp -> option (list Z)).
Context (hash_order : list Z -> list Z).

(** [NicBinding], with the descriptors of dmabufs that are open and the
    handles whose deregistration failed while cleaning up (which is only
    logged). *)
Record NicBinding := mkNicBinding {
  addr_translator : AddrTranslator;
  dxs_client : D;
  resource_tracker : Tracker;
  nic_fds : gset Z;
  dereg_failures : gset Z
}.

(** [None]: a crash in [GetIovecs]. *)
Definition HandleRegBuffer (d : Device) (client : Z) (request : UnixSocketMessage) (b : NicBinding)
    : option (StatusOr Z * NicBinding) :=
  match fd request with
  | None => Some (Err kInvalidArgument, b)
  | Some dmabuf_fd =>
      let '(map_status, t) := Map d (addr_translator b) in
      match map_status with
      | Err _ => Some (Err kInternal, b)
      | Ok id =>
          '(status, t) ← GetIovecs d id t;
          match status with
          | Err _ => Some (Err kInternal,
              mkNicBinding (Unmap id t) (dxs_client b) (resource_tracker b) (nic_fds b) (dereg_failures b))
          | Ok iovecs =>
              let '(r, dxs) := dxs_RegBuffer iovecs (dxs_client b) in
              match r with
              | Err e => Some (Err e,
                  mkNicBinding (Unmap id t) dxs (resource_tracker b) (nic_fds b) (dereg_failures b))
              | Ok reg_handle =>
                  let '(s, tracker) := TrackBuffer client dmabuf_fd id reg_handle (resource_tracker b) in
                  match s with
                  | Err e => Some (Err e,
                      mkNicBinding (Unmap id t) dxs tracker (nic_fds b) (dereg_failures b))
                  | Ok _ => Some (Ok reg_handle,
                      mkNicBinding t dxs tracker (nic_fds b) (dereg_failures b))
                  end
              end
          end
      end
  end.

Definition HandleDeregBuffer (client : Z) (req : BufferOpReq) (b : NicBinding) : Status * NicBinding :=
  match req_reg_handle req with
  | None => (Err kInvalidArgument, b)
  | Some reg_handle =>
      match GetDmabufId client reg_handle (resource_tracker b) with
      | Err e => (Err e, b)
      | Ok dma_id =>
          let '(s, dxs) := dxs_DeregBuffer reg_handle (dxs_client b) in
          match s with
          | Err e => (Err e, mkNicBinding (addr_translator b) dxs (resource_tracker b) (nic_fds b)
                               (dereg_failures b))
          | Ok _ =>
              let t := Unmap dma_id (addr_translator b) in
              let '(s, tracker, fds) := UntrackBuffer client reg_handle (resource_tracker b) (nic_fds b) in
              (s, mkNicBinding t dxs tracker fds (dereg_failures b))
          end
      end
  end.

(** The status and the handle the response carries. *)
Definition DispatchRequest (d : Device) (client : Z) (request : UnixSocketMessage) (b : NicBinding)
    : option (Status * option Z * NicBinding) :=
  match text request ≫= parse_req with
  | None => Some (Err kInvalidArgument, None, b)
  | Some req =>
      if negb (bool_decide (fts_magic_value req = Some kFtsClientMagic)) then
        Some (Err kInvalidArgument, None, b)
      else if negb (op_type req =? REG_BUFFER) && negb (op_type req =? DEREG_BUFFER) then
        Some (Err kInvalidArgument, None, b)
      else if op_type req =? REG_BUFFER then
        '(r, b) ← HandleRegBuffer d client request b;
        match r with
        | Ok h => Some (OkStatus, Some h, b)
        | Err e => Some (Err e, None, b)
        end
      else
        let '(s, b) := HandleDeregBuffer client req b in Some (s, None, b)
  end.

(** [HandleRequest]: the response and [fin]. *)
Definition HandleRequest (d : Device) (client : Z) (request : UnixSocketMessage) (b : NicBinding)
    : option (UnixSocketMessage * bool * NicBinding) :=
  '(status, handle, b) ← DispatchRequest d client request b;
  match serialize_resp (mkResp handle (status_code status)) with
  | Some t => Some (mkMessage (Some t) None, negb (is_ok status), b)
  | None => Some (mkMessage (Some []) None, true, b)
  end.

(** The loop of [CleanUp]; [None] when the value of a failed [GetDmabufId] is
    used. *)
Fixpoint CleanUpLoop (client : Z) (reg_handles : list Z) (b : NicBinding) : option NicBinding :=
  match reg_handles with
  | [] => Some b
  | reg_handle :: reg_handles =>
      let '(s, dxs) := dxs_DeregBuffer reg_handle (dxs_client b) in
      let failures := if is_ok s then dereg_failures b else {[reg_handle]} ∪ dereg_failures b in
      match GetDmabufId client reg_handle (resource_tracker b) with
      | Err _ => None
      | Ok dma_id =>
          let t := Unmap dma_id (addr_translator b) in
          let '(_, tracker, fds) := UntrackBuffer client reg_handle (resource_tracker b) (nic_fds b) in
          CleanUpLoop client reg_handles (mkNicBinding t dxs tracker fds failures)
      end
  end.

Definition CleanUp (client : Z) (b : NicBinding) : option NicBinding :=
  match GetRegHandles hash_order client (resource_tracker b) with
  | Err _ => Some b
  | Ok reg_handles =>
      b ← CleanUpLoop client reg_handles b;
      Some (mkNicBinding (addr_translator b) (dxs_client b)
              (UnregisterClient client (resource_tracker b)) (nic_fds b) (dereg_failures b))
  end.

(** ** The service of all NICs *)

(** [nic_services_], the clients with a connection, and how often
    [all_clients_exited_callback_] was called. *)
Record Importer := mkImporter {
  nic_services_ : list NicBinding;
  importer_clients : gset Z;
  all_clients_exited : nat
}.

Definition AddConnectedClient (nic : nat) (client : Z) (i : Importer) : Importer :=
  mkImporter
    (alter (fun b => mkNicBinding (addr_translator b) (dxs_client b)
                       (RegisterClient client (resource_tracker b)) (nic_fds b) (dereg_failures b))
       nic (nic_services_ i))
    ({[client]} ∪ importer_clients i) (all_clients_exited i).

Definition RemoveConnectedClient (nic : nat) (client : Z) (i : Importer) : option Importer :=
  b ← nic_services_ i !! nic;
  b ← CleanUp client b;
  let clients := importer_clients i ∖ {[client]} in
  Some (mkImporter (<[nic := b]> (nic_services_ i)) clients
          (if decide (clients = ∅) then S (all_clients_exited i) else all_clients_exited i)).

(** The service handler [InitializeServers] installs for a NIC.  The
    descriptor of the request is open in the daemon. *)
Definition ServiceHandler (nic : nat) (d : Device) (client : Z) (request : UnixSocketMessage)
    (i : Importer) : option (UnixSocketMessage * bool * Importer) :=
  let i := AddConnectedClient nic client i in
  b ← nic_services_ i !! nic;
  let b := mkNicBinding (addr_translator b) (dxs_client b) (resource_tracker b)
             (match fd request with Some f => {[f]} ∪ nic_fds b | None => nic_fds b end)
             (dereg_failures b) in
  '(response, fin, b) ← HandleRequest d client request b;
  Some (response, fin,
        mkImporter (<[nic := b]> (nic_services_ i)) (importer_clients i) (all_clients_exited i)).

(** The destructor, after the servers are stopped. *)
Fixpoint CleanUpClients (clients : list Z) (b : NicBinding) : option NicBinding :=
  match clients with
  | [] => Some b
  | client :: clients => b ← CleanUp client b; CleanUpClients clients b
  end.

Definition destroy_Importer (i : Importer) : option Importer :=
  bs ← mapM (fun b => CleanUpClients (GetClients hash_order (resource_tracker b)) b) (nic_services_ i);
  Some (mkImporter bs (importer_clients i) (all_clients_exited i)).

End importer.

Arguments NicBinding D : clear implicits.
Arguments Importer D : clear implicits.

(** ** What is tracked *)

(** The buffer a client has under a handle. *)
Definition tracked (t : Tracker) (client h : Z) : option BufferInfo := t !! client ≫= (.!! h).

Lemma tracked_insert t m c h i c' h' :
  t !! c = Some m ->
  tracked (<[c := <[h := i]> m]> t) c' h'
  = if decide (c' = c /\ h' = h) then Some i else tracked t c' h'.
Proof.
  intros Hm. unfold tracked. destruct (decide (c' = c)) as [->|Hc].
  - rewrite lookup_insert_eq, Hm. cbn. destruct (decide (h' = h)) as [->|Hh].
    + by rewrite lookup_insert_eq, decide_True.
    + rewrite lookup_insert_ne, decide_False by naive_solver. done.
  - rewrite lookup_insert_ne, decide_False by naive_solver. done.
Qed.

Lemma tracked_delete t m c h c' h' :
  t !! c = Some m ->
  tracked (<[c := delete h m]> t) c' h' = if decide (c' = c /\ h' = h) then None else tracked t c' h'.
Proof.
  intros Hm. unfold tracked. destruct (decide (c' = c)) as [->|Hc].
  - rewrite lookup_insert_eq, Hm. cbn. destruct (decide (h' = h)) as [->|Hh].
    + by rewrite lookup_delete_eq, decide_True.
    + rewrite lookup_delete_ne, decide_False by naive_solver. done.
  - rewrite lookup_insert_ne, decide_False by naive_solver. done.
Qed.

(** What holds of some tracked buffer after an update. *)
Lemma tracked_insert_exists (P : Z -> Z -> BufferInfo -> Prop) t m c h i :
  t !! c = Some m -> tracked t c h = None ->
  (exists c' h' i', tracked (<[c := <[h := i]> m]> t) c' h' = Some i' /\ P c' h' i')
  <-> P c h i \/ exists c' h' i', tracked t c' h' = Some i' /\ P c' h' i'.
Proof.
  intros Hm Hn. setoid_rewrite (tracked_insert t m c h i); [|done]. split.
  - intros (c' & h' & i' & Hi & HP). case_decide; [destruct_and?; simplify_eq; auto|eauto 10].
  - intros [HP|(c' & h' & i' & Hi & HP)].
    + exists c, h, i. by rewrite decide_True.
    + exists c', h', i'. rewrite decide_False; [done|]. intros [-> ->]. congruence.
Qed.

Lemma tracked_delete_exists (P : Z -> Z -> BufferInfo -> Prop) t m c h :
  t !! c = Some m ->
  (exists c' h' i', tracked (<[c := delete h m]> t) c' h' = Some i' /\ P c' h' i')
  <-> exists c' h' i', tracked t c' h' = Some i' /\ (c', h') <> (c, h) /\ P c' h' i'.
Proof.
  intros Hm. setoid_rewrite (tracked_delete t m c h); [|done].
  split; intros (c' & h' & i' & Hi & HP); exists c', h', i'.
  - case_decide; [done|]. split_and!; [done|naive_solver|done].
  - rewrite decide_False by naive_solver. tauto.
Qed.

Lemma tracked_RegisterClient t c c' h' : tracked (RegisterClient c t) c' h' = tracked t c' h'.
Proof.
  unfold RegisterClient, tracked. destruct (t !! c) eqn:E; [done|].
  destruct (decide (c' = c)) as [->|]; [by rewrite lookup_insert_eq, E|by rewrite lookup_insert_ne].
Qed.

Lemma tracked_Unregister t c c' h' :
  tracked (UnregisterClient c t) c' h' = if decide (c' = c) then None else tracked t c' h'.
Proof.
  unfold UnregisterClient, tracked. case_decide; [subst; by rewrite lookup_delete_eq|by rewrite lookup_delete_ne].
Qed.

Lemma dom_Unmap id t : dom (addr_ctxs_ (Unmap id t)) = dom (addr_ctxs_ t) ∖ {[id]}.
Proof.
  unfold Unmap. destruct (addr_ctxs_ t !! id) eqn:E; cbn; [by rewrite dom_delete_L|].
  apply not_elem_of_dom in E. set_solver.
Qed.

Lemma next_id_Unmap id t : next_id_ (Unmap id t) = next_id_ t.
Proof. unfold Unmap. by destruct (addr_ctxs_ t !! id). Qed.

Lemma GetIovecs_frame d id t r t' :
  GetIovecs d id t = Some (r, t') ->
  dom (addr_ctxs_ t') = dom (addr_ctxs_ t) /\ next_id_ t' = next_id_ t.
Proof.
  unfold GetIovecs. destruct (addr_ctxs_ t !! id) as [ctx|] eqn:E; [|by intros [= _ <-]].
  destruct (ctx_vecs ctx); [|by intros [= _ <-]].
  intros ([vecs|e] & _ & [= _ <-])%bind_Some; [|done]. cbn. split; [|done].
  rewrite dom_insert_L. assert (id ∈ dom (addr_ctxs_ t)) by (apply elem_of_dom; eauto). set_solver.
Qed.

(** ** The addresses of a dmabuf *)

(** The device serves the vectors [vecs] of a buffer, in chunks of any positive
    size. *)
Definition serves (d : Device) (attach : Z) (vecs : list iovec) : Prop :=
  forall off, 0 <= off < Zlen vecs ->
    exists k, 0 < k /\ ioctl_get d attach off = Some (takeZ k (dropZ off vecs)).

Lemma get_iovecs_loop_complete d buf vecs fuel : forall offset rest,
  serves d (attach_handle buf) vecs -> num_iovecs buf = Zlen vecs -> Zlen vecs < 2 ^ 32 ->
  0 <= offset <= Zlen vecs -> Zlen rest = Zlen vecs - offset -> Zlen vecs - offset <= Z.of_nat fuel ->
  get_iovecs_loop fuel d buf offset (takeZ offset vecs ++ rest) = Some (true, vecs).
Proof.
  induction fuel as [|fuel IH]; intros offset rest Hd Hn Hb Ho Hr Hf; cbn [get_iovecs_loop]; rewrite Hn.
  all: destruct (Z.ltb_spec offset (Zlen vecs)) as [Hlt|Hge]; [|].
  2,4: replace offset with (Zlen vecs) in * by lia;
       destruct rest; [by rewrite takeZ_all, app_nil_r|rewrite Zlen_cons in Hr; pose proof (Zlen_nonneg rest); lia].
  { lia. }
  destruct (Hd offset) as (k & Hk & ->); [lia|]. set (chunk := takeZ k (dropZ offset vecs)).
  assert (Hc : 0 < Zlen chunk <= Zlen vecs - offset).
  { unfold chunk, takeZ, dropZ, Zlen in *. rewrite length_take, length_drop. lia. }
  unfold u32. rewrite (Z.mod_small (Zlen chunk)), Z.mod_small, (Z.mod_small (offset + Zlen chunk)) by lia.
  rewrite (proj2 (Z.leb_le _ _)) by lia.
  rewrite takeZ_app_exact by (rewrite Zlen_takeZ; lia). rewrite takeZ_all.
  assert (takeZ offset vecs ++ chunk = takeZ (offset + Zlen chunk) vecs) as Eapp.
  { unfold chunk, takeZ, dropZ, Zlen in *. rewrite take_take_drop, length_take, length_drop.
    destruct (decide (Z.to_nat k <= length vecs - Z.to_nat offset)%nat); [f_equal; lia|].
    rewrite !take_ge by lia. done. }
  rewrite app_assoc, Eapp. apply IH; try done; try lia.
  unfold dropZ. rewrite drop_app_ge; unfold Zlen in *.
  all: rewrite ?length_drop, ?length_take; try lia.
  all: unfold takeZ; rewrite length_take; lia.
Qed.

(** ** Accounting *)

Section accounts.
Context {D : Type} `{BufferManagerInterface D}.

(** What DXS, the kernel and the process hold is what is tracked, apart from
    the handles DXS did not release and the descriptors [leaked]; no two
    tracked buffers share anything. *)
Record nic_inv (b : NicBinding D) (leaked : gset Z) : Prop := {
  inv_unique c h i c' h' i' :
    tracked (resource_tracker b) c h = Some i -> tracked (resource_tracker b) c' h' = Some i' ->
    h = h' \/ info_id i = info_id i' \/ info_fd i = info_fd i' -> c = c' /\ h = h';
  inv_dxs h : h ∈ dxs_registered (dxs_client b) <->
    (exists c h' i, tracked (resource_tracker b) c h' = Some i /\ h' = h) \/ h ∈ dereg_failures b;
  inv_failures c h i : tracked (resource_tracker b) c h = Some i -> h ∉ dereg_failures b;
  inv_mapped id : id ∈ dom (addr_ctxs_ (addr_translator b)) <->
    exists c h i, tracked (resource_tracker b) c h = Some i /\ info_id i = id;
  inv_ids id : id ∈ dom (addr_ctxs_ (addr_translator b)) -> id < next_id_ (addr_translator b);
  inv_fds f : f ∈ nic_fds b <->
    (exists c h i, tracked (resource_tracker b) c h = Some i /\ info_fd i = f) \/ f ∈ leaked;
  inv_leaked c h i : tracked (resource_tracker b) c h = Some i -> info_fd i ∉ leaked;
  inv_next : 0 <= next_id_ (addr_translator b)
}.

(** The invariant depends on the tracker through [tracked], on the maps of the
    translator through their domain, and on DXS through its registrations. *)
Lemma nic_inv_ext b b' leaked :
  nic_inv b leaked ->
  (forall c h, tracked (resource_tracker b') c h = tracked (resource_tracker b) c h) ->
  dxs_registered (dxs_client b') = dxs_registered (dxs_client b) ->
  dom (addr_ctxs_ (addr_translator b')) = dom (addr_ctxs_ (addr_translator b)) ->
  next_id_ (addr_translator b) <= next_id_ (addr_translator b') ->
  nic_fds b' = nic_fds b -> dereg_failures b' = dereg_failures b ->
  nic_inv b' leaked.
Proof.
  intros [U X F M I O L N] Ht Hd Hm Hn Hf Hx. split.
  - intros *. rewrite !Ht. apply U.
  - intros h. rewrite Hd, Hx, X. by setoid_rewrite Ht.
  - intros *. rewrite Ht, Hx. apply F.
  - intros id. rewrite Hm, M. by setoid_rewrite Ht.
  - intros id. rewrite Hm. intros ?%I. lia.
  - intros f. rewrite Hf, O. by setoid_rewrite Ht.
  - intros *. rewrite Ht. apply L.
  - lia.
Qed.

(** A descriptor arrives with a request. *)
Lemma nic_inv_receive_fd b leaked f :
  nic_inv b leaked -> f ∉ nic_fds b ->
  nic_inv (mkNicBinding (addr_translator b) (dxs_client b) (resource_tracker b) ({[f]} ∪ nic_fds b)
             (dereg_failures b)) ({[f]} ∪ leaked).
Proof.
  intros [U X F M I O L N] Hf. split; cbn; try done.
  - intros f'. rewrite elem_of_union, elem_of_singleton, O. set_solver.
  - intros c h i Hi. specialize (L c h i Hi). assert (info_fd i ∈ nic_fds b) by (apply O; eauto 10). set_solver.
Qed.

(** A buffer is registered and tracked; its descriptor is no longer leaked. *)
Lemma nic_inv_track b leaked client f id h m dxs t :
  nic_inv b ({[f]} ∪ leaked) -> f ∉ leaked ->
  resource_tracker b !! client = Some m ->
  (h ∉ dxs_registered (dxs_client b)) -> dxs_registered dxs = {[h]} ∪ dxs_registered (dxs_client b) ->
  id = next_id_ (addr_translator b) ->
  dom (addr_ctxs_ t) = {[id]} ∪ dom (addr_ctxs_ (addr_translator b)) -> id < next_id_ t ->
  nic_inv (mkNicBinding t dxs (<[client := <[h := mkBufferInfo f id]> m]> (resource_tracker b))
             (nic_fds b) (dereg_failures b)) leaked.
Proof.
  intros [U X F M I O L N] Hf Hm Hh Hd -> Ht Hid.
  assert (Hnew : forall c i, tracked (resource_tracker b) c h = Some i -> False).
  { intros c i Hi. apply Hh, X. eauto 10. }
  assert (Hn : tracked (resource_tracker b) client h = None) by (apply eq_None_not_Some; intros []; eauto).
  assert (Hnid : forall c h' i, tracked (resource_tracker b) c h' = Some i ->
                   info_id i <> next_id_ (addr_translator b)).
  { intros c h' i Hi E. assert (info_id i ∈ dom (addr_ctxs_ (addr_translator b))) as ?%I by (apply M; eauto). lia. }
  assert (Hnf : forall c h' i, tracked (resource_tracker b) c h' = Some i -> info_fd i <> f).
  { intros c h' i Hi E. specialize (L c h' i Hi). set_solver. }
  assert (Hx : h ∉ dereg_failures b) by (intros ?; apply Hh, X; auto).
  split; cbn.
  - intros c h1 i c' h2 i'. rewrite !(tracked_insert _ m) by done.
    do 2 case_decide; intros Hi Hi' Heq; destruct_and?; simplify_eq/=; [done|..|by eapply U].
    all: destruct Heq as [->|[E|E]]; exfalso; naive_solver.
  - intros h'. rewrite Hd, elem_of_union, elem_of_singleton, X, tracked_insert_exists by done. naive_solver.
  - intros c h' i. rewrite (tracked_insert _ m) by done. case_decide; [|apply F]. intros _. by destruct_and?; subst.
  - intros id. rewrite Ht, elem_of_union, elem_of_singleton, M, tracked_insert_exists by done. naive_solver.
  - intros id. rewrite Ht, elem_of_union, elem_of_singleton. intros [->|?%I]; lia.
  - intros f'. rewrite O, elem_of_union, elem_of_singleton, tracked_insert_exists by done. naive_solver.
  - intros c h' i. rewrite (tracked_insert _ m) by done. case_decide; [by intros [= <-]|].
    intros Hi. specialize (L c h' i Hi). set_solver.
  - lia.
Qed.

(** A tracked buffer is released: deregistered, whatever DXS answers, unmapped,
    its descriptor closed, and no longer tracked. *)
Lemma nic_inv_untrack b leaked client h i s dxs :
  nic_inv b leaked -> tracked (resource_tracker b) client h = Some i ->
  dxs_DeregBuffer h (dxs_client b) = (s, dxs) ->
  exists tracker fds,
    UntrackBuffer client h (resource_tracker b) (nic_fds b) = (OkStatus, tracker, fds)
    /\ nic_inv (mkNicBinding (Unmap (info_id i) (addr_translator b)) dxs tracker fds
                 (if is_ok s then dereg_failures b else {[h]} ∪ dereg_failures b)) leaked
    /\ (forall c' h', tracked tracker c' h'
          = if decide (c' = client /\ h' = h) then None else tracked (resource_tracker b) c' h')
    /\ dom tracker = dom (resource_tracker b).
Proof.
  intros [U X F M I O L N] Hi Hs. pose proof Hi as (m & Hm & Hh)%bind_Some.
  assert (Hfd : info_fd i ∈ nic_fds b) by (apply O; eauto 10).
  unfold UntrackBuffer, close_fd. rewrite Hm, Hh, (decide_True _ _ Hfd).
  assert (Hdom : client ∈ dom (resource_tracker b)) by (apply elem_of_dom; eauto).
  exists (<[client := delete h m]> (resource_tracker b)), (nic_fds b ∖ {[info_fd i]}).
  split; [done|]. split; [|split; [intros; by apply tracked_delete|rewrite dom_insert_L; set_solver]].
  assert (Hd : dxs_registered dxs = if is_ok s then dxs_registered (dxs_client b) ∖ {[h]}
                                    else dxs_registered (dxs_client b)).
  { destruct s as [[]|e]; cbn; [by apply dxs_DeregBuffer_ok|by eapply dxs_DeregBuffer_err]. }
  assert (Hother : forall c' h' i', tracked (resource_tracker b) c' h' = Some i' -> (c', h') <> (client, h) ->
                     h' <> h /\ info_id i' <> info_id i /\ info_fd i' <> info_fd i).
  { intros c' h' i' Hi' Hne.
    split_and!; intros E; apply Hne; destruct (U c' h' i' client h i Hi' Hi) as [-> ->]; auto. }
  assert (Hsame : forall c' h' i', tracked (resource_tracker b) c' h' = Some i' ->
                    (c', h') = (client, h) -> i' = i) by congruence.
  split; cbn.
  - intros *. rewrite !(tracked_delete _ m) by done. do 2 case_decide; [done..|]. apply U.
  - intros h'. rewrite Hd, tracked_delete_exists by done. destruct (decide (h' = h)) as [->|Hne].
    + assert (h ∉ dereg_failures b) by eauto. assert (h ∈ dxs_registered (dxs_client b)) by (apply X; eauto 10).
      destruct s; cbn; set_unfold; naive_solver.
    + assert (h' ∈ (if is_ok s then dereg_failures b else {[h]} ∪ dereg_failures b)
              <-> h' ∈ dereg_failures b) as -> by (destruct s; set_solver).
      assert (h' ∈ (if is_ok s then dxs_registered (dxs_client b) ∖ {[h]} else dxs_registered (dxs_client b))
              <-> h' ∈ dxs_registered (dxs_client b)) as -> by (destruct s; set_solver).
      rewrite X. naive_solver.
  - intros c' h' i'. rewrite (tracked_delete _ m) by done. case_decide; [done|]. intros Hi'.
    destruct (Hother c' h' i' Hi') as [Hne _]; [naive_solver|]. specialize (F _ _ _ Hi').
    destruct s; set_solver.
  - intros id. rewrite dom_Unmap, elem_of_difference, elem_of_singleton, M, tracked_delete_exists by done.
    naive_solver.
  - intros id. rewrite dom_Unmap, next_id_Unmap. set_solver.
  - intros f. rewrite elem_of_difference, elem_of_singleton, O, tracked_delete_exists by done.
    specialize (L _ _ _ Hi). naive_solver.
  - intros c' h' i'. rewrite (tracked_delete _ m) by done. case_decide; [done|]. apply L.
  - by rewrite next_id_Unmap.
Qed.

Lemma CleanUpLoop_inv client leaked reg_handles : forall b,
  nic_inv b leaked -> NoDup reg_handles ->
  (forall h, h ∈ reg_handles -> is_Some (tracked (resource_tracker b) client h)) ->
  exists b', CleanUpLoop client reg_handles b = Some b' /\ nic_inv b' leaked
    /\ (forall c h, tracked (resource_tracker b') c h
          = if decide (c = client /\ h ∈ reg_handles) then None else tracked (resource_tracker b) c h)
    /\ dom (resource_tracker b') = dom (resource_tracker b).
Proof.
  induction reg_handles as [|h hs IH]; intros b Hi Hnd Hh; cbn [CleanUpLoop].
  { exists b. split_and!; try done. intros c h. rewrite decide_False; [done|]. set_solver. }
  apply list.NoDup_cons in Hnd as [Hnin Hnd]. destruct (Hh h) as [i Hti]; [left|].
  destruct (dxs_DeregBuffer h (dxs_client b)) as [s dxs] eqn:Es.
  destruct (nic_inv_untrack b leaked client h i s dxs Hi Hti Es) as (tracker & fds & Eu & Hi' & Ht & Hd).
  assert (GetDmabufId client h (resource_tracker b) = Ok (info_id i)) as ->.
  { unfold tracked in Hti. unfold GetDmabufId. destruct (resource_tracker b !! client); [|done].
    cbn in Hti. by rewrite Hti. }
  rewrite Eu. edestruct IH as (b' & E & Hinv & Ht' & Hd'); [exact Hi'|done| |].
  { intros h' Hin. cbn. rewrite Ht, decide_False; [apply Hh; by right|]. intros [_ ->]. done. }
  exists b'. split_and!; [done|done| |by rewrite Hd'].
  intros c h'. rewrite Ht'. cbn. rewrite Ht.
  assert (Hc : h' ∈ h :: hs <-> h' = h \/ h' ∈ hs) by apply elem_of_cons.
  clear - Hc. repeat case_decide; first [done | exfalso; tauto].
Qed.

Section handlers.
Context (parse_req : list Z -> option BufferOpReq).
Context (serialize_resp : BufferOpResp -> option (list Z)).

(** The outcome of a registration, for a client that is known: on success the
    descriptor is tracked, otherwise only the leak of the descriptor remains. *)
Lemma HandleRegBuffer_inv d client request b f leaked r b' :
  fd request = Some f -> f ∉ leaked ->
  nic_inv b ({[f]} ∪ leaked) -> next_id_ (addr_translator b) < 2 ^ 64 - 1 ->
  client ∈ dom (resource_tracker b) ->
  HandleRegBuffer d client request b = Some (r, b') ->
  dom (resource_tracker b') = dom (resource_tracker b)
  /\ match r with
     | Ok h => nic_inv b' leaked /\ (h ∉ dxs_registered (dxs_client b))
         /\ exists i, info_fd i = f
              /\ forall c h', tracked (resource_tracker b') c h'
                   = if decide (c = client /\ h' = h) then Some i else tracked (resource_tracker b) c h'
     | Err _ => nic_inv b' ({[f]} ∪ leaked)
                /\ resource_tracker b' = resource_tracker b
     end.
Proof.
  intros Ef Hf Hi Hn (m & Hm)%elem_of_dom. pose proof (inv_next _ _ Hi). unfold HandleRegBuffer. rewrite Ef. unfold Map.
  destruct (dmabuf_importer_map d) as [buf|]; [|by intros [= <- <-]].
  intros ([status t] & Hg & H1)%bind_Some. apply GetIovecs_frame in Hg as [Hdom Hnext]. cbn in Hdom, Hnext.
  unfold u64 in Hnext. rewrite Z.mod_small in Hnext by lia. rewrite dom_insert_L in Hdom.
  assert (Hfresh : next_id_ (addr_translator b) ∉ dom (addr_ctxs_ (addr_translator b))).
  { intros ?%(inv_ids _ _ Hi). lia. }
  assert (Hundo : dom (addr_ctxs_ (Unmap (next_id_ (addr_translator b)) t)) = dom (addr_ctxs_ (addr_translator b))).
  { rewrite dom_Unmap. set_solver. }
  assert (Hundo_n : next_id_ (addr_translator b) <= next_id_ (Unmap (next_id_ (addr_translator b)) t)).
  { rewrite next_id_Unmap. lia. }
  assert (Herr : forall dxs, dxs_registered dxs = dxs_registered (dxs_client b) ->
    nic_inv (mkNicBinding (Unmap (next_id_ (addr_translator b)) t) dxs (resource_tracker b) (nic_fds b)
               (dereg_failures b)) ({[f]} ∪ leaked)).
  { intros dxs Hdx. eapply nic_inv_ext; [exact Hi|..]; done. }
  destruct status as [vecs|e]; [|injection H1 as <- <-; cbn; split_and!; try done; by apply Herr].
  destruct (dxs_RegBuffer vecs (dxs_client b)) as [[h|e] dxs] eqn:Er.
  2:{ injection H1 as <- <-. cbn. split_and!; try done. apply Herr. by eapply dxs_RegBuffer_err. }
  apply dxs_RegBuffer_ok in Er as [Hh Hd].
  assert (Hmh : m !! h = None).
  { apply eq_None_not_Some. intros [i Hmi]. apply Hh, (inv_dxs _ _ Hi). left. exists client, h, i.
    unfold tracked. by rewrite Hm. }
  unfold TrackBuffer in H1. rewrite Hm, Hmh in H1. injection H1 as <- <-. cbn.
  assert (client ∈ dom (resource_tracker b)) by (apply elem_of_dom; eauto).
  split; [rewrite dom_insert_L; set_solver|].
  split; [eapply nic_inv_track; try done; lia|].
  split; [done|]. eexists (mkBufferInfo f _). split; [done|]. intros. by apply tracked_insert.
Qed.

Lemma HandleDeregBuffer_inv client req b leaked s b' :
  nic_inv b leaked -> HandleDeregBuffer client req b = (s, b') ->
  nic_inv b' leaked /\ dom (resource_tracker b') = dom (resource_tracker b)
  /\ match s with
     | Ok _ => exists h, req_reg_handle req = Some h /\ is_Some (tracked (resource_tracker b) client h)
         /\ forall c' h', tracked (resource_tracker b') c' h'
              = if decide (c' = client /\ h' = h) then None else tracked (resource_tracker b) c' h'
     | Err _ => resource_tracker b' = resource_tracker b
     end.
Proof.
  intros Hi. unfold HandleDeregBuffer. destruct (req_reg_handle req) as [h|]; [|by intros [= <- <-]].
  unfold GetDmabufId. destruct (resource_tracker b !! client) as [m|] eqn:Em; [|by intros [= <- <-]].
  destruct (m !! h) as [i|] eqn:Eh; [|by intros [= <- <-]].
  destruct (dxs_DeregBuffer h (dxs_client b)) as [[[]|e] dxs] eqn:Es.
  - assert (Ht : tracked (resource_tracker b) client h = Some i) by (unfold tracked; by rewrite Em).
    destruct (nic_inv_untrack b leaked client h i (Ok tt) dxs Hi Ht Es) as (tracker & fds & -> & Hi' & Ht' & Hd').
    intros [= <- <-]. cbn. split_and!; [done|done|].
    exists h. by split_and!.
  - intros [= <- <-]. cbn. split_and!; try done. eapply nic_inv_ext; [exact Hi|..]; try done.
    by eapply dxs_DeregBuffer_err.
Qed.

(** Whether the descriptor belongs to a tracked buffer. *)
Definition adopted (b : NicBinding D) (f : Z) : Prop :=
  exists c h i, tracked (resource_tracker b) c h = Some i /\ info_fd i = f.

Lemma DispatchRequest_inv d client request b leaked status handle b' :
  nic_inv b (match fd request with Some f => {[f]} ∪ leaked | None => leaked end) ->
  (forall f, fd request = Some f -> f ∉ leaked) ->
  next_id_ (addr_translator b) < 2 ^ 64 - 1 -> client ∈ dom (resource_tracker b) ->
  DispatchRequest parse_req d client request b = Some (status, handle, b') ->
  exists leaked', nic_inv b' leaked'
    /\ forall x, x ∈ leaked' <-> x ∈ leaked \/ (fd request = Some x /\ ~ adopted b' x).
Proof.
  intros Hi Hfresh Hn Hc.
  assert (Hkeep : forall b', nic_inv b' (match fd request with Some f => {[f]} ∪ leaked | None => leaked end) ->
    exists leaked', nic_inv b' leaked'
      /\ forall x, x ∈ leaked' <-> x ∈ leaked \/ (fd request = Some x /\ ~ adopted b' x)).
  { intros b1 Hi1. eexists. split; [exact Hi1|]. intros x.
    destruct (fd request) as [f|] eqn:Ef; [|naive_solver]. rewrite elem_of_union, elem_of_singleton.
    assert (~ adopted b1 f); [|naive_solver]. intros (c & h & i & Ht & <-).
    pose proof (inv_leaked _ _ Hi1 c h i Ht). set_solver. }
  unfold DispatchRequest. destruct (text request ≫= parse_req) as [req|]; [|intros [= _ _ <-]; auto].
  destruct (negb _); [intros [= _ _ <-]; auto|]. destruct (negb _ && _); [intros [= _ _ <-]; auto|].
  destruct (op_type req =? REG_BUFFER).
  - intros ([r b1] & Hr & H1)%bind_Some. destruct (fd request) as [f|] eqn:Ef.
    + destruct (HandleRegBuffer_inv d client request b f leaked r b1) as (Hd & Hcase); try done; [auto|].
      destruct r as [h|e]; injection H1 as <- <- <-; [|by apply Hkeep, Hcase].
      destruct Hcase as (Hi1 & _ & i & Hf & Ht). exists leaked. split; [done|].
      intros x. split; [auto|]. intros [?|[[= ->] Hna]]; [done|]. exfalso. apply Hna.
      exists client, h, i. by rewrite Ht, decide_True.
    + unfold HandleRegBuffer in Hr. rewrite Ef in Hr. injection Hr as <- <-. injection H1 as <- <- <-. auto.
  - destruct (HandleDeregBuffer client req b) as [s b1] eqn:E. intros [= _ _ <-]. apply Hkeep.
    by apply (HandleDeregBuffer_inv client req b _ s b1 Hi) in E as [Hi1 _].
Qed.

(** The binding when a request is dispatched. *)
Definition arrived (client : Z) (request : UnixSocketMessage) (b : NicBinding D) : NicBinding D :=
  mkNicBinding (addr_translator b) (dxs_client b) (RegisterClient client (resource_tracker b))
    (match fd request with Some f => {[f]} ∪ nic_fds b | None => nic_fds b end) (dereg_failures b).

Lemma arrived_inv client request b leaked :
  nic_inv b leaked -> (forall f, fd request = Some f -> f ∉ nic_fds b) ->
  nic_inv (arrived client request b) (match fd request with Some f => {[f]} ∪ leaked | None => leaked end)
  /\ (forall f, fd request = Some f -> f ∉ leaked)
  /\ client ∈ dom (resource_tracker (arrived client request b)).
Proof.
  intros Hi Hfresh. split_and!.
  - assert (Hi1 : nic_inv (mkNicBinding (addr_translator b) (dxs_client b)
                    (RegisterClient client (resource_tracker b)) (nic_fds b) (dereg_failures b)) leaked).
    { eapply nic_inv_ext; [exact Hi|..]; try done. intros. apply tracked_RegisterClient. }
    unfold arrived. destruct (fd request) as [f|] eqn:Ef; [|done].
    by apply (nic_inv_receive_fd _ leaked f Hi1), Hfresh.
  - intros f Ef Hl. apply (Hfresh f Ef), (inv_fds _ _ Hi). auto.
  - cbn. unfold RegisterClient. destruct (resource_tracker b !! client) eqn:E; [apply elem_of_dom; eauto|set_solver].
Qed.

Lemma ServiceHandler_dispatch nic d client request i resp fin i' b :
  nic_services_ i !! nic = Some b ->
  ServiceHandler parse_req serialize_resp nic d client request i = Some (resp, fin, i') ->
  exists status handle b',
    DispatchRequest parse_req d client request (arrived client request b) = Some (status, handle, b')
    /\ nic_services_ i' = <[nic := b']> (nic_services_ i)
    /\ match serialize_resp (mkResp handle (status_code status)) with
       | Some t => resp = mkMessage (Some t) None /\ fin = negb (is_ok status)
       | None => resp = mkMessage (Some []) None /\ fin = true
       end.
Proof.
  intros Hb. unfold ServiceHandler. cbn. rewrite list_lookup_alter_eq, Hb. cbn -[HandleRequest].
  intros ([[response fin'] b1] & Hr & Hi')%bind_Some. cbn in Hi'. injection Hi' as <- <- <-. cbn.
  unfold HandleRequest in Hr. apply bind_Some in Hr as ([[status handle] b2] & Hd & Hs).
  exists status, handle, b1. rewrite list_insert_after_alter.
  destruct (serialize_resp (mkResp handle (status_code status))); by injection Hs as <- <- ->.
Qed.

Lemma ServiceHandler_inv nic d client request i leaked resp fin i' b :
  nic_services_ i !! nic = Some b -> nic_inv b leaked ->
  (forall f, fd request = Some f -> f ∉ nic_fds b) -> next_id_ (addr_translator b) < 2 ^ 64 - 1 ->
  ServiceHandler parse_req serialize_resp nic d client request i = Some (resp, fin, i') ->
  exists b' leaked', nic_services_ i' = <[nic := b']> (nic_services_ i) /\ nic_inv b' leaked'
    /\ forall x, x ∈ leaked' <-> x ∈ leaked \/ (fd request = Some x /\ ~ adopted b' x).
Proof.
  intros Hb Hi Hfresh Hn Hs. destruct (arrived_inv client request b leaked Hi Hfresh) as (Hi1 & Hnl & Hc).
  destruct (ServiceHandler_dispatch _ _ _ _ _ _ _ _ _ Hb Hs) as (status & handle & b' & Hd & Hnics & _).
  destruct (DispatchRequest_inv d client request _ leaked status handle b' Hi1 Hnl Hn Hc Hd) as (leaked' & ? & ?).
  by exists b', leaked'.
Qed.

(** *** Departures *)

Context (hash_order : list Z -> list Z).
Hypothesis hash_order_perm : forall l, hash_order l ≡ₚ l.

(** A client that leaves releases what it has, and nothing else. *)
Lemma CleanUp_inv client b leaked :
  nic_inv b leaked ->
  exists b', CleanUp hash_order client b = Some b' /\ nic_inv b' leaked
    /\ (forall c h, tracked (resource_tracker b') c h
          = if decide (c = client) then None else tracked (resource_tracker b) c h)
    /\ dom (resource_tracker b') = dom (resource_tracker b) ∖ {[client]}.
Proof.
  intros Hi. unfold CleanUp, GetRegHandles. destruct (resource_tracker b !! client) as [m|] eqn:Em.
  2:{ exists b. split_and!; try done.
      - intros c h. case_decide; [subst; unfold tracked; by rewrite Em|done].
      - apply not_elem_of_dom in Em. set_solver. }
  destruct (CleanUpLoop_inv client leaked (hash_order (elements (dom m))) b Hi) as (b' & -> & Hi' & Ht & Hd).
  { rewrite hash_order_perm. apply NoDup_elements. }
  { intros h. rewrite hash_order_perm, elem_of_elements, elem_of_dom. unfold tracked. by rewrite Em. }
  assert (Hall : forall c h, tracked (UnregisterClient client (resource_tracker b')) c h
                 = if decide (c = client) then None else tracked (resource_tracker b) c h).
  { intros c h. rewrite tracked_Unregister. case_decide; [done|]. rewrite Ht, decide_False; tauto. }
  eexists. cbn. split_and!; [done| |done|cbn; unfold UnregisterClient; by rewrite dom_delete_L, Hd].
  eapply nic_inv_ext; [exact Hi'|..]; cbn; try done. intros c h. rewrite Hall, Ht.
  destruct (decide (c = client)) as [->|Hne]; [|by rewrite decide_False by tauto].
  destruct (decide _) as [[_ Hin]|Hnin]; [done|]. unfold tracked. rewrite Em. cbn.
  symmetry. apply not_elem_of_dom. intros Hin. apply Hnin. split; [done|].
  by rewrite hash_order_perm, elem_of_elements.
Qed.

(** *** The daemon's executions *)

(** [leaked] has, for every NIC, the descriptors of requests that did not
    become registrations. *)
Inductive daemon : Importer D -> list (gset Z) -> Prop :=
  | daemon_start dxss :
      (forall dxs, dxs ∈ dxss -> dxs_registered dxs = ∅) ->
      daemon (mkImporter ((fun dxs => mkNicBinding new_AddrTranslator dxs ∅ ∅ ∅) <$> dxss) ∅ 0)
        ((fun _ => ∅) <$> dxss)
  | daemon_request i leaked nic d client request resp fin i' b b' l l' :
      daemon i leaked -> nic_services_ i !! nic = Some b -> leaked !! nic = Some l ->
      (forall f, fd request = Some f -> f ∉ nic_fds b) -> next_id_ (addr_translator b) < 2 ^ 64 - 1 ->
      ServiceHandler parse_req serialize_resp nic d client request i = Some (resp, fin, i') ->
      nic_services_ i' !! nic = Some b' ->
      (forall x, x ∈ l' <-> x ∈ l \/ (fd request = Some x /\ ~ adopted b' x)) ->
      daemon i' (<[nic := l']> leaked)
  | daemon_disconnect i leaked nic client i' :
      daemon i leaked -> RemoveConnectedClient hash_order nic client i = Some i' ->
      daemon i' leaked.

Lemma daemon_inv i leaked : daemon i leaked -> Forall2 nic_inv (nic_services_ i) leaked.
Proof.
  induction 1 as [dxss Hd|i leaked nic d client request resp fin i' b b' l l' _ IH Hb Hl Hf Hn Hs Hb' Hl'
                 |i leaked nic client i' _ IH Hr].
  - cbn. induction dxss as [|dxs dxss IHd]; cbn; constructor.
    + assert (dxs_registered dxs = ∅) as E by (apply Hd; left).
      split; cbn; unfold tracked; try set_solver; done.
    + apply IHd. intros dxs' Hin. apply Hd. by right.
  - pose proof (Forall2_lookup_lr _ _ _ _ _ _ IH Hb Hl) as Hi.
    destruct (ServiceHandler_inv nic d client request i l resp fin i' b Hb Hi Hf Hn Hs)
      as (b1 & l1 & E & Hi1 & Hl1).
    rewrite E in Hb' |- *. rewrite list_lookup_insert_eq in Hb' by by eapply lookup_lt_Some.
    injection Hb' as <-. replace l' with l1 by (apply set_eq; intros x; by rewrite Hl1, Hl').
    by apply Forall2_insert.
  - unfold RemoveConnectedClient in Hr. apply bind_Some in Hr as (b & Hb & Hr).
    apply bind_Some in Hr as (b' & Hc & [= <-]). cbn.
    destruct (Forall2_lookup_l _ _ _ _ _ IH Hb) as (l & Hl & Hi).
    destruct (CleanUp_inv client b l Hi) as (b1 & Hc' & Hi' & _). simplify_eq.
    rewrite <- (list_insert_id leaked nic l) by done. by apply Forall2_insert.
Qed.

Lemma CleanUpClients_inv leaked clients : forall b,
  nic_inv b leaked ->
  exists b', CleanUpClients hash_order clients b = Some b' /\ nic_inv b' leaked
    /\ dom (resource_tracker b') = dom (resource_tracker b) ∖ list_to_set clients.
Proof.
  induction clients as [|c clients IH]; intros b Hi; cbn.
  { exists b. split_and!; try done. set_solver. }
  destruct (CleanUp_inv c b leaked Hi) as (b1 & -> & Hi1 & _ & Hd). cbn.
  destruct (IH b1 Hi1) as (b' & -> & Hi' & Hd'). exists b'. split_and!; try done.
  rewrite Hd', Hd. set_solver.
Qed.

(** C8 (invariant) In every execution of the daemon and for every NIC: the
    registrations DXS has, the mapped dmabufs and the open descriptors are
    exactly those of the tracked buffers, no two of which share a handle, a
    mapping or a descriptor, apart from the handles DXS refused to release and
    the descriptors of requests that failed; and when a client leaves,
    [CleanUp] does not crash and releases all its buffers and no other. *)
Theorem importer_accounts i leaked nic b l :
  daemon i leaked -> nic_services_ i !! nic = Some b -> leaked !! nic = Some l ->
  nic_inv b l
  /\ forall client, exists b', CleanUp hash_order client b = Some b'
       /\ forall c h, tracked (resource_tracker b') c h
            = if decide (c = client) then None else tracked (resource_tracker b) c h.
Proof.
  intros Hd Hb Hl. pose proof (Forall2_lookup_lr _ _ _ _ _ _ (daemon_inv _ _ Hd) Hb Hl) as Hi.
  split; [done|]. intros client. destruct (CleanUp_inv client b l Hi) as (b' & Hc & _ & Ht & _). eauto.
Qed.

(** The destructor of the importer always completes, and then no
    NIC has a client or a mapping left, DXS only the registrations it refused
    to release, and the process only the descriptors that were leaked. *)
Theorem importer_destroy_releases i leaked :
  daemon i leaked ->
  exists i', destroy_Importer hash_order i = Some i'
    /\ Forall2 (fun b l => resource_tracker b = ∅ /\ addr_ctxs_ (addr_translator b) = ∅
                          /\ dxs_registered (dxs_client b) = dereg_failures b /\ nic_fds b = l)
         (nic_services_ i') leaked.
Proof.
  intros Hd%daemon_inv. unfold destroy_Importer.
  assert (exists bs, mapM (fun b => CleanUpClients hash_order (GetClients hash_order (resource_tracker b)) b)
                       (nic_services_ i) = Some bs
    /\ Forall2 (fun b l => nic_inv b l /\ resource_tracker b = ∅) bs leaked) as (bs & -> & Hbs).
  { induction Hd as [|b l bs ls Hi _ (bs' & E & Hbs')]; [by exists []|]. cbn.
    destruct (CleanUpClients_inv l (GetClients hash_order (resource_tracker b)) b Hi) as (b' & -> & Hi' & Hdom).
    cbn. rewrite E. exists (b' :: bs'). split; [done|]. constructor; [|done]. split; [done|].
    apply dom_empty_inv_L. rewrite Hdom. unfold GetClients. rewrite hash_order_perm, list_to_set_elements_L. set_solver. }
  cbn. eexists. split; [done|]. cbn. eapply Forall2_impl; [|exact Hbs].
  intros b l [[U X F M I O L N] Et]. rewrite Et in *.
  assert (Hno : forall c h i0, tracked ∅ c h = Some i0 -> False) by (unfold tracked; by intros).
  split_and!; [done|..].
  - apply dom_empty_inv_L. apply set_eq. intros id. rewrite M. split; [|set_solver].
    intros (? & ? & ? & ?%Hno & _). done.
  - apply set_eq. intros h. rewrite X. naive_solver.
  - apply set_eq. intros f. rewrite O. naive_solver.
Qed.

End handlers.

End accounts.

(** ** One registration *)

Section registration.
Context {D : Type} `{BufferManagerInterface D}.

(** What [GetIovecs] returns for a buffer just mapped. *)
Lemma GetIovecs_mapped d id t attach vecs v rest :
  vecs = v :: rest -> serves d attach vecs -> Zlen vecs < 2 ^ 32 ->
  addr_ctxs_ t !! id = Some (mkAddrCtx (mkBuf attach (Zlen vecs)) []) ->
  GetIovecs d id t
  = Some (Ok (coalesce v rest),
          mkTranslator (<[id := mkAddrCtx (mkBuf attach (Zlen vecs)) (coalesce v rest)]> (addr_ctxs_ t))
            (next_id_ t) (next_attach_handle_ t) (unmaps t)).
Proof.
  intros Hv Hs Hl Ht. unfold GetIovecs. rewrite Ht. cbn [ctx_vecs ctx_buf].
  assert (dmabuf_importer_get_iovecs d (mkBuf attach (Zlen vecs)) = Some (true, vecs)) as Hg.
  { unfold dmabuf_importer_get_iovecs. pose proof (Zlen_nonneg vecs).
    apply (get_iovecs_loop_complete d (mkBuf attach (Zlen vecs)) vecs _ 0); cbn; try done; try lia.
    unfold Zlen at 1. rewrite length_replicate. lia. }
  unfold PrepareIovecs. rewrite Hg. cbn. subst vecs. by rewrite CoalesceIovecs_spec.
Qed.

(** A registration request for a dmabuf the kernel maps with
    the ranges [vecs], which it returns in chunks of any size: [HandleRegBuffer]
    terminates, registers with DXS ranges that cover exactly the addresses of
    [vecs] in order, and answers with the result of DXS; on success the mapping
    is kept and tracked with the descriptor, otherwise it is undone and nothing
    is tracked. *)
Theorem registration_covers_dmabuf d client f m attach vecs (b : NicBinding D) :
  ioctl_map d = Some (attach, Zlen vecs) -> serves d attach vecs ->
  vecs <> [] -> Zlen vecs < 2 ^ 32 -> Forall range_ok vecs ->
  addr_ctxs_ (addr_translator b) !! next_id_ (addr_translator b) = None ->
  resource_tracker b !! client = Some m ->
  (forall h, is_Some (m !! h) -> h ∈ dxs_registered (dxs_client b)) ->
  exists gpas, concat (addresses <$> gpas) = concat (addresses <$> vecs)
    /\ exists t', HandleRegBuffer d client (mkMessage None (Some f)) b
      = Some (match dxs_RegBuffer gpas (dxs_client b) with
              | (Ok h, dxs) =>
                  (Ok h, mkNicBinding t' dxs
                           (<[client := <[h := mkBufferInfo f (next_id_ (addr_translator b))]> m]> (resource_tracker b))
                           (nic_fds b) (dereg_failures b))
              | (Err e, dxs) =>
                  (Err e, mkNicBinding (Unmap (next_id_ (addr_translator b)) t') dxs (resource_tracker b)
                            (nic_fds b) (dereg_failures b))
              end)
    /\ addr_ctxs_ t' = <[next_id_ (addr_translator b) := mkAddrCtx (mkBuf attach (Zlen vecs)) gpas]>
                         (addr_ctxs_ (addr_translator b))
    /\ addr_ctxs_ (Unmap (next_id_ (addr_translator b)) t') = addr_ctxs_ (addr_translator b).
Proof.
  intros Hmap Hs Hne Hl Hr Hid Hm Hreg. destruct vecs as [|v rest] eqn:Ev; [done|]. rewrite <- Ev in *.
  exists (coalesce v rest). split.
  { rewrite Ev in Hr |- *. inversion_clear Hr. by apply coalesce_addresses. }
  unfold HandleRegBuffer, Map, dmabuf_importer_map. cbn [fd]. rewrite Hmap. cbn [mbind option_bind].
  rewrite (GetIovecs_mapped d _ _ attach vecs v rest Ev Hs Hl) by (cbn; by rewrite lookup_insert_eq).
  cbn [mbind option_bind addr_ctxs_ next_id_ next_attach_handle_ unmaps]. eexists. split.
  - destruct (dxs_RegBuffer (coalesce v rest) (dxs_client b)) as [[h|e] dxs] eqn:E; [|done].
    apply dxs_RegBuffer_ok in E as [Hh _]. unfold TrackBuffer. rewrite Hm.
    destruct (m !! h) eqn:Emh; [|done]. exfalso. apply Hh, Hreg. eauto.
  - cbn. rewrite insert_insert_eq. split; [done|]. unfold Unmap. cbn. rewrite lookup_insert_eq. cbn.
    by apply delete_insert_id.
Qed.

End registration.

(** ** An execution *)

(** A DXS that always registers. *)
#[local] Instance SetDxs : BufferManagerInterface (gset Z).
Proof.
  refine {|
    dxs_RegBuffer _ d := let h := fresh d in (Ok h, {[h]} ∪ d);
    dxs_DeregBuffer h d := (OkStatus, d ∖ {[h]});
    dxs_registered d := d
  |}.
  - intros gpas d h d' [= <- <-]. split; [apply is_fresh|done].
  - done.
  - intros h d d' [= <-]. done.
  - done.
Defined.

Definition ex_device : Device :=
  mkDevice (Some (7, 2)) (fun _ off => Some [mkIovec (4096 * (1 + off)) 4096]).

(** Requests and responses of a few bytes. *)
Definition ex_parse (bs : list Z) : option BufferOpReq :=
  match bs with
  | [1] => Some (mkReq (Some kFtsClientMagic) REG_BUFFER None None)
  | [2; h] => Some (mkReq (Some kFtsClientMagic) DEREG_BUFFER None (Some h))
  | _ => None
  end.

Definition ex_serialize (r : BufferOpResp) : option (list Z) :=
  Some [if decide (resp_status r = kOk) then 0 else 1; default 0 (resp_reg_handle r)].

Lemma ex_perm : forall l : list Z, (fun l => l) l ≡ₚ l.
Proof. done. Defined.

Definition ex_request : UnixSocketMessage := mkMessage (Some [1]) (Some 9).

Definition ex_importer : Importer (gset Z) :=
  mkImporter [mkNicBinding new_AddrTranslator ∅ ∅ ∅ ∅] ∅ 0.

(** A client registers the descriptor 9. *)
Definition ex_registered : Importer (gset Z) :=
  match ServiceHandler ex_parse ex_serialize 0 ex_device 4 ex_request ex_importer with
  | Some (_, _, i) => i
  | None => ex_importer
  end.

Lemma ex_daemon : daemon ex_parse ex_serialize (fun l => l) ex_registered [∅].
Proof.
  apply (daemon_request ex_parse ex_serialize (fun l => l) ex_importer [∅] 0 ex_device 4 ex_request
           (mkMessage (Some [0; 0]) None) false ex_registered (mkNicBinding new_AddrTranslator ∅ ∅ ∅ ∅)
           (nth 0 (nic_services_ ex_registered) (mkNicBinding new_AddrTranslator ∅ ∅ ∅ ∅)) ∅ ∅);
    try reflexivity.
  - apply (daemon_start ex_parse ex_serialize (fun l => l) [∅]).
    intros dxs ->%list_elem_of_singleton. reflexivity.
  - intros f [= <-]. set_solver.
  - intros x. split; [set_solver|]. intros [?|[[= <-] Hn]]; [done|]. exfalso. apply Hn.
    exists 4, 0, (mkBufferInfo 9 0). split; reflexivity.
Defined.

Lemma importer_accounts_witness :
  exists b, nic_services_ ex_registered !! 0%nat = Some b /\ tracked (resource_tracker b) 4 0 = Some (mkBufferInfo 9 0)
    /\ nic_inv b ∅
    /\ forall client, exists b', CleanUp (fun l => l) client b = Some b'
       /\ forall c h, tracked (resource_tracker b') c h
            = if decide (c = client) then None else tracked (resource_tracker b) c h.
Proof.
  exists (nth 0 (nic_services_ ex_registered) (mkNicBinding new_AddrTranslator ∅ ∅ ∅ ∅)).
  split; [reflexivity|]. split; [reflexivity|].
  apply (importer_accounts ex_parse ex_serialize (fun l => l) ex_perm ex_registered [∅] 0); try reflexivity.
  exact ex_daemon.
Defined.

Lemma importer_destroy_releases_witness :
  exists i', destroy_Importer (fun l => l) ex_registered = Some i'
    /\ Forall2 (fun b l => resource_tracker b = ∅ /\ addr_ctxs_ (addr_translator b) = ∅
                          /\ dxs_registered (dxs_client b) = dereg_failures b /\ nic_fds b = l)
         (nic_services_ i') [∅].
Proof. exact (importer_destroy_releases ex_parse ex_serialize (fun l => l) ex_perm ex_registered [∅] ex_daemon). Defined.

Definition ex_binding : NicBinding (gset Z) := mkNicBinding new_AddrTranslator ∅ {[4 := ∅]} {[9]} ∅.

Lemma registration_covers_dmabuf_witness :
  exists gpas, concat (addresses <$> gpas) = concat (addresses <$> [mkIovec 4096 4096; mkIovec 8192 4096])
    /\ exists b', HandleRegBuffer ex_device 4 (mkMessage None (Some 9)) ex_binding
         = Some (Ok (fresh (∅ : gset Z)), b').
Proof.
  destruct (registration_covers_dmabuf ex_device 4 9 ∅ 7 [mkIovec 4096 4096; mkIovec 8192 4096] ex_binding)
    as (gpas & Hg & t' & Ht & _); try reflexivity.
  - intros off Hoff. exists 1. split; [lia|]. unfold Zlen in Hoff. cbn in Hoff.
    assert (off = 0 \/ off = 1) as [->| ->] by lia; reflexivity.
  - done.
  - repeat constructor; cbn; lia.
  - by intros h [? ?].
  - exists gpas. split; [exact Hg|]. eexists. exact Ht.
Defined.
