(* ===== verification/BufMgrClient.v ===== *)
(** * The client of the buffer management daemon
    (buffer_mgmt_daemon/client/buffer_mgr_client.cc)

    [RegBuf] and [DeregBuf] are calls of the daemon's importer; the session
    below is the connection of one client to the importer of one NIC, and it
    implements the interface the registration cache of the NCCL plugin is
    verified against. *)

From S2P Require Import Prelude BufferManager UnixSocket UnixServer MemImporter MrCache.

Definition kFtsMagic : Z := 0x465453.
Definition kNumUdsRetry : nat := 5.

(** The protobuf encoding of requests and responses. *)
Class BufferOpCodec := {
  serialize_req : BufferOpReq -> list Z;
  parse_req : list Z -> option BufferOpReq;
  serialize_resp : BufferOpResp -> option (list Z);
  parse_resp : list Z -> option BufferOpResp;
  parse_serialize_req r : parse_req (serialize_req r) = Some r;
  parse_serialize_resp r t : serialize_resp r = Some t -> parse_resp t = Some r;
  parse_resp_empty : parse_resp [] = Some (mkResp None kOk)
}.

(** The loop of [Create] that connects; [connects] has the outcomes of the
    attempts. *)
Fixpoint ConnectLoop (attempts : nat) (connects : list Status) (connect_status : Status) : Status :=
  match attempts, connects with
  | S attempts, status :: connects =>
      if is_ok status then status else ConnectLoop attempts connects status
  | _, _ => connect_status
  end.

Definition Create (connects : list Status) : Status := ConnectLoop kNumUdsRetry connects OkStatus.

Section client.
Context `{BufferOpCodec}.

Definition ParseBufferOpResp (ret_msg : UnixSocketMessage) : StatusOr BufferOpResp :=
  match parse_resp (default [] (text ret_msg)) with
  | None => Err kInternal
  | Some resp => if decide (resp_status resp = kOk) then Ok resp else Err (resp_status resp)
  end.

(** A connection on which [MakeRequest] is called. *)
Context {C : Type} (make_request : UnixSocketMessage -> C -> StatusOr UnixSocketMessage * C).

Definition client_RegBuf (fd size : Z) (c : C) : StatusOr Z * C :=
  let msg := mkMessage (Some (serialize_req (mkReq (Some kFtsMagic) REG_BUFFER (Some size) None))) (Some fd) in
  let '(r, c) := make_request msg c in
  (ret_msg ← r;
   resp ← ParseBufferOpResp ret_msg;
   match resp_reg_handle resp with Some h => Ok h | None => Err kNotFound end, c).

Definition client_DeregBuf (handle : Z) (c : C) : Status * C :=
  let msg := mkMessage (Some (serialize_req (mkReq (Some kFtsMagic) DEREG_BUFFER None (Some handle)))) None in
  let '(r, c) := make_request msg c in
  (ret_msg ← r; _ ← ParseBufferOpResp ret_msg; OkStatus, c).
End client.

(** ** A session with the importer *)

Section session.
Context `{BufferOpCodec} {D : Type} `{BufferManagerInterface D}.
Context (hash_order : list Z -> list Z) (hash_order_perm : forall l, hash_order l ≡ₚ l).
(** DXS does not return the invalid handle. *)
Context (dxs_handle_valid : forall gpas (d d' : D) h, dxs_RegBuffer gpas d = (Ok h, d') ->
           h <> kInvalidRegistration).
(** What the import helper answers for the dmabuf of a descriptor, the
    descriptor the kernel gives the daemon, and the error of a closed
    connection. *)
Context (dmabuf : Z -> Device).
Context (received_fd : gset Z -> Z) (received_fd_fresh : forall X, received_fd X ∉ X).
Context (closed_code : StatusCode).
(** The NIC, and the daemon's descriptor of the connection. *)
Context (nic : nat) (client : Z).

(** [sess_alive] until the daemon closes the connection; [sess_handles] has
    the handles the client was given and has not returned. *)
Record Session := mkSession {
  sess_importer : Importer D;
  sess_alive : bool;
  sess_handles : gset Z
}.

Definition set_handles (X : gset Z) (s : Session) : Session :=
  mkSession (sess_importer s) (sess_alive s) X.

Definition disconnected (s : Session) : Session :=
  mkSession (sess_importer s) false (sess_handles s).

(** The message the daemon receives: only a positive descriptor is passed. *)
Definition received (fds : gset Z) (msg : UnixSocketMessage) : UnixSocketMessage :=
  mkMessage (text msg) (match fd msg with
                        | Some f => if 0 <? f then Some (received_fd fds) else None
                        | None => None
                        end).

(** One [MakeRequest] and its handling by the daemon.  A daemon that crashes,
    or that has used up its identifiers, closes the connection. *)
Definition session_request (msg : UnixSocketMessage) (s : Session)
    : StatusOr UnixSocketMessage * Session :=
  if negb (sess_alive s) then (Err closed_code, s)
  else
    let i := sess_importer s in
    match nic_services_ i !! nic with
    | None => (Err closed_code, disconnected s)
    | Some b =>
        if 2 ^ 64 - 1 <=? next_id_ (addr_translator b) then (Err closed_code, disconnected s)
        else
          match ServiceHandler parse_req serialize_resp nic (dmabuf (default (-1) (fd msg))) client
                  (received (nic_fds b) msg) i with
          | None => (Err closed_code, disconnected s)
          | Some (response, fin, i') =>
              if (fin : bool)
              then (Ok response,
                    mkSession (default i' (RemoveConnectedClient hash_order nic client i')) false (sess_handles s))
              else (Ok response, mkSession i' true (sess_handles s))
          end
    end.

Definition session_RegBuf (fd size : Z) (s : Session) : StatusOr Z * Session :=
  let '(r, s) := client_RegBuf session_request fd size s in
  (r, match r with Ok h => set_handles ({[h]} ∪ sess_handles s) s | Err _ => s end).

Definition session_DeregBuf (handle : Z) (s : Session) : Status * Session :=
  let '(r, s) := client_DeregBuf session_request handle s in
  (r, match r with Ok _ => set_handles (sess_handles s ∖ {[handle]}) s | Err _ => s end).

(** While the connection lasts, the client has exactly the handles the daemon
    tracks for it, all registered with DXS. *)
Definition session_inv (s : Session) : Prop :=
  sess_alive s = true ->
  exists b leaked, nic_services_ (sess_importer s) !! nic = Some b /\ nic_inv b leaked
    /\ forall h, h ∈ sess_handles s <-> is_Some (tracked (resource_tracker b) client h).

Lemma DispatchRequest_err d c m (b : NicBinding D) e handle b' :
  DispatchRequest parse_req d c m b = Some (Err e, handle, b') -> handle = None.
Proof.
  unfold DispatchRequest. destruct (text m ≫= parse_req) as [req|]; [|congruence].
  destruct (negb (bool_decide _)); [congruence|]. destruct (negb _ && _); [congruence|].
  destruct (op_type req =? REG_BUFFER).
  - intros ([r b1] & _ & Hr)%bind_Some. unfold OkStatus in Hr. destruct r; congruence.
  - destruct (HandleDeregBuffer c req b) as [? ?]. congruence.
Qed.

(** What a request leads to: the connection is closed, or the daemon has
    dispatched the message and answered with success. *)
Lemma session_request_cases msg s r s' :
  session_inv s -> session_request msg s = (r, s') ->
  sess_handles s' = sess_handles s
  /\ ((sess_alive s' = false
       /\ forall ret resp, r = Ok ret -> ParseBufferOpResp ret = Ok resp -> resp_reg_handle resp = None)
      \/ exists b leaked handle b' t, nic_services_ (sess_importer s) !! nic = Some b /\ nic_inv b leaked
          /\ (forall h, h ∈ sess_handles s <-> is_Some (tracked (resource_tracker b) client h))
          /\ next_id_ (addr_translator b) < 2 ^ 64 - 1
          /\ DispatchRequest parse_req (dmabuf (default (-1) (fd msg))) client
               (received (nic_fds b) msg)
               (arrived client (received (nic_fds b) msg) b) = Some (OkStatus, handle, b')
          /\ nic_services_ (sess_importer s') !! nic = Some b'
          /\ serialize_resp (mkResp handle kOk) = Some t /\ r = Ok (mkMessage (Some t) None)).
Proof.
  intros Hinv. unfold session_request. destruct (sess_alive s) eqn:Ea; cbn [negb]; [|intros [= <- <-]; split; [done|by left]].
  destruct (Hinv Ea) as (b & leaked & Hb & Hi & Hh). rewrite Hb.
  destruct (Z.leb_spec (2 ^ 64 - 1) (next_id_ (addr_translator b))); [intros [= <- <-]; split; [done|by left]|].
  destruct (ServiceHandler _ _ _ _ _ _ _) as [[[response fin] i']|] eqn:Es; [|intros [= <- <-]; split; [done|by left]].
  eapply ServiceHandler_dispatch in Es as (status & handle & b' & Hd & Hn & Ht); [|exact Hb].
  destruct fin; intros [= <- <-]; cbn; (split; [done|]); [left|right].
  - split; [done|]. intros ret resp [= <-]. unfold ParseBufferOpResp.
    destruct (serialize_resp _) as [t|] eqn:Et; destruct Ht as [-> Hf]; cbn.
    + rewrite (parse_serialize_resp _ _ Et). destruct status as [|e]; [done|].
      apply DispatchRequest_err in Hd as ->. case_decide; [by intros [= <-]|done].
    + rewrite parse_resp_empty. case_decide; [by intros [= <-]|done].
  - destruct (serialize_resp _) as [t|] eqn:Et; [|by destruct Ht].
    destruct Ht as [Ht Hf]. destruct status as [[]|e]; [|done].
    exists b, leaked, handle, b', t. rewrite Hn, list_lookup_insert_eq by by eapply lookup_lt_Some.
    by subst response.
Qed.

Lemma HandleRegBuffer_registers d c m (b b' : NicBinding D) h :
  HandleRegBuffer d c m b = Some (Ok h, b') ->
  exists gpas dxs, dxs_RegBuffer gpas (dxs_client b) = (Ok h, dxs).
Proof.
  unfold HandleRegBuffer. destruct (fd m); [|done]. destruct (Map d _) as [[id|] t]; [|done].
  intros ([[vecs|] t'] & _ & Hr)%bind_Some; [|done].
  destruct (dxs_RegBuffer vecs (dxs_client b)) as [[h'|] dxs] eqn:E; [|done].
  destruct (TrackBuffer _ _ _ _ _) as [[|] ?]; [|done]. injection Hr as -> _. eauto.
Qed.

Lemma session_RegBuf_spec fd0 size s r s' :
  session_inv s -> session_RegBuf fd0 size s = (r, s') ->
  session_inv s'
  /\ match r with
     | Ok h => (h ∉ sess_handles s) /\ h <> kInvalidRegistration /\ sess_handles s' = {[h]} ∪ sess_handles s
     | Err _ => sess_handles s' = sess_handles s
     end.
Proof.
  intros Hinv. unfold session_RegBuf, client_RegBuf.
  destruct (session_request _ s) as [res s1] eqn:Er.
  apply session_request_cases in Er as (Hhs & [[Hdead Hno]|Hok]); [..|done].
  - set (r0 := res ≫= _). intros [= <- <-]. assert (exists e, r0 = Err e) as (e & ->).
    { subst r0. destruct res as [ret|e]; [|by eexists]. cbn. specialize (Hno ret).
      destruct (ParseBufferOpResp ret) as [resp|e]; [|by eexists]. cbn.
      rewrite (Hno resp eq_refl eq_refl). by eexists. }
    split; [intros E; congruence|done].
  - destruct Hok as (b & leaked & handle & b' & t & Hb & Hi & Hh & Hn & Hd & Hb' & Ht & ->).
    cbn. unfold ParseBufferOpResp. cbn. rewrite (parse_serialize_resp _ _ Ht). cbn.
    unfold DispatchRequest in Hd. cbn [text received mbind option_bind] in Hd.
    rewrite parse_serialize_req in Hd. cbn -[HandleRegBuffer] in Hd.
    apply bind_Some in Hd as ([[h|e] b1] & Hr & [= <- <-]).
    cbn. intros [= <- <-]. cbn [sess_handles set_handles].
    set (msg := received _ _) in *.
    assert (exists f, fd msg = Some f /\ f ∉ nic_fds b) as (f & Ef & Hf).
    { destruct (fd msg) as [f|] eqn:Ef; [|unfold HandleRegBuffer in Hr; by rewrite Ef in Hr].
      exists f. split; [done|]. cbn in Ef. destruct (0 <? fd0); [|done]. injection Ef as <-. apply received_fd_fresh. }
    destruct (arrived_inv client msg b leaked Hi) as (Hi1 & Hl & Hc); [congruence|]. rewrite Ef in Hi1.
    destruct (HandleRegBuffer_registers _ _ _ _ _ _ Hr) as (gpas & dxs' & Hg).
    apply (HandleRegBuffer_inv _ client msg _ f leaked) in Hr as (_ & Hi' & Hnew & i & _ & Ht'); [|by auto..].
    assert (Htr : forall h', h' ∈ {[h]} ∪ sess_handles s <-> is_Some (tracked (resource_tracker b1) client h')).
    { intros h'. rewrite Ht', elem_of_union, elem_of_singleton, Hh. cbn. rewrite tracked_RegisterClient.
      case_decide; naive_solver. }
    split_and!; [|..|by rewrite Hhs]; [|by intros (i' & Hi'')%Hh; apply Hnew, (inv_dxs _ _ Hi); eauto 10|eauto].
    intros _. exists b1, leaked. split_and!; [done|done|]. cbn. by rewrite Hhs.
Qed.

Lemma session_DeregBuf_spec handle s r s' :
  session_inv s -> session_DeregBuf handle s = (r, s') ->
  session_inv s'
  /\ sess_handles s' = match r with Ok _ => sess_handles s ∖ {[handle]} | Err _ => sess_handles s end.
Proof.
  intros Hinv. unfold session_DeregBuf, client_DeregBuf.
  destruct (session_request _ s) as [res s1] eqn:Er.
  apply session_request_cases in Er as (Hhs & [[Hdead Hno]|Hok]); [..|done].
  - set (r0 := res ≫= _). intros [= <- <-].
    split; [intros E; destruct r0; cbn in E; congruence|destruct r0; cbn; by rewrite Hhs].
  - destruct Hok as (b & leaked & handle' & b' & t & Hb & Hi & Hh & Hn & Hd & Hb' & Ht & ->).
    cbn. unfold ParseBufferOpResp. cbn. rewrite (parse_serialize_resp _ _ Ht). cbn.
    unfold DispatchRequest in Hd. cbn [text received mbind option_bind] in Hd.
    rewrite parse_serialize_req in Hd. cbn -[HandleDeregBuffer] in Hd.
    destruct (HandleDeregBuffer _ _ _) as [st b1] eqn:E. injection Hd as -> <- <-.
    intros [= <- <-]. cbn. rewrite Hhs. split; [|done].
    set (msg := received _ _) in *.
    destruct (arrived_inv client msg b leaked Hi) as (Hi1 & Hl & Hc); [done|]. cbn in Hi1.
    apply (HandleDeregBuffer_inv _ _ _ leaked) in E as (Hi' & _ & h & [= ->] & _ & Ht'); [|done].
    intros _. exists b1, leaked. split_and!; [done|done|]. cbn. intros h'.
    rewrite Ht', elem_of_difference, elem_of_singleton, Hh. cbn. rewrite tracked_RegisterClient.
    case_decide; [|naive_solver]. split; [naive_solver|by intros [? ?]].
Qed.

(** ** The interface of the registration cache *)

Definition DaemonClient : Type := { s : Session | session_inv s }.

Definition session_of (b : DaemonClient) : Session := `b.

#[export] Instance DaemonClient_interface : BufferManagerClientInterface DaemonClient.
Proof using All.
  refine {|
    RegBuf fd len b :=
      (fst (session_RegBuf fd len (`b)),
       snd (session_RegBuf fd len (`b)) ↾
         proj1 (session_RegBuf_spec fd len (`b) _ _ (proj2_sig b) (surjective_pairing _)));
    DeregBuf h b :=
      (fst (session_DeregBuf h (`b)),
       snd (session_DeregBuf h (`b)) ↾
         proj1 (session_DeregBuf_spec h (`b) _ _ (proj2_sig b) (surjective_pairing _)));
    registered b := sess_handles (`b)
  |}.
  - intros fd len b h b' [= Hr <-]. cbn.
    pose proof (proj2 (session_RegBuf_spec fd len (`b) _ _ (proj2_sig b) (surjective_pairing _))) as Hs.
    by rewrite Hr in Hs.
  - intros fd len b e b' [= Hr <-]. cbn.
    pose proof (proj2 (session_RegBuf_spec fd len (`b) _ _ (proj2_sig b) (surjective_pairing _))) as Hs.
    by rewrite Hr in Hs.
  - intros h b b' [= Hr <-]. cbn.
    pose proof (proj2 (session_DeregBuf_spec h (`b) _ _ (proj2_sig b) (surjective_pairing _))) as Hs.
    by rewrite Hr in Hs.
  - intros h b e b' [= Hr <-]. cbn.
    pose proof (proj2 (session_DeregBuf_spec h (`b) _ _ (proj2_sig b) (surjective_pairing _))) as Hs.
    by rewrite Hr in Hs.
Defined.

(** C9 (refinement) The registration cache of the NCCL plugin on the daemon:
    in every execution of the cache whose buffer manager client is a session
    with the importer, as long as the daemon has not closed the connection,
    every registration NCCL holds is tracked by the daemon for this client, is
    registered with DXS and has its dmabuf mapped; and when NCCL holds none, the
    daemon tracks nothing for the client but what failed to be released. *)
Theorem mr_cache_on_daemon NCCL_PTR_CUDA pageSize k (b0 : DaemonClient) fds s :
  0 <= k < 32 -> pageSize = 2 ^ k -> sess_handles (session_of b0) = ∅ ->
  mr_reachable NCCL_PTR_CUDA pageSize (fresh_dev b0 fds) s ->
  sess_alive (session_of (buffer_manager (dev s))) = true ->
  exists b, nic_services_ (sess_importer (session_of (buffer_manager (dev s)))) !! nic = Some b
    /\ (forall mh, mh ∈ held s -> is_cuda NCCL_PTR_CUDA (mem_type mh) = true ->
          exists i, tracked (resource_tracker b) client (reg_handle mh) = Some i
            /\ reg_handle mh ∈ dxs_registered (dxs_client b)
            /\ info_id i ∈ dom (addr_ctxs_ (addr_translator b)))
    /\ ((forall mh, mh ∈ held s -> is_cuda NCCL_PTR_CUDA (mem_type mh) <> true) ->
        forall h, is_Some (tracked (resource_tracker b) client h) -> h ∈ lost s).
Proof using All.
  intros Hk Hps Hb0 R Ha. change (registered b0 = ∅) in Hb0.
  destruct (mr_reachable_inv NCCL_PTR_CUDA pageSize k Hk Hps b0 Hb0 fds s R) as (l & [_ Ac] & _).
  pose proof (proj2_sig (buffer_manager (dev s)) Ha) as Hi0. fold (session_of (buffer_manager (dev s))) in Hi0.
  destruct Hi0 as (b & leaked & Hb & Hi & Hh).
  exists b. split; [done|]. pose proof (acc_registered _ _ _ _ _ Ac) as Hreg.
  change (registered (buffer_manager (dev s))) with (sess_handles (session_of (buffer_manager (dev s)))) in Hreg.
  split.
  - intros mh Hin Hl. pose proof (acc_held _ _ _ _ _ Ac mh Hin Hl) as (mr & -> & Hm)%list_elem_of_fmap.
    assert (reg_handle (mr_handle mr) ∈ sess_handles (session_of (buffer_manager (dev s)))) as Hs.
    { rewrite Hreg. apply elem_of_union_l, elem_of_list_to_set. by apply handle_in. }
    pose proof (proj1 (Hh _) Hs) as (i & Ht). exists i. split; [done|].
    split; [apply (inv_dxs _ _ Hi); eauto 10|apply (inv_mapped _ _ Hi); eauto 10].
  - intros Hn h Ht%Hh. rewrite Hreg in Ht. apply elem_of_union in Ht as [Hin|]; [|done]. exfalso.
    apply elem_of_list_to_set, list_elem_of_fmap in Hin as (mr & _ & Hm).
    pose proof (acc_refs _ _ _ _ _ Ac) as Hr. rewrite list.Forall_forall in Hr. destruct (Hr mr Hm) as [E Hge].
    rewrite users_none in E by (intros mh Hin Hl; by apply Hn in Hin). lia.
Qed.

(** A request the daemon rejects ends the session: the response is
    still delivered, but the daemon has closed the connection and released every
    registration of the client, including those the client keeps using; every
    later request fails. *)
Theorem rejected_request_ends_session msg s resp i' b :
  session_inv s -> sess_alive s = true ->
  nic_services_ (sess_importer s) !! nic = Some b -> next_id_ (addr_translator b) < 2 ^ 64 - 1 ->
  ServiceHandler parse_req serialize_resp nic (dmabuf (default (-1) (fd msg))) client
    (received (nic_fds b) msg) (sess_importer s) = Some (resp, true, i') ->
  exists s' b', session_request msg s = (Ok resp, s')
    /\ sess_alive s' = false /\ sess_handles s' = sess_handles s
    /\ nic_services_ (sess_importer s') !! nic = Some b'
    /\ (forall h, tracked (resource_tracker b') client h = None)
    /\ forall msg', session_request msg' s' = (Err closed_code, s').
Proof using hash_order_perm received_fd_fresh.
  intros Hinv Ha Hb Hn Hs. unfold session_request at 1. rewrite Ha, Hb. cbn [negb].
  rewrite (proj2 (Z.leb_gt _ _)) by lia. rewrite Hs.
  destruct (Hinv Ha) as (b0 & leaked & Hb0 & Hi & _). rewrite Hb in Hb0. injection Hb0 as <-.
  edestruct ServiceHandler_inv as (b1 & l1 & En & Hi1 & _); [exact Hb|exact Hi| |exact Hn|exact Hs|].
  { cbn. destruct (fd msg); [|done]. destruct (0 <? z); [|done]. intros f [= <-]. apply received_fd_fresh. }
  assert (Hb1 : nic_services_ i' !! nic = Some b1).
  { rewrite En. apply list_lookup_insert_eq. by eapply lookup_lt_Some. }
  destruct (CleanUp_inv hash_order hash_order_perm client b1 l1 Hi1) as (b2 & Hc & _ & Ht & _).
  unfold RemoveConnectedClient. rewrite Hb1. cbn. rewrite Hc. cbn. eexists _, b2. split; [done|]. cbn.
  split_and!; try done.
  - apply list_lookup_insert_eq. by eapply lookup_lt_Some.
  - intros h. by rewrite Ht, decide_True.
Qed.

End session.

(** ** A session *)

Definition ex_code (c : StatusCode) : Z :=
  match c with
  | kOk => 0 | kCancelled => 1 | kUnknown => 2 | kInvalidArgument => 3 | kDeadlineExceeded => 4
  | kNotFound => 5 | kAlreadyExists => 6 | kPermissionDenied => 7 | kResourceExhausted => 8
  | kFailedPrecondition => 9 | kAborted => 10 | kOutOfRange => 11 | kUnimplemented => 12
  | kInternal => 13 | kUnavailable => 14 | kDataLoss => 15 | kUnauthenticated => 16
  end.

Definition ex_codes : list StatusCode :=
  [kOk; kCancelled; kUnknown; kInvalidArgument; kDeadlineExceeded; kNotFound; kAlreadyExists;
   kPermissionDenied; kResourceExhausted; kFailedPrecondition; kAborted; kOutOfRange; kUnimplemented;
   kInternal; kUnavailable; kDataLoss; kUnauthenticated].

Definition ex_opt (o : option Z) : list Z := match o with Some x => [1; x] | None => [0; 0] end.
Definition ex_unopt (tag x : Z) : option Z := if tag =? 0 then None else Some x.

(** A codec on lists of numbers. *)
#[local] Instance ex_codec : BufferOpCodec.
Proof.
  refine {|
    serialize_req r := ex_opt (fts_magic_value r) ++ [op_type r] ++ ex_opt (req_size r) ++ ex_opt (req_reg_handle r);
    parse_req bs := match bs with
                    | [m; mv; op; sz; szv; h; hv] =>
                        Some (mkReq (ex_unopt m mv) op (ex_unopt sz szv) (ex_unopt h hv))
                    | _ => None
                    end;
    serialize_resp r := Some (ex_code (resp_status r) :: ex_opt (resp_reg_handle r));
    parse_resp bs := match bs with
                     | [] => Some (mkResp None kOk)
                     | [c; h; hv] => Some (mkResp (ex_unopt h hv) (nth (Z.to_nat c) ex_codes kOk))
                     | _ => None
                     end
  |}.
  - by intros [[?|] ? [?|] [?|]].
  - by intros [[?|] []] t [= <-].
  - reflexivity.
Defined.

(** A DXS whose handles are 1, 2, ... *)
Record CountingDxs := mkCountingDxs { cd_next : positive; cd_regs : gset Z }.

#[local] Instance CountingDxs_interface : BufferManagerInterface CountingDxs.
Proof.
  refine {|
    dxs_RegBuffer _ d :=
      if decide (Zpos (cd_next d) ∈ cd_regs d) then (Err kResourceExhausted, d)
      else (Ok (Zpos (cd_next d)), mkCountingDxs (cd_next d + 1) ({[Zpos (cd_next d)]} ∪ cd_regs d));
    dxs_DeregBuffer h d :=
      (OkStatus, mkCountingDxs (cd_next d) (cd_regs d ∖ {[h]}));
    dxs_registered d := cd_regs d
  |}.
  - intros gpas d h d'. by case_decide; intros [= <- <-].
  - intros gpas d e d'. by case_decide; intros [= <- <-].
  - by intros h d d' [= <-].
  - done.
Defined.

Lemma ex_valid gpas (d d' : CountingDxs) h : dxs_RegBuffer gpas d = (Ok h, d') -> h <> kInvalidRegistration.
Proof. cbn. case_decide; intros [= <- _]. done. Defined.

Definition ex_session : Session (D := CountingDxs) :=
  mkSession (mkImporter [mkNicBinding new_AddrTranslator (mkCountingDxs 1 ∅) ∅ ∅ ∅] ∅ 0) true ∅.

Lemma ex_session_inv : session_inv 0 4 ex_session.
Proof.
  intros _. exists (mkNicBinding new_AddrTranslator (mkCountingDxs 1 ∅) ∅ ∅ ∅), ∅. split; [reflexivity|]. split.
  - split; cbn; unfold tracked; try set_solver; done.
  - intros h. split; [set_solver|]. by intros [].
Defined.

Definition ex_received_fd (X : gset Z) : Z := fresh X.

Lemma ex_received_fd_fresh X : ex_received_fd X ∉ X.
Proof. apply is_fresh. Defined.

#[local] Instance ex_interface : BufferManagerClientInterface (DaemonClient (D := CountingDxs) 0 4) :=
  DaemonClient_interface (fun l => l) ex_perm ex_valid (fun _ => ex_device) ex_received_fd
    ex_received_fd_fresh kUnavailable 0 4.

Definition ex_client : DaemonClient (D := CountingDxs) 0 4 := ex_session ↾ ex_session_inv.

(** NCCL registers two pages of device memory. *)
Definition ex_reg : option (StatusOr MemoryHandle * MrDev (DaemonClient (D := CountingDxs) 0 4)) :=
  RegMrDmaBuf 2 4096 true true (Ok 5) (mkIovec 8200 4000) 2 None (mkMrDev empty_cache ex_client ∅).

Definition ex_mrsys : MrSys (BM := DaemonClient (D := CountingDxs) 0 4) :=
  match ex_reg with
  | Some (Ok mh, w) => mkMrSys w [mh] ∅
  | _ => fresh_dev ex_client ∅
  end.

Lemma ex_mrsys_reachable :
  mr_reachable 2 4096 (fresh_dev ex_client ∅) ex_mrsys /\ held ex_mrsys <> [].
Proof.
  unfold ex_mrsys. destruct ex_reg as [[[mh|e] w]|] eqn:E.
  2,3: exfalso; apply (f_equal (fmap fst)) in E; vm_compute in E; discriminate.
  split; [|done]. eapply mr_reach_step; [apply mr_reach_init|].
  apply (mr_step_reg 2 4096 (Ok 5) (mkIovec 8200 4000) 2 None); [|exact E].
  vm_compute. repeat split; congruence.
Defined.

Lemma mr_cache_on_daemon_witness :
  exists b, nic_services_ (sess_importer (session_of 0 4 (buffer_manager (dev ex_mrsys)))) !! 0%nat = Some b
    /\ (forall mh, mh ∈ held ex_mrsys -> is_cuda 2 (mem_type mh) = true ->
          exists i, tracked (resource_tracker b) 4 (reg_handle mh) = Some i
            /\ reg_handle mh ∈ dxs_registered (dxs_client b)
            /\ info_id i ∈ dom (addr_ctxs_ (addr_translator b)))
    /\ ((forall mh, mh ∈ held ex_mrsys -> is_cuda 2 (mem_type mh) <> true) ->
        forall h, is_Some (tracked (resource_tracker b) 4 h) -> h ∈ lost ex_mrsys).
Proof.
  apply (mr_cache_on_daemon (fun l => l) ex_perm ex_valid (fun _ => ex_device) ex_received_fd
           ex_received_fd_fresh kUnavailable 0 4 2 4096 12 ex_client ∅ ex_mrsys).
  - lia.
  - reflexivity.
  - reflexivity.
  - exact (proj1 ex_mrsys_reachable).
  - vm_compute. reflexivity.
Defined.

(** A message that is not a request. *)
Lemma rejected_request_ends_session_witness :
  exists s' b', session_request (fun l => l) (fun _ => ex_device) ex_received_fd kUnavailable 0 4
                  (mkMessage (Some [7]) None) ex_session = (Ok (mkMessage (Some [3; 0; 0]) None), s')
    /\ sess_alive s' = false /\ sess_handles s' = sess_handles ex_session
    /\ nic_services_ (sess_importer s') !! 0%nat = Some b'
    /\ (forall h, tracked (resource_tracker b') 4 h = None)
    /\ forall msg', session_request (fun l => l) (fun _ => ex_device) ex_received_fd kUnavailable 0 4 msg' s'
                    = (Err kUnavailable, s').
Proof.
  apply (rejected_request_ends_session (fun l => l) ex_perm (fun _ => ex_device) ex_received_fd
           ex_received_fd_fresh kUnavailable 0 4 (mkMessage (Some [7]) None) ex_session
           (mkMessage (Some [3; 0; 0]) None)
           (match ServiceHandler parse_req serialize_resp 0 ex_device 4 (mkMessage (Some [7]) None)
                    (sess_importer ex_session) with
            | Some (_, _, i) => i
            | None => sess_importer ex_session
            end)
           (mkNicBinding new_AddrTranslator (mkCountingDxs 1 ∅) ∅ ∅ ∅)).
  - exact ex_session_inv.
  - reflexivity.
  - reflexivity.
  - cbn. lia.
  - vm_compute. reflexivity.
Defined.
