(* ===== verification/GpuIpServer.v ===== *)
(** * The GPU-to-NIC lookup service
    (buffer_mgmt_daemon/common/uds_helpers.cc, buffer_mgmt_daemon/gpu_ip_server.{h,cc},
    the lookups of buffer_mgmt_daemon/client/buffer_mgr_client.cc and
    tcpdirect_plugin/fastrak_offload/common.cc, Start of
    buffer_mgmt_daemon/unix_socket_server.cc)

    The daemon listens on one Unix domain socket per GPU, on which the address
    of the NIC of that GPU is asked for, and on one on which the whole mapping
    is.  The names of Unix domain sockets are a map from addresses to the
    servers bound to them. *)

From S2P Require Import Prelude UnixSocket UnixServer PciTopology NcclConnection.

(** ** uds_helpers.cc *)

Definition sizeof_sun_path : nat := 108.

Fixpoint zeros (n : nat) : string :=
  match n with O => EmptyString | S n => String Ascii.zero (zeros n) end.

(** [sun_path] cleared, then filled from the left. *)
Definition sun_path (bytes : string) : string := bytes +:+ zeros (sizeof_sun_path - String.length bytes).

Definition AbstractUdsSockaddr (path : string) : StatusOr string :=
  if decide (sizeof_sun_path - 2 <= String.length path)%nat then Err kInvalidArgument
  else Ok (sun_path (String Ascii.zero path)).

Definition FileBasedUdsSockaddr (path : string) : StatusOr string :=
  if decide (sizeof_sun_path - 1 <= String.length path)%nat then Err kInvalidArgument
  else Ok (sun_path path).

Definition GetFileBasedUdsPathPrefix (flag : string) (env_var : option string) : string :=
  if decide (flag = EmptyString) then default EmptyString env_var else flag.

Definition UdsSockaddr (file_based_uds_path_prefix path : string) : StatusOr string :=
  if decide (path = EmptyString) then Err kInvalidArgument
  else if decide (file_based_uds_path_prefix = EmptyString) then AbstractUdsSockaddr path
  else FileBasedUdsSockaddr (file_based_uds_path_prefix +:+ "/" +:+ path)%string.

Definition BufOpUdsPath (server_ip_addr : string) : string := ("rxdm_uds_buf_op:" +:+ server_ip_addr)%string.
Definition NicIpUdsPath (gpu_pci_sanitized : string) : string := ("rxdm_uds_nic_ip:" +:+ gpu_pci_sanitized)%string.
Definition NicMappingUdsPath : string := "rxdm_uds_nic_mapping"%string.

(** ** Names *)

(** The servers bound to addresses, by number. *)
Abbreviation Names := (gmap string nat).

(** The results of the system calls of [Start] other than [bind]; [unlink] of a
    name that does not exist counts as a success. *)
Record StartCalls := mkStartCalls {
  call_unlink : Status;
  call_socket : Status;
  call_listen : Status;
  call_epoll_create : Status;
  call_epoll_ctl : Status
}.

Definition calls_ok : StartCalls := mkStartCalls OkStatus OkStatus OkStatus OkStatus OkStatus.

(** [UnixSocketServer::Start] of server [id], which has a service handler. *)
Definition UnixSocketServer_Start (prefix path : string) (id : nat) (calls : StartCalls) (names : Names)
    : Status * Names :=
  match UdsSockaddr prefix path with
  | Err e => (Err e, names)
  | Ok server_addr =>
      let file_based := negb (bool_decide (String.get 0 server_addr = Some Ascii.zero)) in
      if file_based && negb (is_ok (call_unlink calls)) then (call_unlink calls, names)
      else
        let names := if file_based then delete server_addr names else names in
        if negb (is_ok (call_socket calls)) then (call_socket calls, names)
        else
          match names !! server_addr with
          | Some _ => (Err kFailedPrecondition, names)
          | None =>
              let names := <[server_addr := id]> names in
              (_ ← call_listen calls; _ ← call_epoll_create calls; _ ← call_epoll_ctl calls; OkStatus, names)
          end
  end.

(** [UnixSocketClient::Connect]: the server that accepts the connection;
    [sys] is the outcome of [socket] and [setsockopt]. *)
Definition UnixSocketClient_Connect (prefix path : string) (sys : Status) (names : Names) : StatusOr nat :=
  server_addr ← UdsSockaddr prefix path;
  _ ← sys;
  match names !! server_addr with Some id => Ok id | None => Err kUnavailable end.

(** ** gpu_ip_server.cc *)

Record GetNicIpReq := mkNicIpReq { req_gpu_pci : option string }.
Record GetNicIpResp := mkNicIpResp { resp_nic_ip : string; ip_status : StatusCode }.

(** The addresses of the closest NICs of every GPU. *)
Abbreviation NicMap := (gmap string (list string)).

(** The protobuf encoding of the messages; [GetNicMappingReq] has no field. *)
Class NicIpCodec := {
  serialize_ip_req : GetNicIpReq -> list Z;
  parse_ip_req : list Z -> option GetNicIpReq;
  serialize_ip_resp : GetNicIpResp -> option (list Z);
  parse_ip_resp : list Z -> option GetNicIpResp;
  parse_mapping_req : list Z -> bool;
  serialize_mapping_resp : NicMap -> list Z;
  parse_mapping_resp : list Z -> option NicMap;
  ip_req_set pci : serialize_ip_req (mkNicIpReq (Some pci)) <> [];
  ip_req_roundtrip r : parse_ip_req (serialize_ip_req r) = Some r;
  ip_resp_roundtrip r t : serialize_ip_resp r = Some t -> parse_ip_resp t = Some r;
  mapping_req_empty : parse_mapping_req [] = true;
  mapping_resp_roundtrip r : parse_mapping_resp (serialize_mapping_resp r) = Some r
}.

Section server.
Context `{NicIpCodec}.

(** The result and the response. *)
Definition HandleGetNicIp (config : GpuRxqConfiguration) (request : UnixSocketMessage) : bool * UnixSocketMessage :=
  let return_resp (status : Status) (nic_ip : string) :=
    mkMessage (Some (default [] (serialize_ip_resp (mkNicIpResp nic_ip (status_code status))))) None in
  match text request ≫= parse_ip_req with
  | None => (false, return_resp (Err kInvalidArgument) EmptyString)
  | Some req =>
      match req_gpu_pci req with
      | None => (true, return_resp (Err kInvalidArgument) EmptyString)
      | Some gpu_pci =>
          if negb (String.eqb gpu_pci (gpu_pci_addr config))
          then (true, return_resp (Err kInvalidArgument) EmptyString)
          else (true, return_resp OkStatus (ip_addr config))
      end
  end.

(** The loop over the configurations. *)
Definition add_config (m : NicMap) (config : GpuRxqConfiguration) : NicMap :=
  <[gpu_pci_addr config := default [] (m !! gpu_pci_addr config) ++ [ip_addr config]]> m.

Definition HandleGetNicMapping (configs : list GpuRxqConfiguration) (request : UnixSocketMessage)
    : bool * UnixSocketMessage :=
  if negb (default 0 (fd request) =? 0) then (false, mkMessage None None)
  else if negb (parse_mapping_req (default [] (text request))) then (false, mkMessage None None)
  else (true, mkMessage (Some (serialize_mapping_resp (foldl add_config ∅ configs))) None).

(** A server: its path and its service handler, whose flag ends the session. *)
Record Service := mkService {
  service_path : string;
  service_handler : UnixSocketMessage -> UnixSocketMessage * bool
}.

Definition handler_of (f : UnixSocketMessage -> bool * UnixSocketMessage) (request : UnixSocketMessage)
    : UnixSocketMessage * bool :=
  let '(keep, response) := f request in (response, negb keep).

(** The servers [Initialize] creates. *)
Definition GpuIpServer_Initialize (configs : list GpuRxqConfiguration) : list Service :=
  ((fun config => mkService (NicIpUdsPath (gpu_pci_addr config)) (handler_of (HandleGetNicIp config))) <$> configs)
  ++ [mkService NicMappingUdsPath (handler_of (HandleGetNicMapping configs))].

End server.

(** The loop of [Start] over servers with these paths, from server number [id]
    on; [calls] has the results of the system calls of each server. *)
Fixpoint StartLoop (prefix : string) (paths : list string) (id : nat) (calls : nat -> StartCalls) (names : Names)
    : Status * Names :=
  match paths with
  | [] => (OkStatus, names)
  | path :: paths =>
      match UnixSocketServer_Start prefix path id (calls id) names with
      | (Ok _, names) => StartLoop prefix paths (S id) calls names
      | (Err _, names) => (Err kInternal, names)
      end
  end.

Definition GpuIpServer_Start (prefix : string) (services : list Service) (calls : nat -> StartCalls) (names : Names)
    : Status * Names := StartLoop prefix (service_path <$> services) 0 calls names.

(** ** The client *)

(** What arrives of a message: the length of a text has 16 bits, and an empty
    text is not distinguished from none. *)
Definition transfer (m : UnixSocketMessage) : UnixSocketMessage :=
  mkMessage
    (t ← text m; let t := takeZ (u16 (Zlen t)) t in if decide (t = []) then None else Some t) (fd m).

(** A message that has a field, which a connection can send. *)
Definition sendable (m : UnixSocketMessage) : bool :=
  match text m, fd m with None, None => false | _, _ => true end.

Section client.
Context `{NicIpCodec}.
(** The prefix of the socket paths, the services, and the names. *)
Context (prefix : string) (services : list Service) (sys : Status).

(** [MakeRequest] on a new connection: when the response cannot be sent the
    server closes the connection. *)
Definition request_to (id : nat) (msg : UnixSocketMessage) : StatusOr UnixSocketMessage :=
  match services !! id with
  | Some service =>
      let '(response, fin) := service_handler service (transfer msg) in
      if sendable response then Ok (transfer response) else Err kInternal
  | None => Err kInternal
  end.

Definition get_nic_ip_by_gpu_pci (names : Names) (gpu_pci : string) : string :=
  let gpu_pci_sanitized := AsciiStrToLower gpu_pci in
  match UnixSocketClient_Connect prefix (NicIpUdsPath gpu_pci_sanitized) sys names with
  | Err _ => EmptyString
  | Ok id =>
      let msg := mkMessage (Some (serialize_ip_req (mkNicIpReq (Some gpu_pci_sanitized)))) None in
      match request_to id msg with
      | Err _ => EmptyString
      | Ok ret_msg =>
          match parse_ip_resp (default [] (text ret_msg)) with
          | None => EmptyString
          | Some resp => if decide (ip_status resp = kOk) then resp_nic_ip resp else EmptyString
          end
      end
  end.

Definition get_nic_mapping (names : Names) : option NicMap :=
  match UnixSocketClient_Connect prefix NicMappingUdsPath sys names with
  | Err _ => None
  | Ok id =>
      match request_to id (mkMessage (Some []) None) with
      | Err _ => None
      | Ok ret_msg => parse_mapping_resp (default [] (text ret_msg))
      end
  end.

Definition rxdm_running (names : Names) : Status :=
  _ ← UnixSocketClient_Connect prefix NicMappingUdsPath sys names; OkStatus.

(** *** The plugin (common.cc) *)

(** [devs] has the addresses of the network devices, from the [i]-th on. *)
Fixpoint ipAddrDiscovered (ip : string) (devs : list string) (i : Z) : option Z :=
  match devs with
  | [] => None
  | saddr :: devs => if String.eqb ip saddr then Some i else ipAddrDiscovered ip devs (i + 1)
  end.

(** The loop over the mapping, in the order of its entries; [None] when an
    entry has no address. *)
Fixpoint MappingLoop (devs : list string) (entries : list (string * list string)) (m : gmap string Z)
    : option (gmap string Z) :=
  match entries with
  | [] => Some m
  | (gpu_pci, closest_nic_ip) :: entries =>
      ip ← closest_nic_ip !! 0%nat;
      MappingLoop devs entries
        (match ipAddrDiscovered ip devs 0 with
         | None => m
         | Some net_dev => <[AsciiStrToLower gpu_pci := net_dev]> m
         end)
  end.

(** [order] is the order in which the map of the response is traversed. *)
Definition GetGpuNicMapping (order : NicMap -> list (string * list string)) (devs : list string) (names : Names)
    : option (gmap string Z) :=
  match get_nic_mapping names with
  | None => Some ∅
  | Some pci_nic_map => MappingLoop devs (order pci_nic_map) ∅
  end.
End client.

(** ** Empty texts *)

Lemma empty_text_sent accepts s :
  idle_send s -> outgoing_ s = [] -> whole accepts ->
  let m := mkMessage (Some []) None in
  exists s', Send (send_fuel (AddMessageToSend m s)) accepts (AddMessageToSend m s) = Some (true, s')
    /\ outgoing_ s' = [] /\ idle_send s' /\ wire s' = wire s ++ [(be16 0, None)].
Proof.
  intros [Hs1 Hs2] Ho [Ha Hl] m. destruct accepts as [|a1 [|a2 accepts]]; [cbn in Hl; lia..|].
  apply list.Forall_cons in Ha as [(n & -> & Hn) _]. destruct s as [st len off buf out w].
  cbn in Hs1, Hs2, Ho. subst. eexists. split.
  - cbn -[SendText]. unfold SendText at 1. cbn -[Z.min]. rewrite Z.min_l by (unfold sizeof_uint16; lia). cbn. reflexivity.
  - done.
Qed.

Lemma empty_text_received r :
  read_idle r ->
  Receive (be16 0) None r
  = (true, mkReadSide LENGTH sizeof_uint16 [] (incoming_ r ++ [transfer (mkMessage (Some []) None)]) (closed r)).
Proof. intros (H1 & H2 & H3). unfold Receive. cbn. rewrite H1, H2, H3. reflexivity. Qed.

(** ** Addresses *)

Lemma length_zeros n : String.length (zeros n) = n.
Proof. induction n as [|n IH]; cbn; [done|]. by rewrite IH. Qed.

Lemma c_string_zeros a n : c_string (a +:+ zeros n) = c_string a.
Proof.
  induction a as [|c a IH]; [rewrite append_nil; by destruct n|]. rewrite append_cons. cbn. destruct (Ascii.eqb c Ascii.zero); [done|]. by f_equal.
Qed.

Lemma c_string_app a b : c_string a = a -> c_string (a +:+ b) = a +:+ c_string b.
Proof.
  induction a as [|c a IH]; [done|]. rewrite !append_cons. cbn. destruct (Ascii.eqb c Ascii.zero); [done|].
  intros [= E]. f_equal. by apply IH.
Qed.

Lemma string_app_inj a b c : a +:+ b = a +:+ c -> b = c.
Proof. induction a as [|x a IH]; [done|]. rewrite !append_cons. intros [= E]. by apply IH. Qed.

Lemma get_terminated bytes :
  (String.length bytes < sizeof_sun_path)%nat -> String.get (sizeof_sun_path - 1) (sun_path bytes) = Some Ascii.zero.
Proof.
  unfold sun_path, sizeof_sun_path. intros Hl. generalize dependent 108%nat. intros m Hm.
  assert (exists n, m = String.length bytes + S n)%nat as [n ->] by (exists (m - String.length bytes - 1)%nat; lia).
  replace (String.length bytes + S n - String.length bytes)%nat with (S n) by lia.
  replace (String.length bytes + S n - 1)%nat with (String.length bytes + n)%nat by lia. clear Hm.
  induction bytes as [|c bytes IH]; [|rewrite append_cons; exact IH].
  rewrite append_nil. induction n as [|n IH]; [done|]. exact IH.
Qed.

Lemma UdsSockaddr_inj prefix path path' a :
  c_string prefix = prefix -> c_string path = path -> c_string path' = path' ->
  UdsSockaddr prefix path = Ok a -> UdsSockaddr prefix path' = Ok a -> path' = path.
Proof.
  intros Hpre Hp Hp'. unfold UdsSockaddr, AbstractUdsSockaddr, FileBasedUdsSockaddr. case_decide; [done|].
  case_decide as Ep; case_decide as Hl; try done; intros [= <-]; (case_decide; [done|]); (case_decide; [done|]);
    intros [= E]; unfold sun_path in E; apply (f_equal c_string) in E; rewrite !c_string_zeros in E; [congruence|].
  rewrite !(c_string_app prefix) in E by done.
  apply string_app_inj in E. rewrite !append_cons, !append_nil in E. cbn in E. congruence.
Qed.

(** The address of a socket fills [sun_path] and ends in a null
    byte; paths without null bytes have different addresses. *)
Theorem uds_address prefix path a :
  UdsSockaddr prefix path = Ok a ->
  String.length a = sizeof_sun_path
  /\ String.get (sizeof_sun_path - 1) a = Some Ascii.zero
  /\ forall path', UdsSockaddr prefix path' = Ok a ->
       c_string prefix = prefix -> c_string path = path -> c_string path' = path' -> path' = path.
Proof.
  assert (Hlen : forall bytes, (String.length bytes < sizeof_sun_path)%nat ->
            String.length (sun_path bytes) = sizeof_sun_path).
  { intros bytes Hb. unfold sun_path. rewrite length_string_app, length_zeros. lia. }
  intros Ha. split_and!; [..|intros path' Ha' Hpre Hp Hp'; exact (UdsSockaddr_inj prefix path path' a Hpre Hp Hp' Ha Ha')].
  all: revert Ha; unfold UdsSockaddr, AbstractUdsSockaddr, FileBasedUdsSockaddr; case_decide; [done|];
    case_decide; case_decide; try done; intros [= <-]; apply Hlen || apply get_terminated; cbn; lia.
Qed.

Lemma uds_address_witness :
  let a := sun_path (String Ascii.zero "rxdm_uds_nic_mapping") in
  UdsSockaddr "" NicMappingUdsPath = Ok a
  /\ String.length a = sizeof_sun_path
  /\ String.get (sizeof_sun_path - 1) a = Some Ascii.zero
  /\ forall path', UdsSockaddr "" path' = Ok a ->
       c_string "" = ""%string -> c_string NicMappingUdsPath = NicMappingUdsPath -> c_string path' = path' ->
       path' = NicMappingUdsPath.
Proof. split; [reflexivity|]. apply (uds_address "" NicMappingUdsPath). reflexivity. Defined.

(** ** Starting *)

(** All servers are bound when their addresses are different and free. *)
Lemma StartLoop_ok prefix paths addrs id names :
  Forall2 (fun path a => UdsSockaddr prefix path = Ok a) paths addrs ->
  NoDup addrs -> (forall a, a ∈ addrs -> names !! a = None) ->
  exists names', StartLoop prefix paths id (fun _ => calls_ok) names = (OkStatus, names')
    /\ (forall i a, addrs !! i = Some a -> names' !! a = Some (id + i)%nat)
    /\ (forall a, a ∉ addrs -> names' !! a = names !! a).
Proof.
  intros H. revert id names. induction H as [|path a paths addrs Ha H IH]; intros id names Hn Hf; cbn [StartLoop].
  { exists names. split; [done|]. split; [|done]. intros i a. by rewrite lookup_nil. }
  apply list.NoDup_cons in Hn as [Hna Hn]. unfold UnixSocketServer_Start. rewrite Ha.
  destruct (negb (bool_decide _)); cbn; rewrite ?(delete_id _ _ (Hf a (list_elem_of_here _ _))), (Hf a (list_elem_of_here _ _)).
  all: destruct (IH (S id) (<[a := id]> names)) as (names' & -> & Hi & Ho); [done| |exists names'; split; [done|]; split].
  all: try (intros a' Ha'; rewrite lookup_insert_ne; [apply Hf; by right|congruence]).
  all: try (intros [|i] a'; cbn; [intros [= <-]; by rewrite Ho, lookup_insert_eq, Nat.add_0_r by done|];
            intros Hl; rewrite (Hi _ _ Hl); f_equal; lia).
  all: intros a' [Hne Hin]%not_elem_of_cons; rewrite Ho by done; by rewrite lookup_insert_ne.
Qed.

Lemma addresses prefix paths :
  Forall (fun path => is_ok (UdsSockaddr prefix path) = true) paths ->
  exists addrs, Forall2 (fun path a => UdsSockaddr prefix path = Ok a) paths addrs.
Proof.
  induction 1 as [|path paths Hs _ [addrs IH]]; [by exists []|].
  destruct (UdsSockaddr prefix path) as [a|] eqn:E; [|done]. exists (a :: addrs). by constructor.
Qed.

(** Addresses of different paths are different. *)
Lemma addresses_NoDup prefix paths addrs :
  c_string prefix = prefix -> Forall (fun path => c_string path = path) paths ->
  Forall2 (fun path a => UdsSockaddr prefix path = Ok a) paths addrs -> NoDup paths -> NoDup addrs.
Proof.
  intros Hpre Hc H. induction H as [|path a paths addrs Ha H IH]; cbn; [by intros|].
  apply list.Forall_cons in Hc as [Hs Hc]. rewrite !list.NoDup_cons. intros [Hn Hnd]. split; [|by apply IH].
  intros Hin. apply Hn. apply list_elem_of_lookup in Hin as [i Hi].
  destruct (Forall2_lookup_r _ _ _ _ _ H Hi) as (path' & Hp' & Ha').
  assert (c_string path' = path') as Hc' by (by eapply (Forall_lookup_1 _ _ _ _ Hc)).
  rewrite <- (UdsSockaddr_inj prefix _ _ a Hpre Hs Hc' Ha Ha'). by eapply list_elem_of_lookup_2.
Qed.

(** After the loop a client that connects to the path of a server reaches that
    server, and one that connects to another path reaches none. *)
Lemma paths_reachable prefix paths :
  c_string prefix = prefix -> Forall (fun path => c_string path = path) paths ->
  Forall (fun path => is_ok (UdsSockaddr prefix path) = true) paths -> NoDup paths ->
  exists names, StartLoop prefix paths 0 (fun _ => calls_ok) ∅ = (OkStatus, names)
    /\ (forall i path, paths !! i = Some path -> UnixSocketClient_Connect prefix path OkStatus names = Ok i)
    /\ (forall path, c_string path = path -> path ∉ paths ->
          is_ok (UnixSocketClient_Connect prefix path OkStatus names) = false).
Proof.
  intros Hpre Hc Hok Hnd. destruct (addresses prefix paths Hok) as [addrs Haddrs].
  destruct (StartLoop_ok prefix paths addrs 0 ∅) as (names & E & Hi & Ho);
    [done|by eapply addresses_NoDup|done|]. exists names. split; [exact E|]. split.
  - intros i path Hs. destruct (Forall2_lookup_l _ _ _ _ _ Haddrs Hs) as (a & Ha & Hsa).
    unfold UnixSocketClient_Connect. rewrite Hsa. cbn. by rewrite (Hi i a Ha).
  - intros path Hp Hnot. unfold UnixSocketClient_Connect. destruct (UdsSockaddr prefix path) as [a|] eqn:Ea; [|done].
    cbn. rewrite Ho; [by rewrite lookup_empty|]. intros Hin. apply Hnot.
    apply list_elem_of_lookup in Hin as [i Ha].
    destruct (Forall2_lookup_r _ _ _ _ _ Haddrs Ha) as (path' & Hp' & Hsa).
    assert (c_string path' = path') as Hcs by (by eapply (Forall_lookup_1 _ _ _ _ Hc)).
    rewrite <- (UdsSockaddr_inj prefix _ _ a Hpre Hp Hcs Ea Hsa). by eapply list_elem_of_lookup_2.
Qed.

(** ** Looking a GPU up *)

(** The configuration of a GPU. *)
Definition config_of (configs : list GpuRxqConfiguration) (gpu_pci : string) : option GpuRxqConfiguration :=
  snd <$> list_find (fun c => gpu_pci_addr c = AsciiStrToLower gpu_pci) configs.

Lemma config_of_Some configs gpu_pci :
  match config_of configs gpu_pci with
  | Some c => exists i, configs !! i = Some c /\ gpu_pci_addr c = AsciiStrToLower gpu_pci
  | None => AsciiStrToLower gpu_pci ∉ gpu_pci_addr <$> configs
  end.
Proof.
  unfold config_of. destruct (list_find _ configs) as [[i c]|] eqn:E; cbn.
  - apply list_find_Some in E as (Hi & Hg & _). eauto.
  - apply list_find_None in E. intros (c & Hc & Hin)%list_elem_of_fmap.
    rewrite list.Forall_forall in E. by apply (E c Hin).
Qed.

Section lookups.
Context `{NicIpCodec}.
Context (prefix : string) (prefix_c : c_string prefix = prefix).
Context (configs : list GpuRxqConfiguration).
(** The GPUs are different and have addresses for sockets. *)
Context (gpus_distinct : NoDup (gpu_pci_addr <$> configs)).
Context (gpus_c : Forall (fun c => c_string (gpu_pci_addr c) = gpu_pci_addr c) configs).
Context (paths_fit : Forall (fun c => is_ok (UdsSockaddr prefix (NicIpUdsPath (gpu_pci_addr c))) = true) configs).
Context (mapping_fits : is_ok (UdsSockaddr prefix NicMappingUdsPath) = true).

Lemma NicIpUdsPath_c pci : c_string pci = pci -> c_string (NicIpUdsPath pci) = NicIpUdsPath pci.
Proof using. intros E. unfold NicIpUdsPath. rewrite c_string_app by reflexivity. by rewrite E. Qed.

Lemma NicIpUdsPath_inj pci pci' : NicIpUdsPath pci = NicIpUdsPath pci' -> pci = pci'.
Proof using. apply string_app_inj. Qed.

Lemma NicIpUdsPath_mapping pci : NicIpUdsPath pci <> NicMappingUdsPath.
Proof using. done. Qed.

Lemma daemon_reachable :
  let services := GpuIpServer_Initialize configs in
  exists names, GpuIpServer_Start prefix services (fun _ => calls_ok) ∅ = (OkStatus, names)
    /\ (forall i s, services !! i = Some s ->
          UnixSocketClient_Connect prefix (service_path s) OkStatus names = Ok i)
    /\ (forall path, c_string path = path -> path ∉ service_path <$> services ->
          is_ok (UnixSocketClient_Connect prefix path OkStatus names) = false).
Proof using prefix_c gpus_distinct gpus_c paths_fit mapping_fits.
  intros services.
  assert (Hpaths : service_path <$> services = (NicIpUdsPath ∘ gpu_pci_addr <$> configs) ++ [NicMappingUdsPath]).
  { unfold services, GpuIpServer_Initialize. by rewrite fmap_app, <- list_fmap_compose. }
  destruct (paths_reachable prefix (service_path <$> services)) as (names & Hs & Hin & Hout); rewrite ?Hpaths; [done|..].
  - apply Forall_app. split; [|by repeat constructor]. apply Forall_fmap.
    eapply list.Forall_impl; [exact gpus_c|]. intros c. apply NicIpUdsPath_c.
  - apply Forall_app. split; [|by repeat constructor]. by apply Forall_fmap.
  - apply list.NoDup_app. split_and!.
    + rewrite list_fmap_compose. apply NoDup_fmap_2; [|done]. intros x y. apply NicIpUdsPath_inj.
    + intros path (c & -> & _)%list_elem_of_fmap. intros E%list_elem_of_singleton. by apply NicIpUdsPath_mapping in E.
    + apply NoDup_singleton.
  - exists names. split; [exact Hs|]. split; [|by rewrite <- Hpaths]. intros i s Hi. apply Hin.
    by rewrite list_lookup_fmap, Hi.
Qed.

Lemma transfer_text t :
  Zlen t < 2 ^ 16 -> transfer (mkMessage (Some t) None) = mkMessage (if decide (t = []) then None else Some t) None.
Proof using.
  intros Ht. unfold transfer. cbn. unfold u16. rewrite Z.mod_small by (split; [apply Zlen_nonneg|done]).
  by rewrite takeZ_all.
Qed.

Lemma transfer_default t : Zlen t < 2 ^ 16 -> default [] (text (transfer (mkMessage (Some t) None))) = t.
Proof using. intros Ht. rewrite transfer_text by done. cbn. by case_decide. Qed.

(** Once the daemon's lookup servers run, the NIC address a
    client gets for a GPU, spelled in any case, is the one of the GPU's
    configuration, and the empty string if it has none. *)
Lemma nic_ip_lookup :
  Forall (fun c => Zlen (serialize_ip_req (mkNicIpReq (Some (gpu_pci_addr c)))) < 2 ^ 16
                   /\ exists t, serialize_ip_resp (mkNicIpResp (ip_addr c) kOk) = Some t /\ Zlen t < 2 ^ 16) configs ->
  let services := GpuIpServer_Initialize configs in
  exists names, GpuIpServer_Start prefix services (fun _ => calls_ok) ∅ = (OkStatus, names)
    /\ forall gpu_pci, c_string (AsciiStrToLower gpu_pci) = AsciiStrToLower gpu_pci ->
         get_nic_ip_by_gpu_pci prefix services OkStatus names gpu_pci
         = from_option ip_addr EmptyString (config_of configs gpu_pci).
Proof using prefix_c gpus_distinct gpus_c paths_fit mapping_fits.
  intros Hfit services. destruct daemon_reachable as (names & Hs & Hin & Hout). exists names. split; [exact Hs|].
  intros gpu_pci Hc. unfold get_nic_ip_by_gpu_pci. pose proof (config_of_Some configs gpu_pci) as Hcfg.
  destruct (config_of configs gpu_pci) as [c|].
  - destruct Hcfg as (i & Hi & Hg).
    assert (Hser : services !! i = Some (mkService (NicIpUdsPath (gpu_pci_addr c)) (handler_of (HandleGetNicIp c)))).
    { unfold services, GpuIpServer_Initialize. apply lookup_app_l_Some. by rewrite list_lookup_fmap, Hi. }
    rewrite <- Hg. pose proof (Hin i _ Hser) as Hcon. cbn in Hcon. rewrite Hcon. unfold request_to. rewrite Hser.
    destruct (Forall_lookup_1 _ _ _ _ Hfit Hi) as [Hreq (t & Ht & Htl)].
    rewrite transfer_text, decide_False by (done || apply ip_req_set). cbn.
    unfold handler_of, HandleGetNicIp. cbn -[transfer]. rewrite ip_req_roundtrip. cbn -[transfer].
    rewrite String.eqb_refl. cbn -[transfer]. rewrite Ht. cbn -[transfer]. rewrite transfer_default by done. rewrite (ip_resp_roundtrip _ _ Ht). done.
  - assert (Hnot : NicIpUdsPath (AsciiStrToLower gpu_pci) ∉ service_path <$> services).
    { unfold services, GpuIpServer_Initialize. rewrite fmap_app, elem_of_app, <- list_fmap_compose.
      intros [(c & E & Hin')%list_elem_of_fmap|E%list_elem_of_singleton]; [|by apply NicIpUdsPath_mapping in E].
      apply NicIpUdsPath_inj in E. apply Hcfg. rewrite E. by apply list_elem_of_fmap_2. }
    specialize (Hout _ (NicIpUdsPath_c _ Hc) Hnot). by destruct (UnixSocketClient_Connect _ _ _ _).
Qed.

(** *** The mapping *)

Lemma add_config_lookup m gpu :
  foldl add_config m configs !! gpu
  = let ips := ip_addr <$> filter (fun c => gpu_pci_addr c = gpu) configs in
    match m !! gpu, ips with None, [] => None | o, ips => Some (default [] o ++ ips) end.
Proof using.
  clear. revert m. induction configs as [|c l IH]; intros m; cbn [foldl].
  { cbn. destruct (m !! gpu); [by rewrite app_nil_r|done]. }
  rewrite IH. unfold add_config. rewrite filter_cons. case_decide as E.
  - subst gpu. rewrite lookup_insert_eq. cbn. rewrite <- app_assoc. by destruct (m !! gpu_pci_addr c).
  - by rewrite lookup_insert_ne.
Qed.

Lemma config_of_filter gpu_pci :
  config_of configs gpu_pci = filter (fun c => gpu_pci_addr c = AsciiStrToLower gpu_pci) configs !! 0%nat.
Proof using.
  clear. unfold config_of. induction configs as [|c l IH]; [done|].
  rewrite filter_cons. cbn [list_find]. case_decide as E; [done|]. rewrite <- IH. by destruct (list_find _ l) as [[i x]|].
Qed.

(** The first address the daemon reports for a GPU. *)
Lemma mapping_first gpu_pci :
  (foldl add_config ∅ configs !! AsciiStrToLower gpu_pci) ≫= (.!! 0%nat) = ip_addr <$> config_of configs gpu_pci.
Proof using.
  rewrite add_config_lookup, lookup_empty, config_of_filter. cbn.
  by destruct (filter _ configs) as [|c l].
Qed.

Lemma mapping_nonempty gpu ips : foldl add_config ∅ configs !! gpu = Some ips -> exists ip, ips !! 0%nat = Some ip.
Proof using.
  rewrite add_config_lookup, lookup_empty. destruct (filter _ configs) as [|c l]; cbn; [done|]. intros [= <-]. by eexists.
Qed.

Lemma mapping_keys gpu : is_Some (foldl add_config ∅ configs !! gpu) -> gpu ∈ gpu_pci_addr <$> configs.
Proof using.
  intros [ips E]. rewrite add_config_lookup, lookup_empty in E.
  destruct (filter _ configs) as [|c l] eqn:Ef; [done|].
  assert (c ∈ filter (fun c => gpu_pci_addr c = gpu) configs) as [<- Hin]%list_elem_of_filter by (rewrite Ef; left).
  by apply list_elem_of_fmap_2.
Qed.

Lemma get_nic_mapping_ok names :
  (forall i s, GpuIpServer_Initialize configs !! i = Some s ->
     UnixSocketClient_Connect prefix (service_path s) OkStatus names = Ok i) ->
  Zlen (serialize_mapping_resp (foldl add_config ∅ configs)) < 2 ^ 16 ->
  get_nic_mapping prefix (GpuIpServer_Initialize configs) OkStatus names = Some (foldl add_config ∅ configs).
Proof using.
  intros Hin Hlen.
  assert (Hser : GpuIpServer_Initialize configs !! length configs
                 = Some (mkService NicMappingUdsPath (handler_of (HandleGetNicMapping configs)))).
  { unfold GpuIpServer_Initialize. rewrite lookup_app_r by (by rewrite length_fmap).
    by rewrite length_fmap, Nat.sub_diag. }
  unfold get_nic_mapping. pose proof (Hin _ _ Hser) as Hcon. cbn in Hcon. rewrite Hcon.
  unfold request_to. rewrite Hser. unfold handler_of, HandleGetNicMapping. cbn -[transfer].
  rewrite transfer_text by done. cbn -[transfer]. rewrite mapping_req_empty. cbn -[transfer].
  rewrite transfer_default by done. apply mapping_resp_roundtrip.
Qed.
End lookups.

(** Entries with different keys in lower case. *)
Lemma MappingLoop_spec devs entries m :
  NoDup entries.*1 -> (forall g ips, (g, ips) ∈ entries -> AsciiStrToLower g = g /\ is_Some (ips !! 0%nat)) ->
  exists m', MappingLoop devs entries m = Some m'
    /\ (forall g, g ∉ entries.*1 -> m' !! g = m !! g)
    /\ (forall g ips ip, (g, ips) ∈ entries -> ips !! 0%nat = Some ip -> m !! g = None ->
         m' !! g = ipAddrDiscovered ip devs 0).
Proof.
  revert m. induction entries as [|[g ips] entries IH]; intros m Hnd He; cbn [MappingLoop].
  { exists m. split; [done|]. split; [done|]. by intros g ips ip ?%not_elem_of_nil. }
  cbn in Hnd. apply list.NoDup_cons in Hnd as [Hng Hnd].
  destruct (He g ips (list_elem_of_here _ _)) as [Hlow [ip Hip]]. rewrite Hip, Hlow. cbn.
  set (m1 := match ipAddrDiscovered ip devs 0 with None => m | Some d => <[g := d]> m end).
  destruct (IH m1 Hnd) as (m' & E & Hout & Hin); [intros g' ips' H; apply (He g' ips'); by right|].
  assert (Hm1 : forall g', g' <> g -> m1 !! g' = m !! g').
  { intros g' Hne. unfold m1. destruct (ipAddrDiscovered _ _ _); [|done]. by rewrite lookup_insert_ne. }
  exists m'. split; [exact E|]. split.
  - intros g' [Hne Hn]%not_elem_of_cons. by rewrite Hout, Hm1.
  - intros g' ips' ip' [[= -> ->]|Hmem]%elem_of_cons Hip' Hnone.
    + rewrite Hout by done. rewrite Hip in Hip'. injection Hip' as <-. unfold m1.
      destruct (ipAddrDiscovered ip devs 0); [by rewrite lookup_insert_eq|done].
    + apply (Hin g' ips' ip'); [done..|]. rewrite Hm1; [done|].
      intros ->. apply Hng. apply list_elem_of_fmap. by exists (g, ips').
Qed.

(** C12 (refinement) From the PCI tree to the plugin: for the configurations the
    daemon computes, in whatever order the hash maps are traversed, the device
    the plugin chooses as the closest to a GPU, spelled in any case, is the
    first of its devices with the address of the NIC the daemon paired the GPU
    with; there is none if the GPU has no NIC or the plugin no such device. *)
Theorem closest_netdev_from_topology `{NicIpCodec} inet_ntop realpath node_at hash_order num_hops ifs c c'
    configs prefix :
  GetConfigurations inet_ntop realpath node_at hash_order num_hops ifs c = Some (configs, c') ->
  c_string prefix = prefix -> NoDup (gpu_pci_addr <$> configs) ->
  Forall (fun c => c_string (gpu_pci_addr c) = gpu_pci_addr c) configs ->
  Forall (fun c => is_ok (UdsSockaddr prefix (NicIpUdsPath (gpu_pci_addr c))) = true) configs ->
  is_ok (UdsSockaddr prefix NicMappingUdsPath) = true ->
  Zlen (serialize_mapping_resp (foldl add_config ∅ configs)) < 2 ^ 16 ->
  let services := GpuIpServer_Initialize configs in
  exists names, GpuIpServer_Start prefix services (fun _ => calls_ok) ∅ = (OkStatus, names)
    /\ forall order devs, (forall m, order m ≡ₚ map_to_list m) ->
       exists m, GetGpuNicMapping prefix services OkStatus order devs names = Some m
         /\ forall gpu_pci, getClosestNetdev m gpu_pci
              = match config_of configs gpu_pci ≫= (fun c => ipAddrDiscovered (ip_addr c) devs 0) with
                | Some dev => Ok dev
                | None => Err kInternal
                end.
Proof.
  intros Hconf Hpre Hnd Hc Hfit Hmap Hlen services.
  destruct (daemon_reachable prefix Hpre configs Hnd Hc Hfit Hmap) as (names & Hs & Hin & _).
  exists names. split; [exact Hs|]. intros order devs Horder.
  pose proof (get_nic_mapping_ok prefix configs names Hin Hlen) as Hget.
  unfold GetGpuNicMapping, services. rewrite Hget. set (nics := foldl add_config ∅ configs) in *.
  destruct (MappingLoop_spec devs (order nics) ∅) as (m & E & Hout & Hmem).
  { rewrite Horder. apply NoDup_fst_map_to_list. }
  { intros g ips. rewrite Horder. intros Hg%elem_of_map_to_list. split; [|by eapply mapping_nonempty].
    assert (g ∈ gpu_pci_addr <$> configs) as (cfg & -> & Hcfg)%list_elem_of_fmap by (by eapply mapping_keys).
    pose proof (GetConfigurations_lower _ _ _ _ _ _ _ _ _ Hconf) as Hl. rewrite list.Forall_forall in Hl. by apply Hl. }
  exists m. split; [exact E|]. intros gpu_pci. unfold getClosestNetdev.
  pose proof (mapping_first configs gpu_pci) as Hfirst. fold nics in Hfirst.
  destruct (nics !! AsciiStrToLower gpu_pci) as [ips|] eqn:Eips; cbn in Hfirst.
  - destruct (mapping_nonempty configs _ _ Eips) as [ip Hip]. rewrite Hip in Hfirst. symmetry in Hfirst.
    apply fmap_Some in Hfirst as (cfg & -> & ->). cbn.
    rewrite (Hmem (AsciiStrToLower gpu_pci) ips (ip_addr cfg)); [done| |done|done].
    rewrite Horder. by apply elem_of_map_to_list.
  - symmetry in Hfirst. apply fmap_None in Hfirst as ->. cbn. rewrite Hout; [by rewrite lookup_empty|].
    rewrite Horder. intros ([g ips] & Hg & Hgm)%list_elem_of_fmap. cbn in Hg. subst g.
    apply elem_of_map_to_list in Hgm. congruence.
Qed.

(** *** Witnesses: messages encoded as numbers *)

Definition ex_decode {A} `{Countable A} (bytes : list Z) : option A :=
  match bytes with [Zpos p] => decode p | _ => None end.

#[export, program] Instance ex_codec : NicIpCodec := {|
  serialize_ip_req r := [Zpos (encode (req_gpu_pci r))];
  parse_ip_req bytes := mkNicIpReq <$> ex_decode bytes;
  serialize_ip_resp r := if decide (ip_status r = kOk) then Some [Zpos (encode (resp_nic_ip r))] else None;
  parse_ip_resp bytes := (fun ip => mkNicIpResp ip kOk) <$> ex_decode bytes;
  parse_mapping_req bytes := true;
  serialize_mapping_resp m := [Zpos (encode m)];
  parse_mapping_resp := ex_decode
|}.
Next Obligation. done. Qed.
Next Obligation. intros []. cbn. by rewrite decode_encode. Qed.
Next Obligation. intros [ip code] t. cbn. case_decide as E; [|done]. intros [= <-]. cbn. by rewrite decode_encode, E. Qed.
Next Obligation. done. Qed.
Next Obligation. intros m. cbn. apply decode_encode. Qed.

Definition ex_configs : list GpuRxqConfiguration :=
  [mkConfig "0000:04:00.0" "0000:0a:00.0" "eth1" "10.0.0.1"; mkConfig "0000:05:00.0" "0000:0a:00.0" "eth1" "10.0.0.1";
   mkConfig "0000:06:00.0" "0000:0b:00.0" "eth2" "10.0.0.2"; mkConfig "0000:07:00.0" "0000:0b:00.0" "eth2" "10.0.0.2"].

Lemma nic_ip_lookup_witness :
  exists names, GpuIpServer_Start "" (GpuIpServer_Initialize ex_configs) (fun _ => calls_ok) ∅ = (OkStatus, names)
    /\ get_nic_ip_by_gpu_pci "" (GpuIpServer_Initialize ex_configs) OkStatus names "0000:06:00.0" = "10.0.0.2"%string
    /\ get_nic_ip_by_gpu_pci "" (GpuIpServer_Initialize ex_configs) OkStatus names "0000:08:00.0" = ""%string.
Proof.
  destruct (nic_ip_lookup "" eq_refl ex_configs) as (names & Hs & Hl).
  - by_compute.
  - repeat constructor.
  - repeat constructor.
  - reflexivity.
  - repeat (apply list.Forall_cons; split; [split; [reflexivity|]; eexists; split; reflexivity|]). constructor.
  - exists names. split; [exact Hs|]. split; rewrite Hl by reflexivity; reflexivity.
Defined.

Lemma closest_netdev_from_topology_witness :
  exists names m, GetGpuNicMapping "" (GpuIpServer_Initialize ex_configs) OkStatus map_to_list
                    ["10.0.0.2"%string; "10.0.0.1"%string] names = Some m
    /\ getClosestNetdev m "0000:05:00.0" = Ok 1 /\ getClosestNetdev m "0000:06:00.0" = Ok 0
    /\ getClosestNetdev m "0000:08:00.0" = Err kInternal.
Proof.
  destruct (closest_netdev_from_topology ex_ntop ex_realpath ex_node_at elements 1 (Some ex_ifs) new_Configurator
              (default new_Configurator (snd <$> GetConfigurations ex_ntop ex_realpath ex_node_at elements 1
                                                 (Some ex_ifs) new_Configurator)) ex_configs "")
    as (names & Hs & Hm).
  - vm_compute. reflexivity.
  - reflexivity.
  - by_compute.
  - repeat constructor.
  - repeat constructor.
  - reflexivity.
  - reflexivity.
  - destruct (Hm map_to_list ["10.0.0.2"%string; "10.0.0.1"%string]) as (m & E & Hd); [done|].
    exists names, m. split; [exact E|]. rewrite !Hd. split_and!; reflexivity.
Defined.
