(* ===== verification/GpumemManager.v ===== *)
(** * The buffer management daemon
    (buffer_mgmt_daemon/fastrak_gpumem_manager.cc, fastrak_gpumem_manager_base.h,
    fastrak_gpumem_manager_cloud.{h,cc}, fastrak_gpumem_manager_startup.cc,
    fastrak_gpu_nic_info.cc, main_cloud.cc)

    The daemon finds the GPUs and NICs, creates a DXS client per NIC, starts the
    importer's and the lookup service's sockets, reports that it is healthy, and
    watches its DXS clients until it is told to stop or one fails.  What CUDA,
    the DXS clients and the system calls do is in the environment of a run. *)

From stdpp Require Import pretty.
From S2P Require Import Prelude BufMgrClient PciTopology GpuIpServer.

(** ** Health (fastrak_gpumem_manager_cloud.cc) *)

Inductive HealthStatus : Set := kInitializing | kHealthy | kUnhealthy.

#[export] Instance HealthStatus_eq_dec : EqDecision HealthStatus.
Proof. solve_decision. Defined.

(** The messages that are reported. *)
Inductive Message : Type :=
  | NoMessage
  | InitializationCompleted
  | CudaInitializationFailed
  | GpuNumberMismatch (configs num_gpus : Z)
  | DxsClientFailed (ip : string) (code : StatusCode)
  | IncorrectNumberOfNics (n : Z)
  | HealthCheckFailed (failed : list string)
  | StatusMessage (code : StatusCode).

Section health.
(** The readings of the clock. *)
Context (TimeNow : nat -> Z).

(** [absl::InfinitePast()] is [None]; [reads] counts the readings of the
    clock. *)
Record Host := mkHost {
  health_status_ : HealthStatus;
  start_time_ : option Z;
  init_done_time_ : option Z;
  fatal_error_time_ : option Z;
  status_message_ : Message;
  reads : nat
}.

Definition new_Host : Host := mkHost kInitializing (Some (TimeNow 0)) None None NoMessage 1.

Definition SetHealthStatus (status : HealthStatus) (message : Message) (h : Host) : Host :=
  let now := Some (TimeNow (reads h)) in
  match health_status_ h with
  | kInitializing =>
      match status with
      | kHealthy => mkHost status (start_time_ h) now (fatal_error_time_ h) message (S (reads h))
      | kUnhealthy => mkHost status (start_time_ h) (init_done_time_ h) now message (S (reads h))
      | kInitializing => h
      end
  | kHealthy =>
      match status with
      | kUnhealthy => mkHost status (start_time_ h) (init_done_time_ h) now message (S (reads h))
      | _ => h
      end
  | kUnhealthy => h
  end.

Inductive JsonValue : Type :=
  | JString (s : string)
  | JTime (t : option Z)
  | JMessage (m : Message).

Definition GetHealthCheckResponseJson (h : Host) : list (string * JsonValue) :=
  (("startup_time"%string, JTime (start_time_ h)) ::
   match health_status_ h with
   | kInitializing => [("status"%string, JString "initializing")]
   | kHealthy => [("status"%string, JString "ok"); ("init_done_time"%string, JTime (init_done_time_ h))]
   | kUnhealthy =>
       ("status"%string, JString "unhealthy") ::
       (match init_done_time_ h with Some t => [("init_done_time"%string, JTime (Some t))] | None => [] end) ++
       [("fatal_error_time"%string, JTime (fatal_error_time_ h)); ("error_description"%string, JMessage (status_message_ h))]
   end) ++ [("current_time"%string, JTime (Some (TimeNow (reads h))))].

(** The code the handler of [/health] replies with. *)
Definition http_status (h : Host) : Z :=
  match health_status_ h with kInitializing => 503 | kHealthy => 200 | kUnhealthy => 500 end.

(** ** Starting (fastrak_gpumem_manager.cc) *)

Record FasTrakGpuNicInfo := mkNicInfo { info_config : GpuRxqConfiguration; dxs_ip : string; dxs_port : string }.

Definition new_NicInfo (config : GpuRxqConfiguration) : FasTrakGpuNicInfo :=
  mkNicInfo config "169.254.169.254" "55555".

Definition GetNICsToUse (nics_to_use : string) : gset string :=
  if decide (nics_to_use = EmptyString) then ∅ else list_to_set (StrSplit nics_to_use).

Definition GetNumGPUs (num_gpus_to_use : Z) (cuDeviceGetCount : option Z) : StatusOr Z :=
  match cuDeviceGetCount with
  | None => Err kInternal
  | Some num_gpus =>
      if num_gpus <? num_gpus_to_use then Err kInternal
      else Ok (if 0 <? num_gpus_to_use then num_gpus_to_use else num_gpus)
  end.

Record Manager := mkManager {
  host_ : Host;
  gpu_rxq_configs_ : list GpuRxqConfiguration;
  nic_infos_ : list FasTrakGpuNicInfo;
  gShouldStop : bool;
  names_ : Names
}.

Definition set_host (h : Host) (m : Manager) : Manager :=
  mkManager h (gpu_rxq_configs_ m) (nic_infos_ m) (gShouldStop m) (names_ m).

Definition StopGpuMemManager (m : Manager) : Manager :=
  mkManager (host_ m) (gpu_rxq_configs_ m) (nic_infos_ m) true (names_ m).

Definition SetAndLogError (error_message : Message) (m : Manager) : Manager :=
  set_host (SetHealthStatus kUnhealthy error_message (host_ m)) m.

Definition CheckStatus {A} (status : StatusOr A) (m : Manager) : bool * Manager :=
  match status with
  | Ok _ => (true, m)
  | Err code => (false, SetAndLogError (StatusMessage code) m)
  end.

(** The configurations [Init] keeps, and the set up of the host. *)
Definition Init (use_gpu_mem keep_eth0 : bool) (nics_to_use : option (gset string))
    (configurations : list GpuRxqConfiguration) (host_setup : Status) (m : Manager) : Z * Manager :=
  let configurations :=
    if negb use_gpu_mem && negb keep_eth0
    then filter (fun c => ifname c <> "eth0"%string) configurations else configurations in
  let configurations :=
    match nics_to_use with
    | Some nics => filter (fun c => ifname c ∈ nics) configurations
    | None => configurations
    end in
  let m := mkManager (host_ m) (gpu_rxq_configs_ m ++ configurations) (nic_infos_ m) (gShouldStop m) (names_ m) in
  let '(ok, m) := CheckStatus host_setup m in
  (if (ok : bool) then 0 else 1, m).

(** The flags of a run, and what CUDA, the DXS clients' creation, the device
    of the dmabuf importer and the system calls of the servers do; [stopped_early] when the
    last client leaves before the loop of [Run] starts. *)
Record RunEnv := mkRunEnv {
  use_gpu_mem_ : bool;
  num_gpus_override_ : option Z;
  cuInit : bool;
  cuDeviceGetCount : option Z;
  dxs_Create : string -> Status;
  dmabuf_import_path_ : string;
  dmabuf_open : string -> Z;
  uds_prefix : string;
  start_calls : nat -> StartCalls;
  stopped_early : bool
}.

(** A second of the daemon's life: whether a signal or the last client's exit
    stopped it, and the health of the DXS client of each NIC. *)
Record Second := mkSecond { stopped : bool; dxs_HealthCheck : string -> bool }.

Inductive Outcome : Set := Returned (code : Z) | Crashed | Running.

Definition info_ip (info : FasTrakGpuNicInfo) : string := ip_addr (info_config info).

(** The loop that creates the DXS clients; the boolean is false when it
    dereferences a status without a value. *)
Fixpoint CreateClients (create : string -> Status) (configs : list GpuRxqConfiguration) (nic_ips : gset string)
    (m : Manager) : bool * Manager :=
  match configs with
  | [] => (true, m)
  | config :: configs =>
      if decide (ip_addr config ∈ nic_ips) then CreateClients create configs nic_ips m
      else
        let info := new_NicInfo config in
        match create (info_ip info) with
        | Err code => (false, StopGpuMemManager (SetAndLogError (DxsClientFailed (info_ip info) code) m))
        | Ok _ =>
            CreateClients create configs ({[ip_addr config]} ∪ nic_ips)
              (mkManager (host_ m) (gpu_rxq_configs_ m) (nic_infos_ m ++ [info]) (gShouldStop m) (names_ m))
        end
  end.

Definition kAllowedNumFabricNICs : list Z := [4; 8].

(** [dmabuf_importer_create_ctx]: the descriptor of the context, or -1;
    [malloc] does not fail. *)
Definition dmabuf_importer_create_ctx (open_ : string -> Z) (dmabuf_import_path : option string) : Z :=
  let dev_fd := open_ (default "/dev/dmabuf_import_helper"%string dmabuf_import_path) in
  if dev_fd <? 0 then -1 else dev_fd.

(** [FasTrakAddrTranslator::Init] *)
Definition translator_Init (open_ : string -> Z) (dmabuf_import_path : option string) (nic_pci_addr_ : string)
    : bool :=
  match parse_pci_addr nic_pci_addr_ with
  | None => false
  | Some _ => negb (dmabuf_importer_create_ctx open_ dmabuf_import_path =? -1)
  end.

(** [FasTrakGpuMemImporter::Initialize] *)
Definition importer_Initialize (open_ : string -> Z) (dmabuf_import_path : option string)
    (nic_infos : list FasTrakGpuNicInfo) : Status :=
  if forallb (fun info => translator_Init open_ dmabuf_import_path (nic_pci_addr (info_config info))) nic_infos
  then OkStatus else Err kUnavailable.

Definition importer_paths (nic_infos : list FasTrakGpuNicInfo) : list string :=
  (BufOpUdsPath ∘ info_ip) <$> nic_infos.

(** The paths of the servers [GpuIpServer::Initialize] creates. *)
Definition lookup_paths (configs : list GpuRxqConfiguration) : list string :=
  ((NicIpUdsPath ∘ gpu_pci_addr) <$> configs) ++ [NicMappingUdsPath].

(** Starting the servers with these paths, numbered from [id]. *)
Definition start_servers (env : RunEnv) (paths : list string) (id : nat) (m : Manager) : bool * Manager :=
  let '(status, names) := StartLoop (uds_prefix env) paths id (start_calls env) (names_ m) in
  CheckStatus status (mkManager (host_ m) (gpu_rxq_configs_ m) (nic_infos_ m) (gShouldStop m) names).

(** The NICs whose DXS client is not healthy. *)
Definition DxsClientsHealthCheck (healthy : string -> bool) (nic_infos : list FasTrakGpuNicInfo) : list string :=
  filter (fun ip => healthy ip = false) (info_ip <$> nic_infos).

(** The loop of [Run]; the flag is tested, and set by the failed check. *)
Fixpoint WatchLoop (seconds : list Second) (m : Manager) : Outcome * Manager :=
  if gShouldStop m then (Returned 0, m)
  else
    match seconds with
    | [] => (Running, m)
    | s :: seconds =>
        let m := if stopped s then StopGpuMemManager m else m in
        WatchLoop seconds
          (match DxsClientsHealthCheck (dxs_HealthCheck s) (nic_infos_ m) with
           | [] => m
           | failed => StopGpuMemManager (set_host (SetHealthStatus kUnhealthy (HealthCheckFailed failed) (host_ m)) m)
           end)
    end.

(** CUDA and the number of GPUs. *)
Definition CheckGpus (env : RunEnv) (m : Manager) : bool * Manager :=
  if negb (use_gpu_mem_ env) then (true, m)
  else if negb (cuInit env) then (false, SetAndLogError CudaInitializationFailed m)
  else
    let num_gpus := GetNumGPUs (default 0 (num_gpus_override_ env)) (cuDeviceGetCount env) in
    match CheckStatus num_gpus m, num_gpus with
    | (true, m), Ok num_gpus =>
        if Zlen (gpu_rxq_configs_ m) =? num_gpus then (true, m)
        else (false, SetAndLogError (GpuNumberMismatch (Zlen (gpu_rxq_configs_ m)) num_gpus) m)
    | (_, m), _ => (false, m)
    end.

(** The servers, in the order in which they are started. *)
Definition StartServices (env : RunEnv) (m : Manager) : bool * Manager :=
  let dmabuf_import_path_opt :=
    if decide (dmabuf_import_path_ env = EmptyString) then None else Some (dmabuf_import_path_ env) in
  let '(ok, m) := CheckStatus (importer_Initialize (dmabuf_open env) dmabuf_import_path_opt (nic_infos_ m)) m in
  if negb ok then (false, m)
  else
    let '(ok, m) := start_servers env (importer_paths (nic_infos_ m)) 0 m in
    if negb ok then (false, m)
    else if use_gpu_mem_ env
    then start_servers env (lookup_paths (gpu_rxq_configs_ m)) (length (nic_infos_ m)) m
    else (true, m).

Definition Run (env : RunEnv) (seconds : list Second) (m : Manager) : Outcome * Manager :=
  let '(ok, m) := CheckGpus env m in
  if negb ok then (Returned 1, m)
  else
    let '(created, m) := CreateClients (dxs_Create env) (gpu_rxq_configs_ m) ∅ m in
    if negb created then (Crashed, m)
    else if negb (bool_decide (Zlen (nic_infos_ m) ∈ kAllowedNumFabricNICs))
    then (Returned 1, SetAndLogError (IncorrectNumberOfNics (Zlen (nic_infos_ m))) m)
    else
      let '(ok, m) := StartServices env m in
      if negb ok then (Returned 1, m)
      else
        let m := if stopped_early env then StopGpuMemManager m else m in
        let m := set_host (SetHealthStatus kHealthy InitializationCompleted (host_ m)) m in
        let m := mkManager (host_ m) (gpu_rxq_configs_ m) (nic_infos_ m) false (names_ m) in
        WatchLoop seconds m.

(** ** The process (fastrak_gpumem_manager_startup.cc, main_cloud.cc) *)

Definition RunCloudGpuMemManager (init : Manager -> Z * Manager) (run : Manager -> Outcome * Manager) (m : Manager)
    : Outcome * Manager :=
  let '(init_status, m) := init m in
  if negb (init_status =? 0) then (Returned init_status, m) else run m.

(** [main]; [http_server] is whether the server for [/health] can be created. *)
Definition main_cloud (http_port num_gpus_to_use : Z) (use_gpu_mem keep_eth0 : bool) (nics_to_use : string)
    (http_server : bool) (configurations : list GpuRxqConfiguration) (env : RunEnv) (seconds : list Second)
    : Outcome * option Manager :=
  if (0 <? http_port) && negb http_server then (Returned 1, None)
  else
    let nics_set := GetNICsToUse nics_to_use in
    let nics := if decide (nics_set = ∅) then None else Some nics_set in
    let env := mkRunEnv use_gpu_mem (if num_gpus_to_use =? 0 then None else Some num_gpus_to_use)
                 (cuInit env) (cuDeviceGetCount env) (dxs_Create env) (dmabuf_import_path_ env)
                 (dmabuf_open env) (uds_prefix env)
                 (start_calls env) (stopped_early env) in
    let '(outcome, m) :=
      RunCloudGpuMemManager (Init use_gpu_mem keep_eth0 nics configurations OkStatus) (Run env seconds)
        (mkManager new_Host [] [] false ∅) in
    (outcome, Some m).
End health.

(** ** Health reports *)

Section properties.
Context (TimeNow : nat -> Z).

Definition reports (calls : list (HealthStatus * Message)) (h : Host) : Host :=
  foldl (fun h c => SetHealthStatus TimeNow c.1 c.2 h) h calls.

(** The first call that reports a status. *)
Definition first_report (status : HealthStatus) (calls : list (HealthStatus * Message)) : option (nat * Message) :=
  (fun p => (p.1, p.2.2)) <$> list_find (fun c => c.1 = status) calls.

Lemma reports_cons st msg calls h :
  reports ((st, msg) :: calls) h = reports calls (SetHealthStatus TimeNow st msg h).
Proof using. done. Qed.

Lemma reports_unhealthy calls h : health_status_ h = kUnhealthy -> reports calls h = h.
Proof using.
  induction calls as [|[st msg] calls IH]; intros Hh; [done|]. rewrite reports_cons.
  replace (SetHealthStatus TimeNow st msg h) with h; [by apply IH|]. unfold SetHealthStatus. by rewrite Hh.
Qed.

Lemma first_report_cons status st msg calls :
  first_report status ((st, msg) :: calls)
  = if decide (st = status) then Some (0%nat, msg) else (fun p => (S p.1, p.2)) <$> first_report status calls.
Proof using.
  unfold first_report. cbn. case_decide; cbn; [done|]. by destruct (list_find _ calls) as [[i [a b]]|].
Qed.

Lemma reports_healthy calls h :
  health_status_ h = kHealthy ->
  reports calls h
  = match first_report kUnhealthy calls with
    | Some (_, msg) => mkHost kUnhealthy (start_time_ h) (init_done_time_ h) (Some (TimeNow (reads h))) msg (S (reads h))
    | None => h
    end.
Proof using.
  revert h. induction calls as [|[st msg] calls IH]; intros h Hh; [done|].
  rewrite first_report_cons, reports_cons. unfold SetHealthStatus. rewrite Hh. destruct st.
  - rewrite decide_False, (IH h Hh) by done. by destruct (first_report kUnhealthy calls) as [[]|].
  - rewrite decide_False, (IH h Hh) by done. by destruct (first_report kUnhealthy calls) as [[]|].
  - rewrite decide_True by done. by apply reports_unhealthy.
Qed.

(** The health the daemon shows depends only on the first report
    of each kind: it is unhealthy, for good and with the message and the time of
    the first failure, as soon as one was reported, and shows the time of
    initialization exactly when the first success was reported before. *)
Theorem health_first_reports calls :
  let h := reports calls (new_Host TimeNow) in
  match first_report kUnhealthy calls, first_report kHealthy calls with
  | None, None => h = new_Host TimeNow
  | None, Some (_, msg) => h = mkHost kHealthy (Some (TimeNow 0)) (Some (TimeNow 1)) None msg 2
  | Some (_, msg), None => h = mkHost kUnhealthy (Some (TimeNow 0)) None (Some (TimeNow 1)) msg 2
  | Some (i, msg), Some (j, _) =>
      h = if (j <? i)%nat
          then mkHost kUnhealthy (Some (TimeNow 0)) (Some (TimeNow 1)) (Some (TimeNow 2)) msg 3
          else mkHost kUnhealthy (Some (TimeNow 0)) None (Some (TimeNow 1)) msg 2
  end.
Proof using.
  induction calls as [|[st msg] calls IH]; [done|]. rewrite !first_report_cons, reports_cons.
  destruct st.
  - rewrite !decide_False by done. change (SetHealthStatus _ _ _ _) with (new_Host TimeNow). cbv zeta in IH |- *.
    by destruct (first_report kUnhealthy calls) as [[i m]|], (first_report kHealthy calls) as [[j m']|].
  - rewrite decide_False, decide_True, reports_healthy by done. by destruct (first_report kUnhealthy calls) as [[i m]|].
  - rewrite decide_True, decide_False, reports_unhealthy by done. by destruct (first_report kHealthy calls) as [[i m]|].
Qed.

(** ** A run *)

(** The daemon fails before it is initialized. *)
Definition failed (m m' : Manager) : Prop :=
  health_status_ (host_ m') = kUnhealthy /\ init_done_time_ (host_ m') = init_done_time_ (host_ m).

Definition same_setup (m m' : Manager) : Prop :=
  host_ m' = host_ m /\ gpu_rxq_configs_ m' = gpu_rxq_configs_ m /\ nic_infos_ m' = nic_infos_ m.

Lemma SetAndLogError_failed msg m :
  health_status_ (host_ m) = kInitializing -> failed m (SetAndLogError TimeNow msg m).
Proof using. intros Hh. unfold failed, SetAndLogError, SetHealthStatus. cbn. by rewrite Hh. Qed.

Lemma CheckStatus_spec {A} (status : StatusOr A) m :
  health_status_ (host_ m) = kInitializing ->
  let '(ok, m') := CheckStatus TimeNow status m in if (ok : bool) then m' = m else failed m m'.
Proof using. intros Hh. destruct status; cbn; [done|]. by apply SetAndLogError_failed. Qed.

Lemma CheckGpus_spec env m :
  health_status_ (host_ m) = kInitializing ->
  let '(ok, m') := CheckGpus TimeNow env m in if (ok : bool) then m' = m else failed m m'.
Proof using.
  intros Hh. unfold CheckGpus. destruct (use_gpu_mem_ env); cbn; [|done].
  destruct (cuInit env); cbn; [|by apply SetAndLogError_failed].
  destruct (GetNumGPUs _ _) as [n|code]; cbn; [|by apply SetAndLogError_failed].
  destruct (_ =? _); [done|]. by apply SetAndLogError_failed.
Qed.

Lemma CreateClients_spec create configs nic_ips m :
  health_status_ (host_ m) = kInitializing ->
  let '(created, m') := CreateClients TimeNow create configs nic_ips m in
  if (created : bool)
  then host_ m' = host_ m /\ gpu_rxq_configs_ m' = gpu_rxq_configs_ m /\ names_ m' = names_ m
       /\ exists infos, nic_infos_ m' = nic_infos_ m ++ infos /\ NoDup (info_ip <$> infos)
            /\ forall ip, ip ∈ info_ip <$> infos <-> ip ∈ ip_addr <$> configs /\ ip ∉ nic_ips
  else failed m m' /\ exists c, c ∈ configs /\ is_ok (create (ip_addr c)) = false.
Proof using.
  revert nic_ips m. induction configs as [|c configs IH]; intros nic_ips m Hh; cbn [CreateClients].
  { split_and!; [done..|]. exists []. rewrite app_nil_r. split; [done|]. split; [constructor|]. set_solver. }
  case_decide as Hin.
  { specialize (IH nic_ips m Hh). destruct (CreateClients _ _ _ _ _) as [[] m'].
    - destruct IH as (H1 & H2 & H3 & infos & H4 & H5 & H6). split_and!; [done..|]. exists infos. split_and!; [done..|].
      intros ip. rewrite H6. cbn. rewrite elem_of_cons. naive_solver.
    - destruct IH as (H1 & c' & H2 & H3). split; [done|]. exists c'. split; [by right|done]. }
  destruct (create _) as [[]|code] eqn:Ec.
  - set (m1 := mkManager _ _ _ _ _). specialize (IH ({[ip_addr c]} ∪ nic_ips) m1 Hh).
    destruct (CreateClients _ _ _ _ _) as [[] m'].
    + destruct IH as (H1 & H2 & H3 & infos & H4 & H5 & H6). split_and!; [done..|].
      exists (new_NicInfo c :: infos). rewrite H4. cbn. rewrite <- app_assoc. split; [done|]. split.
      * apply list.NoDup_cons. split; [|done]. intros Hc%H6. set_solver.
      * intros ip. rewrite !elem_of_cons, H6. destruct (decide (ip = ip_addr c)) as [->|]; [tauto|set_solver].
    + destruct IH as (H1 & c' & H2 & H3). split; [done|]. exists c'. split; [by right|done].
  - split; [|exists c; split; [left|change (create (ip_addr c)) with (create (info_ip (new_NicInfo c))); by rewrite Ec]]. exact (SetAndLogError_failed _ m Hh).
Qed.

Lemma start_servers_spec env paths id m :
  health_status_ (host_ m) = kInitializing ->
  let '(ok, m') := start_servers TimeNow env paths id m in if (ok : bool) then same_setup m m' else failed m m'.
Proof using.
  intros Hh. unfold start_servers. destruct (StartLoop _ _ _ _ _) as [status names].
  set (m1 := mkManager _ _ _ _ _). pose proof (CheckStatus_spec status m1 Hh) as H.
  destruct (CheckStatus _ _ _) as [[] m']; [subst m'|]; done.
Qed.

Lemma StartServices_spec env m :
  health_status_ (host_ m) = kInitializing ->
  let '(ok, m') := StartServices TimeNow env m in if (ok : bool) then same_setup m m' else failed m m'.
Proof using.
  intros Hh. unfold StartServices.
  pose proof (CheckStatus_spec (importer_Initialize (dmabuf_open env) (if decide (dmabuf_import_path_ env = EmptyString)
    then None else Some (dmabuf_import_path_ env)) (nic_infos_ m)) m Hh) as H1.
  destruct (CheckStatus _ _ _) as [[] m1]; cbn; [subst m1|done].
  pose proof (start_servers_spec env (importer_paths (nic_infos_ m)) 0 m Hh) as H2.
  destruct (start_servers _ _ _ _ _) as [[] m2]; cbn; [|done]. destruct (use_gpu_mem_ env); [|done].
  destruct H2 as (E1 & E2 & E3). assert (Hh2 : health_status_ (host_ m2) = kInitializing) by (by rewrite E1).
  pose proof (start_servers_spec env (lookup_paths (gpu_rxq_configs_ m2)) (length (nic_infos_ m2)) m2 Hh2) as H3.
  destruct (start_servers _ _ _ _ _) as [[] m3]; unfold same_setup, failed in *; rewrite ?E1, ?E2, ?E3 in *; done.
Qed.

(** The daemon watches its clients: it is healthy until it finds some that are
    not. *)
Lemma WatchLoop_spec seconds m :
  health_status_ (host_ m) = kHealthy -> gShouldStop m = false ->
  let '(outcome, m') := WatchLoop TimeNow seconds m in
  gpu_rxq_configs_ m' = gpu_rxq_configs_ m /\ nic_infos_ m' = nic_infos_ m
  /\ init_done_time_ (host_ m') = init_done_time_ (host_ m)
  /\ (host_ m' = host_ m /\ (outcome = Returned 0 \/ outcome = Running)
      \/ outcome = Returned 0 /\ health_status_ (host_ m') = kUnhealthy
         /\ exists ips, status_message_ (host_ m') = HealthCheckFailed ips /\ ips <> []
              /\ Forall (fun ip => ip ∈ info_ip <$> nic_infos_ m) ips).
Proof using.
  assert (Hstop : forall seconds m, gShouldStop m = true -> WatchLoop TimeNow seconds m = (Returned 0, m)).
  { intros [|s l] m1 E; cbn; by rewrite E. }
  revert m. induction seconds as [|s seconds IH]; intros m Hh Hs; cbn [WatchLoop]; rewrite Hs.
  { split_and!; [done..|]. left. auto. }
  set (m1 := if stopped s then StopGpuMemManager m else m).
  assert (E1 : same_setup m m1) by (unfold m1; by destruct (stopped s)). destruct E1 as (E1 & E2 & E3).
  destruct (DxsClientsHealthCheck (dxs_HealthCheck s) (nic_infos_ m1)) as [|ip ips] eqn:Ef.
  - destruct (stopped s); cbn in m1.
    + rewrite Hstop by done. split_and!; [done..|]. left. auto.
    + apply IH; done.
  - rewrite Hstop by done. cbn. unfold SetHealthStatus. rewrite E1, Hh. cbn. rewrite E2, E3. split_and!; [done..|].
    right. split_and!; [done..|]. exists (ip :: ips). split_and!; [done..|]. rewrite <- Ef. unfold DxsClientsHealthCheck.
    apply list.Forall_forall. intros x [_ Hx]%list_elem_of_filter. by rewrite <- E3.
Qed.

(** One DXS client for each of the four or eight NICs of the configurations. *)
Definition serving (m : Manager) : Prop :=
  NoDup (info_ip <$> nic_infos_ m)
  /\ Zlen (nic_infos_ m) ∈ kAllowedNumFabricNICs
  /\ forall ip, ip ∈ info_ip <$> nic_infos_ m <-> ip ∈ ip_addr <$> gpu_rxq_configs_ m.

End properties.

(** *** Four NICs *)

Definition ex_config (n : string) : GpuRxqConfiguration :=
  mkConfig ("0000:0" +:+ n +:+ ":00.0")%string ("0000:1" +:+ n +:+ ":00.0")%string
    ("eth" +:+ n)%string ("10.0.0." +:+ n)%string.

Definition ex_env (early : bool) : RunEnv :=
  mkRunEnv true None true (Some 4) (fun _ => OkStatus) EmptyString (fun _ => 3) EmptyString (fun _ => calls_ok) early.

Definition ex_manager : Manager :=
  mkManager (new_Host Z.of_nat) (ex_config <$> ["1"; "2"; "3"; "4"]%string) [] false ∅.

Definition ex_second (failing : string) : Second := mkSecond false (fun ip => negb (String.eqb ip failing)).


(** A stop that is requested before the loop starts is lost. *)
Example early_stop_lost :
  (Run Z.of_nat (ex_env true) [ex_second ""; ex_second ""] ex_manager).1 = Running.
Proof. vm_compute. reflexivity. Qed.

(** ** When clients can connect *)

Lemma Start_cases prefix path a id calls names :
  UdsSockaddr prefix path = Ok a -> names !! a = None ->
  let '(status, names') := UnixSocketServer_Start prefix path id calls names in
  names' = <[a := id]> names \/ is_ok status = false /\ names' = names.
Proof.
  intros Ha Hn. unfold UnixSocketServer_Start. rewrite Ha, (delete_id names a Hn).
  destruct (negb (bool_decide _)); cbn [andb]; [destruct (call_unlink calls); cbn [is_ok negb]; [|by right]|];
    destruct (call_socket calls); cbn; try (by right); rewrite Hn; by left.
Qed.

(** Whatever the system calls do, some of the first servers are bound, and at
    most one more. *)
Lemma StartLoop_bound prefix paths addrs id calls names :
  Forall2 (fun path a => UdsSockaddr prefix path = Ok a) paths addrs ->
  NoDup addrs -> (forall a, a ∈ addrs -> names !! a = None) ->
  let '(status, names') := StartLoop prefix paths id calls names in
  exists j, (forall i a, addrs !! i = Some a -> (i < j)%nat -> is_Some (names' !! a))
    /\ (forall i a, addrs !! i = Some a -> is_Some (names' !! a) -> (i <= j)%nat)
    /\ (forall a, a ∉ addrs -> names' !! a = names !! a).
Proof.
  intros H. revert id names. induction H as [|path a paths addrs Ha H IH]; intros id names Hnd Hf; cbn [StartLoop].
  { by exists 0%nat. }
  apply list.NoDup_cons in Hnd as [Hna Hnd].
  pose proof (Start_cases prefix path a id (calls id) names Ha (Hf a (list_elem_of_here _ _))) as Hs.
  assert (Hf1 : forall b, b ∈ addrs -> <[a := id]> names !! b = None).
  { intros b Hb. rewrite lookup_insert_ne by congruence. apply Hf. by right. }
  destruct (UnixSocketServer_Start _ _ _ _ _) as [[[]|e] names1].
  - destruct Hs as [->|[? _]]; [|done]. specialize (IH (S id) _ Hnd Hf1).
    destruct (StartLoop _ _ _ _ _) as [status names']. destruct IH as (j & H1 & H2 & H3). exists (S j). split_and!.
    + intros [|i] b; cbn; [intros [= <-] _; rewrite H3, lookup_insert_eq by done; eauto|].
      intros Hb Hi. eapply H1; [done|lia].
    + intros [|i] b Hb Hx; [lia|]. cbn in Hb. specialize (H2 i b Hb Hx). lia.
    + intros b [Hne Hb]%not_elem_of_cons. by rewrite H3, lookup_insert_ne.
  - exists 0%nat. split_and!; [lia|..].
    + intros [|i] b Hb [x Hx]; [done|]. cbn in Hb. apply list_elem_of_lookup_2 in Hb.
      destruct Hs as [-> |[_ ->]]; [by rewrite Hf1 in Hx|]. by rewrite Hf in Hx by (by right).
    + intros b [Hne Hb]%not_elem_of_cons. destruct Hs as [-> |[_ ->]]; [by rewrite lookup_insert_ne|done].
Qed.

(** All paths of the daemon, in the order in which it starts to listen. *)
Definition daemon_paths (nic_infos : list FasTrakGpuNicInfo) (configs : list GpuRxqConfiguration) : list string :=
  importer_paths nic_infos ++ lookup_paths configs.

(** These are the paths of the servers the lookup service creates. *)
Lemma lookup_paths_services `{NicIpCodec} configs : service_path <$> GpuIpServer_Initialize configs = lookup_paths configs.
Proof. unfold GpuIpServer_Initialize, lookup_paths. by rewrite fmap_app, <- list_fmap_compose. Qed.

Lemma BufOpUdsPath_other ip pci : BufOpUdsPath ip <> NicIpUdsPath pci /\ BufOpUdsPath ip <> NicMappingUdsPath.
Proof. done. Qed.

Lemma daemon_paths_NoDup nic_infos configs :
  NoDup (info_ip <$> nic_infos) -> NoDup (gpu_pci_addr <$> configs) -> NoDup (daemon_paths nic_infos configs).
Proof.
  intros Hi Hg. unfold daemon_paths, importer_paths, lookup_paths. rewrite !list_fmap_compose. apply list.NoDup_app. split_and!.
  - apply NoDup_fmap_2; [|done]. intros x y. apply string_app_inj.
  - intros path (ip & -> & _)%list_elem_of_fmap.
    intros [(pci & E & _)%list_elem_of_fmap|E%list_elem_of_singleton]%elem_of_app;
      by apply (BufOpUdsPath_other ip EmptyString) in E || by destruct (BufOpUdsPath_other ip pci).
  - apply list.NoDup_app. split_and!.
    + apply NoDup_fmap_2; [|done]. intros x y. apply string_app_inj.
    + intros path (pci & -> & _)%list_elem_of_fmap E%list_elem_of_singleton. by apply NicIpUdsPath_mapping in E.
    + apply NoDup_singleton.
Qed.

Lemma StartLoop_app prefix paths1 paths2 id calls names :
  StartLoop prefix (paths1 ++ paths2) id calls names
  = match StartLoop prefix paths1 id calls names with
    | (Ok _, names) => StartLoop prefix paths2 (id + length paths1) calls names
    | r => r
    end.
Proof.
  revert id names. induction paths1 as [|path paths1 IH]; intros id names; cbn.
  { by rewrite Nat.add_0_r. }
  destruct (UnixSocketServer_Start _ _ _ _ _) as [[[]|e] names1]; [|done]. rewrite IH.
  by replace (S id + length paths1)%nat with (id + S (length paths1))%nat by lia.
Qed.

(** [StartServices] starts a prefix of the servers, in this order. *)
Lemma StartServices_names TimeNow env m :
  use_gpu_mem_ env = true ->
  exists k, names_ (StartServices TimeNow env m).2
    = (StartLoop (uds_prefix env) (take k (daemon_paths (nic_infos_ m) (gpu_rxq_configs_ m))) 0
         (start_calls env) (names_ m)).2.
Proof.
  intros Hg. unfold StartServices, daemon_paths.
  destruct (importer_Initialize _ _) as [[]|e]; cbn [CheckStatus negb]; [|by exists 0%nat].
  unfold start_servers at 1. destruct (StartLoop _ (importer_paths _) 0 _ _) as [[[]|e] names] eqn:E1; cbn [CheckStatus negb].
  2:{ exists (length (importer_paths (nic_infos_ m))). by rewrite take_app_length, E1. }
  rewrite Hg. exists (length (importer_paths (nic_infos_ m) ++ lookup_paths (gpu_rxq_configs_ m))).
  rewrite firstn_all, StartLoop_app, E1. unfold start_servers. cbn -[lookup_paths StartLoop].
  replace (length (importer_paths (nic_infos_ m))) with (length (nic_infos_ m)) by (unfold importer_paths; by rewrite length_fmap).
  destruct (StartLoop _ (lookup_paths _) _ _ _) as [st names2]. by destruct st.
Qed.

(** The last server is bound only after all others. *)
Lemma last_bound prefix l last k calls :
  c_string prefix = prefix -> Forall (fun path => c_string path = path) (l ++ [last]) ->
  Forall (fun path => is_ok (UdsSockaddr prefix path) = true) (l ++ [last]) -> NoDup (l ++ [last]) ->
  let names := (StartLoop prefix (take k (l ++ [last])) 0 calls ∅).2 in
  is_ok (UnixSocketClient_Connect prefix last OkStatus names) = true ->
  Forall (fun path => is_ok (UnixSocketClient_Connect prefix path OkStatus names) = true) (l ++ [last]).
Proof.
  intros Hpre Hc Hok Hnp names Hrun. destruct (addresses prefix _ Hok) as [addrs Ha].
  pose proof (addresses_NoDup _ _ _ Hpre Hc Ha Hnp) as Hnd.
  destruct (Forall2_lookup_l _ _ _ _ _ Ha (list_lookup_middle l [] last (length l) eq_refl)) as (a & Hla & Hm).
  assert (Hnk : NoDup (take k addrs)) by (rewrite <- (take_drop k addrs) in Hnd; by apply list.NoDup_app in Hnd as (? & _ & _)).
  pose proof (StartLoop_bound _ _ _ 0 calls ∅ (Forall2_take _ _ _ k Ha) Hnk (fun b _ => lookup_empty b)) as HB.
  unfold names in *. clear names. destruct (StartLoop _ _ _ _ _) as [status names]. destruct HB as (j & H1 & H2 & H3). cbn in *.
  assert (Hbound : is_Some (names !! a)).
  { unfold UnixSocketClient_Connect in Hrun. rewrite Hm in Hrun. cbn in Hrun. destruct (names !! a); [eauto|done]. }
  assert (Hak : take k addrs !! length l = Some a).
  { destruct (decide (a ∈ take k addrs)) as [Hin|Hout]; [|rewrite (H3 a Hout), lookup_empty in Hbound; by destruct Hbound].
    apply list_elem_of_lookup in Hin as [i Hik]. pose proof Hik as [Hi' Hk]%lookup_take_Some.
    by rewrite (NoDup_lookup addrs _ _ a Hnd Hla Hi'). }
  specialize (H2 _ _ Hak Hbound). apply lookup_take_Some in Hak as [_ Hk].
  apply list.Forall_forall. intros path Hp. apply list_elem_of_lookup in Hp as [i Hp].
  destruct (Forall2_lookup_l _ _ _ _ _ Ha Hp) as (b & Hb & Hpb). unfold UnixSocketClient_Connect. rewrite Hpb. cbn.
  assert (is_Some (names !! b)) as [x ->]; [|done]. destruct (decide (i = length l)) as [->|Hne].
  - rewrite Hla in Hb. by injection Hb as <-.
  - assert (i < length l)%nat by (apply lookup_lt_Some in Hp; rewrite length_app in Hp; cbn in Hp; lia).
    apply (H1 i); [|lia]. by rewrite lookup_take_lt by lia.
Qed.

(** A client that can connect to the socket of the mapping, which
    is how it tests that the daemon runs, can connect to all sockets of the
    daemon, at every moment of the start and whatever fails in it: that socket
    is the last one bound. *)
Theorem running_means_ready TimeNow env m :
  let paths := daemon_paths (nic_infos_ m) (gpu_rxq_configs_ m) in
  let names_after k := (StartLoop (uds_prefix env) (take k paths) 0 (start_calls env) (names_ m)).2 in
  use_gpu_mem_ env = true -> names_ m = ∅ -> c_string (uds_prefix env) = uds_prefix env ->
  NoDup (info_ip <$> nic_infos_ m) -> NoDup (gpu_pci_addr <$> gpu_rxq_configs_ m) ->
  Forall (fun path => c_string path = path) paths ->
  Forall (fun path => is_ok (UdsSockaddr (uds_prefix env) path) = true) paths ->
  (exists k, names_ (StartServices TimeNow env m).2 = names_after k)
  /\ forall k, is_ok (rxdm_running (uds_prefix env) OkStatus (names_after k)) = true ->
       Forall (fun path => is_ok (UnixSocketClient_Connect (uds_prefix env) path OkStatus (names_after k)) = true) paths.
Proof.
  intros paths names_after Hg Hn Hpre Hi Hd Hc Hok. split; [by apply StartServices_names|].
  intros k Hrun. unfold names_after in *. rewrite Hn in *. clear Hn names_after.
  pose proof (daemon_paths_NoDup _ _ Hi Hd) as Hnd. fold paths in Hnd.
  assert (E : paths = (importer_paths (nic_infos_ m) ++ (NicIpUdsPath ∘ gpu_pci_addr <$> gpu_rxq_configs_ m))
                      ++ [NicMappingUdsPath]) by (unfold paths, daemon_paths, lookup_paths; apply app_assoc).
  clearbody paths. subst paths. apply last_bound; [done..|]. unfold rxdm_running in Hrun. by destruct (UnixSocketClient_Connect _ _ _ _).
Qed.

Lemma running_means_ready_witness :
  let m := mkManager (new_Host Z.of_nat) (ex_config <$> ["1"; "2"]%string)
             (new_NicInfo ∘ ex_config <$> ["1"; "2"]%string) false ∅ in
  let names := (StartLoop "" (daemon_paths (nic_infos_ m) (gpu_rxq_configs_ m)) 0 (fun _ => calls_ok) ∅).2 in
  is_ok (rxdm_running "" OkStatus names) = true
  /\ Forall (fun path => is_ok (UnixSocketClient_Connect "" path OkStatus names) = true)
       (daemon_paths (nic_infos_ m) (gpu_rxq_configs_ m)).
Proof.
  intros m names. split; [vm_compute; reflexivity|].
  apply (running_means_ready Z.of_nat (ex_env false) m) with (k := 5%nat); try reflexivity.
  - by_compute.
  - by_compute.
  - repeat constructor.
  - repeat constructor.
Defined.

(** ** Statistics files *)

Definition starts_with_slash (s : string) : bool :=
  match s with String a _ => Ascii.eqb a (Ascii.ascii_of_N 47) | EmptyString => false end.

Fixpoint ends_with_slash (s : string) : bool :=
  match s with
  | EmptyString => false
  | String a EmptyString => Ascii.eqb a (Ascii.ascii_of_N 47)
  | String _ s' => ends_with_slash s'
  end.

Definition JoinPath (path1 path2 : string) : string :=
  if decide (path1 = EmptyString) then path2
  else if decide (path2 = EmptyString) then path1
  else if ends_with_slash path1 then
    if starts_with_slash path2 then path1 +:+ String.substring 1 (String.length path2 - 1) path2 else path1 +:+ path2
  else if negb (starts_with_slash path2) then (path1 +:+ "/" +:+ path2)%string
  else path1 +:+ path2.

(** The files and their contents. *)
Abbreviation Files := (gmap string string).

(** What the system does: the name [mkstemp] makes, if any, whether [fdopen]
    and [rename] work, and what of a text is written. *)
Record StatsCalls := mkStatsCalls {
  mkstemp : option string;
  fdopen : bool;
  written : string -> string;
  renamed : bool
}.

(** The successive states of the files, the last one first. *)
Definition LogPeriodicStats (nic_metric_directory nic_ifname : string) (goodput_rx_bytes goodput_tx_bytes : N)
    (calls : StatsCalls) (files : Files) : list Files :=
  let stats_file_path := JoinPath nic_metric_directory (nic_ifname +:+ "_stats")%string in
  let stats_str := (pretty goodput_rx_bytes +:+ "," +:+ pretty goodput_tx_bytes)%string in
  match mkstemp calls with
  | None => [files]
  | Some tmp_file_path =>
      let created := <[tmp_file_path := EmptyString]> files in
      if negb (fdopen calls) then [delete tmp_file_path created; created; files]
      else
        let filled := <[tmp_file_path := written calls stats_str]> created in
        if renamed calls
        then [<[stats_file_path := written calls stats_str]> (delete tmp_file_path filled); filled; created; files]
        else [delete tmp_file_path filled; filled; created; files]
  end.

(** A statistics file is replaced atomically: at every moment it has
    its old contents or, completely, the new ones, and in the end no temporary
    file is left and no other file has changed, whichever calls fail, as long as
    what is written is written completely. *)
Theorem stats_atomic dir ifname rx tx calls files :
  let path := JoinPath dir (ifname +:+ "_stats")%string in
  let text := (pretty rx +:+ "," +:+ pretty tx)%string in
  (forall tmp, mkstemp calls = Some tmp -> files !! tmp = None /\ tmp <> path) -> written calls text = text ->
  Forall (fun f => f !! path = files !! path \/ f !! path = Some text) (LogPeriodicStats dir ifname rx tx calls files)
  /\ exists f, head (LogPeriodicStats dir ifname rx tx calls files) = Some f
       /\ (f = files \/ f = <[path := text]> files).
Proof.
  intros path text Htmp Hw. unfold LogPeriodicStats. fold path text. rewrite Hw.
  destruct (mkstemp calls) as [tmp|]; [|by split; [repeat constructor|eauto]].
  destruct (Htmp tmp eq_refl) as [Hn Hne].
  assert (Hd : delete tmp (<[tmp := ""%string]> files) = files) by (by apply delete_insert_id).
  rewrite insert_insert_eq, (delete_insert_id _ tmp text) by done. rewrite Hd.
  destruct (fdopen calls); cbn [negb]; [destruct (renamed calls)|].
  all: split; [|cbn; eauto].
  all: repeat (constructor; [rewrite ?lookup_insert_eq, ?lookup_insert_ne by done; by auto|]); constructor.
Qed.

Lemma stats_atomic_witness :
  let files := {[ "/var/eth1_stats"%string := "0,0"%string; "/var/other"%string := "x"%string ]} in
  let calls := mkStatsCalls (Some "/var/eth1_stats.a1b2c3"%string) true (fun s => s) true in
  Forall (fun f => f !! "/var/eth1_stats"%string = files !! "/var/eth1_stats"%string
                   \/ f !! "/var/eth1_stats"%string = Some "12,7"%string)
    (LogPeriodicStats "/var/" "eth1" 12 7 calls files)
  /\ exists f, head (LogPeriodicStats "/var/" "eth1" 12 7 calls files) = Some f
       /\ (f = files \/ f = <["/var/eth1_stats"%string := "12,7"%string]> files).
Proof.
  apply (stats_atomic "/var/" "eth1" 12 7 (mkStatsCalls (Some "/var/eth1_stats.a1b2c3"%string) true (fun s => s) true)).
  - intros tmp [= <-]. split; [vm_compute; reflexivity|]. vm_compute. discriminate.
  - reflexivity.
Defined.
