(* ===== verification/SctpHandler.v ===== *)
(** * The SCTP control channel
    (dxs/client/sctp-handler.{h,cc}, dxs/sctp-timeout-queue.{h,cc})

    [SctpHandler] runs an SCTP association (a dcSCTP socket) over a UDP socket.
    Threads that poll and the handler thread read the UDP socket under a mutex
    and deliver messages to the receiver without it.  A step of the model is
    what one thread does between taking and releasing the mutex, or one call of
    the receiver; what the dcSCTP library and the system calls do is in the
    steps: a call of the library makes a sequence of callbacks. *)

From S2P Require Import Prelude Packed ControlCommand ControlInterface.

Module SctpTimeoutQueue.

(** ** SctpTimeoutQueue *)

Definition kNanosecondsPerMicrosecond : Z := 1000.
Definition kNanosecondsPerMillisecond : Z := 1000 * kNanosecondsPerMicrosecond.

(** [int64_t] of a [uint64_t]. *)
Definition i64 (x : Z) : Z := (x + 2 ^ 63) mod 2 ^ 64 - 2 ^ 63.

(** [int] of a [long]. *)
Definition i32 (x : Z) : Z := (x + 2 ^ 31) mod 2 ^ 32 - 2 ^ 31.

Definition INT64_MAX : Z := 2 ^ 63 - 1.

(** [SctpTimeout]; [queued] is [heap_index_ >= 0]. *)
Record SctpTimeout := mkTimeout { timeout_id_ : Z; expiration_ : Z; queued : bool }.

(** The timeouts that exist; the priority queue contains the queued ones. *)
Abbreviation Timeouts := (gmap Z SctpTimeout).

(** [None] when an assertion fails, or the timeout does not exist. *)
Definition Start (t clock duration id : Z) (ts : Timeouts) : option Timeouts :=
  timeout ← ts !! t;
  if queued timeout then None
  else Some (<[t := mkTimeout id (i64 (clock + u64 (duration * kNanosecondsPerMillisecond))) true]> ts).

Definition Stop (t : Z) (ts : Timeouts) : option Timeouts :=
  timeout ← ts !! t;
  if queued timeout then Some (<[t := mkTimeout (timeout_id_ timeout) INT64_MAX false]> ts)
  else Some ts.

Definition Restart (t clock duration id : Z) (ts : Timeouts) : option Timeouts :=
  timeout ← ts !! t;
  if queued timeout
  then Some (<[t := mkTimeout id (i64 (clock + u64 (duration * kNanosecondsPerMillisecond))) true]> ts)
  else None.

(** A new timeout, and the destructor, which stops it. *)
Definition CreateTimeout (t : Z) (ts : Timeouts) : option Timeouts :=
  match ts !! t with Some _ => None | None => Some (<[t := mkTimeout 0 0 false]> ts) end.

Definition destroy_SctpTimeout (t : Z) (ts : Timeouts) : option Timeouts :=
  ts ← Stop t ts; Some (delete t ts).

(** What the library does with its timeouts while it handles one. *)
Inductive TimerOp : Set :=
  | OpStart (t clock duration id : Z)
  | OpStop (t : Z)
  | OpRestart (t clock duration id : Z)
  | OpCreate (t : Z)
  | OpDestroy (t : Z).

Definition timer_op (o : TimerOp) (ts : Timeouts) : option Timeouts :=
  match o with
  | OpStart t clock duration id => Start t clock duration id ts
  | OpStop t => Stop t ts
  | OpRestart t clock duration id => Restart t clock duration id ts
  | OpCreate t => CreateTimeout t ts
  | OpDestroy t => destroy_SctpTimeout t ts
  end.

Fixpoint timer_ops (os : list TimerOp) (ts : Timeouts) : option Timeouts :=
  match os with
  | [] => Some ts
  | o :: os => ts ← timer_op o ts; timer_ops os ts
  end.

(** The outcome of [Run]: the ids handled, an assertion that fails, or more
    iterations than the fuel allows. *)
Inductive RunResult :=
  | RunDone (ids : list Z) (ts : Timeouts)
  | RunFailed
  | RunOutOfFuel.

(** The queued timeouts. *)
Definition queue (ts : Timeouts) : Timeouts := filter (fun kt => queued (snd kt) = true) ts.

Section run.
(** [AdjustablePriorityQueue::Top]: a queued timeout that expires first, if
    the queue is not empty. *)
Context (Top : Timeouts -> option Z).
(** What the handler of a timeout does with timeouts, in the [n]-th call. *)
Context (handle : nat -> Z -> list TimerOp).

(** The loop of [Run] at the time [now], with the ids of the timeouts handled
    so far. *)
Fixpoint RunLoop (fuel : nat) (now : Z) (ids : list Z) (ts : Timeouts) : RunResult :=
  match Top (queue ts) with
  | None => RunDone ids ts
  | Some t =>
      match ts !! t with
      | None => RunFailed
      | Some timeout =>
          if expiration_ timeout <=? now then
            match fuel with
            | O => RunOutOfFuel
            | S fuel' =>
                match Stop t ts ≫= timer_ops (handle (length ids) (timeout_id_ timeout)) with
                | None => RunFailed
                | Some ts => RunLoop fuel' now (ids ++ [timeout_id_ timeout]) ts
                end
            end
          else RunDone ids ts
      end
  end.

(** Milliseconds until the next timeout, as an [int]. *)
Definition NextTimeoutMilliseconds (clock : Z) (ts : Timeouts) : option Z :=
  t ← Top (queue ts);
  timeout ← ts !! t;
  let expiration_nanos := expiration_ timeout - clock in
  Some (i32 (Z.max 0 (Z.quot (expiration_nanos + (kNanosecondsPerMillisecond - 1)) kNanosecondsPerMillisecond))).
End run.

(** ** What [Run] does *)

(** [Top] returns a queued timeout that expires first. *)
Definition top_ok (Top : Timeouts -> option Z) : Prop :=
  forall q, match Top q with
            | None => q = ∅
            | Some t => exists timeout, q !! t = Some timeout
                /\ forall t' timeout', q !! t' = Some timeout' -> expiration_ timeout <= expiration_ timeout'
            end.

(** The queued timeouts that have expired. *)
Definition expired (now : Z) (ts : Timeouts) : Timeouts :=
  filter (fun kt => queued (snd kt) = true /\ expiration_ (snd kt) <= now) ts.

(** Timeouts are started for the future. *)
Definition op_future (now : Z) (o : TimerOp) : Prop :=
  match o with
  | OpStart _ clock duration _ | OpRestart _ clock duration _ =>
      now < i64 (clock + u64 (duration * kNanosecondsPerMillisecond))
  | _ => True
  end.

Lemma lookup_expired now ts t timeout :
  expired now ts !! t = Some timeout <-> ts !! t = Some timeout /\ queued timeout = true /\ expiration_ timeout <= now.
Proof. unfold expired. by rewrite map_lookup_filter_Some. Qed.

Lemma lookup_queue ts t timeout :
  queue ts !! t = Some timeout <-> ts !! t = Some timeout /\ queued timeout = true.
Proof. unfold queue. by rewrite map_lookup_filter_Some. Qed.

Lemma expired_none now ts :
  (forall t timeout, queue ts !! t = Some timeout -> now < expiration_ timeout) -> expired now ts = ∅.
Proof.
  intros Hq. apply map_eq. intros t. rewrite lookup_empty. apply eq_None_not_Some. intros [x Hx].
  apply lookup_expired in Hx. assert (now < expiration_ x) by (apply (Hq t), lookup_queue; tauto). lia.
Qed.

Lemma expired_insert now ts t timeout :
  ~ (queued timeout = true /\ expiration_ timeout <= now) ->
  expired now (<[t := timeout]> ts) ⊆ delete t (expired now ts).
Proof.
  intros Hn. apply map_subseteq_spec. intros t' x. rewrite lookup_expired, lookup_delete_Some, lookup_expired.
  destruct (decide (t' = t)) as [->|Hne].
  - rewrite lookup_insert_eq. naive_solver.
  - rewrite lookup_insert_ne by done. naive_solver.
Qed.

Lemma timer_op_expired now o ts ts' :
  op_future now o -> timer_op o ts = Some ts' -> expired now ts' ⊆ expired now ts.
Proof.
  assert (Hins : forall t timeout, ~ (queued timeout = true /\ expiration_ timeout <= now) ->
                   expired now (<[t := timeout]> ts) ⊆ expired now ts).
  { intros t timeout Hn. etrans; [by apply expired_insert|apply delete_subseteq]. }
  assert (Hdel : forall t (ts0 : Timeouts), expired now (delete t ts0) ⊆ expired now ts0).
  { intros t ts0. apply map_subseteq_spec. intros t' x. rewrite !lookup_expired, lookup_delete_Some. naive_solver. }
  destruct o as [t clock d id|t|t clock d id|t|t]; cbn; intros Hf.
  - intros (x & _ & H)%bind_Some. destruct (queued x); [done|]. injection H as <-. apply Hins. cbn. lia.
  - intros (x & _ & H)%bind_Some. destruct (queued x); injection H as <-; [|done]. apply Hins. cbn. naive_solver.
  - intros (x & _ & H)%bind_Some. destruct (queued x); [|done]. injection H as <-. apply Hins. cbn. lia.
  - unfold CreateTimeout. destruct (ts !! t); [done|]. intros [= <-]. apply Hins. cbn. naive_solver.
  - unfold destroy_SctpTimeout, Stop. intros (ts1 & (x & _ & H)%bind_Some & [= <-])%bind_Some.
    etrans; [apply Hdel|]. destruct (queued x); injection H as <-; [|done]. apply Hins. cbn. naive_solver.
Qed.

Lemma timer_ops_expired now os : forall ts ts',
  Forall (op_future now) os -> timer_ops os ts = Some ts' -> expired now ts' ⊆ expired now ts.
Proof.
  induction os as [|o os IH]; intros ts ts' Hf; cbn; [by intros [= <-]|].
  inversion_clear Hf. intros (ts1 & Ho & Hos)%bind_Some. etrans; [by eapply IH|by eapply timer_op_expired].
Qed.

(** The ids of timeouts, as a multiset. *)
Definition ids_of (ts : Timeouts) : list Z := timeout_id_ ∘ snd <$> map_to_list ts.

Lemma ids_of_subseteq ts ts' : ts ⊆ ts' -> ids_of ts ⊆+ ids_of ts'.
Proof. intros Hs. unfold ids_of. by apply fmap_submseteq, map_to_list_submseteq. Qed.

Lemma ids_of_delete ts t timeout : ts !! t = Some timeout -> timeout_id_ timeout :: ids_of (delete t ts) ≡ₚ ids_of ts.
Proof. intros Ht. unfold ids_of. rewrite <- (map_to_list_delete ts t timeout Ht). done. Qed.

Section run_correct.
Context (Top : Timeouts -> option Z) (Top_ok : top_ok Top).
Context (handle : nat -> Z -> list TimerOp) (now : Z).
Context (handle_future : forall n id, Forall (op_future now) (handle n id)).

Lemma RunLoop_correct fuel : forall ids ts,
  (size (expired now ts) <= fuel)%nat ->
  match RunLoop Top handle fuel now ids ts with
  | RunDone ids' ts' => (exists fired, ids' = ids ++ fired /\ fired ⊆+ ids_of (expired now ts))
      /\ expired now ts' = ∅
  | RunFailed => True
  | RunOutOfFuel => False
  end.
Proof using Top_ok handle_future.
  induction fuel as [|fuel IH]; intros ids ts Hf; cbn [RunLoop].
  all: pose proof (Top_ok (queue ts)) as Ht; destruct (Top (queue ts)) as [t|].
  2,4: split; [exists []; rewrite app_nil_r; split; [done|apply submseteq_nil_l]|];
       apply expired_none; by rewrite Ht.
  all: destruct Ht as (x & (Htx & Hqx)%lookup_queue & Hmin); rewrite Htx.
  all: destruct (Z.leb_spec (expiration_ x) now) as [Hle|Hgt].
  2,4: split; [exists []; rewrite app_nil_r; split; [done|apply submseteq_nil_l]|];
       apply expired_none; intros t' y Hq; specialize (Hmin _ _ Hq); lia.
  all: assert (Hx : expired now ts !! t = Some x) by (by apply lookup_expired).
  { exfalso. assert (size (expired now ts) = 0%nat) as E%map_size_empty_inv by lia. by rewrite E in Hx. }
  assert (Stop t ts = Some (<[t := mkTimeout (timeout_id_ x) INT64_MAX false]> ts)) as ->
    by (unfold Stop; rewrite Htx; cbn; by rewrite Hqx).
  cbn [mbind option_bind]. destruct (timer_ops _ _) as [ts1|] eqn:Eo; [|done].
  assert (Hsub : expired now ts1 ⊆ delete t (expired now ts)).
  { etrans; [by eapply timer_ops_expired|]. apply expired_insert. cbn. naive_solver. }
  specialize (IH (ids ++ [timeout_id_ x]) ts1). destruct (RunLoop _ _ _ _ _ _) as [ids' ts'| |]; [|done|].
  all: assert (size (expired now ts1) <= fuel)%nat as Hsz
         by (apply map_subseteq_size in Hsub; rewrite map_size_delete_Some in Hsub by eauto; lia).
  2: by apply IH.
  destruct (IH Hsz) as ((fired & -> & Hfired) & Hno). split; [|done].
  exists (timeout_id_ x :: fired). rewrite <- app_assoc. split; [done|].
  rewrite <- (ids_of_delete _ _ _ Hx). apply submseteq_skip. etrans; [exact Hfired|]. by apply ids_of_subseteq.
Qed.

(** [Run] handles at most one call per timeout that has
    expired when it starts, provided the handler starts timeouts only for the
    future; then no queued timeout has expired, and the ids handled are ids of
    timeouts that had expired, each at most once. *)
Theorem run_terminates ts :
  match RunLoop Top handle (size (expired now ts)) now [] ts with
  | RunDone ids ts' => ids ⊆+ ids_of (expired now ts) /\ expired now ts' = ∅
  | RunFailed => True
  | RunOutOfFuel => False
  end.
Proof using Top_ok handle_future.
  pose proof (RunLoop_correct (size (expired now ts)) [] ts (le_n _)) as H.
  destruct (RunLoop _ _ _ _ _ _); [|done..]. by destruct H as ((fired & -> & Hf) & Hn).
Qed.

(** The number of milliseconds [NextTimeoutMilliseconds] returns is
    the least after which the first timeout has expired: a caller that sleeps
    that long finds it expired, one that sleeps a millisecond less does not. *)
Theorem next_timeout_least clock ts ms :
  NextTimeoutMilliseconds Top clock ts = Some ms ->
  (forall t timeout, queue ts !! t = Some timeout ->
     expiration_ timeout - clock <= (2 ^ 31 - 1) * kNanosecondsPerMillisecond) ->
  0 <= ms
  /\ (exists t timeout, queue ts !! t = Some timeout
        /\ expiration_ timeout <= clock + ms * kNanosecondsPerMillisecond)
  /\ (0 < ms -> forall t timeout, queue ts !! t = Some timeout ->
        clock + (ms - 1) * kNanosecondsPerMillisecond < expiration_ timeout).
Proof using Top_ok.
  unfold NextTimeoutMilliseconds. intros (t & Ht & (x & Hx & Hms)%bind_Some)%bind_Some Hb.
  pose proof (Top_ok (queue ts)) as Hq. rewrite Ht in Hq. destruct Hq as (y & Hy & Hmin).
  pose proof Hy as [Hy' _]%lookup_queue. rewrite Hx in Hy'. injection Hy' as <-.
  specialize (Hb t x Hy). injection Hms as <-. unfold i32, kNanosecondsPerMillisecond, kNanosecondsPerMicrosecond in *.
  set (d := expiration_ x - clock) in *.
  assert (Hd : d <= 0 /\ Z.max 0 (Z.quot (d + (1000 * 1000 - 1)) (1000 * 1000)) = 0
               \/ 0 < d /\ Z.max 0 (Z.quot (d + (1000 * 1000 - 1)) (1000 * 1000)) = (d + 999999) / 1000000).
  { destruct (Z.le_gt_cases d 0) as [Hle|Hgt]; [left|right]; (split; [done|]).
    - destruct (Z.le_gt_cases 0 (d + 999999)).
      + rewrite Z.quot_div_nonneg by lia. dmlia.
      + rewrite <- (Z.opp_involutive (d + (1000 * 1000 - 1))), Z.quot_opp_l by lia.
        rewrite Z.quot_div_nonneg by lia. dmlia.
    - rewrite Z.quot_div_nonneg by lia. dmlia. }
  destruct Hd as [[Hd ->]|[Hd ->]].
  - change ((0 + 2 ^ 31) mod 2 ^ 32 - 2 ^ 31) with 0. split; [lia|]. split; [|lia]. exists t, x. split; [done|]. lia.
  - assert (Hr : 0 <= (d + 999999) / 1000000 < 2 ^ 31) by dmlia.
    rewrite Z.mod_small by lia. split; [lia|]. split.
    + exists t, x. split; [done|]. subst d. dmlia.
    + intros _ t' y' Hy'%Hmin. subst d. dmlia.
Qed.
End run_correct.

(** A [Top] by linear search. *)
Definition earliest (t : Z) (timeout : SctpTimeout) (acc : option (Z * SctpTimeout)) : option (Z * SctpTimeout) :=
  match acc with
  | Some (_, best) => if expiration_ timeout <? expiration_ best then Some (t, timeout) else acc
  | None => Some (t, timeout)
  end.

Definition linear_Top (q : Timeouts) : option Z := fst <$> map_fold earliest None q.

Lemma linear_Top_ok : top_ok linear_Top.
Proof.
  intros q. unfold linear_Top. cut (match map_fold earliest None q with
    | None => q = ∅
    | Some (t, timeout) => q !! t = Some timeout
        /\ forall t' timeout', q !! t' = Some timeout' -> expiration_ timeout <= expiration_ timeout'
    end); [destruct (map_fold _ _ _) as [[t x]|]; cbn; eauto|].
  apply (map_fold_weak_ind (fun acc q => match acc with
    | None => q = ∅
    | Some (t, timeout) => q !! t = Some timeout
        /\ forall t' timeout', q !! t' = Some timeout' -> expiration_ timeout <= expiration_ timeout'
    end)); [done|].
  intros t x q' acc Hn IH. destruct acc as [[t1 x1]|]; cbn.
  - destruct IH as [H1 Hmin]. destruct (Z.ltb_spec (expiration_ x) (expiration_ x1)).
    + rewrite lookup_insert_eq. split; [done|]. intros t' y. destruct (decide (t' = t)) as [->|].
      * rewrite lookup_insert_eq. intros [= <-]. lia.
      * rewrite lookup_insert_ne by done. intros ?%Hmin. lia.
    + rewrite lookup_insert_ne by congruence. split; [done|]. intros t' y. destruct (decide (t' = t)) as [->|].
      * rewrite lookup_insert_eq. intros [= <-]. lia.
      * rewrite lookup_insert_ne by done. apply Hmin.
  - subst q'. rewrite lookup_insert_eq. split; [done|]. intros t' y. destruct (decide (t' = t)) as [->|].
    * rewrite lookup_insert_eq. intros [= <-]. lia.
    * by rewrite lookup_insert_ne.
Qed.

Definition ex_timeouts : Timeouts :=
  {[1 := mkTimeout 10 500 true; 2 := mkTimeout 20 2000000 true; 3 := mkTimeout 30 900 true]}.

(** The timeout 10 is restarted when it expires. *)
Definition ex_handle (n : nat) (id : Z) : list TimerOp :=
  if id =? 10 then [OpStart 1 1000 5 11] else [].

Lemma run_terminates_witness :
  match RunLoop linear_Top ex_handle (size (expired 1000 ex_timeouts)) 1000 [] ex_timeouts with
  | RunDone ids ts' => ids ⊆+ ids_of (expired 1000 ex_timeouts) /\ expired 1000 ts' = ∅
  | RunFailed => True
  | RunOutOfFuel => False
  end
  /\ match RunLoop linear_Top ex_handle (size (expired 1000 ex_timeouts)) 1000 [] ex_timeouts with
     | RunDone ids _ => ids = [10; 30]
     | _ => False
     end.
Proof.
  split; [|vm_compute; reflexivity].
  apply (run_terminates linear_Top linear_Top_ok ex_handle 1000).
  intros n id. unfold ex_handle. case_match; constructor; [|constructor]. vm_compute. reflexivity.
Defined.

Lemma next_timeout_least_witness :
  NextTimeoutMilliseconds linear_Top 0 (<[1 := mkTimeout 10 3500001 true]> ∅) = Some 4
  /\ 0 <= 4
  /\ (exists t timeout, queue (<[1 := mkTimeout 10 3500001 true]> ∅) !! t = Some timeout
        /\ expiration_ timeout <= 0 + 4 * kNanosecondsPerMillisecond)
  /\ (0 < 4 -> forall t timeout, queue (<[1 := mkTimeout 10 3500001 true]> ∅) !! t = Some timeout ->
        0 + (4 - 1) * kNanosecondsPerMillisecond < expiration_ timeout).
Proof.
  split; [vm_compute; reflexivity|].
  apply (next_timeout_least linear_Top linear_Top_ok 0 (<[1 := mkTimeout 10 3500001 true]> ∅) 4);
    [vm_compute; reflexivity|].
  intros t timeout [[[_ <-]|[_ H]]%lookup_insert_Some _]%lookup_queue; [vm_compute; discriminate|].
  by rewrite lookup_empty in H.
Defined.

End SctpTimeoutQueue.

Module SctpHandler.

Definition kMaxMessageSize : Z := 10 * 1024.

(** ** State *)

(** Callbacks of the dcSCTP socket that change the handler. *)
Inductive Callback : Type :=
  | CbMessageReceived (message : list Z)
  | CbAborted
  | CbClosed
  | CbConnectionRestarted.

(** Where the handler thread is: before an iteration, delivering messages
    without the mutex, or gone; [clean_shutdown] is its local variable. *)
Inductive HandlerPc : Type :=
  | HTop (clean_shutdown : bool)
  | HDeliver (clean_shutdown : bool) (received : list (list Z))
  | HExited (clean_shutdown : bool).

(** [pollers] has the threads that deliver messages in [RxPoll], with what is
    left of their batch.  [arrived], [delivered] and [failures] record the
    messages the socket produced, the calls of [ReceiveControlMessage], and the
    number of calls of [OnControlChannelFailure]. *)
Record SctpHandler := mkSctp {
  running_ : bool;
  shutting_down_ : bool;
  connected_ : bool;
  active_receive_ : bool;
  receive_buffer_ : list (list Z);
  handler_thread_ : HandlerPc;
  pollers : gmap nat (list (list Z));
  arrived : list (list Z);
  delivered : list (list Z);
  failures : nat
}.

(** After [Init]. *)
Definition initialized : SctpHandler :=
  mkSctp true false true false [] (HTop false) ∅ [] [] 0.

(** The options of the dcSCTP socket; times in milliseconds. *)
Record DcSctpOptions := mkOptions {
  local_port : Z;
  remote_port : Z;
  max_send_buffer_size : Z;
  max_message_size : Z;
  delayed_ack_max_timeout : Z;
  rto_min : Z;
  rto_max : Z;
  rto_initial : Z;
  min_rtt_variance : Z;
  max_retransmissions : Z;
  heartbeat_interval : Z;
  max_burst : Z;
  avoid_fragmentation_cwnd_mtus : Z;
  mtu : Z
}.

Definition sizeof_ip6_hdr : Z := 40.
Definition sizeof_udphdr : Z := 8.

(** [Init]: [None] when it returns false, else [mtu_], the options and the
    handler; [set_rcvbuf] and [get_mtu] are the outcomes of the two calls of
    the system. *)
Definition Init (dxs_socket_mtu_testonly dxs_sctp_max_retransmissions local_port_ remote_port_ : Z)
    (set_rcvbuf : bool) (get_mtu : option Z) : option (Z * DcSctpOptions * SctpHandler) :=
  if negb set_rcvbuf then None
  else
    mtu_ ← if dxs_socket_mtu_testonly =? 0 then get_mtu else Some dxs_socket_mtu_testonly;
    Some (mtu_,
          mkOptions local_port_ remote_port_ (2 ^ 64 - 1) kMaxMessageSize 1 2 1000 2 20
            dxs_sctp_max_retransmissions 1000 (2 ^ 31 - 1) (Z.shiftl 1 16)
            (u64 (mtu_ - sizeof_ip6_hdr - sizeof_udphdr)),
          initialized).

Definition set_connected (c : bool) (s : SctpHandler) : SctpHandler :=
  mkSctp (running_ s) (shutting_down_ s) c (active_receive_ s) (receive_buffer_ s)
    (handler_thread_ s) (pollers s) (arrived s) (delivered s) (failures s).

Definition OnMessageReceived (message : list Z) (s : SctpHandler) : SctpHandler :=
  mkSctp (running_ s) (shutting_down_ s) (connected_ s) (active_receive_ s) (receive_buffer_ s ++ [message])
    (handler_thread_ s) (pollers s) (arrived s ++ [message]) (delivered s) (failures s).

Definition callback (c : Callback) (s : SctpHandler) : SctpHandler :=
  match c with
  | CbMessageReceived message => OnMessageReceived message s
  | CbAborted | CbClosed | CbConnectionRestarted => set_connected false s
  end.

(** A call of the library. *)
Definition callbacks (cs : list Callback) (s : SctpHandler) : SctpHandler :=
  foldl (fun s c => callback c s) s cs.

(** ** Operations *)

(** What [recvmsg] returns; a packet makes the socket call back. *)
Inductive RecvResult : Type :=
  | RecvError
  | RecvNothing
  | RecvTruncated
  | RecvPacket (cs : list Callback).

(** The loop of [ReadSocket] that reads packets. *)
Fixpoint ReadPackets (rs : list RecvResult) (s : SctpHandler) : SctpHandler :=
  match rs with
  | RecvPacket cs :: rs => ReadPackets rs (callbacks cs s)
  | _ => s
  end.

Definition set_active (a : bool) (buffer : list (list Z)) (s : SctpHandler) : SctpHandler :=
  mkSctp (running_ s) (shutting_down_ s) (connected_ s) a buffer
    (handler_thread_ s) (pollers s) (arrived s) (delivered s) (failures s).

(** The test of the loop that delivers: the batch to deliver without the
    mutex, or [None] when [ReadSocket] returns. *)
Definition NextBatch (s : SctpHandler) : option (list (list Z)) * SctpHandler :=
  match receive_buffer_ s with
  | [] => (None, set_active false [] s)
  | received => (Some received, set_active true [] s)
  end.

(** [ReadSocket] until it releases the mutex for the first time. *)
Definition ReadSocket (rs : list RecvResult) (s : SctpHandler)
    : option (list (list Z)) * SctpHandler :=
  let s := ReadPackets rs s in
  if active_receive_ s then (None, s)
  else NextBatch (set_active true (receive_buffer_ s) s).

Definition set_poller (t : nat) (batch : option (list (list Z))) (s : SctpHandler) : SctpHandler :=
  mkSctp (running_ s) (shutting_down_ s) (connected_ s) (active_receive_ s) (receive_buffer_ s)
    (handler_thread_ s) (match batch with Some l => <[t := l]> (pollers s) | None => delete t (pollers s) end)
    (arrived s) (delivered s) (failures s).

Definition set_handler (pc : HandlerPc) (s : SctpHandler) : SctpHandler :=
  mkSctp (running_ s) (shutting_down_ s) (connected_ s) (active_receive_ s) (receive_buffer_ s)
    pc (pollers s) (arrived s) (delivered s) (failures s).

(** A call of [Receiver().ReceiveControlMessage]. *)
Definition deliver (message : list Z) (s : SctpHandler) : SctpHandler :=
  mkSctp (running_ s) (shutting_down_ s) (connected_ s) (active_receive_ s) (receive_buffer_ s)
    (handler_thread_ s) (pollers s) (arrived s) (delivered s ++ [message]) (failures s).

(** The handler thread returns from [RunSctpHandler]; the cleanup reports a
    failure unless the shutdown was requested. *)
Definition handler_exit (clean_shutdown : bool) (s : SctpHandler) : SctpHandler :=
  mkSctp (running_ s) (shutting_down_ s) (connected_ s) (active_receive_ s) (receive_buffer_ s)
    (HExited clean_shutdown) (pollers s) (arrived s) (delivered s)
    (if clean_shutdown then failures s else S (failures s)).

(** The rest of an iteration of [RunSctpHandler], after [ReadSocket];
    [timeouts] are the callbacks of [timeout_queue_->Run()]. *)
Definition FinishIteration (clean_shutdown : bool) (timeouts : list Callback) (s : SctpHandler)
    : SctpHandler :=
  if negb (connected_ s) then handler_exit clean_shutdown s
  else set_handler (HTop clean_shutdown) (callbacks timeouts s).

Definition AfterRead (clean_shutdown : bool) (timeouts : list Callback)
    (r : option (list (list Z)) * SctpHandler) : SctpHandler :=
  match r with
  | (Some received, s) => set_handler (HDeliver clean_shutdown received) s
  | (None, s) => FinishIteration clean_shutdown timeouts s
  end.

(** An iteration of [RunSctpHandler] until the mutex is released;
    [shutdown_cbs] are the callbacks of [sctp_socket_->Shutdown()]. *)
Definition RunSctpHandler (shutdown_cbs : list Callback) (rs : list RecvResult) (timeouts : list Callback)
    (clean_shutdown : bool) (s : SctpHandler) : SctpHandler :=
  if negb (running_ s) then handler_exit clean_shutdown s
  else
    let '(clean_shutdown, s) :=
      if shutting_down_ s then
        (true, callbacks shutdown_cbs
                 (mkSctp (running_ s) false (connected_ s) (active_receive_ s) (receive_buffer_ s)
                    (handler_thread_ s) (pollers s) (arrived s) (delivered s) (failures s)))
      else (clean_shutdown, s) in
    AfterRead clean_shutdown timeouts (ReadSocket rs s).

(** [SendControlMessage]; [sent] is whether the socket accepts the message,
    [cs] and [close_cs] are the callbacks of [Send] and of [Close]. *)
Definition SendControlMessage (buffer : list Z) (sent : bool) (cs close_cs : list Callback) (s : SctpHandler)
    : Status * SctpHandler :=
  if kMaxMessageSize <? Zlen buffer then (Err kInvalidArgument, s)
  else if Zlen buffer =? 0 then (Err kInvalidArgument, s)
  else if negb (connected_ s) then (Err kFailedPrecondition, s)
  else
    let s := callbacks cs s in
    if sent then (OkStatus, s)
    else (Err kInternal, set_connected false (callbacks close_cs s)).

Definition set_running (r sd : bool) (s : SctpHandler) : SctpHandler :=
  mkSctp r sd (connected_ s) (active_receive_ s) (receive_buffer_ s)
    (handler_thread_ s) (pollers s) (arrived s) (delivered s) (failures s).

(** The status, unless the caller waits. *)
Definition Shutdown_begin (s : SctpHandler) : option Status * SctpHandler :=
  if running_ s then (None, set_running true true s) else (Some OkStatus, s).

(** The end of the wait; [None] while the caller still waits. *)
Definition Shutdown_end (timed_out : bool) (s : SctpHandler) : option (Status * SctpHandler) :=
  if negb (connected_ s) then Some (OkStatus, s)
  else if timed_out then Some (Err kDeadlineExceeded, set_running false (shutting_down_ s) s)
  else None.

Definition HealthCheck (s : SctpHandler) : bool := connected_ s.

(** [SendPacketWithStatus]: [true] for [kSuccess]; [result] is what [send]
    returns. *)
Definition SendPacketWithStatus (mtu_ result : Z) (data : list Z) : bool :=
  if mtu_ <? Zlen data then false else result =? Zlen data.

(** ** Interleavings *)

(** The steps of the threads: a poller begins [RxPoll], delivers a message,
    comes back for the mutex; so does the handler thread; any thread sends or
    shuts the channel down.  The end of a shutdown is a step of its own that any
    thread may take at any time. *)
Inductive Label : Type :=
  | LPoll (t : nat) (rs : list RecvResult)
  | LPollDeliver (t : nat)
  | LPollResume (t : nat)
  | LHandler (shutdown_cbs : list Callback) (rs : list RecvResult) (timeouts : list Callback)
  | LHandlerDeliver
  | LHandlerResume (timeouts : list Callback)
  | LSend (buffer : list Z) (sent : bool) (cs close_cs : list Callback)
  | LShutdown
  | LShutdownEnd (timed_out : bool).

Definition step (l : Label) (s : SctpHandler) : option SctpHandler :=
  match l with
  | LPoll t rs =>
      match pollers s !! t with
      | Some _ => None
      | None => let '(batch, s) := ReadSocket rs s in Some (set_poller t batch s)
      end
  | LPollDeliver t =>
      match pollers s !! t with
      | Some (message :: batch) => Some (set_poller t (Some batch) (deliver message s))
      | _ => None
      end
  | LPollResume t =>
      match pollers s !! t with
      | Some [] => let '(batch, s) := NextBatch s in Some (set_poller t batch s)
      | _ => None
      end
  | LHandler shutdown_cbs rs timeouts =>
      match handler_thread_ s with
      | HTop clean => Some (RunSctpHandler shutdown_cbs rs timeouts clean s)
      | _ => None
      end
  | LHandlerDeliver =>
      match handler_thread_ s with
      | HDeliver clean (message :: batch) => Some (set_handler (HDeliver clean batch) (deliver message s))
      | _ => None
      end
  | LHandlerResume timeouts =>
      match handler_thread_ s with
      | HDeliver clean [] => Some (AfterRead clean timeouts (NextBatch s))
      | _ => None
      end
  | LSend buffer sent cs close_cs => Some (snd (SendControlMessage buffer sent cs close_cs s))
  | LShutdown => Some (snd (Shutdown_begin s))
  | LShutdownEnd timed_out => snd <$> Shutdown_end timed_out s
  end.

(** A schedule; [None] when a step is not enabled. *)
Definition run (ls : list Label) (s : SctpHandler) : option SctpHandler :=
  foldl (fun o l => o ≫= step l) (Some s) ls.

(** Whether the handler thread delivers messages. *)
Definition handler_delivers (s : SctpHandler) : Prop :=
  match handler_thread_ s with HDeliver _ _ => True | _ => False end.

(** The thread that delivers [batch], if any, has set [active_receive_]; what
    arrived is delivered, in its batch, or in the buffer. *)
Definition sctp_inv (s : SctpHandler) (batch : list (list Z)) : Prop :=
  arrived s = delivered s ++ batch ++ receive_buffer_ s
  /\ if active_receive_ s
     then ((exists t, pollers s = {[t := batch]}) /\ ~ handler_delivers s)
          \/ (pollers s = ∅ /\ exists clean, handler_thread_ s = HDeliver clean batch)
     else pollers s = ∅ /\ ~ handler_delivers s /\ batch = [].

(** Callbacks change the connection state and append to the buffer. *)
Lemma callbacks_frame cs : forall s, exists msgs c,
  callbacks cs s = mkSctp (running_ s) (shutting_down_ s) c (active_receive_ s) (receive_buffer_ s ++ msgs)
    (handler_thread_ s) (pollers s) (arrived s ++ msgs) (delivered s) (failures s)
  /\ (connected_ s = false -> c = false).
Proof.
  induction cs as [|c cs IH]; intros s.
  - exists [], (connected_ s). rewrite !app_nil_r. by destruct s.
  - destruct (IH (callback c s)) as (msgs & cn & E & Hc).
    change (callbacks (c :: cs) s) with (callbacks cs (callback c s)). rewrite E.
    destruct c as [m| | |]; cbn in *; [exists (m :: msgs), cn; by rewrite <- !app_assoc|..];
      exists msgs, cn; (split; [done|]); intros _; by apply Hc.
Qed.

Lemma ReadPackets_callbacks rs : forall s, exists cs, ReadPackets rs s = callbacks cs s.
Proof.
  induction rs as [|[| | |cs] rs IH]; intros s; cbn; try (by exists []).
  destruct (IH (callbacks cs s)) as [cs' ->]. exists (cs ++ cs'). unfold callbacks. by rewrite foldl_app.
Qed.

Lemma callbacks_inv cs s batch : sctp_inv s batch -> sctp_inv (callbacks cs s) batch.
Proof.
  intros [Ha Ho]. destruct (callbacks_frame cs s) as (msgs & c & -> & _). split; [|done].
  cbn. rewrite Ha, <- !app_assoc. done.
Qed.

(** The delivering thread is the only one. *)
Lemma poller_owns s batch t l :
  sctp_inv s batch -> pollers s !! t = Some l ->
  active_receive_ s = true /\ pollers s = {[t := batch]} /\ l = batch /\ ~ handler_delivers s.
Proof.
  intros [_ Ho] Ht. destruct (active_receive_ s).
  - destruct Ho as [[[t' E] Hn]|[E _]]; rewrite E in Ht; [|done].
    apply lookup_singleton_Some in Ht as [-> ->]. by rewrite E.
  - destruct Ho as (E & _). by rewrite E in Ht.
Qed.

Lemma handler_owns s batch clean l :
  sctp_inv s batch -> handler_thread_ s = HDeliver clean l ->
  active_receive_ s = true /\ pollers s = ∅ /\ l = batch.
Proof.
  intros [_ Ho] Hh. unfold handler_delivers in Ho. rewrite Hh in Ho. destruct (active_receive_ s).
  - destruct Ho as [[_ []]|[E (c & [= <- <-])]]; done.
  - by destruct Ho as (_ & [] & _).
Qed.

(** The thread that may deliver takes the buffer, or releases the flag. *)
Lemma NextBatch_poller s t :
  arrived s = delivered s ++ receive_buffer_ s -> delete t (pollers s) = ∅ -> ~ handler_delivers s ->
  let '(batch, s') := NextBatch s in sctp_inv (set_poller t batch s') (default [] batch).
Proof.
  intros Ha Hp Hh. unfold NextBatch. destruct (receive_buffer_ s) as [|m l].
  - split; [done|]. cbn. by rewrite Hp.
  - split; [cbn; by rewrite app_nil_r|]. cbn. left. split; [|done]. exists t.
    by rewrite <- insert_delete_eq, Hp.
Qed.

Lemma NextBatch_handler s clean timeouts :
  arrived s = delivered s ++ receive_buffer_ s -> pollers s = ∅ ->
  exists batch, sctp_inv (AfterRead clean timeouts (NextBatch s)) batch.
Proof.
  intros Ha Hp. unfold NextBatch. destruct (receive_buffer_ s) as [|m l] eqn:Eb; cbn.
  - exists []. unfold FinishIteration. cbn. destruct (connected_ s); cbn; [|split; [done|]; cbn; tauto].
    destruct (callbacks_frame timeouts (set_active false [] s)) as (msgs & c & -> & _).
    split; cbn; [by rewrite Ha, app_nil_r|tauto].
  - exists (m :: l). split; cbn; [by rewrite app_nil_r|]. right. eauto.
Qed.

Lemma ReadSocket_handler s batch rs clean timeouts :
  sctp_inv s batch -> ~ handler_delivers s ->
  exists batch', sctp_inv (AfterRead clean timeouts (ReadSocket rs s)) batch'.
Proof.
  intros Hi Hn. unfold ReadSocket. destruct (ReadPackets_callbacks rs s) as [cs ->].
  pose proof (callbacks_inv cs s batch Hi) as [Ha Ho].
  assert (Hh : ~ handler_delivers (callbacks cs s)).
  { destruct (callbacks_frame cs s) as (msgs & c & -> & _). exact Hn. }
  destruct (active_receive_ (callbacks cs s)) eqn:Eact.
  - exists batch. destruct Ho as [[Hp _]|[_ [c Hd]]]; [|unfold handler_delivers in Hh; by rewrite Hd in Hh].
    cbn. unfold FinishIteration. destruct (negb _).
    + split; [done|]. cbn. rewrite Eact. left. split; [exact Hp|cbn; tauto].
    + destruct (callbacks_frame timeouts (callbacks cs s)) as (msgs & c & -> & _).
      split; cbn; [by rewrite Ha, <- !app_assoc|]. rewrite Eact. left. split; [exact Hp|cbn; tauto].
  - destruct Ho as (Hp & _ & ->). by apply NextBatch_handler.
Qed.

Lemma step_inv l s s' batch : sctp_inv s batch -> step l s = Some s' -> exists batch', sctp_inv s' batch'.
Proof.
  intros Hi. destruct l as [t rs|t|t|scbs rs timeouts| |timeouts|buf sent cs ccs| |timed_out]; cbn.
  - destruct (pollers s !! t) eqn:Et; [done|]. unfold ReadSocket.
    destruct (ReadPackets_callbacks rs s) as [cs ->]. pose proof (callbacks_inv cs s batch Hi) as Hi1.
    assert (Et1 : pollers (callbacks cs s) !! t = None).
    { destruct (callbacks_frame cs s) as (msgs & c & -> & _). done. }
    set (s1 := callbacks cs s) in *. destruct (active_receive_ s1) eqn:Ea.
    + intros [= <-]. exists batch. destruct Hi1 as [Ha Ho]. split; [done|]. cbn. by rewrite delete_id.
    + destruct Hi1 as [Ha Ho]. rewrite Ea in Ho. destruct Ho as (Hp & Hh & ->).
      pose proof (NextBatch_poller (set_active true (receive_buffer_ s1) s1) t Ha) as Hnb.
      destruct (NextBatch _) as [b s2]. intros [= <-]. eexists. apply Hnb; [cbn; by rewrite Hp, delete_empty|done].
  - destruct (pollers s !! t) as [[|m l]|] eqn:Et; [done| |done]. intros [= <-].
    destruct (poller_owns _ _ _ _ Hi Et) as (Ea & Hp & <- & Hh). exists l. destruct Hi as [Ha _].
    split; [cbn; by rewrite Ha, <- app_assoc|]. cbn. rewrite Ea. left. split; [|done]. exists t.
    by rewrite Hp, insert_singleton_eq.
  - destruct (pollers s !! t) as [[|m l]|] eqn:Et; [|done..].
    destruct (poller_owns _ _ _ _ Hi Et) as (Ea & Hp & <- & Hh). destruct Hi as [Ha _].
    pose proof (NextBatch_poller s t Ha) as Hnb. destruct (NextBatch s) as [b s2]. intros [= <-].
    eexists. apply Hnb; [by rewrite Hp, delete_singleton_eq|done].
  - destruct (handler_thread_ s) as [clean| |] eqn:Eh; [|done..]. intros [= <-].
    assert (Hn : ~ handler_delivers s) by (unfold handler_delivers; rewrite Eh; tauto).
    unfold RunSctpHandler. destruct (negb (running_ s)).
    { exists batch. destruct Hi as [Ha Ho]. split; [done|]. cbn. destruct (active_receive_ s); [|cbn; tauto].
      destruct Ho as [[? _]|[_ [c Hd]]]; [left; cbn; tauto|congruence]. }
    destruct (shutting_down_ s); [|by eapply ReadSocket_handler].
    set (s1 := mkSctp _ _ _ _ _ _ _ _ _ _). assert (Hi1 : sctp_inv s1 batch) by exact Hi.
    apply (ReadSocket_handler _ batch); [by apply callbacks_inv|].
    destruct (callbacks_frame scbs s1) as (msgs & c & -> & _). exact Hn.
  - destruct (handler_thread_ s) as [|clean [|m l]|] eqn:Eh; [done|done| |done]. intros [= <-].
    destruct (handler_owns _ _ _ _ Hi Eh) as (Ea & Hp & <-). exists l. destruct Hi as [Ha _].
    split; [cbn; by rewrite Ha, <- app_assoc|]. cbn. rewrite Ea. right. eauto.
  - destruct (handler_thread_ s) as [|clean [|m l]|] eqn:Eh; [done| |done..]. intros [= <-].
    destruct (handler_owns _ _ _ _ Hi Eh) as (Ea & Hp & <-). destruct Hi as [Ha _]. by apply NextBatch_handler.
  - intros [= <-]. exists batch. unfold SendControlMessage.
    destruct (_ <? _); [done|]. destruct (_ =? _); [done|]. destruct (negb _); [done|].
    destruct sent; cbn; [by apply callbacks_inv|]. exact (callbacks_inv ccs _ _ (callbacks_inv cs s batch Hi)).
  - intros [= <-]. exists batch. unfold Shutdown_begin. destruct (running_ s); exact Hi.
  - unfold Shutdown_end. destruct (negb _); [intros [= <-]; eauto|]. destruct timed_out; [|done].
    intros [= <-]. exists batch. exact Hi.
Qed.

Lemma run_cons l ls s : run (l :: ls) s = step l s ≫= run ls.
Proof.
  unfold run. cbn. destruct (step l s); [done|]. cbn. by induction ls.
Qed.

Lemma run_snoc ls l s : run (ls ++ [l]) s = run ls s ≫= step l.
Proof. unfold run. by rewrite foldl_app. Qed.

(** Induction over the schedules from [Init]. *)
Lemma run_ind (P : list Label -> SctpHandler -> Prop) :
  P [] initialized ->
  (forall ls l s s', run ls initialized = Some s -> P ls s -> step l s = Some s' -> P (ls ++ [l]) s') ->
  forall ls s, run ls initialized = Some s -> P ls s.
Proof.
  intros H0 HS ls. induction ls as [|l ls IH] using rev_ind; [by intros s [= <-]|].
  intros s. rewrite run_snoc. intros (s0 & H & Hs)%bind_Some. eauto.
Qed.

Lemma run_inv ls s : run ls initialized = Some s -> exists batch, sctp_inv s batch.
Proof.
  revert ls s. apply run_ind; [|intros ls l s s' _ [batch Hi] Hs; by eapply step_inv].
  exists []. split; [done|cbn; tauto].
Qed.

(** C6 (invariant) Whatever the interleaving of the handler thread, the pollers,
    the senders and the shutdown, control messages reach the receiver in the
    order in which the socket produced them, none lost or repeated: what is not
    delivered yet is what is left of one thread's batch, then the buffer; and
    at most one thread delivers. *)
Theorem sctp_in_order ls s :
  run ls initialized = Some s ->
  (exists batch, arrived s = delivered s ++ batch ++ receive_buffer_ s
     /\ (active_receive_ s = false -> batch = []))
  /\ (size (pollers s) <= 1)%nat
  /\ (handler_delivers s -> pollers s = ∅).
Proof.
  intros [batch [Ha Ho]]%run_inv. split; [exists batch; split; [done|]|].
  - intros E. rewrite E in Ho. tauto.
  - destruct (active_receive_ s); [destruct Ho as [[[t ->] Hn]|[-> _]]|destruct Ho as (-> & _)].
    + rewrite map_size_singleton. split; [done|tauto].
    + by rewrite map_size_empty; split; [lia|].
    + by rewrite map_size_empty; split; [lia|].
Qed.

Lemma sctp_in_order_witness :
  exists s, run [LPoll 1 [RecvPacket [CbMessageReceived [1]; CbMessageReceived [2]]]; LPollDeliver 1;
                 LHandler [] [RecvPacket [CbMessageReceived [3]]] []; LPoll 2 []; LPollDeliver 1; LPollResume 1]
              initialized = Some s
    /\ delivered s = [[1]; [2]] /\ pollers s = {[1%nat := [[3]]]}
    /\ (exists batch, arrived s = delivered s ++ batch ++ receive_buffer_ s
          /\ (active_receive_ s = false -> batch = []))
    /\ (size (pollers s) <= 1)%nat
    /\ (handler_delivers s -> pollers s = ∅).
Proof.
  eexists. split; [vm_compute; reflexivity|]. do 2 (split; [vm_compute; reflexivity|]).
  eapply (sctp_in_order [LPoll 1 [RecvPacket [CbMessageReceived [1]; CbMessageReceived [2]]]; LPollDeliver 1;
                 LHandler [] [RecvPacket [CbMessageReceived [3]]] []; LPoll 2 []; LPollDeliver 1; LPollResume 1]).
  vm_compute. reflexivity.
Defined.

(** ** Failure reports *)

Definition pc_clean (pc : HandlerPc) : bool :=
  match pc with HTop c | HDeliver c _ | HExited c => c end.

Definition reports (pc : HandlerPc) : nat := match pc with HExited false => 1 | _ => 0 end.

Definition same_thread (s s' : SctpHandler) : Prop :=
  handler_thread_ s' = handler_thread_ s /\ failures s' = failures s
  /\ shutting_down_ s' = shutting_down_ s /\ (connected_ s = false -> connected_ s' = false).

Lemma callbacks_thread cs s : same_thread s (callbacks cs s).
Proof. by destruct (callbacks_frame cs s) as (msgs & c & -> & Hc). Qed.

Lemma NextBatch_thread s : same_thread s (snd (NextBatch s)).
Proof. unfold NextBatch. by destruct (receive_buffer_ s). Qed.

Lemma ReadSocket_thread rs s : same_thread s (snd (ReadSocket rs s)).
Proof.
  unfold ReadSocket. destruct (ReadPackets_callbacks rs s) as [cs ->].
  pose proof (callbacks_thread cs s) as (H1 & H2 & H3 & H4). set (s1 := callbacks cs s) in *.
  destruct (active_receive_ s1); [done|].
  pose proof (NextBatch_thread (set_active true (receive_buffer_ s1) s1)) as (K1 & K2 & K3 & K4).
  unfold same_thread. rewrite K1, K2, K3. split_and!; [done..|]. intros ?. by apply K4, H4.
Qed.

(** After an iteration the thread has exited if the channel is down. *)
Lemma AfterRead_thread clean timeouts s r :
  same_thread s (snd r) -> failures s = 0%nat ->
  let s' := AfterRead clean timeouts r in
  failures s' = reports (handler_thread_ s') /\ pc_clean (handler_thread_ s') = clean
  /\ shutting_down_ s' = shutting_down_ s
  /\ (connected_ s = false -> forall c, handler_thread_ s' <> HTop c).
Proof.
  destruct r as [[received|] s1]; cbn; intros (H1 & H2 & H3 & H4) Hf; [by rewrite H2|].
  unfold FinishIteration. destruct (connected_ s1) eqn:Ec; cbn.
  - pose proof (callbacks_thread timeouts s1) as (K1 & K2 & K3 & _).
    rewrite K2, K3, H2. split_and!; [done..|]. by intros ?%H4.
  - rewrite H2, Hf. by destruct clean.
Qed.

Definition failure_inv (ls : list Label) (s : SctpHandler) : Prop :=
  failures s = reports (handler_thread_ s)
  /\ (shutting_down_ s || pc_clean (handler_thread_ s) = true -> LShutdown ∈ ls).

(** A step of the handler thread that goes through [AfterRead]. *)
Lemma AfterRead_failure ls l clean timeouts s r :
  same_thread s (snd r) -> failures s = 0%nat ->
  (shutting_down_ s || clean = true -> LShutdown ∈ ls) ->
  failure_inv (ls ++ [l]) (AfterRead clean timeouts r).
Proof.
  intros Hr Hf Hs. destruct (AfterRead_thread clean timeouts s r Hr Hf) as (H1 & H2 & H3 & _).
  split; [done|]. rewrite H2, H3. intros ?. apply elem_of_app. auto.
Qed.

(** A step of another thread. *)
Lemma same_thread_failure ls l s s' : failure_inv ls s -> same_thread s s' -> failure_inv (ls ++ [l]) s'.
Proof.
  intros [H1 H2] (K1 & K2 & K3 & _). unfold failure_inv. rewrite K1, K2, K3.
  split; [done|]. intros ?. apply elem_of_app. auto.
Qed.

Lemma step_failure ls l s s' : failure_inv ls s -> step l s = Some s' -> failure_inv (ls ++ [l]) s'.
Proof.
  intros Hi. destruct l as [t rs|t|t|scbs rs timeouts| |timeouts|buf sent cs ccs| |timed_out]; cbn.
  - destruct (pollers s !! t); [done|]. pose proof (ReadSocket_thread rs s) as Hr.
    destruct (ReadSocket rs s). intros [= <-]. by eapply same_thread_failure.
  - destruct (pollers s !! t) as [[|m l]|]; [done| |done]. intros [= <-]. by eapply same_thread_failure.
  - destruct (pollers s !! t) as [[|m l]|]; [|done..]. pose proof (NextBatch_thread s) as Hr.
    destruct (NextBatch s). intros [= <-]. by eapply same_thread_failure.
  - destruct (handler_thread_ s) as [clean| |] eqn:Eh; [|done..]. intros [= <-].
    destruct Hi as [Hf Hs]. rewrite Eh in Hf, Hs. cbn in Hf, Hs. unfold RunSctpHandler.
    destruct (negb (running_ s)).
    { split; cbn; [rewrite Hf; by destruct clean|]. intros ?. apply elem_of_app. auto. }
    destruct (shutting_down_ s) eqn:Esd.
    + set (s1 := mkSctp _ _ _ _ _ _ _ _ _ _). destruct (callbacks_thread scbs s1) as (_ & K2 & _ & _).
      eapply AfterRead_failure; [apply ReadSocket_thread|by rewrite K2|by intros _; apply Hs].
    + eapply AfterRead_failure; [apply ReadSocket_thread|done|by rewrite Esd].
  - destruct (handler_thread_ s) as [|clean [|m l]|] eqn:Eh; [done|done| |done]. intros [= <-].
    destruct Hi as [Hf Hs]. rewrite Eh in Hf, Hs. split; [done|]. intros ?. apply elem_of_app. auto.
  - destruct (handler_thread_ s) as [|clean [|m l]|] eqn:Eh; [done| |done..]. intros [= <-].
    destruct Hi as [Hf Hs]. rewrite Eh in Hf, Hs. eapply AfterRead_failure; [apply NextBatch_thread|done|done].
  - intros [= <-]. eapply same_thread_failure; [done|]. unfold SendControlMessage.
    destruct (_ <? _); [done|]. destruct (_ =? _); [done|]. destruct (negb _); [done|].
    destruct (callbacks_thread cs s) as (H1 & H2 & H3 & H4).
    destruct sent; cbn; [done|]. destruct (callbacks_thread ccs (callbacks cs s)) as (K1 & K2 & K3 & _).
    unfold same_thread. cbn. by rewrite K1, K2, K3.
  - intros [= <-]. destruct Hi as [Hf Hs]. unfold Shutdown_begin. split; [by destruct (running_ s)|].
    intros _. apply elem_of_app. right. by apply list_elem_of_singleton.
  - unfold Shutdown_end. destruct (negb _); [intros [= <-]; by eapply same_thread_failure|].
    destruct timed_out; [|done]. intros [= <-]. by eapply same_thread_failure.
Qed.

(** The loss of the control channel is reported to the receiver once
    and only once: when the handler thread ends without a shutdown having been
    asked for.  Without a call of [Shutdown] every end of the thread is reported,
    and no iteration that starts with the channel down is followed by another. *)
Theorem sctp_failure_reported ls s :
  run ls initialized = Some s ->
  failures s = reports (handler_thread_ s)
  /\ (LShutdown ∉ ls -> handler_thread_ s <> HExited true)
  /\ (connected_ s = false -> forall shutdown_cbs rs timeouts s',
        step (LHandler shutdown_cbs rs timeouts) s = Some s' -> forall clean, handler_thread_ s' <> HTop clean).
Proof.
  intros Hr. assert (failure_inv ls s) as [Hf Hs].
  { revert ls s Hr. apply run_ind; [by split|]. intros ls l s s' _. apply step_failure. }
  split; [done|]. split.
  { intros Hn E. rewrite E, orb_true_r in Hs. auto. }
  intros Hc scbs rs timeouts s'. cbn. destruct (handler_thread_ s) as [clean| |] eqn:Eh; [|done..].
  intros [= <-]. unfold RunSctpHandler. destruct (negb (running_ s)); [done|]. cbn in Hf.
  destruct (shutting_down_ s).
  - set (s1 := mkSctp _ _ _ _ _ _ _ _ _ _). destruct (callbacks_thread scbs s1) as (_ & K2 & _ & K4).
    eapply AfterRead_thread; [apply ReadSocket_thread|by rewrite K2|by apply K4].
  - by eapply AfterRead_thread; [apply ReadSocket_thread|..].
Qed.

Lemma sctp_failure_reported_witness :
  exists s, run [LHandler [] [RecvPacket [CbMessageReceived [1]; CbAborted]] []; LHandlerDeliver; LHandlerResume []]
              initialized = Some s
    /\ handler_thread_ s = HExited false /\ delivered s = [[1]]
    /\ failures s = reports (handler_thread_ s)
    /\ (LShutdown ∉ [LHandler [] [RecvPacket [CbMessageReceived [1]; CbAborted]] []; LHandlerDeliver; LHandlerResume []]
          -> handler_thread_ s <> HExited true)
    /\ (connected_ s = false -> forall shutdown_cbs rs timeouts s',
        step (LHandler shutdown_cbs rs timeouts) s = Some s' -> forall clean, handler_thread_ s' <> HTop clean).
Proof.
  eexists. split; [vm_compute; reflexivity|]. do 2 (split; [vm_compute; reflexivity|]).
  apply sctp_failure_reported. vm_compute. reflexivity.
Defined.

(** ** Progress *)

(** Steps left before every message is delivered. *)
Definition work (s : SctpHandler) (batch : list (list Z)) : nat :=
  3 * length (receive_buffer_ s) + length batch + if active_receive_ s then 1 else 0.

(** While a message waits or a thread delivers, some thread can take a step,
    without a new packet, that brings the last delivery nearer. *)
Lemma drain_step s batch :
  sctp_inv s batch -> (0 < work s batch)%nat ->
  exists l s' batch', step l s = Some s' /\ sctp_inv s' batch' /\ arrived s' = arrived s
    /\ (work s' batch' < work s batch)%nat.
Proof.
  intros Hi Hw. pose proof Hi as [Ha Ho]. unfold work in Hw. destruct (active_receive_ s) eqn:Ea.
  - destruct Ho as [[[t Hp] Hn]|[Hp [clean Hh]]], batch as [|m l].
    + exists (LPollResume t). cbn. rewrite Hp, lookup_singleton_eq.
      pose proof (NextBatch_poller s t Ha) as Hnb. rewrite Hp, delete_singleton_eq in Hnb.
      specialize (Hnb eq_refl Hn). unfold NextBatch in *.
      destruct (receive_buffer_ s) eqn:Eb; eexists _, _; (split; [done|]); (split; [exact Hnb|]); (split; [done|]);
        unfold work; cbn; rewrite ?Eb, ?Ea; cbn; lia.
    + exists (LPollDeliver t). cbn. rewrite Hp, lookup_singleton_eq. eexists _, l. split; [done|]. split; [|split; [done|]].
      * split; [cbn; by rewrite Ha, <- app_assoc|]. cbn. rewrite Ea. left. split; [|done]. exists t.
        by rewrite Hp, insert_singleton_eq.
      * unfold work. cbn. lia.
    + exists (LHandlerResume []). cbn. rewrite Hh. unfold NextBatch. destruct (receive_buffer_ s) as [|m l] eqn:Eb; cbn.
      * unfold FinishIteration. cbn. destruct (connected_ s); eexists _, []; (split; [done|]);
          (split; [split; [done|cbn; tauto]|]); (split; [done|]); unfold work; cbn; rewrite ?Eb, ?Ea; cbn; lia.
      * eexists _, (m :: l). split; [done|]. split; [|split; [done|]].
        -- split; [cbn; by rewrite Ha, app_nil_r|]. cbn. right. eauto.
        -- unfold work. cbn. rewrite ?Eb, ?Ea. cbn. lia.
    + exists LHandlerDeliver. cbn. rewrite Hh. eexists _, l. split; [done|]. split; [|split; [done|]].
      * split; [cbn; by rewrite Ha, <- app_assoc|]. cbn. rewrite Ea. right. eauto.
      * unfold work. cbn. lia.
  - destruct Ho as (Hp & Hn & ->). exists (LPoll 0 []). cbn. rewrite Hp, lookup_empty. unfold ReadSocket. cbn.
    rewrite Ea. pose proof (NextBatch_poller (set_active true (receive_buffer_ s) s) 0 Ha) as Hnb.
    cbn in Hnb. rewrite Hp, delete_empty in Hnb. specialize (Hnb eq_refl Hn). unfold NextBatch in *. cbn in *.
    destruct (receive_buffer_ s) as [|m l] eqn:Eb; [cbn in Hw; lia|].
    eexists _, _. split; [done|]. split; [exact Hnb|]. split; [done|]. unfold work. cbn. rewrite ?Eb, ?Ea. cbn. lia.
Qed.

(** C38 (liveness) No interleaving leaves a control message behind: from every
    state the threads can get to, at most three steps per undelivered message
    and one more, with no packet needed to start them, deliver all messages that
    had arrived, in order, and leave no thread delivering. *)
Theorem sctp_drains ls s :
  run ls initialized = Some s ->
  exists ls' s', run ls' s = Some s'
    /\ (length ls' <= 3 * (length (arrived s) - length (delivered s)) + 1)%nat
    /\ delivered s' = arrived s /\ receive_buffer_ s' = [] /\ active_receive_ s' = false.
Proof.
  intros [batch Hi]%run_inv.
  assert (Hw : (work s batch <= 3 * (length (arrived s) - length (delivered s)) + 1)%nat).
  { destruct Hi as [-> _]. unfold work. rewrite !length_app. destruct (active_receive_ s); lia. }
  cut (exists ls' s', run ls' s = Some s' /\ (length ls' <= work s batch)%nat
    /\ delivered s' = arrived s /\ receive_buffer_ s' = [] /\ active_receive_ s' = false).
  { intros (ls' & s' & H1 & H2 & H3). exists ls', s'. split; [done|]. split; [lia|done]. }
  clear Hw. remember (work s batch) as n eqn:En. revert s batch En Hi.
  induction n as [n IH] using lt_wf_ind. intros s batch -> Hi.
  destruct (decide (0 < work s batch)%nat) as [Hw|Hw].
  - destruct (drain_step s batch Hi Hw) as (l & s1 & batch1 & Hs & Hi1 & Ha & Hlt).
    destruct (IH _ Hlt s1 batch1 eq_refl Hi1) as (ls' & s' & Hr & Hlen & Hd & Hrest).
    exists (l :: ls'), s'. rewrite run_cons, Hs. split; [exact Hr|]. split; [cbn [length]; lia|]. by rewrite <- Ha.
  - exists [], s. destruct Hi as [Ha Ho]. unfold work in Hw. destruct (active_receive_ s) eqn:Ea; [lia|].
    destruct (receive_buffer_ s) eqn:Eb; [|cbn in Hw; lia]. destruct Ho as (_ & _ & ->).
    rewrite !app_nil_r in Ha. split; [done|]. split; [cbn; lia|]. done.
Qed.

Lemma sctp_drains_witness :
  exists s, run [LPoll 1 [RecvPacket [CbMessageReceived [1]; CbMessageReceived [2]]]; LPollDeliver 1;
                 LHandler [] [RecvPacket [CbMessageReceived [3]]] []] initialized = Some s
    /\ delivered s = [[1]] /\ receive_buffer_ s = [[3]]
    /\ exists ls' s', run ls' s = Some s'
      /\ (length ls' <= 3 * (length (arrived s) - length (delivered s)) + 1)%nat
      /\ delivered s' = arrived s /\ receive_buffer_ s' = [] /\ active_receive_ s' = false.
Proof.
  eexists. split; [vm_compute; reflexivity|]. do 2 (split; [vm_compute; reflexivity|]).
  apply (sctp_drains [LPoll 1 [RecvPacket [CbMessageReceived [1]; CbMessageReceived [2]]]; LPollDeliver 1;
                 LHandler [] [RecvPacket [CbMessageReceived [3]]] []]). vm_compute. reflexivity.
Defined.
End SctpHandler.
