(* ===== verification/CudaKernels.v ===== *)
(** * GPU kernels (cuda_helpers/cuda_helpers.cu)

    The kernels that gather received data, unpack bounce buffers and compare
    memory, with the host functions that launch them.  A thread is the list of
    the byte copies it makes, a launch runs the threads of a grid in an order
    given by an arbitrary schedule, and the theorems hold for every schedule. *)

From S2P Require Import Prelude Packed ControlCommand ControlInterface DxsClient BufferManager.

(** ** Threads and launches *)

(** Device memory by byte address; an address that is absent is not mapped. *)
Abbreviation Memory := (gmap Z Z).

(** The values of [i] in [for (int i = i; i < n; i += stride)]; [None] if the
    [int] overflows. *)
Fixpoint strided (fuel : nat) (i n stride : Z) : option (list Z) :=
  if i <? n then
    match fuel with
    | O => None
    | S fuel =>
        if 2 ^ 31 <=? i + stride then None
        else match strided fuel (i + stride) n stride with
             | Some js => Some (i :: js)
             | None => None
             end
    end
  else Some [].

(** [dst = *src] for a byte; an access to an unmapped address is an error. *)
Definition copy_byte (c : Z * Z) (m : Memory) : option Memory :=
  match m !! c.2, m !! c.1 with
  | Some v, Some _ => Some (<[c.1 := v]> m)
  | _, _ => None
  end.

Fixpoint copy_bytes (cs : list (Z * Z)) (m : Memory) : option Memory :=
  match cs with
  | [] => Some m
  | c :: cs => m ← copy_byte c m; copy_bytes cs m
  end.

(** The threads [schedule] names make one copy each, then all of them finish. *)
Fixpoint launch (schedule : list nat) (threads : list (list (Z * Z))) (m : Memory) : option Memory :=
  match schedule with
  | [] => copy_bytes (concat threads) m
  | k :: schedule =>
      match threads !! k with
      | Some (c :: rest) => m ← copy_byte c m; launch schedule (<[k := rest]> threads) m
      | _ => launch schedule threads m
      end
  end.

(** ** Gathering of received data *)

(** [ulong3] *)
Record ScatterEntry := mkEntry { entry_x : Z; entry_y : Z; entry_z : Z }.

Definition memcpy_thread (dst src blockDim : Z) (blk : ScatterEntry) (threadIdx : Z) : option (list (Z * Z)) :=
  match strided (Z.to_nat (entry_y blk)) threadIdx (entry_y blk) blockDim with
  | Some js => Some ((fun i => (u64 (dst + entry_z blk + i), u64 (src + entry_x blk + i))) <$> js)
  | None => None
  end.

(** The threads of all blocks, one block per entry of the list. *)
Definition memcpy_kernel (blockDim : Z) (scatter_list : list ScatterEntry) (dst src : Z) : option (list (list (Z * Z))) :=
  mapM (fun '(blk, t) => memcpy_thread dst src blockDim blk t)
    (blk ← scatter_list; t ← seqZ 0 blockDim; [(blk, t)]).

(** The loop that fills [memcpy_meta]. *)
Fixpoint scatter_entries (offset : Z) (iovecs : list iovec) : list ScatterEntry :=
  match iovecs with
  | [] => []
  | v :: iovecs => mkEntry (iov_base v) (iov_len v) offset :: scatter_entries (u64 (offset + iov_len v)) iovecs
  end.

(** The results of the driver calls of a host function. *)
Record KernelCalls := mkCalls {
  cuCtxPushCurrent_result : Status;
  cuMemHostAlloc_result : Status;
  cuMemHostGetDevicePointer_result : Status;
  cudaStreamSynchronize_result : Status
}.

(** [None] is an illegal access or an overflow in a kernel. *)
Definition GatherRxData (calls : KernelCalls) (schedule : list nat) (iovecs : list iovec) (dst src : Z) (m : Memory)
    : option (Status * Memory) :=
  match cuCtxPushCurrent_result calls with
  | Err e => Some (Err e, m)
  | Ok _ =>
  match cuMemHostAlloc_result calls with
  | Err e => Some (Err e, m)
  | Ok _ =>
  let memcpy_meta := scatter_entries 0 iovecs in
  match cuMemHostGetDevicePointer_result calls with
  | Err e => Some (Err e, m)
  | Ok _ =>
      threads ← memcpy_kernel 256 memcpy_meta dst src;
      m ← launch schedule threads m;
      Some (cudaStreamSynchronize_result calls, m)
  end end end.

(** ** Unpacking of bounce buffers *)

Record loadMeta := mkLoadMeta { src_off : Z; len : Z; dst_off : Z }.

(** A row of [netUnpackMeta]: the entries of a request and their number. *)
Record UnpackRow := mkRow { row_mem : list loadMeta; row_cnt : Z }.

Definition unpack_entry (src dst : Z) (e : loadMeta) : list (Z * Z) :=
  (fun j => (u64 (dst + u64 (dst_off e + j)), u64 (src + u32 (src_off e + j)))) <$> seqZ 0 (len e).

(** [None] also if the loop leaves the array of the entries. *)
Definition unpack_thread (row : UnpackRow) (src dst blockDim threadIdx : Z) : option (list (Z * Z)) :=
  let cnt := s32 (row_cnt row) in
  idx ← strided (Z.to_nat cnt) threadIdx cnt blockDim;
  entries ← mapM (fun i => row_mem row !! Z.to_nat i) idx;
  Some (entries ≫= unpack_entry src dst).

Definition iovec_cpy_kernel (blockDim : Z) (rows : list UnpackRow) (bounce_buf dst : Z) (req_idx : nat)
    : option (list (list (Z * Z))) :=
  row ← rows !! req_idx;
  mapM (unpack_thread row bounce_buf dst blockDim) (seqZ 0 blockDim).

Definition CopyGpuMemFromDeviceHandle (synchronize : Status) (schedule : list nat) (rows : list UnpackRow)
    (bounce_buf dest : Z) (req_idx : nat) (m : Memory) : option (Status * Memory) :=
  threads ← iovec_cpy_kernel 1024 rows bounce_buf dest req_idx;
  m ← launch schedule threads m;
  Some (synchronize, m).

(** ** Comparison of memory *)

(** A 32-bit load. *)
Definition load32 (m : Memory) (a : Z) : option Z :=
  bytes ← mapM (fun k => m !! (a + k)) [0; 1; 2; 3]; Some (le_decode bytes).

(** The loop of a thread: whether it found a mismatch. *)
Fixpoint memcmp_thread (fuel : nat) (m : Memory) (a b num_elems blockDim i : Z) : option bool :=
  if i <? num_elems then
    match fuel with
    | O => None
    | S fuel =>
        x ← load32 m (a + 4 * i);
        y ← load32 m (b + 4 * i);
        if decide (x = y)
        then if 2 ^ 31 <=? i + blockDim then None else memcmp_thread fuel m a b num_elems blockDim (i + blockDim)
        else Some true
    end
  else Some false.

(** The shared flag is reset before the first barrier, can only be set between
    the barriers, and is read after the second. *)
Definition memcmp_kernel (blockDim : Z) (m : Memory) (a b num_elems : Z) : option bool :=
  mismatch ← mapM (memcmp_thread (Z.to_nat num_elems) m a b num_elems blockDim) (seqZ 0 blockDim);
  Some (negb (existsb id mismatch)).

Definition MemCmp (calls : KernelCalls) (m : Memory) (a b len : Z) : option (StatusOr bool) :=
  match cuCtxPushCurrent_result calls with
  | Err e => Some (Err e)
  | Ok _ =>
  match cuMemHostAlloc_result calls with
  | Err e => Some (Err e)
  | Ok _ =>
  match cuMemHostGetDevicePointer_result calls with
  | Err e => Some (Err e)
  | Ok _ =>
      result ← memcmp_kernel 256 m a b (len / 4);
      match cudaStreamSynchronize_result calls with
      | Err e => Some (Err e)
      | Ok _ => Some (Ok result)
      end
  end end end.

(** ** Copies in any order *)

Definition safe (cs : list (Z * Z)) (m : Memory) : Prop :=
  (forall d s, (d, s) ∈ cs -> is_Some (m !! d) /\ is_Some (m !! s)) /\
  (forall d s d' s', (d, s) ∈ cs -> (d', s') ∈ cs -> d <> s' /\ (d = d' -> s = s')).

Definition copied (cs : list (Z * Z)) (m m' : Memory) : Prop :=
  (forall d s, (d, s) ∈ cs -> m' !! d = m !! s) /\
  (forall x, (forall s, (x, s) ∉ cs) -> m' !! x = m !! x).

Lemma copy_step c cs cs' m :
  (forall x, x ∈ cs <-> x = c \/ x ∈ cs') -> safe cs m ->
  exists m1, copy_byte c m = Some m1 /\ safe cs' m1 /\ (forall m', copied cs' m1 m' -> copied cs m m').
Proof.
  intros Hcs [Hm Hd]. destruct c as [d s].
  assert (Hc : (d, s) ∈ cs) by (apply Hcs; by left).
  assert (Hsub : forall x, x ∈ cs' -> x ∈ cs) by (intros x ?; apply Hcs; by right).
  destruct (Hm _ _ Hc) as [[vd Hvd] [v Hv]]. exists (<[d := v]> m).
  unfold copy_byte. simpl. rewrite Hv, Hvd. split; [done|].
  assert (Hsrc : forall d' s', (d', s') ∈ cs' -> (<[d := v]> m : Memory) !! s' = m !! s').
  { intros d' s' H'. destruct (Hd _ _ _ _ Hc (Hsub _ H')). by rewrite lookup_insert_ne. }
  split; [split|].
  - intros d' s' H'. rewrite (Hsrc _ _ H'). destruct (Hm _ _ (Hsub _ H')) as [? ?]. split; [|done].
    destruct (decide (d = d')) as [<-|]; [rewrite lookup_insert_eq; by eexists|by rewrite lookup_insert_ne].
  - eauto.
  - intros m' [Hc' Hk]. split.
    + intros d' s' [[= -> ->]|H']%Hcs; [|by rewrite (Hc' _ _ H'), (Hsrc _ _ H')].
      destruct (decide ((d, s) ∈ cs')) as [H'|H']; [by rewrite (Hc' _ _ H'), (Hsrc _ _ H')|].
      rewrite Hk, lookup_insert_eq; [done|]. intros s' H2.
      destruct (Hd _ _ _ _ Hc (Hsub _ H2)) as [_ He]. by rewrite (He eq_refl) in H'.
    + intros x Hx. rewrite Hk, lookup_insert_ne; [done| |].
      * intros <-. by apply (Hx s).
      * intros s' ?. apply (Hx s'). auto.
Qed.

Lemma copy_bytes_safe cs m : safe cs m -> exists m', copy_bytes cs m = Some m' /\ copied cs m m'.
Proof.
  revert m. induction cs as [|c cs IH]; intros m Hs; simpl.
  - exists m. split; [done|]. split; [by intros ? ? ?%elem_of_nil|done].
  - destruct (copy_step c (c :: cs) cs m) as (m1 & -> & Hs1 & Hc); [intros x; apply elem_of_cons|done|].
    destruct (IH m1 Hs1) as (m' & Hm' & ?). exists m'. split; [done|auto].
Qed.

Lemma elem_of_concat {A} (x : A) ls : x ∈ concat ls <-> exists l, l ∈ ls /\ x ∈ l.
Proof.
  rewrite list_elem_of_In, in_concat. by setoid_rewrite list_elem_of_In.
Qed.

(** Whatever the schedule, a grid of threads that do not interfere makes all of
    its copies. *)
Lemma launch_safe schedule threads m :
  safe (concat threads) m -> exists m', launch schedule threads m = Some m' /\ copied (concat threads) m m'.
Proof.
  revert threads m. induction schedule as [|k schedule IH]; intros threads m Hs; simpl; [by apply copy_bytes_safe|].
  destruct (threads !! k) as [[|c rest]|] eqn:Hk; [by apply IH| |by apply IH].
  destruct (copy_step c (concat threads) (concat (<[k := rest]> threads)) m) as (m1 & -> & Hs1 & Hc); [|done|].
  - pose proof (lookup_lt_Some _ _ _ Hk) as Hlt.
    intros x. rewrite insert_take_drop by done.
    replace (concat threads) with (concat (take k threads ++ (c :: rest) :: drop (S k) threads))
      by (by rewrite take_drop_middle).
    rewrite !concat_app. cbn [concat]. rewrite !elem_of_app, elem_of_cons. tauto.
  - destruct (IH _ _ Hs1) as (m' & Hm' & ?). exists m'. split; [done|auto].
Qed.

Lemma strided_spec fuel i n stride :
  0 < stride -> n + stride <= 2 ^ 31 -> n - i <= Z.of_nat fuel ->
  exists js, strided fuel i n stride = Some js /\ forall j, j ∈ js <-> i <= j < n /\ (j - i) mod stride = 0.
Proof.
  intros Hs Hn. revert i. induction fuel as [|fuel IH]; intros i Hf; simpl; case_match eqn:Hlt; try lia.
  - exists []. split; [done|]. intros j. rewrite elem_of_nil. lia.
  - destruct (IH (i + stride)) as (js & -> & Hjs); [lia|]. rewrite (proj2 (Z.leb_gt _ _)) by lia.
    exists (i :: js). split; [done|]. intros j. rewrite elem_of_cons, Hjs.
    replace (j - i) with (j - (i + stride) + 1 * stride) by lia. rewrite Z_mod_plus_full.
    split; [intros [->|?]; [|lia]|].
    + split; [lia|]. replace (i - (i + stride)) with (-1 * stride) by lia. by apply Z_mod_mult.
    + intros [? Hm]. destruct (decide (j = i)) as [->|]; [by left|right]. split; [|done].
      apply Z.mod_divide in Hm as [q Hq]; [|lia].
      assert (0 < (q + 1) * stride) by lia. assert (0 <= q) by nia. nia.
  - exists []. split; [done|]. intros j. rewrite elem_of_nil. lia.
Qed.

(** Thread [t] has the indices that are [t] modulo the number of threads. *)
Lemma strided_threads n stride t :
  0 <= t < stride -> n + stride <= 2 ^ 31 ->
  exists js, strided (Z.to_nat n) t n stride = Some js /\ forall j, j ∈ js <-> 0 <= j < n /\ j mod stride = t.
Proof.
  intros Ht Hn. destruct (strided_spec (Z.to_nat n) t n stride) as (js & -> & Hjs); [lia..|].
  exists js. split; [done|]. intros j. rewrite Hjs. split; intros [Hj Hm].
  - apply Z.mod_divide in Hm as [q Hq]; [|lia]. replace j with (t + q * stride) by lia.
    rewrite Z_mod_plus_full, Z.mod_small by lia. nia.
  - rewrite <- Hm, Zminus_mod_idemp_r, Z.sub_diag, Z.mod_0_l by lia.
    pose proof (Z.mod_le j stride). lia.
Qed.

Lemma mapM_concat {A B} (f : A -> option (list B)) (P : A -> B -> Prop) l :
  (forall a, a ∈ l -> exists ys, f a = Some ys /\ forall y, y ∈ ys <-> P a y) ->
  exists ks, mapM f l = Some ks /\ forall y, y ∈ concat ks <-> exists a, a ∈ l /\ P a y.
Proof.
  induction l as [|a l IH]; intros Hl; simpl.
  - exists []. split; [done|]. intros y. simpl. rewrite elem_of_nil. set_solver.
  - destruct (Hl a) as (ys & -> & Hys); [set_solver|]. destruct IH as (ks & -> & Hks); [set_solver|].
    exists (ys :: ks). split; [done|]. intros y. cbn [concat]. rewrite elem_of_app, Hys, Hks. set_solver.
Qed.

Definition scatter_copies (dst src : Z) (blk : ScatterEntry) : list (Z * Z) :=
  (fun i => (u64 (dst + entry_z blk + i), u64 (src + entry_x blk + i))) <$> seqZ 0 (entry_y blk).

Lemma memcpy_kernel_spec blockDim scatter_list dst src :
  0 < blockDim -> Forall (fun blk => entry_y blk + blockDim <= 2 ^ 31) scatter_list ->
  exists threads, memcpy_kernel blockDim scatter_list dst src = Some threads /\
    forall c, c ∈ concat threads <-> c ∈ scatter_list ≫= scatter_copies dst src.
Proof.
  intros Hb Hl. unfold memcpy_kernel.
  destruct (mapM_concat (fun '(blk, t) => memcpy_thread dst src blockDim blk t)
    (fun '(blk, t) c => exists i, 0 <= i < entry_y blk /\ i mod blockDim = t /\
       c = (u64 (dst + entry_z blk + i), u64 (src + entry_x blk + i)))
    (blk ← scatter_list; t ← seqZ 0 blockDim; [(blk, t)])) as (ks & -> & Hks).
  - intros [blk t]. rewrite list_elem_of_bind. intros (blk' & Hin & Hblk').
    apply list_elem_of_bind in Hin as (t' & [= -> ->]%list_elem_of_singleton & Ht%elem_of_seqZ).
    rewrite list.Forall_forall in Hl. apply Hl in Hblk'. unfold memcpy_thread.
    destruct (strided_threads (entry_y blk') blockDim t') as (js & -> & Hjs); [lia..|].
    eexists. split; [done|]. intros c. rewrite list_elem_of_fmap. setoid_rewrite Hjs. naive_solver.
  - exists ks. split; [done|]. intros c. rewrite Hks, list_elem_of_bind. unfold scatter_copies.
    setoid_rewrite list_elem_of_fmap. setoid_rewrite elem_of_seqZ. split.
    + intros ([blk t] & Hin & i & ? & ? & ->).
      apply list_elem_of_bind in Hin as (blk' & Hin & ?).
      apply list_elem_of_bind in Hin as (t' & [= -> ->]%list_elem_of_singleton & _).
      exists blk'. split; [|done]. exists i. split; [done|lia].
    + intros (blk & (i & -> & Hi) & Hblk). exists (blk, i mod blockDim). split; [|naive_solver lia].
      apply list_elem_of_bind. exists blk. split; [|done]. apply list_elem_of_bind.
      exists (i mod blockDim). split; [set_solver|]. apply elem_of_seqZ. pose proof (Z.mod_pos_bound i blockDim). lia.
Qed.

(** ** Gathering *)

Definition bytes_at (m : Memory) (a n : Z) : list (option Z) := (fun k => m !! (a + k)) <$> seqZ 0 n.

Definition total_len (iovecs : list iovec) : Z := foldr (fun v => Z.add (iov_len v)) 0 iovecs.

Definition src_addrs (src : Z) (iovecs : list iovec) : list Z :=
  iovecs ≫= fun v => (fun k => src + iov_base v + k) <$> seqZ 0 (iov_len v).

(** The vectors lie in memory at [src], and the place at [dst] is mapped and
    apart from them. *)
Definition gatherable (iovecs : list iovec) (dst src : Z) (m : Memory) : Prop :=
  Forall (fun v => 0 <= iov_len v <= 2 ^ 31 - 256 /\ 0 <= src + iov_base v /\ src + iov_base v + iov_len v < 2 ^ 64) iovecs /\
  0 <= dst /\ dst + total_len iovecs < 2 ^ 64 /\
  (forall a, a ∈ src_addrs src iovecs -> is_Some (m !! a) /\ ~ (dst <= a < dst + total_len iovecs)) /\
  (forall k, 0 <= k < total_len iovecs -> is_Some (m !! (dst + k))).

Lemma length_src_addrs src iovecs :
  Forall (fun v => 0 <= iov_len v) iovecs -> Zlen (src_addrs src iovecs) = total_len iovecs.
Proof.
  induction 1 as [|v iovecs Hv _ IH]; [done|]. unfold src_addrs in *. cbn [mbind list_bind].
  change (total_len (v :: iovecs)) with (iov_len v + total_len iovecs). rewrite Zlen_app, IH. unfold Zlen. rewrite length_fmap, length_seqZ. lia.
Qed.

Lemma fmap_zip_seqZ (f : Z -> Z) a n :
  (fun k => (a + k, f k)) <$> seqZ 0 n = zip (seqZ a n) (f <$> seqZ 0 n).
Proof.
  apply list_eq. intros j. rewrite lookup_zip_with, !list_lookup_fmap.
  destruct (decide (Z.of_nat j < n)).
  - rewrite !lookup_seqZ_lt by lia. simpl. do 2 f_equal; lia.
  - by rewrite !lookup_seqZ_ge by lia.
Qed.

Lemma gather_copies dst src off iovecs :
  Forall (fun v => 0 <= iov_len v /\ 0 <= src + iov_base v /\ src + iov_base v + iov_len v < 2 ^ 64) iovecs ->
  0 <= dst -> 0 <= off -> dst + off + total_len iovecs < 2 ^ 64 ->
  scatter_entries off iovecs ≫= scatter_copies dst src =
    zip (seqZ (dst + off) (total_len iovecs)) (src_addrs src iovecs).
Proof.
  intros Hl Hd. revert off. induction Hl as [|v iovecs (Hv & Hb & He) Hl IH]; intros off Ho Ht; [done|].
  cbn [total_len foldr] in Ht. fold (total_len iovecs) in Ht.
  assert (Htot : 0 <= total_len iovecs).
  { rewrite <- (length_src_addrs src); [apply Zlen_nonneg|]. apply (list.Forall_impl _ _ _ Hl). naive_solver. }
  cbn [scatter_entries mbind list_bind total_len foldr src_addrs]. fold (total_len iovecs).
  rewrite seqZ_app, zip_with_app by (rewrite ?length_fmap, ?length_seqZ; lia). f_equal.
  - unfold scatter_copies. simpl. rewrite <- fmap_zip_seqZ. apply list_fmap_ext. intros i k Hk.
    apply lookup_seqZ in Hk as [-> ?]. by rewrite !u64_small by lia.
  - rewrite u64_small by lia. rewrite IH by lia. by rewrite Z.add_assoc.
Qed.

Lemma scatter_entries_len (P : Z -> Prop) off iovecs :
  Forall (fun v => P (iov_len v)) iovecs -> Forall (fun blk => P (entry_y blk)) (scatter_entries off iovecs).
Proof. intros Hl. revert off. induction Hl; intros off; constructor; auto. Qed.

Lemma elem_of_zip_seqZ a (l : list Z) d s : (d, s) ∈ zip (seqZ a (Zlen l)) l <-> exists j, l !! j = Some s /\ d = a + Z.of_nat j.
Proof.
  rewrite list_elem_of_lookup. unfold Zlen. split; intros [j Hj]; exists j.
  - rewrite lookup_zip_with in Hj. destruct (seqZ a _ !! j) eqn:H1; [|done]. apply lookup_seqZ in H1 as [-> ?].
    destruct (l !! j); by simplify_eq/=.
  - destruct Hj as [Hj ->]. pose proof (lookup_lt_Some _ _ _ Hj).
    rewrite lookup_zip_with, lookup_seqZ_lt by lia. simpl. by rewrite Hj.
Qed.

Lemma bytes_at_fmap m src iovecs :
  (fun a => m !! a) <$> src_addrs src iovecs = iovecs ≫= fun v => bytes_at m (src + iov_base v) (iov_len v).
Proof.
  induction iovecs as [|v iovecs IH]; [done|]. unfold src_addrs in *. cbn [mbind list_bind].
  rewrite fmap_app, IH. f_equal. by rewrite <- list_fmap_compose.
Qed.

(** C25 (refinement) The gathering kernel concatenates the vectors: for every
    schedule of its threads [GatherRxData] ends with the bytes of the vectors,
    in their order and without gaps, at the destination, and with all other
    memory as it was. *)
Theorem gather_concatenates calls schedule iovecs dst src m :
  cuCtxPushCurrent_result calls = OkStatus -> cuMemHostAlloc_result calls = OkStatus ->
  cuMemHostGetDevicePointer_result calls = OkStatus -> gatherable iovecs dst src m ->
  exists m', GatherRxData calls schedule iovecs dst src m = Some (cudaStreamSynchronize_result calls, m') /\
    bytes_at m' dst (total_len iovecs) = (iovecs ≫= fun v => bytes_at m (src + iov_base v) (iov_len v)) /\
    forall x, ~ (dst <= x < dst + total_len iovecs) -> m' !! x = m !! x.
Proof.
  intros H1 H2 H3 (Hl & Hd & Ht & Hsrc & Hdst). unfold GatherRxData. rewrite H1, H2, H3.
  assert (Hlen : Forall (fun v => 0 <= iov_len v) iovecs) by (apply (list.Forall_impl _ _ _ Hl); naive_solver).
  destruct (memcpy_kernel_spec 256 (scatter_entries 0 iovecs) dst src) as (threads & -> & Hcs); [lia| |].
  { apply (scatter_entries_len (fun y => y + 256 <= 2 ^ 31)). apply (list.Forall_impl _ _ _ Hl). naive_solver lia. }
  rewrite gather_copies, Z.add_0_r in Hcs; [|apply (list.Forall_impl _ _ _ Hl); naive_solver lia|lia..].
  pose proof (length_src_addrs src iovecs Hlen) as Htot.
  assert (Hcs' : forall d s, (d, s) ∈ concat threads <-> exists j, src_addrs src iovecs !! j = Some s /\ d = dst + Z.of_nat j).
  { intros d s. rewrite Hcs, <- Htot. apply elem_of_zip_seqZ. }
  assert (Hin : forall j s, src_addrs src iovecs !! j = Some s -> 0 <= Z.of_nat j < total_len iovecs).
  { intros j s ?%lookup_lt_Some. rewrite <- Htot. unfold Zlen. lia. }
  destruct (launch_safe schedule threads m) as (m' & Hm' & Hc & Hk).
  { split.
    - intros d s (j & Hj & ->)%Hcs'. split; [by apply Hdst, (Hin _ s)|]. by eapply Hsrc, list_elem_of_lookup_2.
    - intros d s d' s' (j & Hj & ->)%Hcs' (j' & Hj' & ->)%Hcs'. split.
      + pose proof (Hin _ _ Hj). destruct (Hsrc s'); [by eapply list_elem_of_lookup_2|]. lia.
      + intros ?. assert (j = j') as <- by lia. congruence. }
  cbn [mbind option_bind]. rewrite Hm'. exists m'. split; [done|]. split.
  - rewrite <- bytes_at_fmap, <- Htot. unfold bytes_at. apply list_eq. intros j. rewrite !list_lookup_fmap.
    destruct (src_addrs src iovecs !! j) as [s|] eqn:Hj; simpl.
    + pose proof (Hin _ _ Hj). rewrite lookup_seqZ_lt by lia. simpl. f_equal.
      apply Hc. apply Hcs'. exists j. split; [done|lia].
    + apply lookup_ge_None in Hj. by rewrite lookup_seqZ_ge by (unfold Zlen; lia).
  - intros x Hx. apply Hk. intros s (j & Hj & ->)%Hcs'. pose proof (Hin _ _ Hj). lia.
Qed.

(** A host memory of the bytes 0, 1, ... at [a]. *)
Definition ex_bytes (a n : Z) : Memory := list_to_map ((fun k => (a + k, k)) <$> seqZ 0 n).

Definition ex_calls : KernelCalls := mkCalls OkStatus OkStatus OkStatus OkStatus.

Lemma gather_concatenates_witness :
  let iovecs := [mkIovec 4 2; mkIovec 1 3] in let m := ex_bytes 100 20 in
  gatherable iovecs 110 100 m /\
  exists m', GatherRxData ex_calls [3; 0]%nat iovecs 110 100 m = Some (OkStatus, m') /\
    bytes_at m' 110 5 = (iovecs ≫= fun v => bytes_at m (100 + iov_base v) (iov_len v)) /\
    forall x, ~ (110 <= x < 110 + 5) -> m' !! x = m !! x.
Proof.
  intros iovecs m.
  assert (Hg : gatherable iovecs 110 100 m).
  { split; [repeat constructor; simpl; lia|]. split; [lia|]. split; [done|]. split.
    - apply list.Forall_forall. vm_compute. repeat constructor; try (by eexists); intros []; congruence.
    - intros k Hk. assert (k ∈ [0; 1; 2; 3; 4]) as Hin by (change (total_len iovecs) with 5 in Hk; set_solver by lia).
      revert k Hk Hin. intros k _. revert k. apply list.Forall_forall. repeat constructor; vm_compute; by eexists. }
  split; [done|]. apply (gather_concatenates ex_calls [3; 0]%nat iovecs 110 100 m); done.
Defined.

(** ** Unpacking *)

Lemma mapM_lookup {A} (l : list A) (idx : list Z) :
  (forall i, i ∈ idx -> 0 <= i < Zlen l) ->
  exists xs, mapM (fun i => l !! Z.to_nat i) idx = Some xs /\ forall x, x ∈ xs <-> exists i, i ∈ idx /\ l !! Z.to_nat i = Some x.
Proof.
  induction idx as [|i idx IH]; intros Hi; simpl.
  - exists []. split; [done|]. set_solver.
  - destruct (lookup_lt_is_Some_2 l (Z.to_nat i)) as [x Hx].
    { specialize (Hi i). unfold Zlen in Hi. set_solver by lia. }
    destruct IH as (xs & -> & Hxs); [set_solver|]. rewrite Hx. exists (x :: xs). split; [done|].
    intros y. rewrite elem_of_cons, Hxs. setoid_rewrite elem_of_cons. naive_solver.
Qed.

Lemma iovec_cpy_kernel_spec blockDim rows row bounce_buf dst req_idx :
  rows !! req_idx = Some row -> 0 < blockDim -> 0 <= row_cnt row <= Zlen (row_mem row) ->
  row_cnt row + blockDim <= 2 ^ 31 ->
  exists threads, iovec_cpy_kernel blockDim rows bounce_buf dst req_idx = Some threads /\
    forall c, c ∈ concat threads <-> c ∈ takeZ (row_cnt row) (row_mem row) ≫= unpack_entry bounce_buf dst.
Proof.
  intros Hrow Hb Hc Hn. unfold iovec_cpy_kernel. rewrite Hrow. cbn [mbind option_bind].
  destruct (mapM_concat (unpack_thread row bounce_buf dst blockDim)
    (fun t c => exists i e, 0 <= i < row_cnt row /\ i mod blockDim = t /\
       row_mem row !! Z.to_nat i = Some e /\ c ∈ unpack_entry bounce_buf dst e) (seqZ 0 blockDim)) as (ks & -> & Hks).
  - intros t Ht%elem_of_seqZ. unfold unpack_thread. rewrite s32_small by lia.
    destruct (strided_threads (row_cnt row) blockDim t) as (js & -> & Hjs); [lia..|]. cbn [mbind option_bind].
    destruct (mapM_lookup (row_mem row) js) as (es & -> & Hes); [intros i Hi%Hjs; lia|].
    eexists. split; [done|]. intros c. rewrite list_elem_of_bind. setoid_rewrite Hes. setoid_rewrite Hjs. naive_solver.
  - exists ks. split; [done|]. intros c. rewrite Hks, list_elem_of_bind. unfold takeZ. split.
    + intros (t & _ & i & e & Hi & _ & He & Hce). exists e. split; [done|].
      apply list_elem_of_lookup. exists (Z.to_nat i). by rewrite lookup_take_lt by lia.
    + intros (e & Hce & [j Hj]%list_elem_of_lookup). apply lookup_take_Some in Hj as [Hj ?].
      exists (Z.of_nat j mod blockDim). split; [apply elem_of_seqZ; pose proof (Z.mod_pos_bound (Z.of_nat j) blockDim); lia|].
      exists (Z.of_nat j), e. rewrite Nat2Z.id. split; [lia|done].
Qed.

(** The unpacking kernel puts the bytes of every entry in their places, for
    every schedule, if the entries do not overlap. *)
Theorem unpack_scatters synchronize schedule rows row bounce_buf dst req_idx m :
  rows !! req_idx = Some row -> 0 <= row_cnt row <= Zlen (row_mem row) -> row_cnt row + 1024 <= 2 ^ 31 ->
  Forall (fun e => 0 <= src_off e /\ src_off e + len e <= 2 ^ 32 /\ 0 <= bounce_buf + src_off e /\
    bounce_buf + src_off e + len e <= 2 ^ 64 /\ 0 <= dst_off e /\ dst_off e + len e <= 2 ^ 64 /\
    0 <= dst + dst_off e /\ dst + dst_off e + len e <= 2 ^ 64) (takeZ (row_cnt row) (row_mem row)) ->
  safe (takeZ (row_cnt row) (row_mem row) ≫= unpack_entry bounce_buf dst) m ->
  exists m', CopyGpuMemFromDeviceHandle synchronize schedule rows bounce_buf dst req_idx m = Some (synchronize, m') /\
    Forall (fun e => bytes_at m' (dst + dst_off e) (len e) = bytes_at m (bounce_buf + src_off e) (len e))
      (takeZ (row_cnt row) (row_mem row)).
Proof.
  intros Hrow Hc Hn Hr Hs. unfold CopyGpuMemFromDeviceHandle.
  destruct (iovec_cpy_kernel_spec 1024 rows row bounce_buf dst req_idx) as (threads & -> & Hcs); [done|lia..|].
  destruct (launch_safe schedule threads m) as (m' & Hm' & Hcp & _).
  { destruct Hs as [H1 H2]. split; intros *; rewrite ?Hcs; eauto. }
  cbn [mbind option_bind]. rewrite Hm'. exists m'. split; [done|].
  apply list.Forall_forall. intros e He. rewrite list.Forall_forall in Hr. destruct (Hr e He) as (?&?&?&?&?&?&?&?).
  unfold bytes_at. apply list_fmap_ext. intros i k [-> Hi]%lookup_seqZ. apply Hcp, Hcs, list_elem_of_bind.
  exists e. split; [|done]. unfold unpack_entry. apply list_elem_of_fmap. exists (0 + Z.of_nat i).
  split; [|apply elem_of_seqZ; lia]. rewrite (u64_small (dst_off e + _)) by lia.
  unfold u32. rewrite Z.mod_small by lia. rewrite !u64_small by lia. f_equal; lia.
Qed.

(** ** Comparison *)

Definition mismatch_at (m : Memory) (a b j : Z) : bool :=
  bool_decide (load32 m (a + 4 * j) <> load32 m (b + 4 * j)).

Lemma memcmp_thread_strided fuel m a b n stride i js :
  (forall j, i <= j < n -> is_Some (load32 m (a + 4 * j)) /\ is_Some (load32 m (b + 4 * j))) -> 0 < stride ->
  strided fuel i n stride = Some js -> memcmp_thread fuel m a b n stride i = Some (existsb (mismatch_at m a b) js).
Proof.
  intros Hl Hs. revert i js Hl. induction fuel as [|fuel IH]; intros i js Hl Hjs; simpl in *; case_match; simplify_eq/=; try done.
  destruct (2 ^ 31 <=? i + stride) eqn:Hov; [done|]. destruct (strided fuel _ _ _) as [ks|] eqn:Hks; simplify_eq/=.
  destruct (Hl i) as [[x Hx] [y Hy]]; [lia|]. unfold mismatch_at at 1. rewrite Hx, Hy. simpl.
  destruct (decide (x = y)) as [->|]; [|by rewrite bool_decide_true by congruence].
  rewrite bool_decide_false by naive_solver. simpl. apply IH; [|done]. intros j ?. apply Hl. lia.
Qed.

Lemma mapM_existsb {A} (f : A -> option bool) (P : A -> Prop) l :
  (forall a, a ∈ l -> exists b, f a = Some b /\ (b = true <-> P a)) ->
  exists bs, mapM f l = Some bs /\ (existsb id bs = true <-> exists a, a ∈ l /\ P a).
Proof.
  induction l as [|a l IH]; intros Hl; simpl.
  - exists []. split; [done|]. set_solver.
  - destruct (Hl a) as (b & -> & Hb); [set_solver|]. destruct IH as (bs & -> & Hbs); [set_solver|].
    exists (b :: bs). split; [done|]. simpl. rewrite orb_true_iff, Hbs. unfold id. rewrite Hb. set_solver.
Qed.

Lemma load32_eq m a b j :
  (forall k, 0 <= k < 4 -> exists x y, m !! (a + 4 * j + k) = Some x /\ m !! (b + 4 * j + k) = Some y /\ byte_ok x /\ byte_ok y) ->
  is_Some (load32 m (a + 4 * j)) /\ is_Some (load32 m (b + 4 * j)) /\
  (load32 m (a + 4 * j) = load32 m (b + 4 * j) <-> forall k, 0 <= k < 4 -> m !! (a + 4 * j + k) = m !! (b + 4 * j + k)).
Proof.
  intros H.
  destruct (H 0) as (x0 & y0 & Hx0 & Hy0 & ? & ?); [lia|]. destruct (H 1) as (x1 & y1 & Hx1 & Hy1 & ? & ?); [lia|].
  destruct (H 2) as (x2 & y2 & Hx2 & Hy2 & ? & ?); [lia|]. destruct (H 3) as (x3 & y3 & Hx3 & Hy3 & ? & ?); [lia|].
  unfold load32. simpl. rewrite Hx0, Hx1, Hx2, Hx3, Hy0, Hy1, Hy2, Hy3. cbn [mbind option_bind].
  split; [by eexists|]. split; [by eexists|]. split.
  - intros [= He].
    assert (x0 = y0 /\ x1 = y1 /\ x2 = y2 /\ x3 = y3) as (-> & -> & -> & ->) by (unfold byte_ok in *; lia).
    intros k Hk.
    assert (k = 0 \/ k = 1 \/ k = 2 \/ k = 3) as [->|[->|[->| ->]]] by lia; congruence.
  - intros He. pose proof (He 0 ltac:(lia)) as E0. pose proof (He 1 ltac:(lia)) as E1.
    pose proof (He 2 ltac:(lia)) as E2. pose proof (He 3 ltac:(lia)) as E3.
    rewrite Hx0, Hy0 in E0. rewrite Hx1, Hy1 in E1. rewrite Hx2, Hy2 in E2. rewrite Hx3, Hy3 in E3. by simplify_eq.
Qed.

Lemma memcmp_kernel_spec blockDim m a b n :
  0 < blockDim -> n + blockDim <= 2 ^ 31 ->
  (forall j, 0 <= j < n -> is_Some (load32 m (a + 4 * j)) /\ is_Some (load32 m (b + 4 * j))) ->
  exists r, memcmp_kernel blockDim m a b n = Some r /\
    (r = true <-> forall j, 0 <= j < n -> load32 m (a + 4 * j) = load32 m (b + 4 * j)).
Proof.
  intros Hb Hn Hl. unfold memcmp_kernel.
  destruct (mapM_existsb (memcmp_thread (Z.to_nat n) m a b n blockDim)
    (fun t => exists j, 0 <= j < n /\ j mod blockDim = t /\ mismatch_at m a b j = true) (seqZ 0 blockDim)) as (bs & -> & Hbs).
  - intros t Ht%elem_of_seqZ. destruct (strided_threads n blockDim t) as (js & Hjs & Hin); [lia..|].
    exists (existsb (mismatch_at m a b) js). split; [apply memcmp_thread_strided; [intros; apply Hl; lia|lia|done]|].
    rewrite existsb_exists. setoid_rewrite <- list_elem_of_In. setoid_rewrite Hin. naive_solver.
  - eexists. split; [done|]. rewrite negb_true_iff, <- not_true_iff_false, Hbs. unfold mismatch_at. split.
    + intros H j Hj. destruct (decide (load32 m (a + 4 * j) = load32 m (b + 4 * j))) as [|Hne]; [done|]. exfalso. apply H.
      exists (j mod blockDim). split; [apply elem_of_seqZ; pose proof (Z.mod_pos_bound j blockDim); lia|].
      exists j. by rewrite bool_decide_true.
    + intros H (t & _ & j & Hj & _ & Hm%bool_decide_eq_true). by apply Hm, H.
Qed.

Lemma bytes_at_eq m a b n :
  bytes_at m a n = bytes_at m b n <-> forall k, 0 <= k < n -> m !! (a + k) = m !! (b + k).
Proof.
  unfold bytes_at. split.
  - intros H k Hk. apply (f_equal (fun l => l !! Z.to_nat k)) in H. rewrite !list_lookup_fmap, lookup_seqZ_lt in H by lia.
    simpl in H. injection H as H. by replace (0 + Z.of_nat (Z.to_nat k)) with k in H by lia.
  - intros H. apply list_fmap_ext. intros i k [-> Hi]%lookup_seqZ. apply H. lia.
Qed.

(** The comparison kernel, whose 256 threads compare words with
    an early exit each, decides the equality of the two buffers without their
    last [len mod 4] bytes: it is exact if [len] is a multiple of 4, and with
    [len < 4] it finds any two buffers equal. *)
Theorem memcmp_compares_words calls m a b len :
  cuCtxPushCurrent_result calls = OkStatus -> cuMemHostAlloc_result calls = OkStatus ->
  cuMemHostGetDevicePointer_result calls = OkStatus -> cudaStreamSynchronize_result calls = OkStatus ->
  0 <= len -> len / 4 + 256 <= 2 ^ 31 ->
  (forall k, 0 <= k < len -> exists x y, m !! (a + k) = Some x /\ m !! (b + k) = Some y /\ byte_ok x /\ byte_ok y) ->
  MemCmp calls m a b len =
    Some (Ok (bool_decide (bytes_at m a (len - len mod 4) = bytes_at m b (len - len mod 4)))).
Proof.
  intros H1 H2 H3 H4 Hlen Hn Hm. unfold MemCmp. rewrite H1, H2, H3, H4.
  pose proof (Z.div_mod len 4). pose proof (Z.mod_pos_bound len 4).
  assert (Hw : forall j, 0 <= j < len / 4 -> forall k, 0 <= k < 4 -> exists x y,
    m !! (a + 4 * j + k) = Some x /\ m !! (b + 4 * j + k) = Some y /\ byte_ok x /\ byte_ok y).
  { intros j Hj k Hk. rewrite <- !Z.add_assoc. apply Hm. lia. }
  destruct (memcmp_kernel_spec 256 m a b (len / 4)) as (r & -> & Hr); [lia..| |].
  { intros j Hj. by destruct (load32_eq m a b j (Hw j Hj)) as (? & ? & _). }
  cbn [mbind option_bind]. do 2 f_equal. apply eq_bool_prop_intro. rewrite bool_decide_spec.
  rewrite bytes_at_eq, Is_true_true, Hr. split.
  - intros He k Hk. destruct (load32_eq m a b (k / 4)) as (_ & _ & [Hb _]).
    { apply Hw. split; [apply Z.div_pos; lia|]. apply Z.div_lt_upper_bound; lia. }
    pose proof (Z.div_mod k 4). pose proof (Z.mod_pos_bound k 4).
    replace k with (4 * (k / 4) + k mod 4) by lia. rewrite !Z.add_assoc. apply Hb; [|lia].
    apply He. split; [apply Z.div_pos; lia|]. apply Z.div_lt_upper_bound; lia.
  - intros He j Hj. apply (load32_eq m a b j (Hw j Hj)). intros k Hk. rewrite <- !Z.add_assoc. apply He. lia.
Qed.

Lemma memcmp_compares_words_witness :
  let m := <[206 := 77]> (ex_bytes 100 8 ∪ (list_to_map ((fun k => (200 + k, k)) <$> seqZ 0 8) : Memory)) in
  MemCmp ex_calls m 100 200 6 = Some (Ok true) /\ MemCmp ex_calls m 100 200 8 = Some (Ok false).
Proof.
  intros m.
  assert (Hm : forall k, 0 <= k < 8 -> exists x y, m !! (100 + k) = Some x /\ m !! (200 + k) = Some y /\ byte_ok x /\ byte_ok y).
  { intros k Hk. assert (k ∈ seqZ 0 8) as Hin by (apply elem_of_seqZ; lia). clear Hk. revert k Hin.
    apply list.Forall_forall. change (seqZ 0 8) with [0; 1; 2; 3; 4; 5; 6; 7].
    repeat (apply List.Forall_cons; [eexists _, _; split; [vm_compute; reflexivity|]; split; [vm_compute; reflexivity|]; unfold byte_ok; lia|]).
    apply List.Forall_nil. }
  split.
  - rewrite (memcmp_compares_words ex_calls m 100 200 6); [reflexivity|done..| |done|]; [lia|]. intros k Hk. apply Hm. lia.
  - rewrite (memcmp_compares_words ex_calls m 100 200 8); [reflexivity|done..| |done|]; [lia|]. intros k Hk. apply Hm. lia.
Defined.
