(* ===== verification/GpuMem.v ===== *)
(** * GPU memory of the tools (cuda_helpers/cuda_helpers.cu: GpuMemHelper)

    Buffers in GPU memory with their dmabuf descriptors.  The CUDA driver, the
    dmabuf export and [close] are answers to calls; what the calls hold is read
    off the trace of calls, and the theorem shows that an operation that fails
    half-way gives back everything it has taken.  The class
    [GpuMemHelperInterface] is what the prober relies on. *)

From stdpp Require Import gmultiset.
From S2P Require Import Prelude PciTopology GpuIpServer.

(** ** The interface (cuda_helpers/gpu_mem_helper_interface.h) *)

(** [ready n g]: the GPU can be used whenever asked, and [n] more buffers can be
    numbered. *)
Class GpuMemHelperInterface (GM : Type) := {
  CreateBuffer : Z -> GM -> StatusOr Z * GM;
  GetFd : Z -> GM -> StatusOr Z;
  GetMem : Z -> GM -> StatusOr Z;
  WriteBuffer : Z -> Z -> list Z -> GM -> Status * GM;
  FreeBuffer : Z -> GM -> GM;
  buffers : GM -> gset Z;
  ready : nat -> GM -> Prop;
  ready_less n g : ready (S n) g -> ready n g;
  CreateBuffer_ok n size g id g' : ready (S n) g -> CreateBuffer size g = (Ok id, g') ->
    (id ∉ buffers g) /\ buffers g' = {[id]} ∪ buffers g /\ ready n g';
  CreateBuffer_err n size g e g' : ready n g -> CreateBuffer size g = (Err e, g') -> buffers g' = buffers g /\ ready n g';
  GetFd_live n id g : ready n g -> id ∈ buffers g -> is_ok (GetFd id g) = true;
  WriteBuffer_buffers n id off src g : ready n g ->
    buffers (WriteBuffer id off src g).2 = buffers g /\ ready n (WriteBuffer id off src g).2;
  FreeBuffer_buffers n id g : ready n g -> buffers (FreeBuffer id g) = buffers g ∖ {[id]} /\ ready n (FreeBuffer id g)
}.

(** ** Finding the GPU of a NIC *)

Definition kWaitRXDMSeconds : nat := 30.

(** The loop with [n] rounds left; [poll k] is the [k]-th result of
    [rxdm_running]. *)
Fixpoint WaitLoop (poll : nat -> Status) (n k : nat) (status : Status) : Status :=
  match n with
  | O => Err kInternal
  | S n => if is_ok status then status else WaitLoop poll n (S k) (poll k)
  end.

Definition wait_for_rxdm (poll : nat -> Status) (timeout_seconds : nat) : Status :=
  WaitLoop poll timeout_seconds 1 (poll 0%nat).

(** [devices] has the PCI addresses CUDA reports, [nic_ip] is
    [get_nic_ip_by_gpu_pci]. *)
Fixpoint FindLoop (nic_ip : string -> string) (ip : string) (devices : list (StatusOr string)) : StatusOr string :=
  match devices with
  | [] => Err kInternal
  | device :: devices =>
      pci_addr ← device;
      let gpu_pci := AsciiStrToLower pci_addr in
      if String.eqb (nic_ip gpu_pci) ip then Ok gpu_pci else FindLoop nic_ip ip devices
  end.

Definition find_gpu_pci_for_ip (cuDeviceGetCount : Status) (poll : nat -> Status) (nic_ip : string -> string)
    (devices : list (StatusOr string)) (ip : string) : StatusOr string :=
  _ ← cuDeviceGetCount;
  _ ← wait_for_rxdm poll kWaitRXDMSeconds;
  FindLoop nic_ip ip devices.

(** ** Calls and what they hold *)

Inductive CudaCall : Set :=
  | cuDeviceGetByPCIBusId | cuDevicePrimaryCtxRetain
  | cuCtxPushCurrent | cuCtxPopCurrent
  | cuMemAlloc (size : Z) | cuMemFree (ptr : Z)
  | GetDmabuf (ptr size : Z)
  | cuMemImportFromShareableHandle (fd : Z) | cuMemRelease (handle : Z)
  | cuMemAddressReserve (size align : Z) | cuMemAddressFree (ptr size : Z)
  | cuMemMap (ptr size handle : Z) | cuMemUnmap (ptr size : Z)
  | cuMemSetAccess (ptr size : Z)
  | cuMemGetHandleForAddressRange (ptr size : Z)
  | cuMemcpyHtoD (ptr : Z) (src : list Z) | cuMemcpyDtoH (ptr len : Z)
  | close (fd : Z).

Inductive Resource : Set :=
  | PrimaryContext | CurrentContext | Allocation (ptr : Z) | ImportedHandle (handle : Z)
  | AddressRange (ptr : Z) | Mapping (ptr : Z) | Descriptor (fd : Z).

#[export] Instance Resource_eq_dec : EqDecision Resource.
Proof. solve_decision. Defined.

#[export] Instance Resource_countable : Countable Resource.
Proof.
  refine (inj_countable'
    (fun r => match r with
      | PrimaryContext => (0, 0) | CurrentContext => (1, 0) | Allocation p => (2, p) | ImportedHandle h => (3, h)
      | AddressRange p => (4, p) | Mapping p => (5, p) | Descriptor fd => (6, fd) end)
    (fun '(k, x) => match k with
      | 0 => PrimaryContext | 1 => CurrentContext | 2 => Allocation x | 3 => ImportedHandle x
      | 4 => AddressRange x | 5 => Mapping x | _ => Descriptor x end) _); by intros [].
Defined.

(** What a call with its answer takes, and what a call gives back. *)
Definition taken (c : CudaCall) (answer : StatusOr Z) : option Resource :=
  match answer with
  | Err _ => None
  | Ok v =>
      match c with
      | cuDevicePrimaryCtxRetain => Some PrimaryContext
      | cuCtxPushCurrent => Some CurrentContext
      | cuMemAlloc _ => Some (Allocation v)
      | GetDmabuf _ _ | cuMemGetHandleForAddressRange _ _ => Some (Descriptor v)
      | cuMemImportFromShareableHandle _ => Some (ImportedHandle v)
      | cuMemAddressReserve _ _ => Some (AddressRange v)
      | cuMemMap p _ _ => Some (Mapping p)
      | _ => None
      end
  end.

Definition given_back (c : CudaCall) : option Resource :=
  match c with
  | cuCtxPopCurrent => Some CurrentContext
  | cuMemFree p => Some (Allocation p)
  | cuMemRelease h => Some (ImportedHandle h)
  | cuMemAddressFree p _ => Some (AddressRange p)
  | cuMemUnmap p _ => Some (Mapping p)
  | close fd => Some (Descriptor fd)
  | _ => None
  end.

Abbreviation Trace := (list (CudaCall * StatusOr Z)).

Definition after_call (h : gmultiset Resource) (e : CudaCall * StatusOr Z) : gmultiset Resource :=
  let h := match taken e.1 e.2 with Some r => {[+ r +]} ⊎ h | None => h end in
  match given_back e.1 with Some r => h ∖ {[+ r +]} | None => h end.

Definition held (t : Trace) : gmultiset Resource := foldl after_call ∅ t.

(** ** GpuMemHelper *)

Inductive AllocationType : Set := BOUNCE_BUFFER | TX_BUFFER | TX_BUFFER_WITH_SHIM.

Record GpuMemInfo := mkInfo {
  allocation_type : AllocationType;
  info_ptr : Z;
  info_handle : Z;
  info_fd : Z;
  info_size : Z
}.

(** The helper with the trace of the calls it has made. *)
Record GpuMemHelper := mkHelper {
  next_id_ : Z;
  mem_infos_ : gmap Z GpuMemInfo;
  trace : Trace
}.

Definition new_GpuMemHelper : GpuMemHelper := mkHelper 0 ∅ [].

Record BounceBufHandle := mkBounce { is_gpu_fd : bool; bounce_fd : Z; bounce_size : Z; bounce_align : Z }.

Section driver.

(** The driver answers the [n]-th call; [uninitialized] is the value of a field
    that was never assigned. *)
Context (driver : CudaCall -> nat -> StatusOr Z) (uninitialized : Z).

Definition call (c : CudaCall) (g : GpuMemHelper) : StatusOr Z * GpuMemHelper :=
  let answer := driver c (length (trace g)) in
  (answer, mkHelper (next_id_ g) (mem_infos_ g) (trace g ++ [(c, answer)])).

(** A call whose result is not used, as the cleanups make them. *)
Definition do (c : CudaCall) (g : GpuMemHelper) : GpuMemHelper := (call c g).2.

Definition set_infos (infos : gmap Z GpuMemInfo) (g : GpuMemHelper) : GpuMemHelper :=
  mkHelper (next_id_ g) infos (trace g).

(** [mem_infos_[next_id_] = info; return next_id_++;] *)
Definition add_info (info : GpuMemInfo) (g : GpuMemHelper) : StatusOr Z * GpuMemHelper :=
  (Ok (next_id_ g), mkHelper (u64 (next_id_ g + 1)) (<[next_id_ g := info]> (mem_infos_ g)) (trace g)).

Definition GpuMemHelper_Init (g : GpuMemHelper) : Status * GpuMemHelper :=
  match call cuDeviceGetByPCIBusId g with
  | (Err e, g) => (Err e, g)
  | (Ok _, g) =>
  match call cuDevicePrimaryCtxRetain g with
  | (Err e, g) => (Err e, g)
  | (Ok _, g) =>
  match call cuCtxPushCurrent g with
  | (Err e, g) => (Err e, g)
  | (Ok _, g) => (OkStatus, do cuCtxPopCurrent g)
  end end end.

Definition ImportBounceBuffer (b : BounceBufHandle) (g : GpuMemHelper) : StatusOr Z * GpuMemHelper :=
  let size := bounce_size b in
  if negb (is_gpu_fd b) then (Err kUnimplemented, g) else
  match call cuCtxPushCurrent g with
  | (Err _, g) => (Err kInternal, g)
  | (Ok _, g) =>
  match call (cuMemImportFromShareableHandle (bounce_fd b)) g with
  | (Err _, g) => (Err kInternal, do cuCtxPopCurrent g)
  | (Ok handle, g) =>
  match call (cuMemAddressReserve size (bounce_align b)) g with
  | (Err _, g) => (Err kInternal, do cuCtxPopCurrent (do (cuMemRelease handle) g))
  | (Ok ptr, g) =>
  match call (cuMemMap ptr size handle) g with
  | (Err _, g) => (Err kInternal, do cuCtxPopCurrent (do (cuMemRelease handle) (do (cuMemAddressFree ptr size) g)))
  | (Ok _, g) =>
  match call (cuMemSetAccess ptr size) g with
  | (Err _, g) =>
      (Err kInternal,
       do cuCtxPopCurrent (do (cuMemRelease handle) (do (cuMemAddressFree ptr size) (do (cuMemUnmap ptr size) g))))
  | (Ok _, g) =>
      let '(answer, g) := call (cuMemGetHandleForAddressRange ptr size) g in
      let fd := match answer with Ok fd => fd | Err _ => uninitialized end in
      let '(id, g) := add_info (mkInfo BOUNCE_BUFFER ptr handle fd size) g in
      (id, do cuCtxPopCurrent g)
  end end end end end.

Definition AllocateGpuMem (size : Z) (g : GpuMemHelper) : StatusOr Z * GpuMemHelper := call (cuMemAlloc size) g.

Definition GpuMemHelper_CreateBuffer (size : Z) (g : GpuMemHelper) : StatusOr Z * GpuMemHelper :=
  match call cuCtxPushCurrent g with
  | (Err _, g) => (Err kInternal, g)
  | (Ok _, g) =>
  match AllocateGpuMem size g with
  | (Err e, g) => (Err e, do cuCtxPopCurrent g)
  | (Ok ptr, g) =>
  match call (GetDmabuf ptr size) g with
  | (Err _, g) => (Err kInternal, do cuCtxPopCurrent (do (cuMemFree ptr) g))
  | (Ok fd, g) =>
      let '(id, g) := add_info (mkInfo TX_BUFFER ptr uninitialized fd size) g in
      (id, do cuCtxPopCurrent g)
  end end end.

Definition GpuMemHelper_GetFd (id : Z) (g : GpuMemHelper) : StatusOr Z :=
  match mem_infos_ g !! id with
  | None => Err kInvalidArgument
  | Some info => Ok (info_fd info)
  end.

Definition GpuMemHelper_GetMem (id : Z) (g : GpuMemHelper) : StatusOr Z :=
  match mem_infos_ g !! id with
  | None => Err kInvalidArgument
  | Some info => Ok (info_ptr info)
  end.

Definition GpuMemHelper_WriteBuffer (id offset : Z) (src : list Z) (g : GpuMemHelper) : Status * GpuMemHelper :=
  match mem_infos_ g !! id with
  | None => (Err kInvalidArgument, g)
  | Some info =>
  match call cuCtxPushCurrent g with
  | (Err _, g) => (Err kInternal, g)
  | (Ok _, g) =>
  match call (cuMemcpyHtoD (u64 (info_ptr info + offset)) src) g with
  | (Err _, g) => (Err kInternal, do cuCtxPopCurrent g)
  | (Ok _, g) => (OkStatus, do cuCtxPopCurrent g)
  end end end.

Definition GpuMemHelper_ReadBuffer (id offset len : Z) (g : GpuMemHelper) : Status * GpuMemHelper :=
  match mem_infos_ g !! id with
  | None => (Err kInvalidArgument, g)
  | Some info =>
  match call cuCtxPushCurrent g with
  | (Err _, g) => (Err kInternal, g)
  | (Ok _, g) =>
  match call (cuMemcpyDtoH (u64 (info_ptr info + offset)) len) g with
  | (Err _, g) => (Err kInternal, do cuCtxPopCurrent g)
  | (Ok _, g) => (OkStatus, do cuCtxPopCurrent g)
  end end end.

Definition GpuMemHelper_FreeBuffer (id : Z) (g : GpuMemHelper) : GpuMemHelper :=
  match mem_infos_ g !! id with
  | None => g
  | Some info =>
  match call cuCtxPushCurrent g with
  | (Err _, g) => g
  | (Ok _, g) =>
      let g := if 0 <? info_fd info then do (close (info_fd info)) g else g in
      let g :=
        match allocation_type info with
        | TX_BUFFER => do (cuMemFree (info_ptr info)) g
        | TX_BUFFER_WITH_SHIM | BOUNCE_BUFFER =>
            do (cuMemAddressFree (info_ptr info) (info_size info))
              (do (cuMemRelease (info_handle info)) (do (cuMemUnmap (info_ptr info) (info_size info)) g))
        end in
      do cuCtxPopCurrent (set_infos (delete id (mem_infos_ g)) g)
  end end.

(** ** What the helper holds *)

Inductive HelperOp : Set :=
  | OpImport (b : BounceBufHandle) | OpCreate (size : Z) | OpWrite (id offset : Z) (src : list Z)
  | OpRead (id offset len : Z) | OpFree (id : Z).

(** Whether the operation reports success, and the helper after it. *)
Definition exec (op : HelperOp) (g : GpuMemHelper) : bool * GpuMemHelper :=
  match op with
  | OpImport b => let '(r, g) := ImportBounceBuffer b g in (is_ok r, g)
  | OpCreate size => let '(r, g) := GpuMemHelper_CreateBuffer size g in (is_ok r, g)
  | OpWrite id offset src => let '(r, g) := GpuMemHelper_WriteBuffer id offset src g in (is_ok r, g)
  | OpRead id offset len => let '(r, g) := GpuMemHelper_ReadBuffer id offset len g in (is_ok r, g)
  | OpFree id => (true, GpuMemHelper_FreeBuffer id g)
  end.

Definition run_ops (ops : list HelperOp) (g : GpuMemHelper) : GpuMemHelper := foldl (fun g op => (exec op g).2) g ops.

Definition owned (info : GpuMemInfo) : gmultiset Resource :=
  match allocation_type info with
  | TX_BUFFER => {[+ Descriptor (info_fd info); Allocation (info_ptr info) +]}
  | _ => {[+ Descriptor (info_fd info); Mapping (info_ptr info); ImportedHandle (info_handle info);
             AddressRange (info_ptr info) +]}
  end.

Definition owned_all (infos : gmap Z GpuMemInfo) : gmultiset Resource :=
  map_fold (fun _ info acc => owned info ⊎ acc) ∅ infos.

(** Multisets by the multiplicities of their elements. *)
Ltac multiplicities :=
  apply gmultiset_eq; intros ?r; rewrite ?multiplicity_difference, ?multiplicity_disj_union, ?multiplicity_empty;
  repeat (rewrite ?multiplicity_difference, ?multiplicity_disj_union); lia.

Lemma owned_all_insert id info infos :
  infos !! id = None -> owned_all (<[id := info]> infos) = owned info ⊎ owned_all infos.
Proof. intros H. unfold owned_all. rewrite map_fold_insert_L; [done| |done]. intros. multiplicities. Qed.

Lemma owned_all_delete id info infos :
  infos !! id = Some info -> owned_all infos = owned info ⊎ owned_all (delete id infos).
Proof. intros H. rewrite <- (insert_delete_id infos id info H) at 1. apply owned_all_insert, lookup_delete_eq. Qed.

Lemma held_snoc t e : held (t ++ [e]) = after_call (held t) e.
Proof. unfold held. by rewrite foldl_app. Qed.

(** [g1] has the buffers of [g] and holds [X] in addition. *)
Definition plus (X : gmultiset Resource) (g g1 : GpuMemHelper) : Prop :=
  next_id_ g1 = next_id_ g /\ mem_infos_ g1 = mem_infos_ g /\ held (trace g1) = X ⊎ held (trace g).

Lemma plus_refl g : plus ∅ g g.
Proof. split; [done|]. split; [done|]. by rewrite (left_id_L ∅ (⊎)). Qed.

Lemma call_plus X g g1 c a g2 :
  plus X g g1 -> call c g1 = (a, g2) -> given_back c = None ->
  plus (match taken c a with Some r => {[+ r +]} ⊎ X | None => X end) g g2.
Proof.
  intros (Hn & Hi & Hh) [= <- <-] Hg. split; [done|]. split; [done|]. simpl. rewrite held_snoc. unfold after_call.
  simpl. rewrite Hg, Hh. destruct (taken c _); [multiplicities|done].
Qed.

Lemma held_do c r g :
  given_back c = Some r -> (forall a, taken c a = None) -> held (trace (do c g)) = held (trace g) ∖ {[+ r +]}.
Proof. intros Hg Ht. simpl. rewrite held_snoc. unfold after_call. simpl. by rewrite Ht, Hg. Qed.

Lemma do_plus X r c g g1 :
  plus ({[+ r +]} ⊎ X) g g1 -> given_back c = Some r -> (forall a, taken c a = None) -> plus X g (do c g1).
Proof.
  intros (Hn & Hi & Hh) Hg Ht. split; [done|]. split; [done|]. rewrite (held_do c r), Hh by done. multiplicities.
Qed.

(** Numbers are used once, the descriptors can be closed, and the helper holds
    [base] and what its buffers own. *)
Definition accounted (base : gmultiset Resource) (g : GpuMemHelper) : Prop :=
  0 <= next_id_ g /\ (forall id info, mem_infos_ g !! id = Some info -> 0 <= id < next_id_ g /\ 0 < info_fd info) /\
  held (trace g) = base ⊎ owned_all (mem_infos_ g).

Definition answers_ok : Prop :=
  (forall p s n fd, driver (GetDmabuf p s) n = Ok fd -> 0 < fd) /\
  (forall p s n, exists fd, driver (cuMemGetHandleForAddressRange p s) n = Ok fd /\ 0 < fd).

Lemma plus_accounted base g g' : plus ∅ g g' -> accounted base g -> accounted base g'.
Proof. unfold accounted. intros (-> & -> & ->). by rewrite (left_id_L ∅ (⊎)). Qed.

Lemma add_info_accounted base info g g1 id g2 :
  accounted base g -> next_id_ g < 2 ^ 64 - 1 -> 0 < info_fd info ->
  plus ({[+ CurrentContext +]} ⊎ owned info) g g1 -> add_info info g1 = (id, g2) ->
  id = Ok (next_id_ g) /\ accounted base (do cuCtxPopCurrent g2) /\ next_id_ (do cuCtxPopCurrent g2) = next_id_ g + 1.
Proof.
  intros (H0 & Hids & Hheld) Hn Hfd (Hnext & Hinfos & Hh) [= <- <-].
  unfold accounted. rewrite (held_do _ CurrentContext) by (try done; by intros []). simpl.
  rewrite Hnext, Hinfos, u64_small by lia. split; [done|]. split; [|done]. split; [lia|]. split.
  - intros id i [[<- <-]|[_ Hi]]%lookup_insert_Some; [lia|]. apply Hids in Hi. lia.
  - rewrite Hh, owned_all_insert, Hheld; [multiplicities|].
    apply eq_None_not_Some. intros [i Hi]. apply Hids in Hi. lia.
Qed.

(** The next call of the function; [H] says what is held so far. *)
Ltac answer H :=
  match goal with |- context [call ?c ?g] =>
    let Hc := fresh "Hc" in let e := fresh "e" in
    destruct (call c g) as [[?v|e] ?g] eqn:Hc; (apply (call_plus _ _ _ _ _ _ H) in Hc; [|reflexivity]); simpl in Hc; clear H;
    rename Hc into H
  end.

Ltac give_back H :=
  intros [= <- <-]; repeat (eapply do_plus; [|reflexivity|by intros []]); exact H.

Lemma ImportBounceBuffer_spec base b g r g' :
  answers_ok -> accounted base g -> next_id_ g < 2 ^ 64 - 1 -> ImportBounceBuffer b g = (r, g') ->
  match r with
  | Err _ => plus ∅ g g'
  | Ok id => id = next_id_ g /\ accounted base g' /\ next_id_ g' = next_id_ g + 1
  end.
Proof.
  intros [_ Hfd] Hacc Hn. unfold ImportBounceBuffer. pose proof (plus_refl g) as H.
  destruct (is_gpu_fd b); cbn [negb]; [|by intros [= <- <-]].
  answer H; [|give_back H]. answer H; [|give_back H]. answer H; [|give_back H]. answer H; [|give_back H].
  answer H; [|give_back H].
  destruct (Hfd v1 (bounce_size b) (length (trace g4))) as (fd & Hget & Hpos).
  assert (Hcall : exists g5, call (cuMemGetHandleForAddressRange v1 (bounce_size b)) g4 = (Ok fd, g5)).
  { unfold call. rewrite Hget. by eexists. }
  destruct Hcall as [g5 Hc]. rewrite Hc. apply (call_plus _ _ _ _ _ _ H) in Hc; [|reflexivity].
  destruct (add_info _ _) as [id g6] eqn:Hadd. intros [= <- <-].
  apply (add_info_accounted base _ g) in Hadd as (-> & ? & ?); [done..|].
  simpl in Hc. unfold plus in *. destruct Hc as (-> & -> & ->). split; [done|]. split; [done|]. unfold owned. simpl. multiplicities.
Qed.

Lemma CreateBuffer_spec base size g r g' :
  answers_ok -> accounted base g -> next_id_ g < 2 ^ 64 - 1 -> GpuMemHelper_CreateBuffer size g = (r, g') ->
  match r with
  | Err _ => plus ∅ g g'
  | Ok id => id = next_id_ g /\ accounted base g' /\ next_id_ g' = next_id_ g + 1
  end.
Proof.
  intros [Hfd _] Hacc Hn. unfold GpuMemHelper_CreateBuffer, AllocateGpuMem. pose proof (plus_refl g) as H.
  answer H; [|give_back H]. answer H; [|give_back H].
  destruct (call (GetDmabuf v0 size) g1) as [[fd|e] g2] eqn:Hc; pose proof Hc as H';
    (apply (call_plus _ _ _ _ _ _ H) in Hc; [|reflexivity]); simpl in Hc; [|give_back Hc].
  assert (Hpos : 0 < fd) by (unfold call in H'; injection H' as Hget _; by apply Hfd in Hget).
  destruct (add_info _ _) as [id g3] eqn:Hadd. intros [= <- <-].
  apply (add_info_accounted base _ g) in Hadd as (-> & ? & ?); [done..|].
  unfold plus in *. destruct Hc as (-> & -> & ->). split; [done|]. split; [done|]. unfold owned. simpl. multiplicities.
Qed.

Lemma WriteBuffer_spec id offset src g : plus ∅ g (GpuMemHelper_WriteBuffer id offset src g).2.
Proof.
  unfold GpuMemHelper_WriteBuffer. pose proof (plus_refl g) as H. destruct (mem_infos_ g !! id); [|done].
  answer H; [|exact H]. answer H; (eapply do_plus; [exact H|reflexivity|by intros []]).
Qed.

Lemma ReadBuffer_spec id offset len g : plus ∅ g (GpuMemHelper_ReadBuffer id offset len g).2.
Proof.
  unfold GpuMemHelper_ReadBuffer. pose proof (plus_refl g) as H. destruct (mem_infos_ g !! id); [|done].
  answer H; [|exact H]. answer H; (eapply do_plus; [exact H|reflexivity|by intros []]).
Qed.

Lemma FreeBuffer_spec base id g :
  accounted base g -> accounted base (GpuMemHelper_FreeBuffer id g) /\
  next_id_ (GpuMemHelper_FreeBuffer id g) = next_id_ g /\
  (mem_infos_ (GpuMemHelper_FreeBuffer id g) = mem_infos_ g \/
   mem_infos_ (GpuMemHelper_FreeBuffer id g) = delete id (mem_infos_ g)).
Proof.
  intros Hacc. unfold GpuMemHelper_FreeBuffer. destruct (mem_infos_ g !! id) as [info|] eqn:Hid; [|auto].
  pose proof (plus_refl g) as H. answer H; [|split; [by apply (plus_accounted _ g)|destruct H as (? & ? & _); auto]].
  destruct Hacc as (H0 & Hids & Hheld). destruct H as (Hn & Hi & Hh). destruct (Hids _ _ Hid) as [_ Hfd].
  rewrite (proj2 (Z.ltb_lt _ _)) by done.
  assert (Hdel : forall id' i, delete id (mem_infos_ g) !! id' = Some i -> 0 <= id' < next_id_ g /\ 0 < info_fd i).
  { intros id' i [_ ?]%lookup_delete_Some. eauto. }
  rewrite Hheld, (owned_all_delete id info), (right_id_L ∅ (⊎)) in Hh by done. unfold owned in Hh.
  destruct (allocation_type info); simpl in Hh;
    (split; [|split; [done|right; simpl; by rewrite Hi]]; split; [simpl; lia|]; split; [simpl; by rewrite Hn, Hi|]);
    erewrite held_do by (reflexivity || by intros []); cbn [set_infos trace];
    repeat (erewrite held_do; [|reflexivity|by intros []]); rewrite Hh; simpl; rewrite Hi; multiplicities.
Qed.

Lemma CreateBuffer_infos size g id g' :
  GpuMemHelper_CreateBuffer size g = (Ok id, g') -> exists info, mem_infos_ g' = <[id := info]> (mem_infos_ g).
Proof.
  unfold GpuMemHelper_CreateBuffer, AllocateGpuMem, call, add_info, do. simpl. repeat case_match; intros; simplify_eq/=; eauto.
Qed.

Lemma FreeBuffer_infos id g :
  (forall k, is_ok (driver cuCtxPushCurrent k) = true) ->
  mem_infos_ (GpuMemHelper_FreeBuffer id g) = delete id (mem_infos_ g).
Proof.
  intros Hp. unfold GpuMemHelper_FreeBuffer. destruct (mem_infos_ g !! id) eqn:Hid; [|by rewrite delete_id].
  unfold call, do. simpl. specialize (Hp (length (trace g))). destruct (driver _ _); [|done].
  simpl. repeat case_match; done.
Qed.

Lemma Init_spec g g' : GpuMemHelper_Init g = (OkStatus, g') -> plus {[+ PrimaryContext +]} g g'.
Proof.
  unfold GpuMemHelper_Init. pose proof (plus_refl g) as H.
  answer H; [|done]. answer H; [|done]. answer H; [|done]. intros [= <-].
  rewrite (right_id_L ∅ (⊎)) in H. eapply do_plus; [exact H|reflexivity|by intros []].
Qed.

End driver.

Section helper.
Context (driver : CudaCall -> nat -> StatusOr Z) (uninitialized : Z).

Lemma exec_spec base op g ok g' :
  answers_ok driver -> accounted base g -> next_id_ g < 2 ^ 64 - 1 -> exec driver uninitialized op g = (ok, g') ->
  accounted base g' /\ next_id_ g' <= next_id_ g + 1 /\ (ok = false -> mem_infos_ g' = mem_infos_ g).
Proof.
  intros Ha Hacc Hn. destruct op as [b|size|id offset src|id offset len|id]; simpl.
  - destruct (ImportBounceBuffer driver uninitialized b g) as [r g1] eqn:Hr. intros [= <- <-].
    apply (ImportBounceBuffer_spec _ _ base) in Hr; [|done..]. destruct r; simpl.
    + destruct Hr as (_ & ? & ?). split; [done|]. split; [lia|done].
    + split; [by apply (plus_accounted _ g)|]. destruct Hr as (? & ? & _). split; [lia|done].
  - destruct (GpuMemHelper_CreateBuffer driver uninitialized size g) as [r g1] eqn:Hr. intros [= <- <-].
    apply (CreateBuffer_spec _ _ base) in Hr; [|done..]. destruct r; simpl.
    + destruct Hr as (_ & ? & ?). split; [done|]. split; [lia|done].
    + split; [by apply (plus_accounted _ g)|]. destruct Hr as (? & ? & _). split; [lia|done].
  - pose proof (WriteBuffer_spec driver id offset src g) as Hw. destruct (GpuMemHelper_WriteBuffer _ _ _ _ _).
    intros [= <- <-]. split; [by apply (plus_accounted _ g)|]. destruct Hw as (? & ? & _). split; [simpl in *; lia|done].
  - pose proof (ReadBuffer_spec driver id offset len g) as Hw. destruct (GpuMemHelper_ReadBuffer _ _ _ _ _).
    intros [= <- <-]. split; [by apply (plus_accounted _ g)|]. destruct Hw as (? & ? & _). split; [simpl in *; lia|done].
  - intros [= <- <-]. destruct (FreeBuffer_spec driver base id g Hacc) as (? & ? & _). split; [done|]. split; [lia|done].
Qed.

Lemma run_ops_spec base ops g :
  answers_ok driver -> accounted base g -> next_id_ g + Zlen ops < 2 ^ 64 ->
  accounted base (run_ops driver uninitialized ops g) /\
  next_id_ (run_ops driver uninitialized ops g) <= next_id_ g + Zlen ops.
Proof.
  intros Ha. revert g. induction ops as [|op ops IH]; intros g Hacc Hn; [unfold Zlen; simpl; split; [done|lia]|].
  rewrite Zlen_cons in *. pose proof (Zlen_nonneg ops). simpl.
  destruct (exec driver uninitialized op g) as [ok g1] eqn:He. cbn [snd].
  apply (exec_spec base) in He as (Hacc1 & Hn1 & _); [|done|done|lia].
  destruct (IH g1) as [? ?]; [done|lia|]. split; [done|lia].
Qed.

End helper.


(** A driver that numbers what it hands out, and fails the third allocation. *)
Definition ex_driver (c : CudaCall) (n : nat) : StatusOr Z :=
  match c with
  | cuMemAlloc 0 => Err kResourceExhausted
  | _ => Ok (Z.of_nat n + 3)
  end.


(** ** The helper implements the interface *)

Definition helper_ready (driver : CudaCall -> nat -> StatusOr Z) (n : nat) (g : GpuMemHelper) : Prop :=
  answers_ok driver /\ (forall k, is_ok (driver cuCtxPushCurrent k) = true) /\
  (exists base, accounted base g) /\ next_id_ g + Z.of_nat n < 2 ^ 64 - 1.

Lemma helper_ready_plus driver n g g' : plus ∅ g g' -> helper_ready driver n g -> helper_ready driver n g'.
Proof.
  intros Hp (? & ? & [base Hacc] & ?). split; [done|]. split; [done|].
  split; [exists base; by apply (plus_accounted _ g)|]. by destruct Hp as (-> & _).
Qed.

Definition GpuMemHelper_implements (driver : CudaCall -> nat -> StatusOr Z) (uninitialized : Z) :
  GpuMemHelperInterface GpuMemHelper.
Proof.
  refine {| CreateBuffer := GpuMemHelper_CreateBuffer driver uninitialized;
            GetFd := GpuMemHelper_GetFd; GetMem := GpuMemHelper_GetMem;
            WriteBuffer := GpuMemHelper_WriteBuffer driver; FreeBuffer := GpuMemHelper_FreeBuffer driver;
            buffers := fun g => dom (mem_infos_ g); ready := helper_ready driver |}.
  - intros n g (? & ? & ? & ?). split; [done|]. split; [done|]. split; [done|lia].
  - intros n size g id g' (Ha & Hp & [base Hacc] & Hn) Hc.
    apply (CreateBuffer_infos driver uninitialized) in Hc as Hi. destruct Hi as [info Hi].
    apply (CreateBuffer_spec driver uninitialized base) in Hc as (-> & Hacc' & Hn'); [|done|done|lia].
    rewrite Hi, dom_insert_L. split; [|split; [done|]].
    + intros [i Hi']%elem_of_dom. destruct Hacc as (_ & Hids & _). apply Hids in Hi'. lia.
    + split; [done|]. split; [done|]. split; [by exists base|lia].
  - intros n size g e g' Hr Hc. pose proof Hr as (Ha & Hp & [base Hacc] & Hn).
    apply (CreateBuffer_spec driver uninitialized base) in Hc; [|done|done|lia].
    split; [by destruct Hc as (_ & -> & _)|by apply (helper_ready_plus _ _ g)].
  - intros n id g _ [i Hi]%elem_of_dom. unfold GpuMemHelper_GetFd. by rewrite Hi.
  - intros n id off src g Hr. pose proof (WriteBuffer_spec driver id off src g) as Hw.
    split; [by destruct Hw as (_ & -> & _)|by apply (helper_ready_plus _ _ g)].
  - intros n id g Hr. pose proof Hr as (Ha & Hp & [base Hacc] & Hn).
    destruct (FreeBuffer_spec driver base id g Hacc) as (Hacc' & Hn' & _).
    split; [|split; [done|]; split; [done|]; split; [by exists base|lia]].
    rewrite FreeBuffer_infos by done. apply dom_delete_L.
Defined.

(** ** The GPU of a NIC *)

(** The daemon is found if one of the first [n] polls finds it; one more poll is
    made whose result is not looked at. *)
Lemma wait_for_rxdm_spec poll n :
  is_ok (wait_for_rxdm poll n) = true <-> exists k, (k < n)%nat /\ is_ok (poll k) = true.
Proof.
  unfold wait_for_rxdm.
  assert (Hloop : forall k, is_ok (WaitLoop poll n (S k) (poll k)) = true <-> exists j, (k <= j < k + n)%nat /\ is_ok (poll j) = true).
  { induction n as [|n IH]; intros k; simpl.
    - split; [done|]. intros (j & ? & _). lia.
    - destruct (is_ok (poll k)) eqn:Hk.
      + split; [|done]. intros _. exists k. split; [lia|done].
      + rewrite IH. split; intros (j & ? & ?); exists j; (split; [|done]); [lia|].
        destruct (decide (j = k)) as [->|]; [congruence|lia]. }
  rewrite Hloop. by split; intros (j & ? & ?); exists j; (split; [lia|]).
Qed.

(** C37 (refinement) The GPU of a NIC: once the daemon's lookup servers run and are
    noticed within the time limit, [find_gpu_pci_for_ip] returns the first device
    of CUDA, in lower case, whose configuration in the daemon has the address,
    and an error if there is none. *)
Theorem find_gpu_for_nic `{NicIpCodec} prefix configs poll devices ip :
  c_string prefix = prefix -> NoDup (gpu_pci_addr <$> configs) ->
  Forall (fun c => c_string (gpu_pci_addr c) = gpu_pci_addr c) configs ->
  Forall (fun c => is_ok (UdsSockaddr prefix (NicIpUdsPath (gpu_pci_addr c))) = true) configs ->
  is_ok (UdsSockaddr prefix NicMappingUdsPath) = true ->
  Forall (fun c => Zlen (serialize_ip_req (mkNicIpReq (Some (gpu_pci_addr c)))) < 2 ^ 16
                   /\ exists t, serialize_ip_resp (mkNicIpResp (ip_addr c) kOk) = Some t /\ Zlen t < 2 ^ 16) configs ->
  Forall (fun d => c_string (AsciiStrToLower d) = AsciiStrToLower d) devices -> ip <> EmptyString ->
  (exists k, (k < kWaitRXDMSeconds)%nat /\ is_ok (poll k) = true) ->
  let services := GpuIpServer_Initialize configs in
  exists names, GpuIpServer_Start prefix services (fun _ => calls_ok) ∅ = (OkStatus, names) /\
    find_gpu_pci_for_ip OkStatus poll (get_nic_ip_by_gpu_pci prefix services OkStatus names) (Ok <$> devices) ip =
      match list_find (fun d => ip_addr <$> config_of configs d = Some ip) devices with
      | Some (_, d) => Ok (AsciiStrToLower d)
      | None => Err kInternal
      end.
Proof.
  intros Hpre Hnd Hgc Hfit Hmap Hcodec Hdev Hip Hpoll services.
  destruct (nic_ip_lookup prefix Hpre configs Hnd Hgc Hfit Hmap Hcodec) as (names & Hs & Hl).
  exists names. split; [done|]. unfold find_gpu_pci_for_ip. cbn [mbind StatusOr_bind OkStatus].
  apply wait_for_rxdm_spec in Hpoll. destruct (wait_for_rxdm poll kWaitRXDMSeconds); [simpl|done].
  induction Hdev as [|d devices Hd _ IH]; [done|]. simpl. rewrite Hl by (by rewrite AsciiStrToLower_idem).
  assert (Hcfg : config_of configs (AsciiStrToLower d) = config_of configs d) by (unfold config_of; by rewrite AsciiStrToLower_idem).
  rewrite Hcfg. destruct (config_of configs d) as [c|]; simpl.
  - destruct (String.eqb_spec (ip_addr c) ip) as [->|Hne]; [by rewrite decide_True|].
    rewrite decide_False by congruence. etrans; [exact IH|]. by destruct (list_find _ devices) as [[? ?]|].
  - destruct ip; [done|]. simpl. etrans; [exact IH|]. by destruct (list_find _ devices) as [[? ?]|].
Qed.

Lemma find_gpu_for_nic_witness :
  exists names, GpuIpServer_Start "" (GpuIpServer_Initialize ex_configs) (fun _ => calls_ok) ∅ = (OkStatus, names) /\
    find_gpu_pci_for_ip OkStatus (fun k => if decide (k = 2%nat) then OkStatus else Err kUnavailable)
      (get_nic_ip_by_gpu_pci "" (GpuIpServer_Initialize ex_configs) OkStatus names)
      (Ok <$> ["0000:04:00.0"; "0000:06:00.0"; "0000:07:00.0"]%string) "10.0.0.2" = Ok "0000:06:00.0"%string.
Proof.
  apply (find_gpu_for_nic "" ex_configs (fun k => if decide (k = 2%nat) then OkStatus else Err kUnavailable)
    ["0000:04:00.0"; "0000:06:00.0"; "0000:07:00.0"]%string "10.0.0.2").
  - done.
  - by_compute.
  - repeat constructor.
  - repeat constructor.
  - reflexivity.
  - repeat (apply list.Forall_cons; split; [split; [reflexivity|]; eexists; split; reflexivity|]). constructor.
  - repeat constructor.
  - done.
  - exists 2%nat. split; [unfold kWaitRXDMSeconds; lia|reflexivity].
Defined.

(** ** GpuMemValidator *)

(** What the driver keeps: the stack of current contexts of the thread (the
    primary context, or one that was created), how often the primary context is
    retained, the created contexts and the streams. *)
Record Driver := mkDriver {
  current : list (option nat);
  retained : Z;
  contexts : gset nat;
  streams : gset nat
}.

(** The answers of the calls of [Init]: [cuDeviceGetByPCIBusId],
    [cuCtxCreate] or [cuDevicePrimaryCtxRetain], [cuCtxPushCurrent] and
    [cudaStreamCreateWithFlags]; a new context and a stream have numbers. *)
Record ValidatorCalls := mkValidatorCalls {
  v_device : Status;
  v_context : StatusOr nat;
  v_push : Status;
  v_stream : StatusOr nat
}.

(** The members [Init] has set. *)
Record GpuMemValidator := mkValidator {
  new_ctx_ : bool;
  dev_ : bool;
  ctx_ : option nat;
  stream_ : option nat
}.

Definition new_Validator (new_ctx : bool) : GpuMemValidator := mkValidator new_ctx false None None.

(** [cuCtxCreate] makes the new context current. *)
Definition Validator_Init (calls : ValidatorCalls) (v : GpuMemValidator) (d : Driver)
    : Status * GpuMemValidator * Driver :=
  match v_device calls with
  | Err e => (Err e, v, d)
  | Ok _ =>
      let v := mkValidator (new_ctx_ v) true None None in
      match v_context calls with
      | Err e => (Err e, v, d)
      | Ok ctx =>
          let v := mkValidator (new_ctx_ v) true (Some ctx) None in
          let d :=
            if new_ctx_ v
            then mkDriver (Some ctx :: current d) (retained d) ({[ctx]} ∪ contexts d) (streams d)
            else mkDriver (current d) (retained d + 1) (contexts d) (streams d) in
          match (if new_ctx_ v then OkStatus else v_push calls) with
          | Err e => (Err e, v, d)
          | Ok _ =>
              let d := if new_ctx_ v then d
                       else mkDriver (None :: current d) (retained d) (contexts d) (streams d) in
              match v_stream calls with
              | Err e => (Err e, v, d)
              | Ok stream =>
                  (OkStatus, mkValidator (new_ctx_ v) true (Some ctx) (Some stream),
                   mkDriver (tail (current d)) (retained d) (contexts d) ({[stream]} ∪ streams d))
              end
          end
      end
  end.

(** The destructor; [None] when it uses a member that was not set. *)
Definition destroy_Validator (v : GpuMemValidator) (d : Driver) : option Driver :=
  stream ← stream_ v;
  if new_ctx_ v
  then ctx ← ctx_ v; Some (mkDriver (current d) (retained d) (contexts d ∖ {[ctx]}) (streams d ∖ {[stream]}))
  else if dev_ v then Some (mkDriver (current d) (retained d - 1) (contexts d) (streams d ∖ {[stream]})) else None.

(** A validator that was initialized leaves the current
    context as it was and, when it is destroyed, gives back its context and its
    stream. *)
Theorem validator_releases calls new_ctx d v d' :
  Validator_Init calls (new_Validator new_ctx) d = (OkStatus, v, d') ->
  (forall ctx, v_context calls = Ok ctx -> ctx ∉ contexts d) ->
  (forall stream, v_stream calls = Ok stream -> stream ∉ streams d) ->
  current d' = current d /\ destroy_Validator v d' = Some d.
Proof.
  unfold Validator_Init. destruct calls as [dev ctx push st], d as [cur ret ctxs sts]; cbn.
  intros E Hc Hs. destruct dev as [[]|]; [|done]. destruct ctx as [ctx|]; [|done]. specialize (Hc ctx eq_refl).
  assert (forall (x : nat) (X : gset nat), x ∉ X -> ({[x]} ∪ X) ∖ {[x]} = X) as C by set_solver.
  destruct new_ctx; [|destruct push as [[]|]; [|done]]; (destruct st as [s|]; [|done]); injection E as <- <-;
    specialize (Hs s eq_refl); cbn; (split; [done|]); rewrite ?(C ctx), (C s) by done; f_equal; f_equal; lia.
Qed.

Lemma validator_releases_witness :
  let '(_, v, d') := Validator_Init (mkValidatorCalls OkStatus (Ok 1%nat) OkStatus (Ok 2%nat)) (new_Validator false)
                       (mkDriver [] 0 ∅ ∅) in
  destroy_Validator v d' = Some (mkDriver [] 0 ∅ ∅).
Proof.
  eapply (validator_releases (mkValidatorCalls OkStatus (Ok 1%nat) OkStatus (Ok 2%nat)) false (mkDriver [] 0 ∅ ∅));
    [reflexivity|set_solver|set_solver].
Defined.

(** A failure to create the stream leaves the context current, and the
    destructor has no stream to destroy. *)
Example failed_stream_leaves_context :
  let '(st, v, d) := Validator_Init (mkValidatorCalls OkStatus (Ok 1%nat) OkStatus (Err kInternal)) (new_Validator false)
                       (mkDriver [] 0 ∅ ∅) in
  st = Err kInternal /\ current d = [None] /\ destroy_Validator v d = None.
Proof. done. Qed.
