(* ===== verification/Prober.v ===== *)
(** * Probe connections (tcpxo_prober/src/connection.{h,cc})

    The prober measures round trips between NICs: a ping connection sends a
    payload, waits for the answer of the pong connection at its peer and records
    the time.  The state machines of both ends are translated with the results of
    the DXS operations as inputs, and composed over two message streams. *)

From Stdlib Require Import Ascii.
From stdpp Require Import pretty.
From S2P Require Import Prelude PciTopology GpuIpServer GpuMem.

(** ** Connections *)

(** The DXS calls a step makes: a send or receive posted, a message received. *)
Inductive SockEvent : Set := PostedSend | PostedRecv | ReceivedMessage.

Definition TestSend (status : option Status) : StatusOr bool :=
  match status with
  | None => Ok false
  | Some (Err e) => Err e
  | Some (Ok _) => Ok true
  end.

Definition TestRecv (size : option (StatusOr Z)) : StatusOr Z :=
  match size with
  | Some (Err e) => Err e
  | Some (Ok n) => Ok n
  | None => Ok 0
  end.

Record PayloadVerificationContext := mkVerification { send_id : Z; recv_id : Z; recv_handle : Z }.

Module Ping.
Inductive PingState : Set :=
  | WAIT_FOR_NEXT_PROBE_ROUND | START_NEW_PROBE_ROUND | START_SEND | WAIT_FOR_SEND_RESPONSE
  | START_RECV | WAIT_FOR_RECV_RESPONSE.
End Ping.

Module Pong.
Inductive PongState : Set := START_RECV | WAIT_FOR_RECV_RESPONSE | START_SEND | WAIT_FOR_SEND_RESPONSE.
End Pong.

#[export] Instance PingState_eq_dec : EqDecision Ping.PingState.
Proof. solve_decision. Defined.

Record PingConnection := mkPing {
  ping_local_ip : string;
  ping_peer_ip : string;
  ping_payload_size : Z;
  payload_verification_ : option PayloadVerificationContext;
  ping_state : Ping.PingState;
  op_start_ : Z;
  results_ : list string
}.

Definition new_PingConnection (local_ip peer_ip : string) (payload_size : Z)
    (payload_verification : option PayloadVerificationContext) : PingConnection :=
  mkPing local_ip peer_ip payload_size payload_verification Ping.WAIT_FOR_NEXT_PROBE_ROUND 0 [].

Record PongConnection := mkPong { pong_local_ip : string; pong_peer_ip : string; pong_state : Pong.PongState }.

Definition new_PongConnection (local_ip peer_ip : string) : PongConnection :=
  mkPong local_ip peer_ip Pong.START_RECV.

(** The results of the calls of one step of a ping connection: the clock, the
    posting of the send, its tests until the deadline, and likewise for the
    receive. *)
Record PingCalls := mkPingCalls {
  now_start : Z;
  post_send : Status;
  send_tests : list (option Status);
  post_recv : Status;
  recv_tests : list (option (StatusOr Z));
  now_end : Z
}.

Definition set_state (s : Ping.PingState) (c : PingConnection) : PingConnection :=
  mkPing (ping_local_ip c) (ping_peer_ip c) (ping_payload_size c) (payload_verification_ c) s (op_start_ c) (results_ c).

Definition add_line (line : string) (c : PingConnection) : PingConnection :=
  mkPing (ping_local_ip c) (ping_peer_ip c) (ping_payload_size c) (payload_verification_ c) (ping_state c) (op_start_ c)
    (results_ c ++ [line]).

(** [std::remove] of the commas. *)
Fixpoint remove_commas (s : string) : string :=
  match s with
  | EmptyString => EmptyString
  | String a s => if Ascii.eqb a ","%char then remove_commas s else String a (remove_commas s)
  end.

Fixpoint TestSendBlocking (tests : list (option Status)) : StatusOr bool :=
  match tests with
  | [] => Ok false
  | test :: tests =>
      send_complete ← TestSend test;
      if (send_complete : bool) then Ok true else TestSendBlocking tests
  end.

Definition PrepareNewPingRound (c : PingConnection) : PingConnection :=
  if decide (ping_state c = Ping.WAIT_FOR_NEXT_PROBE_ROUND) then set_state Ping.START_NEW_PROBE_ROUND c else c.

Definition GetAndClearResults (c : PingConnection) : list string * PingConnection :=
  (results_ c,
   mkPing (ping_local_ip c) (ping_peer_ip c) (ping_payload_size c) (payload_verification_ c) (ping_state c) (op_start_ c) []).

Section ping.
Context {GM : Type} `{GpuMemHelperInterface GM}.
(** [absl::FormatTime], [Status::ToString] and the comparison of GPU memory. *)
Context (FormatTime : Z -> string) (ToString : StatusCode -> string) (MemCmp : GM -> Z -> Z -> Z -> StatusOr bool).

Definition result_line (c : PingConnection) (what : string) : string :=
  FormatTime (op_start_ c) +:+ "," +:+ ping_local_ip c +:+ "," +:+ ping_peer_ip c +:+ "," +:+ what.

Definition AddResult (now : Z) (c : PingConnection) : PingConnection :=
  add_line (result_line c (pretty (now - op_start_ c))) c.

Definition AddFailedResult (error : string) (c : PingConnection) : PingConnection :=
  add_line (result_line c (remove_commas error)) c.

(** [std::make_unique<char[]>] makes zeros; a failed write is only logged. *)
Definition ResetRecvBuffer (v : PayloadVerificationContext) (payload_size : Z) (g : GM) : GM :=
  (WriteBuffer (recv_id v) 0 (replicate (Z.to_nat payload_size) 0) g).2.

Definition VerifyAndResetRecvBuffer (v : PayloadVerificationContext) (payload_size : Z) (g : GM) : StatusOr bool * GM :=
  match GetMem (send_id v) g with
  | Err e => (Err e, g)
  | Ok expected_buf =>
  match GetMem (recv_id v) g with
  | Err e => (Err e, g)
  | Ok received_buf =>
  match MemCmp g received_buf expected_buf payload_size with
  | Err e => (Err e, g)
  | Ok match_ => if negb match_ then (Err kInternal, g) else (Ok true, ResetRecvBuffer v payload_size g)
  end end end.

Fixpoint DoRecvBlocking (tests : list (option (StatusOr Z))) (c : PingConnection) (g : GM)
    : StatusOr bool * list SockEvent * GM :=
  match tests with
  | [] => (Ok false, [], g)
  | test :: tests =>
      match TestRecv test with
      | Err e => (Err e, [], g)
      | Ok recv_size =>
          if recv_size =? 0 then DoRecvBlocking tests c g
          else
            match payload_verification_ c with
            | Some v => let '(r, g) := VerifyAndResetRecvBuffer v (ping_payload_size c) g in (r, [ReceivedMessage], g)
            | None => (Ok true, [ReceivedMessage], g)
            end
      end
  end.

(** The round ends with a failure. *)
Definition fail_round (e : StatusCode) (c : PingConnection) : PingConnection :=
  set_state Ping.WAIT_FOR_NEXT_PROBE_ROUND (AddFailedResult (ToString e) c).

(** The cases of the switch, each falling through to the one before it here. *)
Definition WaitForRecvResponse (calls : PingCalls) (c : PingConnection) (g : GM) : PingConnection * list SockEvent * GM :=
  let '(status, log, g) := DoRecvBlocking (recv_tests calls) c g in
  match status with
  | Err e => (fail_round e c, log, g)
  | Ok false => (c, log, g)
  | Ok true => (set_state Ping.WAIT_FOR_NEXT_PROBE_ROUND (AddResult (now_end calls) c), log, g)
  end.

Definition StartRecv (calls : PingCalls) (c : PingConnection) (g : GM) : PingConnection * list SockEvent * GM :=
  match post_recv calls with
  | Err e => (fail_round e c, [], g)
  | Ok _ =>
      let '(c, log, g) := WaitForRecvResponse calls (set_state Ping.WAIT_FOR_RECV_RESPONSE c) g in
      (c, PostedRecv :: log, g)
  end.

Definition WaitForSendResponse (calls : PingCalls) (c : PingConnection) (g : GM) : PingConnection * list SockEvent * GM :=
  match TestSendBlocking (send_tests calls) with
  | Err e => (fail_round e c, [], g)
  | Ok false => (c, [], g)
  | Ok true => StartRecv calls (set_state Ping.START_RECV c) g
  end.

Definition StartSend (calls : PingCalls) (c : PingConnection) (g : GM) : PingConnection * list SockEvent * GM :=
  match post_send calls with
  | Err e => (fail_round e c, [], g)
  | Ok _ =>
      let '(c, log, g) := WaitForSendResponse calls (set_state Ping.WAIT_FOR_SEND_RESPONSE c) g in
      (c, PostedSend :: log, g)
  end.

Definition SendPingAndRecordResult (calls : PingCalls) (c : PingConnection) (g : GM)
    : PingConnection * list SockEvent * GM :=
  match ping_state c with
  | Ping.WAIT_FOR_NEXT_PROBE_ROUND => (c, [], g)
  | Ping.START_NEW_PROBE_ROUND =>
      let c := mkPing (ping_local_ip c) (ping_peer_ip c) (ping_payload_size c) (payload_verification_ c)
                 Ping.START_SEND (now_start calls) (results_ c) in
      StartSend calls c g
  | Ping.START_SEND => StartSend calls c g
  | Ping.WAIT_FOR_SEND_RESPONSE => WaitForSendResponse calls c g
  | Ping.START_RECV => StartRecv calls c g
  | Ping.WAIT_FOR_RECV_RESPONSE => WaitForRecvResponse calls c g
  end.

End ping.

(** ** The answering end *)

Record PongCalls := mkPongCalls {
  pong_post_recv : Status;
  pong_recv_test : option (StatusOr Z);
  pong_post_send : Status;
  pong_send_test : option Status
}.

Definition set_pong (s : Pong.PongState) (c : PongConnection) : PongConnection :=
  mkPong (pong_local_ip c) (pong_peer_ip c) s.

Definition PongWaitForSend (calls : PongCalls) (c : PongConnection) : PongConnection * list SockEvent :=
  match TestSend (pong_send_test calls) with
  | Err _ => (set_pong Pong.START_RECV c, [])
  | Ok false => (c, [])
  | Ok true => (set_pong Pong.START_RECV c, [])
  end.

Definition PongStartSend (calls : PongCalls) (c : PongConnection) : PongConnection * list SockEvent :=
  match pong_post_send calls with
  | Err _ => (set_pong Pong.START_RECV c, [])
  | Ok _ => let '(c, log) := PongWaitForSend calls (set_pong Pong.WAIT_FOR_SEND_RESPONSE c) in (c, PostedSend :: log)
  end.

(** The size is converted to [bool]. *)
Definition PongWaitForRecv (calls : PongCalls) (c : PongConnection) : PongConnection * list SockEvent :=
  match TestRecv (pong_recv_test calls) with
  | Err _ => (set_pong Pong.START_RECV c, [])
  | Ok size =>
      if size =? 0 then (c, [])
      else let '(c, log) := PongStartSend calls (set_pong Pong.START_SEND c) in (c, ReceivedMessage :: log)
  end.

Definition DoPongOp (calls : PongCalls) (c : PongConnection) : PongConnection * list SockEvent :=
  match pong_state c with
  | Pong.START_RECV =>
      match pong_post_recv calls with
      | Err _ => (c, [])
      | Ok _ => let '(c, log) := PongWaitForRecv calls (set_pong Pong.WAIT_FOR_RECV_RESPONSE c) in (c, PostedRecv :: log)
      end
  | Pong.WAIT_FOR_RECV_RESPONSE => PongWaitForRecv calls c
  | Pong.START_SEND => PongStartSend calls c
  | Pong.WAIT_FOR_SEND_RESPONSE => PongWaitForSend calls c
  end.

(** ** One result per round *)

Fixpoint commas (s : string) : nat :=
  match s with
  | EmptyString => 0
  | String a s => (if Ascii.eqb a ","%char then 1 else 0) + commas s
  end.

Lemma commas_app s t : commas (s +:+ t) = (commas s + commas t)%nat.
Proof. induction s as [|a s IH]; [done|]. rewrite append_cons. simpl. rewrite IH. lia. Qed.

Lemma commas_remove s : commas (remove_commas s) = 0%nat.
Proof. induction s as [|a s IH]; [done|]. simpl. destruct (Ascii.eqb a ",") eqn:Ha; simpl; [done|]. by rewrite Ha. Qed.

Lemma commas_pretty_N_go x s : commas (pretty_N_go x s) = commas s.
Proof.
  revert s. induction (N.lt_wf_0 x) as [x _ IH]. intros s. destruct (decide (0 < x)%N) as [Hx|Hx].
  - rewrite pretty_N_go_step by done. rewrite IH by (apply N.div_lt; lia).
    cbn [commas]. unfold pretty_N_char. by repeat case_match.
  - assert (x = 0%N) as -> by lia. by rewrite pretty_N_go_0.
Qed.

Lemma commas_pretty (z : Z) : commas (pretty z) = 0%nat.
Proof.
  destruct z as [|p|p]; [done| |].
  - change (commas (pretty (N.pos p)) = 0%nat). unfold pretty, pretty_N. case_decide; [done|]. by rewrite commas_pretty_N_go.
  - change (commas ("-" +:+ pretty (N.pos p)) = 0%nat). rewrite commas_app. unfold pretty, pretty_N.
    case_decide; [done|]. by rewrite commas_pretty_N_go.
Qed.

Inductive PingEvent : Type := NewRound | PingStep (calls : PingCalls) | Collect.

(** A connection with what was collected from it and the number of rounds that
    were started. *)
Record PingRun (GM : Type) := mkRun { run_conn : PingConnection; run_gm : GM; run_collected : list string; run_rounds : nat }.
Arguments mkRun {GM}.
Arguments run_conn {GM}.
Arguments run_gm {GM}.
Arguments run_collected {GM}.
Arguments run_rounds {GM}.

Definition in_round (c : PingConnection) : nat :=
  if decide (ping_state c = Ping.WAIT_FOR_NEXT_PROBE_ROUND) then 0 else 1.

Section rounds.
Context {GM : Type} `{GpuMemHelperInterface GM}.
Context (FormatTime : Z -> string) (ToString : StatusCode -> string) (MemCmp : GM -> Z -> Z -> Z -> StatusOr bool).

Definition ping_event (r : PingRun GM) (e : PingEvent) : PingRun GM :=
  match e with
  | NewRound =>
      mkRun (PrepareNewPingRound (run_conn r)) (run_gm r) (run_collected r)
        (run_rounds r + (1 - in_round (run_conn r)))
  | PingStep calls =>
      let '(c, _, g) := SendPingAndRecordResult FormatTime ToString MemCmp calls (run_conn r) (run_gm r) in
      mkRun c g (run_collected r) (run_rounds r)
  | Collect =>
      let '(lines, c) := GetAndClearResults (run_conn r) in
      mkRun c (run_gm r) (run_collected r ++ lines) (run_rounds r)
  end.

(** What a step does to a connection: nothing, or it ends the round with one
    line of the format of the file. *)
Definition line_of (c : PingConnection) (line : string) : Prop :=
  exists t what, line = FormatTime t +:+ "," +:+ ping_local_ip c +:+ "," +:+ ping_peer_ip c +:+ "," +:+ what /\ commas what = 0%nat.

Definition ping_outcome (c c' : PingConnection) : Prop :=
  ping_local_ip c' = ping_local_ip c /\ ping_peer_ip c' = ping_peer_ip c /\
  ((ping_state c' <> Ping.WAIT_FOR_NEXT_PROBE_ROUND /\ results_ c' = results_ c) \/
   (ping_state c' = Ping.WAIT_FOR_NEXT_PROBE_ROUND /\ exists line, results_ c' = results_ c ++ [line] /\ line_of c line)).

Lemma fail_round_outcome e c : ping_outcome c (fail_round FormatTime ToString e c).
Proof.
  split; [done|]. split; [done|]. right. split; [done|]. eexists. split; [done|]. eexists _, _. split; [done|].
  apply commas_remove.
Qed.

Lemma set_state_outcome s c c' : ping_outcome (set_state s c) c' -> ping_outcome c c'.
Proof. done. Qed.

Lemma WaitForRecvResponse_outcome calls c g :
  ping_state c <> Ping.WAIT_FOR_NEXT_PROBE_ROUND ->
  ping_outcome c (WaitForRecvResponse FormatTime ToString MemCmp calls c g).1.1.
Proof.
  intros Hs. unfold WaitForRecvResponse. destruct (DoRecvBlocking _ _ _ _) as [[[[]|e] log] g'].
  - split; [done|]. split; [done|]. right. split; [done|]. eexists. split; [done|]. eexists _, _. split; [done|].
    apply commas_pretty.
  - split; [done|]. split; [done|]. by left.
  - apply fail_round_outcome.
Qed.

Lemma StartRecv_outcome calls c g : ping_outcome c (StartRecv FormatTime ToString MemCmp calls c g).1.1.
Proof.
  unfold StartRecv. destruct (post_recv calls); [|apply fail_round_outcome].
  pose proof (WaitForRecvResponse_outcome calls (set_state Ping.WAIT_FOR_RECV_RESPONSE c) g) as Hw.
  destruct (WaitForRecvResponse _ _ _ _ _ _) as [[c' log] g']. by apply set_state_outcome in Hw.
Qed.

Lemma WaitForSendResponse_outcome calls c g :
  ping_state c <> Ping.WAIT_FOR_NEXT_PROBE_ROUND ->
  ping_outcome c (WaitForSendResponse FormatTime ToString MemCmp calls c g).1.1.
Proof.
  intros Hs. unfold WaitForSendResponse. destruct (TestSendBlocking _) as [[]|e].
  - apply (set_state_outcome Ping.START_RECV), StartRecv_outcome.
  - split; [done|]. split; [done|]. by left.
  - apply fail_round_outcome.
Qed.

Lemma StartSend_outcome calls c g : ping_outcome c (StartSend FormatTime ToString MemCmp calls c g).1.1.
Proof.
  unfold StartSend. destruct (post_send calls); [|apply fail_round_outcome].
  pose proof (WaitForSendResponse_outcome calls (set_state Ping.WAIT_FOR_SEND_RESPONSE c) g) as Hw.
  destruct (WaitForSendResponse _ _ _ _ _ _) as [[c' log] g']. by apply set_state_outcome in Hw.
Qed.

Lemma SendPing_outcome calls c g c' log g' :
  SendPingAndRecordResult FormatTime ToString MemCmp calls c g = (c', log, g') ->
  (ping_state c = Ping.WAIT_FOR_NEXT_PROBE_ROUND /\ c' = c) \/
  (ping_state c <> Ping.WAIT_FOR_NEXT_PROBE_ROUND /\ ping_outcome c c').
Proof.
  intros Hs. assert (Hc : c' = (SendPingAndRecordResult FormatTime ToString MemCmp calls c g).1.1) by by rewrite Hs.
  rewrite Hc. clear. unfold SendPingAndRecordResult. destruct (ping_state c) eqn:Hs; [by left|right; split; [done|]..].
  - set (c0 := mkPing _ _ _ _ _ _ _). apply (StartSend_outcome calls c0 g).
  - apply StartSend_outcome.
  - apply WaitForSendResponse_outcome. congruence.
  - apply StartRecv_outcome.
  - apply WaitForRecvResponse_outcome. congruence.
Qed.

(** The buffers a step leaves, and the verification of the connection. *)
Definition keeps (n : nat) (c : PingConnection) (g : GM) (out : PingConnection * list SockEvent * GM) : Prop :=
  buffers out.2 = buffers g /\ ready n out.2 /\ payload_verification_ out.1.1 = payload_verification_ c.

Lemma DoRecvBlocking_keeps n tests c g :
  ready n g -> buffers (DoRecvBlocking MemCmp tests c g).2 = buffers g /\ ready n (DoRecvBlocking MemCmp tests c g).2.
Proof.
  intros Hr. induction tests as [|t tests IH]; simpl; [done|]. destruct (TestRecv t) as [size|e]; [|done].
  destruct (size =? 0); [done|]. destruct (payload_verification_ c) as [v|]; [|done].
  unfold VerifyAndResetRecvBuffer. destruct (GetMem (send_id v) g); [|done]. destruct (GetMem (recv_id v) g); [|done].
  destruct (MemCmp _ _ _ _) as [[]|]; [simpl|done..]. by apply WriteBuffer_buffers.
Qed.

Lemma WaitForRecvResponse_keeps n calls c g :
  ready n g -> keeps n c g (WaitForRecvResponse FormatTime ToString MemCmp calls c g).
Proof.
  intros Hr. unfold WaitForRecvResponse, keeps. pose proof (DoRecvBlocking_keeps n (recv_tests calls) c g Hr) as [Hb Hr'].
  by destruct (DoRecvBlocking _ _ _ _) as [[[[]|e] log] g'].
Qed.

Lemma StartRecv_keeps n calls c g : ready n g -> keeps n c g (StartRecv FormatTime ToString MemCmp calls c g).
Proof.
  intros Hr. unfold StartRecv. destruct (post_recv calls); [|done].
  pose proof (WaitForRecvResponse_keeps n calls (set_state Ping.WAIT_FOR_RECV_RESPONSE c) g Hr) as Hw.
  by destruct (WaitForRecvResponse _ _ _ _ _ _) as [[c' log] g'].
Qed.

Lemma WaitForSendResponse_keeps n calls c g : ready n g -> keeps n c g (WaitForSendResponse FormatTime ToString MemCmp calls c g).
Proof.
  intros Hr. unfold WaitForSendResponse. destruct (TestSendBlocking _) as [[]|e]; [|done..].
  apply (StartRecv_keeps n calls (set_state Ping.START_RECV c) g Hr).
Qed.

Lemma StartSend_keeps n calls c g : ready n g -> keeps n c g (StartSend FormatTime ToString MemCmp calls c g).
Proof.
  intros Hr. unfold StartSend. destruct (post_send calls); [|done].
  pose proof (WaitForSendResponse_keeps n calls (set_state Ping.WAIT_FOR_SEND_RESPONSE c) g Hr) as Hw.
  by destruct (WaitForSendResponse _ _ _ _ _ _) as [[c' log] g'].
Qed.

Lemma SendPing_keeps n calls c g : ready n g -> keeps n c g (SendPingAndRecordResult FormatTime ToString MemCmp calls c g).
Proof.
  intros Hr. unfold SendPingAndRecordResult. destruct (ping_state c).
  - done.
  - set (c0 := mkPing _ _ _ _ _ _ _). by apply (StartSend_keeps n calls c0 g).
  - by apply StartSend_keeps.
  - by apply WaitForSendResponse_keeps.
  - by apply StartRecv_keeps.
  - by apply WaitForRecvResponse_keeps.
Qed.

End rounds.

(** Every round of a ping connection is recorded exactly once: for
    any sequence of rounds, steps with any results of the DXS operations, and
    collections, the lines collected or waiting are as many as the rounds started
    and not in progress, and each line has the four fields of the file. *)
Theorem one_result_per_round {GM} `{GpuMemHelperInterface GM} FormatTime ToString MemCmp local peer size v (g : GM) events :
  (forall t, commas (FormatTime t) = 0%nat) -> commas local = 0%nat -> commas peer = 0%nat ->
  let r := foldl (ping_event FormatTime ToString MemCmp) (mkRun (new_PingConnection local peer size v) g [] 0) events in
  let lines := run_collected r ++ results_ (run_conn r) in
  (length lines + in_round (run_conn r) = run_rounds r)%nat /\ Forall (fun line => commas line = 3%nat) lines.
Proof.
  intros Ht Hl Hp.
  assert (Hinv : forall r, ping_local_ip (run_conn r) = local /\ ping_peer_ip (run_conn r) = peer /\
      (length (run_collected r ++ results_ (run_conn r)) + in_round (run_conn r) = run_rounds r)%nat /\
      Forall (fun line => commas line = 3%nat) (run_collected r ++ results_ (run_conn r)) ->
    let r := foldl (ping_event FormatTime ToString MemCmp) r events in
    (length (run_collected r ++ results_ (run_conn r)) + in_round (run_conn r) = run_rounds r)%nat /\
    Forall (fun line => commas line = 3%nat) (run_collected r ++ results_ (run_conn r))).
  { induction events as [|e events IH]; intros r (Hlo & Hpe & Hn & Hf); [done|]. simpl. apply IH. clear IH.
    destruct e as [|calls|]; simpl.
    - unfold PrepareNewPingRound, in_round in *. case_decide; simpl; [|rewrite decide_False by done].
      + split; [done|]. split; [done|]. split; [lia|done].
      + split; [done|]. split; [done|]. split; [lia|done].
    - destruct (SendPingAndRecordResult _ _ _ _ _ _) as [[c log] g'] eqn:Hs. simpl.
      apply SendPing_outcome in Hs as [[Hw ->]|[Hw (Hlo' & Hpe' & Ho)]]; [done|]. rewrite Hlo', Hpe'.
      split; [done|]. split; [done|]. unfold in_round in *. rewrite decide_False in Hn by done.
      destruct Ho as [[Hs' ->]|[Hs' (line & -> & Hline)]].
      + by rewrite decide_False.
      + rewrite decide_True by done. rewrite (assoc_L (++)). rewrite (length_app (_ ++ _)). simpl. split; [lia|].
        apply Forall_app. split; [done|]. constructor; [|done].
        destruct Hline as (t & what & -> & Hwhat). rewrite !commas_app, Ht, Hlo, Hpe, Hl, Hp, Hwhat. done.
    - by rewrite app_nil_r. }
  apply Hinv. simpl. split; [done|]. split; [done|]. split; [done|constructor].
Qed.

(** A round that succeeds and one whose send cannot be posted. *)
Lemma one_result_per_round_witness :
  let H := GpuMemHelper_implements ex_driver 0 in
  let good := mkPingCalls 10 OkStatus [None; Some OkStatus] OkStatus [None; Some (Ok 64)] 35 in
  let bad := mkPingCalls 50 (Err kUnavailable) [] OkStatus [] 60 in
  let r := foldl (ping_event (fun _ => "t"%string) (fun _ => "un,available"%string) (fun _ _ _ _ => Ok true))
    (mkRun (new_PingConnection "10.0.0.1" "10.0.0.2" 64 None) new_GpuMemHelper [] 0)
    [NewRound; PingStep good; Collect; NewRound; NewRound; PingStep bad] in
  run_collected r = ["t,10.0.0.1,10.0.0.2,25"%string] /\ results_ (run_conn r) = ["t,10.0.0.1,10.0.0.2,unavailable"%string] /\
  (length (run_collected r ++ results_ (run_conn r)) + in_round (run_conn r) = run_rounds r)%nat /\ run_rounds r = 2%nat.
Proof.
  intros H good bad r. split; [vm_compute; reflexivity|]. split; [vm_compute; reflexivity|]. split; [|vm_compute; reflexivity].
  refine (proj1 (one_result_per_round (H := H) (fun _ => "t"%string) (fun _ => "un,available"%string) (fun _ _ _ _ => Ok true)
    "10.0.0.1" "10.0.0.2" 64 None new_GpuMemHelper [NewRound; PingStep good; Collect; NewRound; NewRound; PingStep bad] _ _ _)); done.
Defined.

(** ** The two ends together *)

(** A ping and a pong connection with the messages on the way, and the messages
    the ping connection has sent and received. *)
Record Sys (GM : Type) := mkSys {
  sys_ping : PingConnection;
  sys_pong : PongConnection;
  sys_gm : GM;
  to_pong : nat;
  to_ping : nat;
  ping_sent : nat;
  ping_received : nat
}.
Arguments mkSys {GM}.
Arguments sys_ping {GM}.
Arguments sys_pong {GM}.
Arguments sys_gm {GM}.
Arguments to_pong {GM}.
Arguments to_ping {GM}.
Arguments ping_sent {GM}.
Arguments ping_received {GM}.

#[export] Instance SockEvent_eq_dec : EqDecision SockEvent.
Proof. solve_decision. Defined.

Definition occurrences (e : SockEvent) (log : list SockEvent) : nat := length (filter (eq e) log).

(** Operations do not fail, a send completes at any time, and a receive
    completes only with a message that is there. *)
Definition ping_calls_ok (waiting : nat) (calls : PingCalls) : Prop :=
  post_send calls = OkStatus /\ post_recv calls = OkStatus /\
  Forall (fun t => t = None \/ t = Some OkStatus) (send_tests calls) /\
  Forall (fun t => t = None \/ (0 < waiting)%nat /\ exists n, t = Some (Ok n) /\ n <> 0) (recv_tests calls).

Definition pong_calls_ok (waiting : nat) (calls : PongCalls) : Prop :=
  pong_post_recv calls = OkStatus /\ pong_post_send calls = OkStatus /\
  (pong_send_test calls = None \/ pong_send_test calls = Some OkStatus) /\
  (pong_recv_test calls = None \/ (0 < waiting)%nat /\ exists n, pong_recv_test calls = Some (Ok n) /\ n <> 0).

Section together.
Context {GM : Type} `{GpuMemHelperInterface GM}.
Context (FormatTime : Z -> string) (ToString : StatusCode -> string) (MemCmp : GM -> Z -> Z -> Z -> StatusOr bool).

Definition sys_round (s : Sys GM) : Sys GM :=
  mkSys (PrepareNewPingRound (sys_ping s)) (sys_pong s) (sys_gm s) (to_pong s) (to_ping s) (ping_sent s) (ping_received s).

Definition sys_do_ping (calls : PingCalls) (s : Sys GM) : Sys GM :=
  let '(c, log, g) := SendPingAndRecordResult FormatTime ToString MemCmp calls (sys_ping s) (sys_gm s) in
  let sent := occurrences PostedSend log in let received := occurrences ReceivedMessage log in
  mkSys c (sys_pong s) g (to_pong s + sent) (to_ping s - received) (ping_sent s + sent) (ping_received s + received).

Definition sys_do_pong (calls : PongCalls) (s : Sys GM) : Sys GM :=
  let '(c, log) := DoPongOp calls (sys_pong s) in
  mkSys (sys_ping s) c (sys_gm s) (to_pong s - occurrences ReceivedMessage log)
    (to_ping s + occurrences PostedSend log) (ping_sent s) (ping_received s).

(** A message posted during a step of the ping connection can be answered only
    by a later step of its peer. *)
Inductive sys_step : Sys GM -> Sys GM -> Prop :=
  | step_round s : sys_step s (sys_round s)
  | step_ping s calls : ping_calls_ok (to_ping s) calls -> sys_step s (sys_do_ping calls s)
  | step_pong s calls : pong_calls_ok (to_pong s) calls -> sys_step s (sys_do_pong calls s).

Definition sys_init (c : PingConnection) (d : PongConnection) (g : GM) : Sys GM := mkSys c d g 0 0 0 0.

(** One message is on the way or being answered exactly while the ping
    connection waits. *)
Definition in_step (s : Sys GM) : Prop :=
  pong_state (sys_pong s) <> Pong.START_SEND /\ ping_sent s = (ping_received s + to_pong s + to_ping s)%nat /\
  match ping_state (sys_ping s) with
  | Ping.WAIT_FOR_NEXT_PROBE_ROUND | Ping.START_NEW_PROBE_ROUND => to_pong s = 0%nat /\ to_ping s = 0%nat
  | Ping.WAIT_FOR_SEND_RESPONSE | Ping.WAIT_FOR_RECV_RESPONSE => (to_pong s + to_ping s = 1)%nat
  | _ => False
  end.

Lemma TestSendBlocking_ok tests :
  Forall (fun t => t = None \/ t = Some OkStatus) tests -> exists b, TestSendBlocking tests = Ok b.
Proof. induction 1 as [|t tests [->| ->] _ IH]; simpl; eauto. Qed.

Lemma Verify_not_false v n g : (VerifyAndResetRecvBuffer MemCmp v n g).1 <> Ok false.
Proof. unfold VerifyAndResetRecvBuffer. by repeat case_match. Qed.

Lemma DoRecvBlocking_ok waiting tests c g :
  Forall (fun t => t = None \/ (0 < waiting)%nat /\ exists n, t = Some (Ok n) /\ n <> 0) tests ->
  DoRecvBlocking MemCmp tests c g = (Ok false, [], g) \/
  (0 < waiting)%nat /\ exists r g', DoRecvBlocking MemCmp tests c g = (r, [ReceivedMessage], g') /\ r <> Ok false.
Proof.
  induction 1 as [|t tests [->|(Hw & n & -> & Hn)] _ IH]; simpl; [by left|done|]. right. split; [done|].
  rewrite (proj2 (Z.eqb_neq _ _)) by done. destruct (payload_verification_ c) as [v|]; [|do 2 eexists; split; [reflexivity|discriminate]].
  pose proof (Verify_not_false v (ping_payload_size c) g) as Hv.
  destruct (VerifyAndResetRecvBuffer _ _ _ _) as [r g']. by exists r, g'.
Qed.

(** A step that posts [k] sends leaves the connection waiting, or ends the round
    with a message that was there. *)
Definition effect (k waiting : nat) (out : PingConnection * list SockEvent * GM) : Prop :=
  occurrences PostedSend out.1.2 = k /\
  ((ping_state out.1.1 = Ping.WAIT_FOR_SEND_RESPONSE \/ ping_state out.1.1 = Ping.WAIT_FOR_RECV_RESPONSE) /\
     occurrences ReceivedMessage out.1.2 = 0%nat \/
   (0 < waiting)%nat /\ occurrences ReceivedMessage out.1.2 = 1%nat /\
     ping_state out.1.1 = Ping.WAIT_FOR_NEXT_PROBE_ROUND).

Lemma WaitForRecvResponse_effect waiting calls c g :
  ping_calls_ok waiting calls -> ping_state c = Ping.WAIT_FOR_RECV_RESPONSE ->
  effect 0 waiting (WaitForRecvResponse FormatTime ToString MemCmp calls c g).
Proof.
  intros (_ & _ & _ & Hr) Hs. unfold WaitForRecvResponse.
  destruct (DoRecvBlocking_ok waiting _ c g Hr) as [->|(Hw & r & g' & -> & Hne)].
  - split; [done|]. left. auto.
  - destruct r as [[]|e]; [| done|]; (split; [done|]; right; done).
Qed.

Lemma StartRecv_effect waiting calls c g :
  ping_calls_ok waiting calls -> effect 0 waiting (StartRecv FormatTime ToString MemCmp calls c g).
Proof.
  intros Hok. unfold StartRecv. destruct Hok as (? & Hr & ?) eqn:E. rewrite Hr. unfold OkStatus.
  pose proof (WaitForRecvResponse_effect waiting calls (set_state Ping.WAIT_FOR_RECV_RESPONSE c) g Hok eq_refl) as Hw.
  by destruct (WaitForRecvResponse _ _ _ _ _ _) as [[c' log] g'].
Qed.

Lemma WaitForSendResponse_effect waiting calls c g :
  ping_calls_ok waiting calls -> ping_state c = Ping.WAIT_FOR_SEND_RESPONSE ->
  effect 0 waiting (WaitForSendResponse FormatTime ToString MemCmp calls c g).
Proof.
  intros Hok Hs. unfold WaitForSendResponse. destruct (TestSendBlocking_ok (send_tests calls)) as [[] ->]; [apply Hok| |].
  - by apply StartRecv_effect.
  - split; [done|]. left. auto.
Qed.

Lemma StartSend_effect waiting calls c g :
  ping_calls_ok waiting calls -> effect 1 waiting (StartSend FormatTime ToString MemCmp calls c g).
Proof.
  intros Hok. unfold StartSend. destruct Hok as (Hp & ?) eqn:E. rewrite Hp. unfold OkStatus.
  pose proof (WaitForSendResponse_effect waiting calls (set_state Ping.WAIT_FOR_SEND_RESPONSE c) g Hok eq_refl) as Hw.
  destruct (WaitForSendResponse _ _ _ _ _ _) as [[c' log] g']. destruct Hw as [Hk Hw]. split; [|exact Hw].
  unfold occurrences in *. simpl in *. by rewrite Hk.
Qed.

Lemma DoPongOp_effect waiting calls d d' log :
  pong_calls_ok waiting calls -> pong_state d <> Pong.START_SEND -> DoPongOp calls d = (d', log) ->
  pong_state d' <> Pong.START_SEND /\ occurrences PostedSend log = occurrences ReceivedMessage log /\
  (occurrences ReceivedMessage log <= 1 /\ occurrences ReceivedMessage log <= waiting)%nat.
Proof.
  intros (Hr & Hs & Hst & Hrt) Hd. unfold DoPongOp, PongWaitForRecv, PongStartSend, PongWaitForSend. rewrite Hr, Hs. unfold OkStatus.
  destruct Hst as [-> | ->], Hrt as [->|(? & n & -> & Hn)]; simpl;
    try (rewrite (proj2 (Z.eqb_neq _ _)) by done); destruct (pong_state d) eqn:Hp; try done;
    intros [= <- <-]; cbn [pong_state set_pong]; rewrite ?Hp; (split; [done|]; split; [done|]; vm_compute occurrences; lia).
Qed.

Lemma sys_step_in_step s s' : sys_step s s' -> in_step s -> in_step s'.
Proof.
  intros [s1|s1 calls Hok|s1 calls Hok] (Hpong & Hcount & Hst).
  - unfold in_step. simpl. split; [done|]. split; [done|]. unfold PrepareNewPingRound.
    destruct (ping_state (sys_ping s1)) eqn:Hs; simpl; rewrite ?Hs; done.
  - unfold sys_do_ping, in_step.
    assert (He : ping_state (sys_ping s1) <> Ping.WAIT_FOR_NEXT_PROBE_ROUND ->
      effect (if decide (ping_state (sys_ping s1) = Ping.START_NEW_PROBE_ROUND) then 1 else 0) (to_ping s1)
        (SendPingAndRecordResult FormatTime ToString MemCmp calls (sys_ping s1) (sys_gm s1))).
    { intros Hne. unfold SendPingAndRecordResult. destruct (ping_state (sys_ping s1)) eqn:Hs; try done; simpl.
      - by apply StartSend_effect.
      - by apply WaitForSendResponse_effect.
      - by apply WaitForRecvResponse_effect. }
    destruct (decide (ping_state (sys_ping s1) = Ping.WAIT_FOR_NEXT_PROBE_ROUND)) as [Hw|Hw].
    + unfold SendPingAndRecordResult. rewrite Hw in *. unfold occurrences. simpl. rewrite Hw. split; [done|]. lia.
    + specialize (He Hw). destruct (SendPingAndRecordResult _ _ _ _ _ _) as [[c' log] g'].
      destruct He as [Hk He]. simpl in *. rewrite Hk. split; [done|].
      destruct He as [[[-> | ->] ->]|(Hpos & -> & ->)]; destruct (ping_state (sys_ping s1)); simpl in *; try done; lia.
  - unfold sys_do_pong, in_step. destruct (DoPongOp calls (sys_pong s1)) as [d' log] eqn:Hd.
    apply (DoPongOp_effect (to_pong s1)) in Hd as (Hd' & Hp & Hle); [|done..]. simpl. split; [done|].
    destruct (ping_state (sys_ping s1)); try done; lia.
Qed.

Lemma in_step_reachable c d g s :
  ping_state c = Ping.WAIT_FOR_NEXT_PROBE_ROUND -> pong_state d = Pong.START_RECV -> rtc sys_step (sys_init c d g) s -> in_step s.
Proof.
  intros Hc Hd Hs. assert (Hi : in_step (sys_init c d g)) by (unfold in_step; simpl; rewrite Hc, Hd; done).
  revert Hi. induction Hs as [|s1 s2 s3 H1 _ IH]; [done|]. intros Hi. apply IH. by apply (sys_step_in_step s1).
Qed.

(** Steps in which everything completes that can. *)
Definition all_ping (waiting : nat) : PingCalls :=
  mkPingCalls 0 OkStatus [Some OkStatus] OkStatus (if decide (waiting = 0%nat) then [] else [Some (Ok 1)]) 0.

Definition all_pong (waiting : nat) : PongCalls :=
  mkPongCalls OkStatus (if decide (waiting = 0%nat) then None else Some (Ok 1)) OkStatus (Some OkStatus).

Lemma all_ping_ok waiting : ping_calls_ok waiting (all_ping waiting).
Proof.
  split; [done|]. split; [done|]. split; [constructor; [by right|constructor]|]. simpl. case_decide; constructor; [|constructor].
  right. split; [lia|]. by exists 1.
Qed.

Lemma all_pong_ok waiting : pong_calls_ok waiting (all_pong waiting).
Proof.
  split; [done|]. split; [done|]. split; [by right|]. simpl. case_decide; [by left|]. right. split; [lia|]. by exists 1.
Qed.

Definition ping_all (s : Sys GM) : Sys GM := sys_do_ping (all_ping (to_ping s)) s.
Definition pong_all (s : Sys GM) : Sys GM := sys_do_pong (all_pong (to_pong s)) s.

Lemma step_ping_all s : sys_step s (ping_all s).
Proof. apply step_ping, all_ping_ok. Qed.

Lemma step_pong_all s : sys_step s (pong_all s).
Proof. apply step_pong, all_pong_ok. Qed.

Lemma WaitForRecvResponse_all w c g :
  ping_state (WaitForRecvResponse FormatTime ToString MemCmp (all_ping w) c g).1.1 =
    if decide (w = 0%nat) then ping_state c else Ping.WAIT_FOR_NEXT_PROBE_ROUND.
Proof.
  unfold WaitForRecvResponse, all_ping. cbn [recv_tests]. case_decide; [done|]. simpl.
  destruct (payload_verification_ c) as [v|]; [|done]. pose proof (Verify_not_false v (ping_payload_size c) g).
  by destruct (VerifyAndResetRecvBuffer _ _ _ _) as [[[]|e] g'].
Qed.

(** A step in which everything completes brings the connection to wait for the
    answer, or ends the round if the answer is there. *)
Lemma ping_all_state s :
  in_step s -> ping_state (sys_ping s) <> Ping.WAIT_FOR_NEXT_PROBE_ROUND ->
  ping_state (sys_ping (ping_all s)) =
    if decide (to_ping s = 0%nat) then Ping.WAIT_FOR_RECV_RESPONSE else Ping.WAIT_FOR_NEXT_PROBE_ROUND.
Proof.
  intros (_ & _ & Hst) Hw. unfold ping_all, sys_do_ping, SendPingAndRecordResult, StartSend, WaitForSendResponse, StartRecv.
  set (w := to_ping s) in *.
  destruct (ping_state (sys_ping s)) eqn:Hs; try done; cbn -[WaitForRecvResponse].
  - pose proof (WaitForRecvResponse_all w) as Hr. specialize (Hr (set_state Ping.WAIT_FOR_RECV_RESPONSE (set_state Ping.START_RECV
      (set_state Ping.WAIT_FOR_SEND_RESPONSE (mkPing (ping_local_ip (sys_ping s)) (ping_peer_ip (sys_ping s))
        (ping_payload_size (sys_ping s)) (payload_verification_ (sys_ping s)) Ping.START_SEND 0 (results_ (sys_ping s)))))) (sys_gm s)).
    destruct (WaitForRecvResponse _ _ _ _ _ _) as [[c' log] g']. exact Hr.
  - pose proof (WaitForRecvResponse_all w (set_state Ping.WAIT_FOR_RECV_RESPONSE (set_state Ping.START_RECV (sys_ping s))) (sys_gm s)) as Hr.
    destruct (WaitForRecvResponse _ _ _ _ _ _) as [[c' log] g']. exact Hr.
  - pose proof (WaitForRecvResponse_all w (sys_ping s) (sys_gm s)) as Hr.
    destruct (WaitForRecvResponse _ _ _ _ _ _) as [[c' log] g']. simpl in *. by rewrite Hr, Hs.
Qed.

Lemma ping_all_results s :
  ping_state (sys_ping s) <> Ping.WAIT_FOR_NEXT_PROBE_ROUND ->
  length (results_ (sys_ping (ping_all s))) = (length (results_ (sys_ping s)) + (1 - in_round (sys_ping (ping_all s))))%nat.
Proof.
  intros Hw. unfold ping_all, sys_do_ping. destruct (SendPingAndRecordResult _ _ _ _ _ _) as [[c' log] g'] eqn:Hs. simpl.
  apply SendPing_outcome in Hs as [[? _]|(_ & _ & _ & [[Hs ->]|[Hs (line & -> & _)]])]; [done| |]; unfold in_round.
  - rewrite decide_False by done. lia.
  - rewrite decide_True by done. rewrite length_app. simpl. lia.
Qed.

(** The answer is sent by at most two steps of the peer. *)
Lemma pong_all_answers s :
  pong_state (sys_pong s) <> Pong.START_SEND -> to_pong s = 1%nat -> to_ping s = 0%nat ->
  exists n s', (n <= 2)%nat /\ nsteps sys_step n s s' /\ sys_ping s' = sys_ping s /\ to_ping s' = 1%nat.
Proof.
  intros Hp H1 H0.
  assert (Hans : forall s, pong_state (sys_pong s) = Pong.START_RECV \/ pong_state (sys_pong s) = Pong.WAIT_FOR_RECV_RESPONSE ->
    to_pong s = 1%nat -> to_ping s = 0%nat -> sys_ping (pong_all s) = sys_ping s /\ to_ping (pong_all s) = 1%nat).
  { clear. intros s Hp H1 H0. unfold pong_all, sys_do_pong, DoPongOp. rewrite H1.
    destruct Hp as [-> | ->]; simpl; rewrite H0; done. }
  destruct (pong_state (sys_pong s)) eqn:Hs; try done.
  - exists 1%nat, (pong_all s). split; [lia|]. split; [apply nsteps_once, step_pong_all|]. apply Hans; auto.
  - exists 1%nat, (pong_all s). split; [lia|]. split; [apply nsteps_once, step_pong_all|]. apply Hans; auto.
  - assert (Hq : sys_ping (pong_all s) = sys_ping s /\ to_pong (pong_all s) = 1%nat /\ to_ping (pong_all s) = 0%nat /\
      pong_state (sys_pong (pong_all s)) = Pong.START_RECV).
    { unfold pong_all, sys_do_pong, DoPongOp. rewrite Hs, H1. simpl. by rewrite H0. }
    destruct Hq as (Hq1 & Hq2 & Hq3 & Hq4). destruct (Hans (pong_all s)) as [Ha Hb]; auto.
    exists 2%nat, (pong_all (pong_all s)). split; [lia|]. split; [|by rewrite Ha, Hq1].
    eapply nsteps_l; [apply step_pong_all|]. apply nsteps_once, step_pong_all.
Qed.

End together.

(** C39 (invariant) The two ends stay in step: while no DXS operation fails, for
    every interleaving of rounds and steps and any completion times at most one
    message is on the way, a new round starts only after the answer of the
    previous one has arrived, and so every round measures its own answer. *)
Theorem ping_pong_in_step {GM} `{GpuMemHelperInterface GM} FormatTime ToString MemCmp local peer size v (g : GM) s :
  rtc (sys_step FormatTime ToString MemCmp) (sys_init (new_PingConnection local peer size v) (new_PongConnection peer local) g) s ->
  (to_pong s + to_ping s <= 1)%nat /\ ping_sent s = (ping_received s + to_pong s + to_ping s)%nat /\
  (in_round (sys_ping s) = 0%nat \/ ping_state (sys_ping s) = Ping.START_NEW_PROBE_ROUND -> ping_sent s = ping_received s).
Proof.
  intros Hs. apply in_step_reachable in Hs as (_ & Hc & Hst); [|done..]. unfold in_round.
  destruct (ping_state (sys_ping s)); try done; (split; [lia|]; split; [done|]);
    intros [?|?]; try done; try (rewrite decide_False in * by done); try lia.
Qed.

Lemma ping_pong_in_step_witness :
  exists s, rtc (sys_step (H := GpuMemHelper_implements ex_driver 0) (fun _ => EmptyString) (fun _ => EmptyString) (fun _ _ _ _ => Ok true))
      (sys_init (new_PingConnection "10.0.0.1" "10.0.0.2" 64 None) (new_PongConnection "10.0.0.2" "10.0.0.1") new_GpuMemHelper) s /\
    to_pong s = 1%nat /\ (to_pong s + to_ping s <= 1)%nat.
Proof.
  set (step := sys_step (H := GpuMemHelper_implements ex_driver 0) (fun _ => EmptyString) (fun _ => EmptyString) (fun _ _ _ _ => Ok true)).
  set (s0 := sys_init _ _ _).
  assert (Hr : exists s, rtc step s0 s /\ to_pong s = 1%nat).
  { exists (ping_all (H := GpuMemHelper_implements ex_driver 0) (fun _ => EmptyString) (fun _ => EmptyString) (fun _ _ _ _ => Ok true)
      (sys_round s0)). split; [|reflexivity].
    eapply rtc_l; [apply step_round|]. eapply rtc_l; [apply step_ping_all|]. apply rtc_refl. }
  destruct Hr as (s & Hs & H1). exists s. split; [exact Hs|]. split; [exact H1|].
  exact (proj1 (ping_pong_in_step (H := GpuMemHelper_implements ex_driver 0) _ _ _ _ _ _ _ _ s Hs)).
Defined.

(** A round always ends: from every reachable state in which a round
    is in progress at most four steps of the two ends complete it, with one more
    result. *)
Theorem round_completes {GM} `{GpuMemHelperInterface GM} FormatTime ToString MemCmp local peer size v (g : GM) s :
  rtc (sys_step FormatTime ToString MemCmp) (sys_init (new_PingConnection local peer size v) (new_PongConnection peer local) g) s ->
  in_round (sys_ping s) = 1%nat ->
  exists n s', (n <= 4)%nat /\ nsteps (sys_step FormatTime ToString MemCmp) n s s' /\ in_round (sys_ping s') = 0%nat /\
    length (results_ (sys_ping s')) = S (length (results_ (sys_ping s))).
Proof.
  intros Hs Hround. apply in_step_reachable in Hs as Hi; [|done..]. clear Hs.
  assert (Hw : ping_state (sys_ping s) <> Ping.WAIT_FOR_NEXT_PROBE_ROUND) by (unfold in_round in Hround; by case_decide).
  assert (Hlast : forall s, in_step s -> ping_state (sys_ping s) <> Ping.WAIT_FOR_NEXT_PROBE_ROUND -> to_ping s <> 0%nat ->
    in_round (sys_ping (ping_all FormatTime ToString MemCmp s)) = 0%nat /\
    length (results_ (sys_ping (ping_all FormatTime ToString MemCmp s))) = S (length (results_ (sys_ping s)))).
  { clear. intros s Hi Hw H0. pose proof (ping_all_state FormatTime ToString MemCmp s Hi Hw) as Hst.
    rewrite decide_False in Hst by done. pose proof (ping_all_results FormatTime ToString MemCmp s Hw) as Hr.
    unfold in_round in *. rewrite decide_True in * by done. split; [done|lia]. }
  destruct (decide (to_ping s = 0%nat)) as [H0|H0].
  - set (s1 := ping_all FormatTime ToString MemCmp s).
    pose proof (step_ping_all FormatTime ToString MemCmp s) as Hstep. pose proof (sys_step_in_step _ _ _ _ _ Hstep Hi) as Hi1.
    pose proof (ping_all_state FormatTime ToString MemCmp s Hi Hw) as Hst. rewrite decide_True in Hst by done.
    pose proof (ping_all_results FormatTime ToString MemCmp s Hw) as Hres. unfold in_round in Hres at 1.
    rewrite Hst, decide_False in Hres by done. fold s1 in Hstep, Hi1, Hst, Hres.
    destruct (decide (to_ping s1 = 0%nat)) as [H1|H1].
    + destruct (pong_all_answers FormatTime ToString MemCmp s1) as (n & s2 & Hn & Hsteps & Hp & H2).
      { apply Hi1. } { destruct Hi1 as (_ & _ & Hc). rewrite Hst in Hc. lia. } { done. }
      assert (Hi2 : in_step s2).
      { apply rtc_nsteps_2 in Hsteps. clear - Hsteps Hi1. induction Hsteps; [done|]. eauto using sys_step_in_step. }
      destruct (Hlast s2 Hi2) as [Ha Hb]; [by rewrite Hp, Hst|by rewrite H2|]. rewrite Hp in Hb.
      exists (S (n + 1)), (ping_all FormatTime ToString MemCmp s2). split; [lia|]. split; [|split; [done|rewrite Hb; lia]].
      eapply nsteps_l; [exact Hstep|]. eapply nsteps_trans; [exact Hsteps|]. apply nsteps_once, step_ping_all.
    + destruct (Hlast s1 Hi1) as [Ha Hb]; [by rewrite Hst|done|].
      exists 2%nat, (ping_all FormatTime ToString MemCmp s1). split; [lia|]. split; [|split; [done|rewrite Hb; lia]].
      eapply nsteps_l; [exact Hstep|]. apply nsteps_once, step_ping_all.
  - destruct (Hlast s Hi Hw H0) as [Ha Hb]. exists 1%nat, (ping_all FormatTime ToString MemCmp s).
    split; [lia|]. split; [apply nsteps_once, step_ping_all|done].
Qed.

Lemma round_completes_witness :
  let H := GpuMemHelper_implements ex_driver 0 in
  let s0 := sys_init (new_PingConnection "10.0.0.1" "10.0.0.2" 64 None) (new_PongConnection "10.0.0.2" "10.0.0.1") new_GpuMemHelper in
  exists n s', (n <= 4)%nat /\
    nsteps (sys_step (fun _ => EmptyString) (fun _ => EmptyString) (fun _ _ _ _ => Ok true)) n (sys_round s0) s' /\
    in_round (sys_ping s') = 0%nat /\ length (results_ (sys_ping s')) = 1%nat.
Proof.
  intros H s0.
  apply (round_completes (fun _ => EmptyString) (fun _ => EmptyString) (fun _ _ _ _ => Ok true) "10.0.0.1" "10.0.0.2" 64 None
    new_GpuMemHelper (sys_round s0)); [|reflexivity]. apply rtc_once, step_round.
Defined.

(** When the receive cannot be posted the answer to the failed round is still on
    its way: the next round ends with it while its own message is unanswered. *)
Example stale_answer :
  let H := GpuMemHelper_implements ex_driver 0 in
  let ping := sys_do_ping (fun _ => EmptyString) (fun _ => EmptyString) (fun _ _ _ _ => Ok true) in
  let s0 := sys_init (new_PingConnection "10.0.0.1" "10.0.0.2" 64 None) (new_PongConnection "10.0.0.2" "10.0.0.1") new_GpuMemHelper in
  let s1 := ping (mkPingCalls 0 OkStatus [Some OkStatus] (Err kUnavailable) [] 0) (sys_round s0) in
  let s2 := ping (all_ping 1) (sys_round (pong_all s1)) in
  length (results_ (sys_ping s2)) = 2%nat /\ in_round (sys_ping s2) = 0%nat /\
  ping_sent s2 = 2%nat /\ ping_received s2 = 1%nat /\ to_pong s2 = 1%nat.
Proof. vm_compute. done. Qed.
