(* ===== verification/ProberNic.v ===== *)
(** * Probe connections of a NIC (tcpxo_prober/src/nic-manager.{h,cc})

    A NIC manager owns a send and a receive buffer, registered with the buffer
    manager, and the ping and pong connections of the NIC; a ping connection that
    verifies its payload owns a receive buffer of its own.  The theorems account
    for the buffers and registrations through every operation and bound the
    number of connections. *)

From Stdlib Require Import Ascii.
From S2P Require Import Prelude PciTopology MrCache GpuIpServer GpuMem Prober.

Definition kPayload : list Z := [72; 101; 108; 108; 111; 44; 32; 68; 88; 83; 33; 32].

(** [kPayload[i % (sizeof(kPayload) - 1)]] for every index. *)
Definition GeneratePayload (payload_size : Z) : list Z :=
  (fun i => nthZ kPayload (i mod Zlen kPayload)) <$> seqZ 0 payload_size.

Definition kMinBufferSize : Z := Z.shiftl 2 20.

(** ** Waiting for the sockets *)

(** The results of [SocketReady] until the deadline. *)
Fixpoint WaitReady (polls : list (option Status)) : Status :=
  match polls with
  | [] => Err kDeadlineExceeded
  | Some status :: _ => status
  | None :: polls => WaitReady polls
  end.

Record ListenCalls := mkListen { listen_result : Status; listen_ready : list (option Status); listen_port : Z }.

Definition NicManager_Listen (calls : ListenCalls) : StatusOr Z :=
  _ ← listen_result calls;
  _ ← WaitReady (listen_ready calls);
  if listen_port calls <=? 0 then Err kInternal else Ok (listen_port calls).

Record ConnectCalls := mkConnect { connect_result : Status; connect_ready : list (option Status) }.

Definition NicManager_Connect (calls : ConnectCalls) : Status :=
  _ ← connect_result calls;
  WaitReady (connect_ready calls).

(** The results of [Accept], [Ok false] for the null pointer, and then of
    [SocketReady]. *)
Fixpoint AcceptLoop (accepts : list (StatusOr bool)) (polls : list (option Status)) : Status :=
  match accepts with
  | [] => Err kDeadlineExceeded
  | accept :: accepts =>
      sock ← accept;
      if (sock : bool) then WaitReady polls else AcceptLoop accepts polls
  end.

Record AcceptCalls := mkAccept { accept_results : list (StatusOr bool); accept_ready : list (option Status) }.

Definition NicManager_Accept (calls : AcceptCalls) : Status := AcceptLoop (accept_results calls) (accept_ready calls).

(** ** Remote calls *)

Record TearDownRequest := mkTearDown { ping_ip : string; pong_ip : string; ping_ip_is_servers_nic : bool }.

Fixpoint contains_colon (s : string) : bool :=
  match s with
  | EmptyString => false
  | String a s => Ascii.eqb a ":"%char || contains_colon s
  end.

(** The host and port of the remote agent; IPv6 addresses are bracketed. *)
Definition grpc_address (server_gpu_ip : string) (port : string) : string :=
  if negb (contains_colon server_gpu_ip) then server_gpu_ip +:+ ":" +:+ port
  else "[" +:+ server_gpu_ip +:+ "]" +:+ ":" +:+ port.

Definition TearDownClient (client_gpu_ip server_gpu_ip : string) (is_servers_nic : bool) : TearDownRequest :=
  if is_servers_nic then mkTearDown server_gpu_ip client_gpu_ip true
  else mkTearDown client_gpu_ip server_gpu_ip false.

(** The reply of [SetUpPongConnection]. *)
Definition SetUpClient (reply : StatusOr Z) : StatusOr Z :=
  match reply with
  | Err _ => Err kInternal
  | Ok dxs_port => Ok dxs_port
  end.

(** ** The manager *)

(** The GPU memory and the buffer manager, and the registrations a warning was
    logged for because they could not be removed. *)
Record Resources (GM BM : Type) := mkResources { res_gm : GM; res_bm : BM; res_failed : gset Z }.
Arguments mkResources {GM BM}.
Arguments res_gm {GM BM}.
Arguments res_bm {GM BM}.
Arguments res_failed {GM BM}.

Record NicManager (GM BM : Type) := mkNic {
  nic_ip : string;
  nic_payload_size : Z;
  max_connections_per_nic : Z;
  resources : Resources GM BM;
  send_buffer_id_ : Z;
  recv_buffer_id_ : Z;
  send_buffer_handle_ : Z;
  recv_buffer_handle_ : Z;
  ping_connections_ : list PingConnection;
  pong_connections_ : list PongConnection
}.
Arguments mkNic {GM BM}.
Arguments nic_ip {GM BM}.
Arguments nic_payload_size {GM BM}.
Arguments max_connections_per_nic {GM BM}.
Arguments resources {GM BM}.
Arguments send_buffer_id_ {GM BM}.
Arguments recv_buffer_id_ {GM BM}.
Arguments send_buffer_handle_ {GM BM}.
Arguments recv_buffer_handle_ {GM BM}.
Arguments ping_connections_ {GM BM}.
Arguments pong_connections_ {GM BM}.

(** [ConnectionResults::Result] *)
Inductive ConnectionResult : Set :=
  | RESULT_UNSPECIFIED | RESULT_SUCCESS | RESULT_FAILURE | RESULT_FAILURE_ALLOCATING_GPU_MEMORY
  | RESULT_FAILURE_CONNECTION_LIMIT.

#[export] Instance ConnectionResult_eq_dec : EqDecision ConnectionResult.
Proof. solve_decision. Defined.

Record CreateCalls := mkCreateCalls {
  create_listen : ListenCalls;
  create_setup : StatusOr Z;
  create_connect : ConnectCalls;
  create_accept : AcceptCalls
}.

Section manager.
Context {GM BM : Type} `{GpuMemHelperInterface GM, BufferManagerClientInterface BM}.

Definition set_resources (r : Resources GM BM) (m : NicManager GM BM) : NicManager GM BM :=
  mkNic (nic_ip m) (nic_payload_size m) (max_connections_per_nic m) r (send_buffer_id_ m) (recv_buffer_id_ m)
    (send_buffer_handle_ m) (recv_buffer_handle_ m) (ping_connections_ m) (pong_connections_ m).

Definition set_pings (l : list PingConnection) (m : NicManager GM BM) : NicManager GM BM :=
  mkNic (nic_ip m) (nic_payload_size m) (max_connections_per_nic m) (resources m) (send_buffer_id_ m) (recv_buffer_id_ m)
    (send_buffer_handle_ m) (recv_buffer_handle_ m) l (pong_connections_ m).

Definition set_pongs (l : list PongConnection) (m : NicManager GM BM) : NicManager GM BM :=
  mkNic (nic_ip m) (nic_payload_size m) (max_connections_per_nic m) (resources m) (send_buffer_id_ m) (recv_buffer_id_ m)
    (send_buffer_handle_ m) (recv_buffer_handle_ m) (ping_connections_ m) l.

Definition set_gm (g : GM) (r : Resources GM BM) : Resources GM BM := mkResources g (res_bm r) (res_failed r).
Definition set_bm (b : BM) (r : Resources GM BM) : Resources GM BM := mkResources (res_gm r) b (res_failed r).

(** A buffer of GPU memory, filled with [payload], and its registration.  With
    [cleanup] the buffer is freed if it cannot be registered. *)
Definition NewBuffer (cleanup : bool) (payload : option (list Z)) (buffer_size : Z) (r : Resources GM BM)
    : StatusOr (Z * Z) * Resources GM BM :=
  match CreateBuffer buffer_size (res_gm r) with
  | (Err e, g) => (Err e, set_gm g r)
  | (Ok id, g) =>
      let fail (e : StatusCode) (r : Resources GM BM) : StatusOr (Z * Z) * Resources GM BM :=
        (Err e, if cleanup then set_gm (FreeBuffer id (res_gm r)) r else r) in
      let '(written, g) := match payload with Some src => WriteBuffer id 0 src g | None => (OkStatus, g) end in
      let r := set_gm g r in
      match written with
      | Err e => fail e r
      | Ok _ =>
      match GetFd id g with
      | Err e => fail e r
      | Ok fd =>
      match RegBuf fd buffer_size (res_bm r) with
      | (Err e, b) => fail e (set_bm b r)
      | (Ok handle, b) => (Ok (id, handle), set_bm b r)
      end end end
  end.

(** [prepare] has the results of the calls before the buffers: [InitCuda], the
    buffer manager client, the GPU of the NIC, the validator, the helper and the
    DXS client. *)
Definition SetUp (prepare : list Status) (m : NicManager GM BM) : Status * NicManager GM BM :=
  match mapM id prepare with
  | Err e => (Err e, m)
  | Ok _ =>
  let buffer_size := Z.max (nic_payload_size m) kMinBufferSize in
  match NewBuffer false (Some (GeneratePayload (nic_payload_size m))) buffer_size (resources m) with
  | (Err e, r) => (Err e, set_resources r m)
  | (Ok (send_id, send_handle), r) =>
  match NewBuffer false None buffer_size r with
  | (Err e, r) => (Err e, set_resources r m)
  | (Ok (recv_id, recv_handle), r) =>
      (OkStatus, mkNic (nic_ip m) (nic_payload_size m) (max_connections_per_nic m) r send_id recv_id send_handle recv_handle
                   (ping_connections_ m) (pong_connections_ m))
  end end end.

Definition CreatePayloadVerificationContext (m : NicManager GM BM) : StatusOr PayloadVerificationContext * Resources GM BM :=
  let buffer_size := Z.max (nic_payload_size m) kMinBufferSize in
  match NewBuffer true None buffer_size (resources m) with
  | (Err e, r) => (Err e, r)
  | (Ok (recv_id, recv_handle), r) => (Ok (mkVerification (send_buffer_id_ m) recv_id recv_handle), r)
  end.

(** [~PayloadVerificationContext] *)
Definition destroy_verification (v : PayloadVerificationContext) (r : Resources GM BM) : Resources GM BM :=
  let '(status, b) := DeregBuf (recv_handle v) (res_bm r) in
  mkResources (FreeBuffer (recv_id v) (res_gm r)) b
    (match status with Ok _ => res_failed r | Err _ => {[recv_handle v]} ∪ res_failed r end).

Definition destroy_optional (v : option PayloadVerificationContext) (r : Resources GM BM) : Resources GM BM :=
  match v with Some v => destroy_verification v r | None => r end.

Definition at_limit (limit : Z) (size : nat) : bool := (0 <? limit) && (limit <=? Z.of_nat size).

(** The sockets of an outgoing connection, in the order of the code. *)
Definition OpenSockets (calls : CreateCalls) : Status :=
  _ ← NicManager_Listen (create_listen calls);
  _ ← SetUpClient (create_setup calls);
  _ ← NicManager_Connect (create_connect calls);
  NicManager_Accept (create_accept calls).

Definition CreatePingConnection (remote_nic_ip : string) (verify_payload : bool) (calls : CreateCalls) (m : NicManager GM BM)
    : ConnectionResult * NicManager GM BM :=
  if at_limit (max_connections_per_nic m) (length (ping_connections_ m)) then (RESULT_FAILURE_CONNECTION_LIMIT, m) else
  let '(verification, r) :=
    if verify_payload
    then let '(v, r) := CreatePayloadVerificationContext m in (v ← v; Ok (Some v), r)
    else (Ok None, resources m) in
  let m := set_resources r m in
  match verification with
  | Err _ => (RESULT_FAILURE, m)
  | Ok payload_verification =>
  match OpenSockets calls with
  | Err _ => (RESULT_FAILURE, set_resources (destroy_optional payload_verification (resources m)) m)
  | Ok _ =>
      let c := new_PingConnection (nic_ip m) remote_nic_ip (nic_payload_size m) payload_verification in
      (RESULT_SUCCESS, set_pings (ping_connections_ m ++ [c]) m)
  end end.

Definition CompletePongConnectionSetup (remote_nic_ip : string) (accept : AcceptCalls) (connect : ConnectCalls)
    (m : NicManager GM BM) : Status * NicManager GM BM :=
  if at_limit (max_connections_per_nic m) (length (pong_connections_ m)) then (Err kResourceExhausted, m) else
  match NicManager_Accept accept with
  | Err e => (Err e, m)
  | Ok _ =>
  match NicManager_Connect connect with
  | Err e => (Err e, m)
  | Ok _ => (OkStatus, set_pongs (pong_connections_ m ++ [new_PongConnection (nic_ip m) remote_nic_ip]) m)
  end end.

(** The reply of the call, and the set-up its detached thread completes with the
    results given for it. *)
Definition CreatingPongConnection (client_gpu_ip : string) (calls : ListenCalls) (accept : AcceptCalls) (connect : ConnectCalls)
    (m : NicManager GM BM) : StatusOr Z * NicManager GM BM :=
  match NicManager_Listen calls with
  | Err e => (Err e, m)
  | Ok recv_port => (Ok recv_port, (CompletePongConnectionSetup client_gpu_ip accept connect m).2)
  end.

Definition destroy_pings (l : list PingConnection) (r : Resources GM BM) : Resources GM BM :=
  foldl (fun r c => destroy_optional (payload_verification_ c) r) r l.

(** The requests sent to the remote agents, and the manager. *)
Definition TearDownAllPingConnections (m : NicManager GM BM) : list TearDownRequest * NicManager GM BM :=
  ((fun c => TearDownClient (ping_local_ip c) (ping_peer_ip c) false) <$> ping_connections_ m,
   set_pings [] (set_resources (destroy_pings (ping_connections_ m) (resources m)) m)).

Definition TearDownAllPongConnections (m : NicManager GM BM) : list TearDownRequest * NicManager GM BM :=
  ((fun c => TearDownClient (pong_local_ip c) (pong_peer_ip c) true) <$> pong_connections_ m, set_pongs [] m).

(** The first connection with the peer, and the others. *)
Fixpoint erase_first {A} (peer : A -> string) (remote_ip : string) (l : list A) : option (A * list A) :=
  match l with
  | [] => None
  | c :: l =>
      if String.eqb (peer c) remote_ip then Some (c, l)
      else '(d, l) ← erase_first peer remote_ip l; Some (d, c :: l)
  end.

Definition RemoveConnection (request : TearDownRequest) (m : NicManager GM BM) : Status * NicManager GM BM :=
  if ping_ip_is_servers_nic request then
    match erase_first ping_peer_ip (pong_ip request) (ping_connections_ m) with
    | Some (c, l) => (OkStatus, set_pings l (set_resources (destroy_optional (payload_verification_ c) (resources m)) m))
    | None => (Err kNotFound, m)
    end
  else
    match erase_first pong_peer_ip (ping_ip request) (pong_connections_ m) with
    | Some (_, l) => (OkStatus, set_pongs l m)
    | None => (Err kNotFound, m)
    end.

(** An iteration of the loop of [DoPingOps], which takes the lock for each. *)
Definition DoPingOp (FormatTime : Z -> string) (ToString : StatusCode -> string)
    (MemCmp : GM -> Z -> Z -> Z -> StatusOr bool) (i : nat) (calls : PingCalls) (m : NicManager GM BM) : NicManager GM BM :=
  match ping_connections_ m !! i with
  | None => m
  | Some c =>
      let '(c, _, g) := SendPingAndRecordResult FormatTime ToString MemCmp calls c (res_gm (resources m)) in
      set_pings (<[i := c]> (ping_connections_ m)) (set_resources (set_gm g (resources m)) m)
  end.

(** The loop, while the list does not change in between. *)
Definition DoPingOps (FormatTime : Z -> string) (ToString : StatusCode -> string)
    (MemCmp : GM -> Z -> Z -> Z -> StatusOr bool) (calls : nat -> PingCalls) (m : NicManager GM BM) : NicManager GM BM :=
  foldl (fun m i => DoPingOp FormatTime ToString MemCmp i (calls i) m) m (seq 0 (length (ping_connections_ m))).

Definition NicManager_PrepareNewPingRound (m : NicManager GM BM) : NicManager GM BM :=
  set_pings (PrepareNewPingRound <$> ping_connections_ m) m.

Definition DoPongOps (calls : nat -> PongCalls) (m : NicManager GM BM) : NicManager GM BM :=
  set_pongs (imap (fun i c => (DoPongOp (calls i) c).1) (pong_connections_ m)) m.

Definition NicManager_GetAndClearResults (m : NicManager GM BM) : list string * NicManager GM BM :=
  (ping_connections_ m ≫= fun c => (GetAndClearResults c).1,
   set_pings ((fun c => (GetAndClearResults c).2) <$> ping_connections_ m) m).

Definition Cleanup (m : NicManager GM BM) : Status * list TearDownRequest * NicManager GM BM :=
  let '(requests1, m) := TearDownAllPingConnections m in
  let '(requests2, m) := TearDownAllPongConnections m in
  let requests := requests1 ++ requests2 in
  match DeregBuf (send_buffer_handle_ m) (res_bm (resources m)) with
  | (Err e, b) => (Err e, requests, set_resources (set_bm b (resources m)) m)
  | (Ok _, b) =>
  match DeregBuf (recv_buffer_handle_ m) b with
  | (Err e, b) => (Err e, requests, set_resources (set_bm b (resources m)) m)
  | (Ok _, b) =>
      let g := FreeBuffer (recv_buffer_id_ m) (FreeBuffer (send_buffer_id_ m) (res_gm (resources m))) in
      (OkStatus, requests, set_resources (set_gm g (set_bm b (resources m))) m)
  end end.

(** ** Accounting *)

Lemma drop_one (x : Z) (B X : gset Z) :
  (x ∉ X) -> {[x]} ∪ X ## B -> X ## B /\ (B ∪ ({[x]} ∪ X)) ∖ {[x]} = B ∪ X.
Proof. intros. set_solver. Qed.

Lemma lose_one (x : Z) (R F X : gset Z) :
  (x ∉ X) -> {[x]} ∪ X ## R ∪ F -> X ## R ∪ ({[x]} ∪ F) /\ R ∪ F ∪ ({[x]} ∪ X) = R ∪ ({[x]} ∪ F) ∪ X.
Proof. intros. set_solver. Qed.

Lemma take_one (x : Z) (B X : gset Z) :
  (x ∉ B ∪ X) -> X ## B -> (x ∉ X) /\ {[x]} ∪ X ## B /\ {[x]} ∪ (B ∪ X) = B ∪ ({[x]} ∪ X).
Proof. intros. set_solver. Qed.

(** The buffers [ids] and registrations [hs] are there and different, next to
    those of others and those that could not be removed. *)
Definition accounts (B R : gset Z) (n : nat) (ids hs : list Z) (r : Resources GM BM) : Prop :=
  ready n (res_gm r) /\ NoDup ids /\ NoDup hs /\ list_to_set ids ## B /\ list_to_set hs ## R ∪ res_failed r /\
  buffers (res_gm r) = B ∪ list_to_set ids /\ registered (res_bm r) = R ∪ res_failed r ∪ list_to_set hs.

Lemma nic_accounts_perm B R n ids hs ids' hs' r :
  ids ≡ₚ ids' -> hs ≡ₚ hs' -> accounts B R n ids hs r -> accounts B R n ids' hs' r.
Proof.
  intros Hi Hh (? & Hni & Hnh & Hdi & Hdh & Hb & Hreg).
  pose proof (list_to_set_perm_L (C := gset Z) _ _ Hi) as Ei. pose proof (list_to_set_perm_L (C := gset Z) _ _ Hh) as Eh.
  rewrite Ei in Hdi, Hb. rewrite Eh in Hdh, Hreg. rewrite Hi in Hni. rewrite Hh in Hnh. done.
Qed.

Lemma destroy_accounts B R n v ids hs r :
  accounts B R n (recv_id v :: ids) (recv_handle v :: hs) r -> accounts B R n ids hs (destroy_verification v r).
Proof.
  intros (Hr & Hi & Hh & Hdi & Hdh & Hb & Hreg). apply list.NoDup_cons in Hi as [Hi ?]. apply list.NoDup_cons in Hh as [Hh ?].
  rewrite <- (elem_of_list_to_set (C := gset Z)) in Hi, Hh. simpl in *. unfold destroy_verification.
  destruct (FreeBuffer_buffers n (recv_id v) (res_gm r) Hr) as [Hf Hr']. rewrite Hb in Hf.
  destruct (drop_one _ _ _ Hi Hdi) as [Hdi' Hf']. rewrite Hf' in Hf.
  destruct (DeregBuf _ _) as [[[]|e] b] eqn:Hd; unfold accounts; simpl.
  - apply DeregBuf_ok in Hd as ->. rewrite Hreg. by destruct (drop_one _ _ _ Hh Hdh) as [? ->].
  - apply DeregBuf_err in Hd as ->. rewrite Hreg. by destruct (lose_one _ _ _ _ Hh Hdh) as [? ->].
Qed.

Lemma NewBuffer_accounts B R n cleanup payload size ids hs r res r' :
  accounts B R (S n) ids hs r -> NewBuffer cleanup payload size r = (res, r') ->
  match res with
  | Ok (id, h) => accounts B R n (id :: ids) (h :: hs) r'
  | Err _ => cleanup = true -> accounts B R n ids hs r'
  end.
Proof.
  intros (Hr & Hi & Hh & Hdi & Hdh & Hb & Hreg). unfold NewBuffer.
  destruct (CreateBuffer size (res_gm r)) as [[id|e] g] eqn:Hc.
  2: { intros [= <- <-] _. destruct (CreateBuffer_err _ _ _ _ _ Hr Hc) as [Hb' ?].
       split; [by apply ready_less|]. simpl. rewrite Hb'. done. }
  destruct (CreateBuffer_ok _ _ _ _ _ Hr Hc) as (Hid & Hb' & Hr').
  set (w := match payload with Some src => _ | None => _ end).
  assert (Hw : buffers w.2 = {[id]} ∪ buffers (res_gm r) /\ ready n w.2).
  { unfold w. destruct payload; [|done]. destruct (WriteBuffer_buffers n id 0 l g Hr') as [-> ?]. done. }
  destruct w as [written g1]. destruct Hw as [Hb1 Hr1]. cbn [snd] in *.
  assert (Hfail : forall b, registered b = registered (res_bm r) ->
    cleanup = true -> accounts B R n ids hs (mkResources (FreeBuffer id g1) b (res_failed r))).
  { intros b Hbr _. destruct (FreeBuffer_buffers n id g1 Hr1) as [Hbf ?]. split; [done|]. split; [done|]. split; [done|]. split; [done|].
    simpl. split; [done|]. rewrite Hbf, Hb1, Hbr, Hreg, Hb. split; [|done]. rewrite Hb in Hid. clear - Hid. set_solver. }
  destruct written as [|e]; [|intros [= <- <-] ->; by apply Hfail].
  pose proof (GetFd_live n id g1 Hr1) as Hfd. rewrite Hb1 in Hfd. specialize (Hfd ltac:(apply elem_of_union_l, elem_of_singleton_2; done)).
  destruct (GetFd id g1) as [fd|e]; [|done]. simpl.
  destruct (RegBuf fd size (res_bm r)) as [[h|e] b] eqn:Hg.
  - intros [= <- <-]. apply RegBuf_ok in Hg as (Hh' & _ & Hreg'). unfold accounts. simpl. rewrite Hb1, Hreg', Hreg, Hb in *.
    destruct (take_one _ _ _ Hid Hdi) as (Hi1 & ? & ->). destruct (take_one _ _ _ Hh' Hdh) as (Hh1 & ? & ->).
    rewrite elem_of_list_to_set in Hi1, Hh1. split; [done|]. split; [by constructor|]. split; [by constructor|]. done.
  - intros [= <- <-] ->. apply Hfail; [|done]. by apply RegBuf_err in Hg.
Qed.

Lemma accounts_less B R n ids hs r : accounts B R (S n) ids hs r -> accounts B R n ids hs r.
Proof. intros [Hr ?]. split; [by apply ready_less|done]. Qed.

Definition verifications (l : list PingConnection) : list PayloadVerificationContext := omap payload_verification_ l.

Definition owned_ids (m : NicManager GM BM) : list Z :=
  send_buffer_id_ m :: recv_buffer_id_ m :: (recv_id <$> verifications (ping_connections_ m)).

Definition owned_handles (m : NicManager GM BM) : list Z :=
  send_buffer_handle_ m :: recv_buffer_handle_ m :: (recv_handle <$> verifications (ping_connections_ m)).

Definition within_limit (m : NicManager GM BM) : Prop :=
  0 < max_connections_per_nic m ->
  Zlen (ping_connections_ m) <= max_connections_per_nic m /\ Zlen (pong_connections_ m) <= max_connections_per_nic m.

Definition nic_ok (B R : gset Z) (n : nat) (m : NicManager GM BM) : Prop :=
  accounts B R n (owned_ids m) (owned_handles m) (resources m) /\ within_limit m.

Lemma destroy_pings_accounts B R n l ids hs r :
  accounts B R n ((recv_id <$> verifications l) ++ ids) ((recv_handle <$> verifications l) ++ hs) r ->
  accounts B R n ids hs (destroy_pings l r).
Proof.
  revert r. induction l as [|c l IH]; intros r Hr; [done|]. unfold destroy_pings, verifications in *. simpl in *.
  apply IH. destruct (payload_verification_ c) as [v|]; simpl in *; [by apply destroy_accounts|done].
Qed.

Lemma erase_first_perm {A} (peer : A -> string) ip l c l' :
  erase_first peer ip l = Some (c, l') -> l ≡ₚ c :: l' /\ peer c = ip.
Proof.
  revert l'. induction l as [|d l IH]; intros l'; simpl; [done|].
  destruct (String.eqb_spec (peer d) ip) as [He|]; [by intros [= <- <-]|].
  destruct (erase_first peer ip l) as [[x l1]|]; [|done]. intros [= -> <-].
  destruct (IH l1 eq_refl) as [-> ?]. split; [apply Permutation_swap|done].
Qed.

Lemma at_limit_false limit n : at_limit limit n = false -> 0 < limit -> Z.of_nat n < limit.
Proof. unfold at_limit. intros Hl Hp. rewrite (proj2 (Z.ltb_lt _ _)) in Hl by done. simpl in Hl. lia. Qed.

Lemma CreatePing_ok B R n remote verify calls m :
  nic_ok B R (S n) m -> nic_ok B R n (CreatePingConnection remote verify calls m).2.
Proof.
  intros [Ha Hl]. unfold CreatePingConnection. destruct (at_limit _ _) eqn:Hlim; [split; [by apply accounts_less|done]|].
  assert (Hlen : forall c, within_limit (set_pings (ping_connections_ m ++ [c]) m)).
  { intros c Hp. specialize (Hl Hp) as [_ ?]. simpl in *. apply at_limit_false in Hlim; [|done].
    rewrite Zlen_app. unfold Zlen in *. simpl. lia. }
  destruct verify.
  - unfold CreatePayloadVerificationContext.
    destruct (NewBuffer true None _ (resources m)) as [res r] eqn:Hn. apply (NewBuffer_accounts B R n _ _ _ (owned_ids m) (owned_handles m)) in Hn; [|done].
    destruct res as [[id h]|e]; simpl; [|split; [by apply Hn|done]].
    destruct (OpenSockets calls); simpl.
    + split; [|apply Hlen]. unfold owned_ids, owned_handles, verifications. simpl. rewrite omap_app. simpl. rewrite !fmap_app.
      revert Hn. apply nic_accounts_perm; simpl; rewrite <- Permutation_cons_append;
        (etrans; [apply Permutation_swap|]; apply Permutation_skip, Permutation_swap).
    + split; [by apply (destroy_accounts B R n (mkVerification (send_buffer_id_ m) id h))|done].
  - simpl. destruct (OpenSockets calls); simpl; [|split; [by apply accounts_less|done]].
    split; [|apply Hlen]. unfold owned_ids, owned_handles, verifications. simpl. rewrite omap_app. simpl. rewrite app_nil_r.
    by apply accounts_less.
Qed.

Lemma RemoveConnection_ok B R n request m : nic_ok B R n m -> nic_ok B R n (RemoveConnection request m).2.
Proof.
  intros [Ha Hl]. unfold RemoveConnection. destruct (ping_ip_is_servers_nic request).
  - destruct (erase_first _ _ _) as [[c l]|] eqn:He; [|done]. apply erase_first_perm in He as [He _]. split.
    + assert (Hd : accounts B R n ((recv_id <$> verifications [c]) ++ owned_ids (set_pings l m))
        ((recv_handle <$> verifications [c]) ++ owned_handles (set_pings l m)) (resources m)).
      { revert Ha. apply nic_accounts_perm; unfold owned_ids, owned_handles, verifications; simpl; rewrite He; simpl;
          destruct (payload_verification_ c); simpl; try done; symmetry; apply (Permutation_middle [_; _]). }
      exact (destroy_pings_accounts B R n [c] _ _ _ Hd).
    + intros Hp. specialize (Hl Hp). simpl in *. unfold Zlen in *. rewrite He in Hl. simpl in *. lia.
  - destruct (erase_first _ _ _) as [[c l]|] eqn:He; [|done]. apply erase_first_perm in He as [He _]. split; [done|].
    intros Hp. specialize (Hl Hp). simpl in *. unfold Zlen in *. rewrite He in Hl. simpl in *. lia.
Qed.

Lemma DoPingOp_ok FormatTime ToString MemCmp B R n i calls m :
  nic_ok B R n m -> nic_ok B R n (DoPingOp FormatTime ToString MemCmp i calls m).
Proof.
  intros [Ha Hl]. unfold DoPingOp. destruct (ping_connections_ m !! i) as [c|] eqn:Hi; [|done].
  pose proof Ha as (Hr & _). apply (SendPing_keeps FormatTime ToString MemCmp n calls c) in Hr as (Hb & Hr' & Hv).
  destruct (SendPingAndRecordResult _ _ _ _ _ _) as [[c' log] g']. simpl in *.
  assert (Hver : verifications (<[i := c']> (ping_connections_ m)) = verifications (ping_connections_ m)).
  { unfold verifications. rewrite insert_take_drop by (by apply lookup_lt_Some in Hi).
    rewrite <- (take_drop_middle (ping_connections_ m) i c Hi) at 3. rewrite !omap_app. simpl. by rewrite Hv. }
  split.
  - destruct Ha as (_ & Ha). unfold owned_ids, owned_handles, accounts in *. simpl in *. rewrite Hver, Hb. done.
  - intros Hp. simpl. unfold Zlen. rewrite length_insert. by apply Hl.
Qed.

Lemma map_pings_ok B R n f m :
  (forall c, payload_verification_ (f c) = payload_verification_ c) ->
  nic_ok B R n m -> nic_ok B R n (set_pings (f <$> ping_connections_ m) m).
Proof.
  intros Hf [Ha Hl].
  assert (Hver : verifications (f <$> ping_connections_ m) = verifications (ping_connections_ m)).
  { unfold verifications. clear -Hf. induction (ping_connections_ m) as [|c l IH]; [done|].
    simpl. rewrite Hf. destruct (payload_verification_ c); [f_equal|]; exact IH. }
  split.
  - unfold owned_ids, owned_handles in *. simpl. by rewrite Hver.
  - intros Hp. simpl. unfold Zlen. rewrite length_fmap. by apply Hl.
Qed.

(** ** Sequences of operations *)

Inductive NicOp : Type :=
  | OpCreatePing (remote_nic_ip : string) (verify_payload : bool) (calls : CreateCalls)
  | OpCreatePong (client_gpu_ip : string) (listen : ListenCalls) (accept : AcceptCalls) (connect : ConnectCalls)
  | OpTearDownPings | OpTearDownPongs | OpRemove (request : TearDownRequest)
  | OpPrepare | OpPing (i : nat) (calls : PingCalls) | OpPong (calls : nat -> PongCalls) | OpCollect.

Definition nic_op (FormatTime : Z -> string) (ToString : StatusCode -> string)
    (MemCmp : GM -> Z -> Z -> Z -> StatusOr bool) (m : NicManager GM BM) (op : NicOp) : NicManager GM BM :=
  match op with
  | OpCreatePing remote verify calls => (CreatePingConnection remote verify calls m).2
  | OpCreatePong client listen accept connect => (CreatingPongConnection client listen accept connect m).2
  | OpTearDownPings => (TearDownAllPingConnections m).2
  | OpTearDownPongs => (TearDownAllPongConnections m).2
  | OpRemove request => (RemoveConnection request m).2
  | OpPrepare => NicManager_PrepareNewPingRound m
  | OpPing i calls => DoPingOp FormatTime ToString MemCmp i calls m
  | OpPong calls => DoPongOps calls m
  | OpCollect => (NicManager_GetAndClearResults m).2
  end.

Lemma nic_ok_less B R n m : nic_ok B R (S n) m -> nic_ok B R n m.
Proof. intros [Ha Hl]. split; [by apply accounts_less|done]. Qed.

Lemma TearDownPings_ok B R n m : nic_ok B R n m -> nic_ok B R n (TearDownAllPingConnections m).2.
Proof.
  intros [Ha Hl]. split; [|intros Hp; specialize (Hl Hp); simpl in *; rewrite Zlen_nil; lia].
  simpl. apply destroy_pings_accounts. revert Ha. apply nic_accounts_perm; unfold owned_ids, owned_handles; simpl;
    rewrite (Permutation_app_comm _ [_; _]); done.
Qed.

Lemma TearDownPongs_ok B R n m : nic_ok B R n m -> nic_ok B R n (TearDownAllPongConnections m).2.
Proof. intros [Ha Hl]. split; [done|]. intros Hp. specialize (Hl Hp). simpl in *. rewrite Zlen_nil. lia. Qed.

Lemma nic_op_ok FormatTime ToString MemCmp B R n op m :
  nic_ok B R (S n) m -> nic_ok B R n (nic_op FormatTime ToString MemCmp m op).
Proof.
  intros Hm. pose proof (nic_ok_less _ _ _ _ Hm) as Hm'. destruct op as [| |  | |request| |i calls|calls|]; simpl.
  - by apply CreatePing_ok.
  - unfold CreatingPongConnection, CompletePongConnectionSetup. destruct (NicManager_Listen _); simpl; [|done].
    destruct (at_limit _ _) eqn:Hlim; [done|]. destruct (NicManager_Accept _); [|done]. destruct (NicManager_Connect _); [|done].
    destruct Hm' as [Ha Hl]. split; [done|]. intros Hp. specialize (Hl Hp) as [? _]. simpl in *.
    apply at_limit_false in Hlim; [|done]. rewrite Zlen_app. unfold Zlen in *. simpl. lia.
  - by apply TearDownPings_ok.
  - by apply TearDownPongs_ok.
  - by apply RemoveConnection_ok.
  - apply map_pings_ok; [|done]. intros c. unfold PrepareNewPingRound. by case_decide.
  - by apply DoPingOp_ok.
  - destruct Hm' as [Ha Hl]. split; [done|]. intros Hp. simpl. unfold Zlen. rewrite length_imap. by apply Hl.
  - by apply map_pings_ok.
Qed.

Lemma nic_ops_ok FormatTime ToString MemCmp B R ops n m :
  nic_ok B R (length ops + n) m -> nic_ok B R n (foldl (nic_op FormatTime ToString MemCmp) m ops).
Proof. revert m. induction ops as [|op ops IH]; intros m Hm; [done|]. simpl in *. by apply IH, nic_op_ok. Qed.

(** A manager before [SetUp]. *)
Definition new_NicManager (ip : string) (payload_size limit : Z) (g : GM) (b : BM) : NicManager GM BM :=
  mkNic ip payload_size limit (mkResources g b ∅) 0 0 0 0 [] [].

Lemma SetUp_ok n prepare ip payload_size limit g b m :
  ready (S (S n)) g -> SetUp prepare (new_NicManager ip payload_size limit g b) = (OkStatus, m) ->
  nic_ok (buffers g) (registered b) n m.
Proof.
  intros Hr. unfold SetUp. destruct (mapM id prepare); [|done]. simpl.
  assert (Hinit : accounts (buffers g) (registered b) (S (S n)) [] [] (mkResources g b ∅)).
  { unfold accounts. simpl. split; [done|]. split_and!; [constructor|constructor|set_solver..]. }
  destruct (NewBuffer false (Some _) _ _) as [[[sid sh]|e] r1] eqn:H1; [|done]. apply (NewBuffer_accounts _ _ _ _ _ _ _ _ _ _ _ Hinit) in H1.
  destruct (NewBuffer false None _ r1) as [[[rid rh]|e] r2] eqn:H2; [|done]. apply (NewBuffer_accounts _ _ _ _ _ _ _ _ _ _ _ H1) in H2.
  intros [= <-]. split; [|unfold within_limit, Zlen; simpl; lia].
  revert H2. unfold owned_ids, owned_handles. simpl. apply nic_accounts_perm; apply Permutation_swap.
Qed.

End manager.


(** A successful [Cleanup] leaves nothing: no connection, no buffer of
    the manager, and no registration but those whose removal had failed; every
    peer was sent one request for each connection. *)
Theorem cleanup_releases {GM BM} `{GpuMemHelperInterface GM, BufferManagerClientInterface BM} FormatTime ToString MemCmp
    prepare ip payload_size limit (g : GM) (b : BM) m0 ops requests m' :
  ready (2 + length ops) g -> SetUp prepare (new_NicManager ip payload_size limit g b) = (OkStatus, m0) ->
  let m := foldl (nic_op FormatTime ToString MemCmp) m0 ops in
  Cleanup m = (OkStatus, requests, m') ->
  ping_connections_ m' = [] /\ pong_connections_ m' = [] /\ buffers (res_gm (resources m')) = buffers g /\
  registered (res_bm (resources m')) = registered b ∪ res_failed (resources m') /\
  length requests = (length (ping_connections_ m) + length (pong_connections_ m))%nat.
Proof.
  intros Hr Hs m. rewrite <- (Nat.add_0_r (length ops)) in Hr. apply (SetUp_ok (length ops + 0)%nat) in Hs; [|done].
  apply (nic_ops_ok FormatTime ToString MemCmp) in Hs. fold m in Hs. apply TearDownPings_ok in Hs as [Ha _].
  unfold Cleanup. simpl in *. set (r := destroy_pings _ _) in *.
  destruct (DeregBuf (send_buffer_handle_ m) (res_bm r)) as [[[]|e] b1] eqn:H1; [|done].
  destruct (DeregBuf (recv_buffer_handle_ m) b1) as [[[]|e] b2] eqn:H2; [|done]. intros [= <- <-]. simpl.
  destruct Ha as (Hr0 & Hi & Hh & Hdi & Hdh & Hb & Hreg). unfold owned_ids, owned_handles, verifications in *. simpl in *.
  destruct (FreeBuffer_buffers 0 (send_buffer_id_ m) _ Hr0) as [Hf1 Hr1].
  destruct (FreeBuffer_buffers 0 (recv_buffer_id_ m) _ Hr1) as [Hf2 _].
  apply DeregBuf_ok in H1, H2. split; [done|]. split; [done|]. rewrite Hf2, Hf1, Hb, H2, H1, Hreg.
  split; [set_solver|]. split; [set_solver|]. by rewrite length_app, !length_fmap.
Qed.

(** *** Witnesses *)

Definition ex_listen : ListenCalls := mkListen OkStatus [None; Some OkStatus] 4321.
Definition ex_connect : ConnectCalls := mkConnect OkStatus [Some OkStatus].
Definition ex_accept : AcceptCalls := mkAccept [Ok false; Ok true] [Some OkStatus].

Definition ex_nic_ops : list NicOp :=
  [OpCreatePing "10.0.0.9" true (mkCreateCalls ex_listen (Ok 99) ex_connect ex_accept);
   OpCreatePong "10.0.0.9" ex_listen ex_accept ex_connect;
   OpCreatePing "10.0.0.8" true (mkCreateCalls ex_listen (Err kUnavailable) ex_connect ex_accept);
   OpPrepare; OpPing 0 (all_ping 0)].

Lemma ex_ready : helper_ready ex_driver 7 new_GpuMemHelper.
Proof.
  split; [split; [intros p s n fd [= <-]; lia|intros p s n; eexists; split; [reflexivity|lia]]|]. split; [done|]. split; [|done].
  exists ∅. split; [done|]. split; [intros id info; simpl; by rewrite lookup_empty|]. done.
Qed.

#[local] Instance ex_helper : GpuMemHelperInterface GpuMemHelper := GpuMemHelper_implements ex_driver 0.

Definition ex_new : NicManager GpuMemHelper TableBm := new_NicManager "10.0.0.1" 64 8 new_GpuMemHelper (mkTableBm 0 ∅).
Definition ex_m0 : NicManager GpuMemHelper TableBm := (SetUp [OkStatus] ex_new).2.
Abbreviation ex_m :=
  (foldl (nic_op (fun _ => EmptyString) (fun _ => EmptyString) (fun _ _ _ _ => Ok true)) ex_m0 ex_nic_ops).

Lemma ex_setup : SetUp [OkStatus] ex_new = (OkStatus, ex_m0).
Proof. vm_compute. reflexivity. Qed.


Lemma ex_cleanup :
  Cleanup ex_m = (OkStatus, [mkTearDown "10.0.0.1" "10.0.0.9" false; mkTearDown "10.0.0.9" "10.0.0.1" true], (Cleanup ex_m).2).
Proof. vm_compute. reflexivity. Qed.

Lemma cleanup_releases_witness : buffers (res_gm (resources (Cleanup ex_m).2)) = buffers new_GpuMemHelper.
Proof.
  exact (proj1 (proj2 (proj2 (cleanup_releases (fun _ => EmptyString) (fun _ => EmptyString) (fun _ _ _ _ => Ok true)
    [OkStatus] "10.0.0.1" 64 8 new_GpuMemHelper (mkTableBm 0 ∅) ex_m0 ex_nic_ops _ _ ex_ready ex_setup ex_cleanup)))).
Defined.
