(* ===== verification/ProberAgent.v ===== *)
(** * The prober agent (tcpxo_prober/src/agent.{h,cc}, main.cc)

    An agent has a NIC manager for every GPU NIC, serves the requests that start
    and stop pings and those of remote agents, starts rounds of pings at a
    limited rate and appends the results to files.  The theorems are about the
    reply of a start request for every order of its parallel set-ups, the request
    that tears a connection down at both ends, the rate, and the files. *)

From stdpp Require Import pretty.
From S2P Require Import Prelude PciTopology MrCache GpuIpServer GpumemManager GpuMem Prober ProberNic.

Record Target := mkTarget { local_nic_ip_address : string; peer_nic_ip_address : string }.

(** [probe_interval_] is in ticks of the clock, [None] for an infinite
    duration; [files] has the text of the result files. *)
Record Agent (GM BM : Type) := mkAgent {
  connection_managers_ : list (NicManager GM BM);
  max_probe_qps : Z;
  probe_interval_ : option Z;
  results_directory : string;
  results_file_prefix : string;
  results_file_name_ : string;
  results_file_counter_ : Z;
  files : gmap string string
}.
Arguments mkAgent {GM BM}.
Arguments connection_managers_ {GM BM}.
Arguments max_probe_qps {GM BM}.
Arguments probe_interval_ {GM BM}.
Arguments results_directory {GM BM}.
Arguments results_file_prefix {GM BM}.
Arguments results_file_name_ {GM BM}.
Arguments results_file_counter_ {GM BM}.
Arguments files {GM BM}.

(** [absl::StrJoin] *)
Fixpoint StrJoin (lines : list string) (sep : string) : string :=
  match lines with
  | [] => EmptyString
  | [line] => line
  | line :: lines => line +:+ sep +:+ StrJoin lines sep
  end.

Definition newline : string := String (Ascii.ascii_of_nat 10) EmptyString.

(** The interval for a rate: [absl::Seconds(1.0 / qps)] is a parameter. *)
Definition SetProbeInterval (seconds_per : Z -> option Z) (limit qps : Z) : option Z :=
  let qps := if (0 <? limit) && (limit <? qps) then limit else qps in
  seconds_per qps.

Section agent.
Context {GM BM : Type} `{GpuMemHelperInterface GM, BufferManagerClientInterface BM}.

Definition set_managers (l : list (NicManager GM BM)) (a : Agent GM BM) : Agent GM BM :=
  mkAgent l (max_probe_qps a) (probe_interval_ a) (results_directory a) (results_file_prefix a) (results_file_name_ a)
    (results_file_counter_ a) (files a).

Definition set_interval (i : option Z) (a : Agent GM BM) : Agent GM BM :=
  mkAgent (connection_managers_ a) (max_probe_qps a) i (results_directory a) (results_file_prefix a) (results_file_name_ a)
    (results_file_counter_ a) (files a).

Definition set_files (f : gmap string string) (a : Agent GM BM) : Agent GM BM :=
  mkAgent (connection_managers_ a) (max_probe_qps a) (probe_interval_ a) (results_directory a) (results_file_prefix a)
    (results_file_name_ a) (results_file_counter_ a) f.

(** The position of the manager of a NIC. *)
Definition GetConnectionManager (ip : string) (managers : list (NicManager GM BM)) : StatusOr nat :=
  match list_find (fun m => nic_ip m = ip) managers with
  | Some (k, _) => Ok k
  | None => Err kNotFound
  end.

(** *** Setting connections up *)

Definition SetUpConnection (target : Target) (verify_payload : bool) (calls : CreateCalls) (managers : list (NicManager GM BM))
    : ConnectionResult * list (NicManager GM BM) :=
  match GetConnectionManager (local_nic_ip_address target) managers with
  | Err _ => (RESULT_FAILURE, managers)
  | Ok k =>
      match managers !! k with
      | None => (RESULT_FAILURE, managers)
      | Some m =>
          let '(result, m) := CreatePingConnection (peer_nic_ip_address target) verify_payload calls m in
          (result, <[k := m]> managers)
      end
  end.

(** The task of the pool for target [i]. *)
Definition SetUpTask (targets : list Target) (verify_payload : bool) (calls : nat -> CreateCalls)
    (s : list ConnectionResult * list (NicManager GM BM)) (i : nat) : list ConnectionResult * list (NicManager GM BM) :=
  match targets !! i with
  | None => s
  | Some target =>
      let '(result, managers) := SetUpConnection target verify_payload (calls i) s.2 in
      (<[i := result]> s.1, managers)
  end.

(** The tasks take the lock of their manager in the order [order]; the code and
    the results of the reply. *)
Definition SetUpConnections (targets : list Target) (verify_payload : bool) (calls : nat -> CreateCalls) (order : list nat)
    (a : Agent GM BM) : StatusCode * list ConnectionResult * Agent GM BM :=
  let '(results, managers) :=
    foldl (SetUpTask targets verify_payload calls) (replicate (length targets) RESULT_UNSPECIFIED, connection_managers_ a) order in
  let code := foldl (fun code result => if decide (result = RESULT_SUCCESS) then code else kInternal) kOk results in
  (code, results, set_managers managers a).

(** *** Tearing connections down *)

(** The requests of all managers, sent by a thread each. *)
Definition Agent_TearDownAllPingConnections (a : Agent GM BM) : list TearDownRequest * Agent GM BM :=
  (connection_managers_ a ≫= fun m => (TearDownAllPingConnections m).1,
   set_managers ((fun m => (TearDownAllPingConnections m).2) <$> connection_managers_ a) a).

Definition TearDownConnection (request : TearDownRequest) (a : Agent GM BM) : Status * Agent GM BM :=
  let local_nic_ip := if ping_ip_is_servers_nic request then ping_ip request else pong_ip request in
  match GetConnectionManager local_nic_ip (connection_managers_ a) with
  | Err _ => (Err kCancelled, a)
  | Ok k =>
      match connection_managers_ a !! k with
      | None => (Err kCancelled, a)
      | Some m =>
          let '(status, m) := RemoveConnection request m in
          (match status with Ok _ => OkStatus | Err _ => Err kCancelled end,
           set_managers (<[k := m]> (connection_managers_ a)) a)
      end
  end.

Definition SetUpPongConnection (client_gpu_ip server_gpu_ip : string) (listen : ListenCalls) (accept : AcceptCalls)
    (connect : ConnectCalls) (a : Agent GM BM) : StatusOr Z * Agent GM BM :=
  match GetConnectionManager server_gpu_ip (connection_managers_ a) with
  | Err _ => (Err kCancelled, a)
  | Ok k =>
      match connection_managers_ a !! k with
      | None => (Err kCancelled, a)
      | Some m =>
          let '(port, m) := CreatingPongConnection client_gpu_ip listen accept connect m in
          (match port with Ok port => Ok port | Err _ => Err kCancelled end,
           set_managers (<[k := m]> (connection_managers_ a)) a)
      end
  end.

(** *** Results *)

Definition UpdateResultsFileName (timestamp : string) (a : Agent GM BM) : Agent GM BM :=
  mkAgent (connection_managers_ a) (max_probe_qps a) (probe_interval_ a) (results_directory a) (results_file_prefix a)
    (results_directory a +:+ "/" +:+ results_file_prefix a +:+ "_" +:+ pretty (results_file_counter_ a) +:+ "_" +:+ timestamp
     +:+ ".csv")
    (results_file_counter_ a + 1) (files a).

(** Opening the file for appending creates it. *)
Definition ReportResults (a : Agent GM BM) : Agent GM BM :=
  let old := default EmptyString (files a !! results_file_name_ a) in
  let results := connection_managers_ a ≫= fun m => (NicManager_GetAndClearResults m).1 in
  let a := set_managers ((fun m => (NicManager_GetAndClearResults m).2) <$> connection_managers_ a) a in
  if decide (results = []) then set_files (<[results_file_name_ a := old]> (files a)) a
  else set_files (<[results_file_name_ a := old +:+ StrJoin results newline +:+ newline]> (files a)) a.

Definition StopPings (a : Agent GM BM) : Status * list TearDownRequest * Agent GM BM :=
  let '(requests, a) := Agent_TearDownAllPingConnections (ReportResults a) in (OkStatus, requests, a).

Definition StartPings (seconds_per : Z -> option Z) (probe_rate_qps : Z) (targets : list Target) (verify_payload : bool)
    (calls : nat -> CreateCalls) (order : list nat) (a : Agent GM BM)
    : StatusCode * list ConnectionResult * list TearDownRequest * Agent GM BM :=
  let '(requests, a) := Agent_TearDownAllPingConnections (ReportResults a) in
  let a := set_interval (SetProbeInterval seconds_per (max_probe_qps a) probe_rate_qps) a in
  let '(code, results, a) := SetUpConnections targets verify_payload calls order a in
  (code, results, requests, a).

(** *** Start and end *)

(** The managers of [Run] up to the first that cannot be set up; [setup i] has
    the results of the calls before its buffers. *)
Fixpoint RunLoop (setup : nat -> list Status) (i : nat) (managers : list (NicManager GM BM))
    : Status * list (NicManager GM BM) :=
  match managers with
  | [] => (OkStatus, [])
  | m :: managers =>
      match SetUp (setup i) m with
      | (Err e, m) => (Err e, [m])
      | (Ok _, m) => let '(status, managers) := RunLoop setup (S i) managers in (status, m :: managers)
      end
  end.

Definition Agent_Run (gpu_nic_ips dxs_ips dxs_ports : nat) (setup : nat -> list Status) (create_directory : Status)
    (managers : list (NicManager GM BM)) (a : Agent GM BM) : Status * Agent GM BM :=
  if ((0 <? dxs_ips)%nat || (0 <? dxs_ports)%nat) && (negb (dxs_ips =? gpu_nic_ips)%nat || negb (dxs_ports =? gpu_nic_ips)%nat)
  then (Err kInvalidArgument, a)
  else
    let '(status, managers) := RunLoop setup 0 managers in
    let a := set_managers managers a in
    match status with
    | Err e => (Err e, a)
    | Ok _ => (create_directory, a)
    end.

Definition Agent_CleanUp (a : Agent GM BM) : Status * list TearDownRequest * Agent GM BM :=
  let cleaned := Cleanup <$> connection_managers_ a in
  let all_ok := forallb (fun c => is_ok c.1.1) cleaned in
  (if all_ok then OkStatus else Err kInternal, cleaned ≫= fun c => c.1.2, ReportResults (set_managers (snd <$> cleaned) a)).

End agent.

(** ** The reply of a start request *)

Section setup.
Context {GM BM : Type} `{GpuMemHelperInterface GM, BufferManagerClientInterface BM}.
Implicit Types managers : list (NicManager GM BM).

Definition peers (m : NicManager GM BM) : list string := ping_peer_ip <$> ping_connections_ m.

Lemma CreatePing_peers remote verify calls m result m' :
  CreatePingConnection remote verify calls m = (result, m') ->
  nic_ip m' = nic_ip m /\ peers m' = peers m ++ (if decide (result = RESULT_SUCCESS) then [remote] else []).
Proof.
  unfold CreatePingConnection. destruct (at_limit _ _); [intros [= <- <-]; by rewrite app_nil_r|].
  destruct (if verify then _ else _) as [[v|e] r]; [|intros [= <- <-]; by rewrite app_nil_r].
  destruct (OpenSockets calls); intros [= <- <-]; [|by rewrite app_nil_r].
  split; [done|]. unfold peers. simpl. by rewrite fmap_app.
Qed.

Lemma GetConnectionManager_ips ip managers managers' :
  nic_ip <$> managers = nic_ip <$> managers' -> GetConnectionManager ip managers = GetConnectionManager ip managers'.
Proof.
  intros E. unfold GetConnectionManager.
  assert (Hf : fst <$> list_find (fun m => nic_ip m = ip) managers = fst <$> list_find (fun m => nic_ip m = ip) managers').
  { revert managers' E. induction managers as [|m l IH]; intros [|m' l'] [=]; [done|]. simpl.
    replace (nic_ip m') with (nic_ip m) by done. case_decide; [done|].
    specialize (IH l' ltac:(done)). by destruct (list_find _ l) as [[? ?]|], (list_find _ l') as [[? ?]|]; simplify_eq/=. }
  by destruct (list_find _ managers) as [[? ?]|], (list_find _ managers') as [[? ?]|]; simplify_eq/=.
Qed.

(** The peer target [i] adds to the connections of manager [k]. *)
Definition new_peer (targets : list Target) (managers : list (NicManager GM BM)) (results : list ConnectionResult) (k i : nat)
    : option string :=
  target ← targets !! i;
  if decide (results !! i = Some RESULT_SUCCESS /\ GetConnectionManager (local_nic_ip_address target) managers = Ok k)
  then Some (peer_nic_ip_address target) else None.

Lemma SetUpConnection_peers target verify calls managers result managers' :
  SetUpConnection target verify calls managers = (result, managers') ->
  nic_ip <$> managers' = nic_ip <$> managers /\
  forall k m', managers' !! k = Some m' -> exists m, managers !! k = Some m /\
    peers m' = peers m ++ (if decide (result = RESULT_SUCCESS /\ GetConnectionManager (local_nic_ip_address target) managers = Ok k)
                           then [peer_nic_ip_address target] else []).
Proof.
  unfold SetUpConnection.
  destruct (GetConnectionManager (local_nic_ip_address target) managers) as [j|e];
    [destruct (managers !! j) as [m|] eqn:Hj|]; [|intros [= <- <-]; split; [done|];
      intros k m' Hk; exists m'; split; [done|]; rewrite decide_False by naive_solver; by rewrite app_nil_r..].
  destruct (CreatePingConnection _ _ _ m) as [r1 m1] eqn:Hc. intros [= <- <-]. apply CreatePing_peers in Hc as [Hip Hp]. split.
  - rewrite list_fmap_insert, Hip. by apply list_insert_id; rewrite list_lookup_fmap, Hj.
  - intros k m'. rewrite list_lookup_insert_Some. intros [(-> & <- & _)|[Hne Hk]].
    + exists m. split; [done|]. rewrite Hp. do 2 f_equal. by repeat case_decide; naive_solver.
    + exists m'. split; [done|]. rewrite decide_False by naive_solver. by rewrite app_nil_r.
Qed.

Lemma SetUpTasks_peers targets verify calls order results managers results' managers' :
  NoDup order -> Forall (fun i => i < length targets /\ i < length results)%nat order ->
  foldl (SetUpTask targets verify calls) (results, managers) order = (results', managers') ->
  length results' = length results /\ (forall i, i ∉ order -> results' !! i = results !! i) /\
  nic_ip <$> managers' = nic_ip <$> managers /\
  forall k m', managers' !! k = Some m' -> exists m, managers !! k = Some m /\
    peers m' = peers m ++ omap (new_peer targets managers results' k) order.
Proof.
  revert results managers. induction order as [|i order IH]; intros results managers Hnd Hlt.
  { intros [= <- <-]. split; [done|]. split; [done|]. split; [done|]. intros k m' Hk. exists m'. by rewrite app_nil_r. }
  apply list.NoDup_cons in Hnd as [Hi Hnd]. apply list.Forall_cons in Hlt as [[Hit Hir] Hlt]. simpl.
  destruct (lookup_lt_is_Some_2 targets i Hit) as [target Ht]. unfold SetUpTask at 2. rewrite Ht. simpl.
  destruct (SetUpConnection target verify (calls i) managers) as [r ms] eqn:Hs. intros Hf.
  apply SetUpConnection_peers in Hs as [Hip Hp].
  apply IH in Hf as (Hlen & Hres & Hip' & Hpeers); [|done|by rewrite length_insert].
  rewrite length_insert in Hlen.
  assert (Hri : results' !! i = Some r) by (rewrite Hres by done; by apply list_lookup_insert_eq).
  split; [done|]. split; [|split; [congruence|]].
  - intros j [Hne Hj]%not_elem_of_cons. rewrite Hres by done. by apply list_lookup_insert_ne.
  - intros k m' Hk. destruct (Hpeers k m' Hk) as (m1 & Hm1 & ->). destruct (Hp k m1 Hm1) as (m & Hm & ->).
    exists m. split; [done|]. rewrite <- (assoc_L (++)). f_equal. cbn [omap list_omap].
    assert (Hnew : omap (new_peer targets ms results' k) order = omap (new_peer targets managers results' k) order).
    { clear - Hip. induction order as [|j order IHo]; [done|]. cbn [omap list_omap]. rewrite IHo. f_equal. unfold new_peer. destruct (targets !! j) as [t|]; [|done]. simpl.
      by rewrite (GetConnectionManager_ips _ _ _ Hip). }
    rewrite Hnew. unfold new_peer at 2. rewrite Ht. cbn [mbind option_bind]. rewrite Hri.
    by repeat case_decide; naive_solver.
Qed.

Lemma reply_code results code :
  foldl (fun code result => if decide (result = RESULT_SUCCESS) then code else kInternal) code results =
    if decide (Forall (eq RESULT_SUCCESS) results) then code else kInternal.
Proof.
  revert code. induction results as [|r results IH]; intros code; simpl; [done|]. rewrite IH.
  destruct (decide (r = RESULT_SUCCESS)) as [->|Hne].
  - repeat case_decide; try done; exfalso; match goal with H : ~ _ |- _ => apply H end; [by constructor|by inv select (Forall _ (_ :: _))].
  - repeat case_decide; try done; exfalso; by inv select (Forall _ (_ :: _)).
Qed.

End setup.

(** The reply of [SetUpConnections] tells what was set up: for every
    order in which the pool runs the tasks there is one result per target, the
    code is OK exactly if all are successes, and every manager has, besides the
    connections it had, one to the peer of each of its targets reported as a
    success and no other. *)
Theorem start_reply {GM BM} `{GpuMemHelperInterface GM, BufferManagerClientInterface BM} targets verify calls order
    (a : Agent GM BM) code results a' :
  order ≡ₚ seq 0 (length targets) -> SetUpConnections targets verify calls order a = (code, results, a') ->
  length results = length targets /\ (code = kOk <-> Forall (eq RESULT_SUCCESS) results) /\
  forall k m', connection_managers_ a' !! k = Some m' -> exists m, connection_managers_ a !! k = Some m /\
    peers m' ≡ₚ peers m ++ omap (new_peer targets (connection_managers_ a) results k) (seq 0 (length targets)).
Proof.
  intros Ho. unfold SetUpConnections. destruct (foldl _ _ order) as [rs ms] eqn:Hf. intros [= <- <- <-].
  apply SetUpTasks_peers in Hf as (Hlen & _ & _ & Hp); [|rewrite Ho; apply NoDup_seq|].
  - rewrite length_replicate in Hlen. split; [done|]. split; [rewrite reply_code; by case_decide|].
    intros k m' Hk. destruct (Hp k m' Hk) as (m & Hm & ->). exists m. split; [done|]. f_equiv. by rewrite Ho.
  - apply list.Forall_forall. intros i. rewrite Ho, elem_of_seq, length_replicate. lia.
Qed.

Definition ex_agent : Agent GpuMemHelper TableBm :=
  mkAgent [ex_m0] 5 (Some 1000) "/tmp" "probe" "/tmp/x.csv" 1 ∅.

Definition ex_good : CreateCalls := mkCreateCalls ex_listen (Ok 99) ex_connect ex_accept.
Definition ex_bad : CreateCalls := mkCreateCalls ex_listen (Err kUnavailable) ex_connect ex_accept.

#[local] Instance ex_gm : GpuMemHelperInterface GpuMemHelper := GpuMemHelper_implements ex_driver 0.

Definition ex_targets : list Target :=
  [mkTarget "10.0.0.1" "10.0.0.7"; mkTarget "10.0.0.1" "10.0.0.8"; mkTarget "10.0.0.2" "10.0.0.9"].

Definition ex_start : StatusCode * list ConnectionResult * Agent GpuMemHelper TableBm :=
  SetUpConnections ex_targets true (fun i => if decide (i = 1%nat) then ex_good else ex_bad) [2; 1; 0]%nat ex_agent.

Lemma ex_start_eq :
  SetUpConnections ex_targets true (fun i => if decide (i = 1%nat) then ex_good else ex_bad) [2; 1; 0]%nat ex_agent =
    (kInternal, [RESULT_FAILURE; RESULT_SUCCESS; RESULT_FAILURE], ex_start.2).
Proof. vm_compute. reflexivity. Qed.

Lemma start_reply_witness :
  (kInternal = kOk <-> Forall (eq RESULT_SUCCESS) [RESULT_FAILURE; RESULT_SUCCESS; RESULT_FAILURE]) /\
  forall k m', connection_managers_ ex_start.2 !! k = Some m' -> exists m, connection_managers_ ex_agent !! k = Some m /\
    peers m' ≡ₚ peers m ++ omap (new_peer ex_targets (connection_managers_ ex_agent)
      [RESULT_FAILURE; RESULT_SUCCESS; RESULT_FAILURE] k) (seq 0 (length ex_targets)).
Proof.
  refine (proj2 (start_reply ex_targets true (fun i => if decide (i = 1%nat) then ex_good else ex_bad) [2; 1; 0]%nat
    ex_agent kInternal [RESULT_FAILURE; RESULT_SUCCESS; RESULT_FAILURE] ex_start.2 _ ex_start_eq)).
  change (seq 0 (length ex_targets)) with [0; 1; 2]%nat. symmetry. apply (Permutation_rev [0; 1; 2]%nat).
Defined.

(** ** Tearing down at both ends *)

Section teardown.
Context {GM BM : Type} `{GpuMemHelperInterface GM, BufferManagerClientInterface BM}.
Implicit Types a : Agent GM BM.

(** The pong connections of a manager with a peer. *)
Definition pongs_with (ip : string) (m : NicManager GM BM) : list PongConnection :=
  filter (fun c => pong_peer_ip c = ip) (pong_connections_ m).

Definition pongs_without (ip : string) (m : NicManager GM BM) : list PongConnection :=
  filter (fun c => pong_peer_ip c <> ip) (pong_connections_ m).

Lemma erase_first_filter ip l :
  match erase_first pong_peer_ip ip l with
  | Some (_, l') =>
      length (filter (fun c => pong_peer_ip c = ip) l) = S (length (filter (fun c => pong_peer_ip c = ip) l')) /\
      filter (fun c => pong_peer_ip c <> ip) l = filter (fun c => pong_peer_ip c <> ip) l'
  | None => filter (fun c => pong_peer_ip c = ip) l = []
  end.
Proof.
  induction l as [|c l IH]; simpl; [done|]. destruct (String.eqb_spec (pong_peer_ip c) ip) as [He|Hne].
  - rewrite filter_cons_True by done. rewrite filter_cons_False by naive_solver. done.
  - rewrite filter_cons_False by done. destruct (erase_first _ _ l) as [[d l']|]; simpl; [|done].
    rewrite filter_cons_False by done. rewrite !filter_cons_True by done. destruct IH as [? ->]. done.
Qed.

(** What a request about a pong connection does to the managers. *)
Lemma TearDownConnection_pongs ip peer a :
  let a' := (TearDownConnection (TearDownClient ip peer false) a).2 in
  nic_ip <$> connection_managers_ a' = nic_ip <$> connection_managers_ a /\
  forall k m', connection_managers_ a' !! k = Some m' -> exists m, connection_managers_ a !! k = Some m /\
    pongs_without ip m' = pongs_without ip m /\
    length (pongs_with ip m') =
      (length (pongs_with ip m) - (if decide (GetConnectionManager peer (connection_managers_ a) = Ok k) then 1 else 0))%nat.
Proof.
  unfold TearDownConnection. cbn [TearDownClient ping_ip_is_servers_nic pong_ip].
  destruct (GetConnectionManager peer (connection_managers_ a)) as [j|e] eqn:Hg; simpl.
  2: { split; [done|]. intros k m' Hk. exists m'. split; [done|]. split; [done|]. lia. }
  destruct (connection_managers_ a !! j) as [m|] eqn:Hj; simpl.
  2: { split; [done|]. intros k m' Hk. exists m'. split; [done|]. split; [done|]. case_decide; [congruence|lia]. }
  unfold RemoveConnection. simpl. pose proof (erase_first_filter ip (pong_connections_ m)) as He.
  destruct (erase_first pong_peer_ip ip (pong_connections_ m)) as [[c l]|]; simpl.
  - split; [rewrite list_fmap_insert; by apply list_insert_id; rewrite list_lookup_fmap, Hj|].
    intros k m'. rewrite list_lookup_insert_Some. intros [(-> & <- & _)|[Hne Hk]].
    + exists m. rewrite decide_True by done. destruct He as [He1 He2]. split; [done|]. unfold pongs_without, pongs_with. simpl.
      rewrite He1, He2. split; [done|]. lia.
    + exists m'. rewrite decide_False by congruence. split; [done|]. split; [done|]. lia.
  - rewrite list_insert_id by done. split; [done|]. intros k m' Hk. exists m'. split; [done|]. split; [done|].
    case_decide; [|lia]. simplify_eq. unfold pongs_with. by rewrite He.
Qed.

Lemma TearDownRequests_pongs ip conns a :
  let a' := foldl (fun a c => (TearDownConnection (TearDownClient ip (ping_peer_ip c) false) a).2) a conns in
  forall k m', connection_managers_ a' !! k = Some m' -> exists m, connection_managers_ a !! k = Some m /\
    pongs_without ip m' = pongs_without ip m /\
    length (pongs_with ip m') =
      (length (pongs_with ip m) -
       length (filter (fun c => GetConnectionManager (ping_peer_ip c) (connection_managers_ a) = Ok k) conns))%nat.
Proof.
  revert a. induction conns as [|c conns IH]; intros a; simpl.
  - intros k m' Hk. exists m'. split; [done|]. split; [done|]. lia.
  - intros k m' Hk. destruct (IH _ k m' Hk) as (m1 & Hm1 & -> & ->).
    destruct (TearDownConnection_pongs ip (ping_peer_ip c) a) as [Hip Hp]. destruct (Hp k m1 Hm1) as (m & Hm & -> & ->).
    exists m. split; [done|]. split; [done|]. rewrite filter_cons.
    rewrite (list_filter_iff _ (fun c => GetConnectionManager (ping_peer_ip c) (connection_managers_ a) = Ok k) conns)
      by (intros d; by rewrite (GetConnectionManager_ips _ _ _ Hip)).
    case_decide; simpl; lia.
Qed.

End teardown.

(** Tearing down works at both ends: when the agent of the peers
    handles the requests a NIC manager sends for its ping connections, each pong
    connection of the manager goes away together with its ping connection, and
    the pong connections with other NICs stay as they are. *)
Theorem teardown_both_ends {GM BM} `{GpuMemHelperInterface GM, BufferManagerClientInterface BM}
    (m : NicManager GM BM) (b : Agent GM BM) :
  Forall (fun c => ping_local_ip c = nic_ip m) (ping_connections_ m) ->
  let '(requests, m') := TearDownAllPingConnections m in
  let b' := foldl (fun b request => (TearDownConnection request b).2) b requests in
  ping_connections_ m' = [] /\
  forall k n', connection_managers_ b' !! k = Some n' -> exists n, connection_managers_ b !! k = Some n /\
    pongs_without (nic_ip m) n' = pongs_without (nic_ip m) n /\
    length (pongs_with (nic_ip m) n') =
      (length (pongs_with (nic_ip m) n) -
       length (filter (fun c => GetConnectionManager (ping_peer_ip c) (connection_managers_ b) = Ok k) (ping_connections_ m)))%nat.
Proof.
  intros Hloc. simpl. split; [done|]. rewrite foldl_fmap.
  assert (Hfold : forall b, foldl (fun b c => (TearDownConnection (TearDownClient (ping_local_ip c) (ping_peer_ip c) false) b).2) b (ping_connections_ m)
    = foldl (fun b c => (TearDownConnection (TearDownClient (nic_ip m) (ping_peer_ip c) false) b).2) b (ping_connections_ m)).
  { induction Hloc as [|c l Hc _ IH]; intros b0; [done|]. simpl. by rewrite Hc, IH. }
  rewrite Hfold. apply TearDownRequests_pongs.
Qed.

Definition ex_pinging : NicManager GpuMemHelper TableBm :=
  set_pings [new_PingConnection "10.0.0.1" "10.0.0.8" 64 None] ex_new.

Definition ex_ponging : NicManager GpuMemHelper TableBm :=
  set_pongs [new_PongConnection "10.0.0.8" "10.0.0.5"; new_PongConnection "10.0.0.8" "10.0.0.1"]
    (new_NicManager "10.0.0.8" 64 8 new_GpuMemHelper (mkTableBm 0 ∅)).

Definition ex_torn : Agent GpuMemHelper TableBm :=
  foldl (fun b request => (TearDownConnection request b).2) (set_managers [ex_ponging] ex_agent)
    (TearDownAllPingConnections ex_pinging).1.

Lemma teardown_both_ends_witness :
  exists n', connection_managers_ ex_torn !! 0%nat = Some n' /\ length (pongs_with "10.0.0.1" n') = 0%nat /\
    pongs_without "10.0.0.1" n' = pongs_without "10.0.0.1" ex_ponging.
Proof.
  destruct (teardown_both_ends ex_pinging (set_managers [ex_ponging] ex_agent)) as [_ Ht]; [by repeat constructor|].
  destruct (connection_managers_ ex_torn !! 0%nat) as [n'|] eqn:Hn.
  - destruct (Ht 0%nat n' Hn) as (n & [= <-] & Hw & Hl). exists n'. split; [reflexivity|]. split; [|exact Hw].
    etrans; [exact Hl|]. vm_compute. reflexivity.
  - apply (f_equal (fun o => match o with Some _ => true | None => false end)) in Hn. vm_compute in Hn. discriminate.
Defined.

(** ** The rate of the rounds *)

(** The readings of the clock in an iteration of the loop of the ping thread. *)
Record Readings := mkReadings {
  at_round : Z; at_round_set : Z;
  at_report : Z; at_report_set : Z;
  at_rotate : Z; at_rotate_set : Z
}.

(** Times, [None] for the infinite future. *)
Record Timers := mkTimers {
  next_ping_round_time : option Z;
  next_report_results_time : option Z;
  next_file_rotation_time : option Z
}.

Definition past (now : Z) (t : option Z) : bool :=
  match t with Some t => t <? now | None => false end.

Definition later (now : Z) (interval : option Z) : option Z :=
  i ← interval; Some (now + i).

(** What is due in an iteration: a round, a report, a new file. *)
Definition LoopTimers (interval output rotation : option Z) (r : Readings) (t : Timers) : (bool * bool * bool) * Timers :=
  let round := past (at_round r) (next_ping_round_time t) in
  let report := past (at_report r) (next_report_results_time t) in
  let rotate := negb (bool_decide (rotation = Some 0)) && past (at_rotate r) (next_file_rotation_time t) in
  ((round, report, rotate),
   mkTimers (if round then later (at_round_set r) interval else next_ping_round_time t)
     (if report then later (at_report_set r) output else next_report_results_time t)
     (if rotate then later (at_rotate_set r) rotation else next_file_rotation_time t)).

(** The whole iteration on the agent; [calls k i] are the results for connection
    [i] of NIC [k]. *)
Definition LoopIteration {GM BM} `{GpuMemHelperInterface GM} (FormatTime : Z -> string) (ToString : StatusCode -> string)
    (MemCmp : GM -> Z -> Z -> Z -> StatusOr bool) (output rotation : option Z) (calls : nat -> nat -> PingCalls)
    (r : Readings) (s : Timers * Agent GM BM) : Timers * Agent GM BM :=
  let '(t, a) := s in
  let a := set_managers (imap (fun k => DoPingOps FormatTime ToString MemCmp (calls k)) (connection_managers_ a)) a in
  let '((round, report, rotate), t) := LoopTimers (probe_interval_ a) output rotation r t in
  let a := if round then set_managers (NicManager_PrepareNewPingRound <$> connection_managers_ a) a else a in
  let a := if report then ReportResults a else a in
  let a := if rotate then UpdateResultsFileName (FormatTime (at_rotate_set r)) a else a in
  (t, a).

(** The thread sees its iterations and the rates that start requests set. *)
Inductive LoopEvent : Type := Iterate (r : Readings) | SetRate (qps : Z).

(** The interval, the timers and the times at which rounds were started. *)
Record LoopRun := mkLoopRun { lr_interval : option Z; lr_timers : Timers; lr_rounds : list Z }.

Definition loop_event (seconds_per : Z -> option Z) (limit : Z) (output rotation : option Z) (s : LoopRun) (e : LoopEvent)
    : LoopRun :=
  match e with
  | SetRate qps => mkLoopRun (SetProbeInterval seconds_per limit qps) (lr_timers s) (lr_rounds s)
  | Iterate r =>
      let '((round, _, _), t) := LoopTimers (lr_interval s) output rotation r (lr_timers s) in
      mkLoopRun (lr_interval s) t (lr_rounds s ++ if round then [at_round r] else [])
  end.

(** Rounds are started no faster than the limit: with a limit, rates
    that are not negative and a clock that does not run backwards between two
    readings, the times of any two rounds [i < j] are more than [j - i] intervals
    of the limit apart, whatever rates are requested while the thread runs. *)
Theorem probe_rate_limited seconds_per limit least output rotation start timers events :
  0 < limit -> seconds_per limit = Some least -> seconds_per 0 = None ->
  (forall q, 0 < q <= limit -> exists i, seconds_per q = Some i /\ least <= i) ->
  Forall (fun e => match e with Iterate r => at_round r <= at_round_set r | SetRate qps => 0 <= qps end) events ->
  0 <= start ->
  let s := foldl (loop_event seconds_per limit output rotation)
             (mkLoopRun (SetProbeInterval seconds_per limit start) timers []) events in
  forall i j ti tj, (i < j)%nat -> lr_rounds s !! i = Some ti -> lr_rounds s !! j = Some tj ->
    ti + Z.of_nat (j - i) * least < tj.
Proof.
  intros Hlim Hleast Hzero Hanti Hev Hstart.
  assert (Hset : forall q, 0 <= q -> forall i, SetProbeInterval seconds_per limit q = Some i -> least <= i).
  { intros q Hq i. unfold SetProbeInterval. rewrite (proj2 (Z.ltb_lt _ _)) by done. simpl.
    destruct (limit <? q) eqn:E; [intros; simplify_eq; lia|]. destruct (decide (q = 0)) as [->|]; [by rewrite Hzero|].
    destruct (Hanti q) as (i' & -> & ?); [lia|]. by intros [= ->]. }
  assert (Hinv : forall s, (forall i, lr_interval s = Some i -> least <= i) ->
      (forall i j ti tj, (i < j)%nat -> lr_rounds s !! i = Some ti -> lr_rounds s !! j = Some tj -> ti + Z.of_nat (j - i) * least < tj) /\
      (forall i ti n, lr_rounds s !! i = Some ti -> next_ping_round_time (lr_timers s) = Some n ->
         ti + Z.of_nat (length (lr_rounds s) - i) * least <= n) ->
    let s := foldl (loop_event seconds_per limit output rotation) s events in
    forall i j ti tj, (i < j)%nat -> lr_rounds s !! i = Some ti -> lr_rounds s !! j = Some tj -> ti + Z.of_nat (j - i) * least < tj).
  { induction Hev as [|e events He _ IH]; intros s Hi [Hr Hn]; [done|]. simpl. apply IH; destruct e as [r|qps]; simpl; try done.
    - by apply Hset.
    - unfold past. destruct (next_ping_round_time (lr_timers s)) as [n|] eqn:En; simpl; [|by rewrite app_nil_r].
      destruct (n <? at_round r) eqn:Ed; simpl; [|by rewrite app_nil_r].
      split.
      + intros i j ti tj Hij. rewrite !lookup_app_Some. intros [H1|[H1 H1']] [H2|[H2 H2']].
        * by apply Hr.
        * apply list_lookup_singleton_Some in H2' as [Hj <-]. specialize (Hn i ti n H1 eq_refl).
          replace (Z.of_nat (j - i)) with (Z.of_nat (length (lr_rounds s) - i)) by lia. lia.
        * apply lookup_lt_Some in H2. lia.
        * apply list_lookup_singleton_Some in H1' as [? _], H2' as [? _]. lia.
      + intros i ti n'. unfold later. destruct (lr_interval s) as [iv|] eqn:Eiv; [|done]. specialize (Hi iv eq_refl).
        rewrite lookup_app_Some, length_app. simpl. intros [H1|[H1 H1']] [= <-].
        * specialize (Hn i ti n H1 eq_refl). pose proof (lookup_lt_Some _ _ _ H1).
          replace (Z.of_nat (length (lr_rounds s) + 1 - i)) with (Z.of_nat (length (lr_rounds s) - i) + 1) by lia. lia.
        * apply list_lookup_singleton_Some in H1' as [? <-].
          replace (Z.of_nat (length (lr_rounds s) + 1 - i)) with 1 by lia. lia. }
  apply Hinv; simpl; [by apply Hset|]. split; intros *; by rewrite lookup_nil.
Qed.

(** Rates of one tick per second and probe: 5 rounds are requested and 2 allowed. *)
Lemma probe_rate_limited_witness :
  let seconds_per q := if q <=? 0 then None else Some (1000 / q) in
  let r t := Iterate (mkReadings t t t t t t) in
  let s := foldl (loop_event seconds_per 2 (Some 5) (Some 0)) (mkLoopRun (SetProbeInterval seconds_per 2 1) (mkTimers (Some 0) (Some 0) None) [])
             [SetRate 5; r 1; r 400; r 502; SetRate 0; r 1100] in
  lr_rounds s = [1; 502; 1100] /\
  forall i j ti tj, (i < j)%nat -> lr_rounds s !! i = Some ti -> lr_rounds s !! j = Some tj -> ti + Z.of_nat (j - i) * 500 < tj.
Proof.
  intros seconds_per r s. split; [vm_compute; reflexivity|].
  apply (probe_rate_limited seconds_per 2 500 (Some 5) (Some 0) 1 (mkTimers (Some 0) (Some 0) None)
    [SetRate 5; r 1; r 400; r 502; SetRate 0; r 1100]); [done..| | |done].
  - intros q Hq. unfold seconds_per. rewrite (proj2 (Z.leb_gt _ _)) by lia. eexists. split; [done|].
    apply Z.div_le_lower_bound; lia.
  - repeat constructor; simpl; lia.
Defined.

(** A negative rate passes the limit and makes every iteration start a round. *)
Example negative_rate_unlimited :
  let seconds_per q := if q =? 0 then None else Some (1000 / q) in
  let r t := Iterate (mkReadings t t t t t t) in
  lr_rounds (foldl (loop_event seconds_per 2 (Some 5) (Some 0)) (mkLoopRun (Some 500) (mkTimers (Some 0) (Some 0) None) [])
    [SetRate (-5); r 1; r 2; r 3; r 4]) = [1; 2; 3; 4].
Proof. vm_compute. reflexivity. Qed.

(** ** The result files *)

Section reports.
Context {GM BM : Type} `{GpuMemHelperInterface GM, BufferManagerClientInterface BM}.

(** The results not yet written, in the order in which they will be. *)
Definition pending (a : Agent GM BM) : list string :=
  connection_managers_ a ≫= fun m => ping_connections_ m ≫= results_.

Definition as_lines (lines : list string) : string := foldr (fun line text => line +:+ newline +:+ text) EmptyString lines.

Lemma StrJoin_lines lines : lines <> [] -> StrJoin lines newline +:+ newline = as_lines lines.
Proof.
  induction lines as [|line lines IH]; [done|]. intros _. destruct lines as [|l2 lines]; [done|].
  change (StrJoin (line :: l2 :: lines) newline) with (line +:+ newline +:+ StrJoin (l2 :: lines) newline).
  rewrite string_app_assoc, (string_app_assoc newline), IH by done. done.
Qed.

Lemma pending_clear a :
  pending (set_managers ((fun m => (NicManager_GetAndClearResults m).2) <$> connection_managers_ a) a) = [].
Proof.
  unfold pending. simpl. induction (connection_managers_ a) as [|m l IH]; [done|]. cbn -[NicManager_GetAndClearResults].
  etrans; [apply f_equal, IH|]. rewrite app_nil_r. simpl. induction (ping_connections_ m) as [|c cs IHc]; [done|exact IHc].
Qed.

Lemma ReportResults_spec a :
  pending (ReportResults a) = [] /\
  files (ReportResults a) = <[results_file_name_ a := default EmptyString (files a !! results_file_name_ a) +:+ as_lines (pending a)]> (files a).
Proof.
  unfold ReportResults. change (connection_managers_ a ≫= fun m => (NicManager_GetAndClearResults m).1) with (pending a).
  case_decide as Hp.
  - split; [apply pending_clear|]. rewrite Hp. simpl. by rewrite string_app_empty.
  - split; [apply pending_clear|]. by rewrite StrJoin_lines.
Qed.

End reports.

(** No result is lost when pings are stopped, and none is written
    twice: [StopPings] appends the results of all connections, one per line and in
    order, to the current file, changes no other file, leaves no ping connection,
    and a later report has nothing to write. *)
Theorem stop_reports_all {GM BM} `{GpuMemHelperInterface GM, BufferManagerClientInterface BM} (a : Agent GM BM) :
  let '(_, requests, a') := StopPings a in
  files a' = <[results_file_name_ a := default EmptyString (files a !! results_file_name_ a) +:+ as_lines (pending a)]> (files a) /\
  Forall (fun m => ping_connections_ m = []) (connection_managers_ a') /\
  files (ReportResults a') = files a'.
Proof.
  unfold StopPings. simpl. destruct (ReportResults_spec a) as [Hp Hf]. split; [exact Hf|]. split.
  - apply Forall_fmap. apply list.Forall_forall. done.
  - set (a1 := set_managers _ _). destruct (ReportResults_spec a1) as [_ Hf1].
    rewrite Hf1. assert (Hpend : pending a1 = []).
    { unfold pending, a1. simpl. clear. induction (connection_managers_ (ReportResults a)) as [|m l IH]; [done|exact IH]. }
    rewrite Hpend. cbn [as_lines foldr]. rewrite string_app_empty. simpl.
    assert (Hname : results_file_name_ (ReportResults a) = results_file_name_ a) by (unfold ReportResults; by case_decide).
    rewrite Hname, Hf. apply insert_id. by rewrite !lookup_insert_eq.
Qed.

(** [CleanUp] removes the connections before the last report: the results they
    had not reported are lost. *)
Example cleanup_loses_results :
  let c := mkPing "10.0.0.1" "10.0.0.8" 64 None Ping.WAIT_FOR_NEXT_PROBE_ROUND 7 ["t,10.0.0.1,10.0.0.8,25"%string] in
  let a := set_managers [set_pings [c] ex_m0] ex_agent in
  pending a <> [] /\ (Agent_CleanUp a).1.1 = OkStatus /\ files (Agent_CleanUp a).2 = {["/tmp/x.csv"%string := EmptyString]}.
Proof. split; [done|]. vm_compute. done. Qed.

(** ** The options of the process (main.cc) *)

Definition ParseBool (str : string) : bool :=
  let str := AsciiStrToLower str in
  String.eqb str "true" || String.eqb str "t" || String.eqb str "1" || String.eqb str "yes" || String.eqb str "y".

Definition digit (a : Ascii.ascii) : option Z :=
  let n := Z.of_nat (Ascii.nat_of_ascii a) in if (48 <=? n) && (n <=? 57) then Some (n - 48) else None.

Fixpoint digits (acc : Z) (s : string) : Z :=
  match s with
  | EmptyString => acc
  | String a s' => match digit a with Some d => digits (10 * acc + d) s' | None => acc end
  end.

(** [std::stoi]; [None] for the exceptions. *)
Definition stoi (s : string) : option Z :=
  let s := skip_spaces s in
  let '(sign, s) :=
    match s with
    | String a s' =>
        if Ascii.eqb a (Ascii.ascii_of_nat 45) then (-1, s') else if Ascii.eqb a (Ascii.ascii_of_nat 43) then (1, s') else (1, s)
    | EmptyString => (1, s)
    end in
  match s with
  | String a _ =>
      match digit a with
      | None => None
      | Some _ => let n := sign * digits 0 s in if (- 2 ^ 31 <=? n) && (n <? 2 ^ 31) then Some n else None
      end
  | EmptyString => None
  end.

(** Intervals are in seconds. *)
Record AgentOptions := mkOptions {
  opt_gpu_nic_ips : list string;
  opt_server_port : Z;
  opt_max_probe_qps : Z;
  opt_max_connections_per_nic : Z;
  opt_payload_size : Z;
  opt_use_llcm : bool;
  opt_results_file_prefix : string;
  opt_results_directory : string;
  opt_rotation_interval : Z;
  opt_output_interval : Z
}.

Definition int_option (value : option string) (default : Z) : option Z :=
  match value with None => Some default | Some v => stoi v end.

(** [None]: the process ends. *)
Definition GetAgentOptions (getenv : string -> option string) : option AgentOptions :=
  gpu_nic_ips ← getenv "TCPXO_PROBER_GPU_NIC_IPS"%string;
  let gpu_nics := StrSplit gpu_nic_ips in
  if decide (gpu_nics = []) then None else
  server_port ← int_option (getenv "TCPXO_PROBER_SERVER_PORT"%string) 8080;
  qps ← int_option (getenv "TCPXO_PROBER_MAX_QPS_LIMIT"%string) 5;
  connections ← int_option (getenv "TCPXO_PROBER_MAX_CONNECTIONS_PER_NIC_LIMIT"%string) 0;
  payload_size ← int_option (getenv "TCPXO_PROBER_PAYLOAD_SIZE"%string) 1;
  let use_llcm := match getenv "TCPXO_PROBER_ENABLE_LLCM"%string with None => true | Some v => ParseBool v end in
  let prefix := default "tcpxo_probe_results"%string (getenv "TCPXO_PROBER_OUTPUT_FILE_PREFIX"%string) in
  let path := default "/tmp"%string (getenv "TCPXO_PROBER_OUTPUT_FILES_PATH"%string) in
  rotation ← int_option (getenv "TCPXO_PROBER_FILE_ROTATION_INTERVAL_IN_SECONDS"%string) 3600;
  output ← int_option (getenv "TCPXO_PROBER_OUTPUT_INTERVAL_IN_SECONDS"%string) 5;
  Some (mkOptions gpu_nics server_port qps connections (u64 payload_size) use_llcm prefix path rotation output).

(** An empty list of addresses is not noticed: it gives one NIC without an
    address. *)
Example empty_nic_list :
  GetAgentOptions (fun v => if String.eqb v "TCPXO_PROBER_GPU_NIC_IPS" then Some EmptyString else None) =
    Some (mkOptions [EmptyString] 8080 5 0 1 true "tcpxo_probe_results" "/tmp" 3600 5).
Proof. reflexivity. Qed.
