(* ===== verification/NetIfs.v ===== *)
(** * Network interfaces of the plugin
    (tcpdirect_plugin/fastrak_offload/utilities.h, initializeNetIfs of common.cc)

    At start the plugin chooses the network interfaces that carry data and the
    one that carries control messages, from lists of names given by the user or
    by what the host has, and orders them by PCI address.  The answers of
    [getifaddrs], [getenv], [getaddrinfo] and the like are arguments.  Arrays of
    characters have their sizes: writing outside is [None]. *)

From Stdlib Require Import Ascii.
From stdpp Require Import sorting.
From S2P Require Import Prelude PciTopology GpuIpServer.

Definition colon : ascii := ":"%char.
Definition comma : ascii := ","%char.

(** ** Results (nccl.h) *)

Inductive ncclResult_t : Set :=
  | ncclSuccess | ncclUnhandledCudaError | ncclSystemError | ncclInternalError
  | ncclInvalidArgument | ncclInvalidUsage | ncclRemoteError | ncclInProgress.

#[export] Instance ncclResult_eq_dec : EqDecision ncclResult_t.
Proof. solve_decision. Defined.

(** ** Lists of interfaces *)

Record netIf := mkNetIf { prefix : string; port : Z }.

(** [sizeof] of [prefix]. *)
Definition sizeof_prefix : nat := 64.

Definition decimal (a : ascii) : option Z :=
  let n := Z.of_N (N_of_ascii a) in if (48 <=? n) && (n <=? 57) then Some (n - 48) else None.

Fixpoint decimals (acc : Z) (s : string) : Z :=
  match s with
  | String a s' => match decimal a with Some d => decimals (10 * acc + d) s' | None => acc end
  | EmptyString => acc
  end.

(** [atoi]: 0 without digits, undefined when the number is not an [int]. *)
Definition atoi (s : string) : option Z :=
  let n := match skip_spaces s with
           | String "-"%char s' => - decimals 0 s'
           | String "+"%char s' => decimals 0 s'
           | s' => decimals 0 s'
           end in
  if (- 2 ^ 31 <=? n) && (n <? 2 ^ 31) then Some n else None.

(** The inner loop: from the current character to the next comma or the end. *)
Fixpoint skip_entry (s : string) : string :=
  match s with
  | String c s' => if Ascii.eqb c comma then s else skip_entry s'
  | EmptyString => s
  end.

(** The current entry, of which [cur] has been written, is finished. *)
Definition finish_entry (cur : string) (port : option Z) (ifList : list netIf) : option (list netIf) :=
  if decide (cur = EmptyString) then Some ifList
  else if (String.length cur <? sizeof_prefix)%nat then (fun port => ifList ++ [mkNetIf cur port]) <$> port
  else None.

(** The loop of [parseStringList] from [ptr] on, one unit of fuel for each
    iteration; [cur] are the first [ifC] characters of the current entry. *)
Fixpoint parseLoop (fuel : nat) (ptr cur : string) (ifList : list netIf) (maxList : nat) : option (list netIf) :=
  match fuel with
  | O => None
  | S fuel =>
      '(ptr, cur, ifList) ←
        match ptr with
        | EmptyString => (fun l => (ptr, EmptyString, l)) <$> finish_entry cur (Some (-1)) ifList
        | String c rest =>
            if Ascii.eqb c colon then
              (fun l => (skip_entry ptr, EmptyString, l)) <$> finish_entry cur (atoi rest) ifList
            else if Ascii.eqb c comma then
              (fun l => (ptr, EmptyString, l)) <$> finish_entry cur (Some (-1)) ifList
            else if (String.length cur <? sizeof_prefix)%nat then
              Some (ptr, cur +:+ String c EmptyString, ifList)
            else None
        end;
      match ptr with
      | EmptyString => Some ifList
      | String _ ptr => if (length ifList <? maxList)%nat then parseLoop fuel ptr cur ifList maxList else Some ifList
      end
  end.

Definition parseStringList (string : option string) (maxList : nat) : option (list netIf) :=
  match string with
  | None => Some []
  | Some s => parseLoop (S (String.length s)) s EmptyString [] maxList
  end.

(** [strncmp] gives 0. *)
Fixpoint strncmp_eq (a b : string) (n : nat) : bool :=
  match n with
  | O => true
  | S n =>
      match a, b with
      | EmptyString, EmptyString => true
      | String x a, String y b => Ascii.eqb x y && strncmp_eq a b n
      | _, _ => false
      end
  end.

Definition matchIf (string ref : string) (matchExact : bool) : bool :=
  strncmp_eq string ref (if matchExact then S (String.length string) else String.length ref).

Definition matchPort (port1 port2 : Z) : bool :=
  if port1 =? -1 then true else if port2 =? -1 then true else port1 =? port2.

Definition matchIfList (string : string) (p : Z) (ifList : list netIf) (matchExact : bool) : bool :=
  if decide (ifList = []) then true
  else existsb (fun i => matchIf string (prefix i) matchExact && matchPort p (port i)) ifList.

(** ** Addresses *)

(** A [socketAddress]: [s_addr] is a number, [s6_addr] 16 bytes. *)
Inductive socketAddress : Type :=
  | sin (sin_port s_addr : Z)
  | sin6 (sin6_port sin6_flowinfo : Z) (s6_addr : list Z) (sin6_scope_id : Z)
  | other_family (sa_family : Z).

Definition sa_family (a : socketAddress) : Z :=
  match a with sin _ _ => AF_INET | sin6 _ _ _ _ => AF_INET6 | other_family f => f end.

(** An entry of the list [getifaddrs] gives. *)
Record interface := mkInterface {
  name : string;
  addr : option socketAddress;
  netmask : option socketAddress
}.

Definition IN6_IS_ADDR_LOOPBACK (a : list Z) : bool := bool_decide (a = replicate 15 0 ++ [1]).
Definition IN6_IS_ADDR_LINKLOCAL (a : list Z) : bool :=
  (nthZ a 0 =? 254) && (Z.land (nthZ a 1) 192 =? 128).

(** [strncpy] into a field of [n] characters: cut, or filled with nulls. *)
Definition strncpy (s : string) (n : nat) : string :=
  String.substring 0 n s +:+ zeros (n - String.length s).

(** Reading a name as a C string; [None] when its field has no null. *)
Fixpoint read_name (field : string) : option string :=
  match field with
  | EmptyString => None
  | String a s => if Ascii.eqb a zero then Some EmptyString else String a <$> read_name s
  end.

(** The inner loop of [findInterfaces]: the name is one of those saved. *)
Fixpoint duplicate (n : string) (saved : list (string * socketAddress)) : option bool :=
  match saved with
  | [] => Some false
  | (field, _) :: saved => s ← read_name field; if String.eqb n s then Some true else duplicate n saved
  end.

(** An interface passes the tests before that for duplicates. *)
Definition selected (userIfs : list netIf) (searchNot searchExact : bool) (sock_family : Z) (i : interface)
    : option socketAddress :=
  match addr i with
  | None => None
  | Some a =>
      let family := sa_family a in
      if negb (family =? AF_INET) && negb (family =? AF_INET6) then None
      else if negb (sock_family =? -1) && negb (family =? sock_family) then None
      else if match a with
              | sin6 _ _ s6_addr _ => IN6_IS_ADDR_LOOPBACK s6_addr || IN6_IS_ADDR_LINKLOCAL s6_addr
              | _ => false
              end then None
      else if xorb (matchIfList (name i) (-1) userIfs searchExact) searchNot then Some a
      else None
  end.

(** The loop of [findInterfaces]; [saved] are the entries of [names] and
    [addrs] written so far, as many as [found]. *)
Fixpoint findLoop (userIfs : list netIf) (searchNot searchExact : bool) (sock_family : Z)
    (maxIfNameSize maxIfs : nat) (interfaces : list interface) (saved : list (string * socketAddress))
    : option (list (string * socketAddress)) :=
  match interfaces with
  | [] => Some saved
  | i :: interfaces =>
      if (length saved <? maxIfs)%nat then
        saved ←
          match selected userIfs searchNot searchExact sock_family i with
          | None => Some saved
          | Some a =>
              dup ← duplicate (name i) saved;
              Some (if (dup : bool) then saved else saved ++ [(strncpy (name i) maxIfNameSize, a)])
          end;
        findLoop userIfs searchNot searchExact sock_family maxIfNameSize maxIfs interfaces saved
      else Some saved
  end.

Definition MAX_IFS : nat := 17.
Definition MAX_IF_NAME_SIZE : nat := 16.

(** A leading character that changes the search. *)
Definition strip (c : ascii) (prefixList : option string) : bool * option string :=
  match prefixList with
  | Some (String a s) => if Ascii.eqb a c then (true, Some s) else (false, prefixList)
  | _ => (false, prefixList)
  end.

(** [findInterfaces] with a list of names; a failing [getifaddrs] leaves the
    list undefined. *)
Definition findInterfaces (prefixList : option string) (sock_family : Z) (maxIfNameSize maxIfs : nat)
    (interfaces : option (list interface)) : option (list (string * socketAddress)) :=
  let '(searchNot, prefixList) := strip "^"%char prefixList in
  let '(searchExact, prefixList) := strip "="%char prefixList in
  userIfs ← parseStringList prefixList MAX_IFS;
  interfaces ← interfaces;
  findLoop userIfs searchNot searchExact sock_family maxIfNameSize maxIfs interfaces [].

(** ** The interface in the subnet of an address *)

(** [None] when there is no mask to read, or not one of the family. *)
Definition matchSubnet (local_if : interface) (local remote : socketAddress) : option bool :=
  if negb (sa_family local =? sa_family remote) then Some false
  else
    match local, remote, netmask local_if with
    | sin _ l, sin _ r, Some (sin _ m) => Some (Z.lxor (Z.land l m) (Z.land r m) =? 0)
    | sin6 _ _ l lscope, sin6 _ _ r rscope, Some (sin6 _ _ m _) =>
        let same := forallb (fun c => Z.lxor (Z.land (nthZ l c) (nthZ m c)) (Z.land (nthZ r c) (nthZ m c)) =? 0)
                      (seqZ 0 16) in
        Some (same && (lscope =? rscope))
    | other_family _, other_family _, _ => Some false
    | _, _, _ => None
    end.

Fixpoint findInterfaceMatchSubnet (remoteAddr : socketAddress) (ifNameMaxSize : nat) (interfaces : list interface)
    : option (list (string * socketAddress)) :=
  match interfaces with
  | [] => Some []
  | i :: interfaces =>
      match addr i with
      | Some ((sin _ _ | sin6 _ _ _ _) as a) =>
          same ← matchSubnet i a remoteAddr;
          if (same : bool) then Some [(strncpy (name i) ifNameMaxSize, a)]
          else findInterfaceMatchSubnet remoteAddr ifNameMaxSize interfaces
      | _ => findInterfaceMatchSubnet remoteAddr ifNameMaxSize interfaces
      end
  end.

(** ** Addresses from texts *)

Definition NI_MAXHOST : Z := 1025.
Definition NI_MAXSERV : Z := 32.
Definition IFNAMSIZ : Z := 16.

Definition htons (x : Z) : Z := u8 x * 256 + u8 (x / 256).
Definition ntohs (x : Z) : Z := u8 x * 256 + u8 (x / 256).

Definition socketToPort (a : socketAddress) : Z :=
  match a with sin p _ => ntohs p | sin6 p _ _ _ => ntohs p | other_family _ => 0 end.

(** The loop over [\[IPv6\]:port] from index [i] on: the index of the bracket
    and that of the last percent sign before it. *)
Fixpoint find_bracket (s : string) (i j : Z) : Z * Z :=
  match s with
  | EmptyString => (i, j)
  | String c s =>
      let j := if Ascii.eqb c "%"%char then i else j in
      if Ascii.eqb c "]"%char then (i, j) else find_bracket s (i + 1) j
  end.

Definition substringZ (i n : Z) (s : string) : string := String.substring (Z.to_nat i) (Z.to_nat n) s.
Definition lengthZ (s : string) : Z := Z.of_nat (String.length s).

(** ** The devices (common.cc) *)

Record ncclSocketDev := mkDev {
  dev_addr : socketAddress;
  dev_ip_addr : string;
  dev_name : string;
  pci_path : option string
}.

Definition kIpAddrMaxLen : nat := 40.

(** The order in which the devices are sorted; [None] is a null pointer. *)
Definition pci_bdf (path : string) : string :=
  match strrchr_slash path with Some (_, bdf) => bdf | None => EmptyString end.

Definition dev_le (a b : ncclSocketDev) : Prop :=
  match pci_path a, pci_path b with
  | None, None => String.le (dev_name a) (dev_name b)
  | None, Some _ => True
  | Some _, None => False
  | Some p, Some q => String.le (pci_bdf p) (pci_bdf q)
  end.

#[export] Instance dev_le_dec : RelDecision dev_le.
Proof. intros a b. unfold dev_le. repeat case_match; apply _. Defined.

(** The comparison dereferences a null pointer for a path without a slash. *)
Definition paths_ok (devs : list ncclSocketDev) : bool :=
  forallb (fun d => match pci_path d with
                    | Some p => bool_decide (is_Some (strrchr_slash p))
                    | None => true
                    end) devs.

(** [std::sort]; equivalent devices may come in any order. *)
Definition sort_devices (devs : list ncclSocketDev) : option (list ncclSocketDev) :=
  if (length devs <=? 1)%nat || paths_ok devs then Some (merge_sort dev_le devs) else None.

(** [kNcclNetIfs], [kNcclSocketDevs] and [kNcclCtrlSocketDev]. *)
Record Devices := mkDevices {
  kNcclNetIfs : Z;
  kNcclSocketDevs : list ncclSocketDev;
  kNcclCtrlSocketDev : option (string * socketAddress)
}.

Definition no_devices : Devices := mkDevices (-1) [] None.

Section texts.
(** [getaddrinfo] (the first address), [inet_pton] and [if_nametoindex]. *)
Context (getaddrinfo : string -> option socketAddress).
Context (pton6 : string -> option (list Z)) (if_nametoindex : string -> Z).

Definition from_host_port (ip_port_pair : string) : option (ncclResult_t + socketAddress) :=
  ifs ← parseStringList (Some ip_port_pair) 1;
  match ifs with
  | [ni] =>
      Some match getaddrinfo (prefix ni) with
           | None => inl ncclInvalidArgument
           | Some (sin _ a) => inr (sin (htons (port ni)) a)
           | Some (sin6 _ _ a _) => inr (sin6 (htons (port ni)) 0 a 0)
           | Some (other_family _) => inl ncclInvalidArgument
           end
  | _ => Some (inl ncclInvalidArgument)
  end.

(** [ua6] is what [sin6_addr] had before, kept when the text is not an address. *)
Definition from_bracketed (ip_port_pair : string) (ua6 : list Z) : option (ncclResult_t + socketAddress) :=
  let len := lengthZ ip_port_pair in
  let '(i, j) := find_bracket (substringZ 1 len ip_port_pair) 1 (-1) in
  if i =? len then Some (inl ncclInvalidArgument)
  else
    let global_scope := j =? -1 in
    let n := if global_scope then i - 1 else j - 1 in
    if (NI_MAXHOST <=? n) || (NI_MAXSERV <? len - i - 1) || negb global_scope && (IFNAMSIZ <=? i - j - 1) then None
    else
      port ← atoi (substringZ (i + 2) (len - i - 1) ip_port_pair);
      let scope := if global_scope then 0 else if_nametoindex (substringZ (j + 1) (i - j - 1) ip_port_pair) in
      Some (inr (sin6 (htons port) 0 (default ua6 (pton6 (substringZ 1 n ip_port_pair))) scope)).

(** An error leaves the address as it was. *)
Definition GetSocketAddrFromString (ip_port_pair : option string) (ua6 : list Z)
    : option (ncclResult_t + socketAddress) :=
  match ip_port_pair with
  | None => Some (inl ncclInvalidArgument)
  | Some s =>
      if lengthZ s <=? 1 then Some (inl ncclInvalidArgument)
      else match s with
           | String "["%char _ => from_bracketed s ua6
           | _ => from_host_port s
           end
  end.

(** ** Choosing interfaces *)

(** The environment, the interfaces of the host, which stay the same while the
    plugin starts, and what an uninitialized [socketAddress] has. *)
Context (getenv : string -> option string) (getifaddrs : option (list interface)) (uninitialized : list Z).

Definition envSocketFamily : Z :=
  match getenv "NCCL_SOCKET_FAMILY" with
  | None => -1
  | Some env =>
      if String.eqb env "AF_INET" then AF_INET else if String.eqb env "AF_INET6" then AF_INET6 else -1
  end.

(** The case of [NCCL_COMM_ID]; the address is not read when it could not be
    parsed, which is undefined. *)
Definition find_by_comm_id (commId : string) (ifNameMaxSize : nat) : option (list (string * socketAddress)) :=
  r ← GetSocketAddrFromString (Some commId) uninitialized;
  idAddr ← match r with inr a => Some a | inl _ => None end;
  interfaces ← getifaddrs;
  findInterfaceMatchSubnet idAddr ifNameMaxSize interfaces.

(** [r], or the next attempt when it found nothing. *)
Definition or_else (r : option (list (string * socketAddress))) (next : option (list (string * socketAddress)))
    : option (list (string * socketAddress)) :=
  found ← r; match found with [] => next | _ => Some found end.

Definition findInterfaces_env (ifNameMaxSize maxIfs : nat) : option (list (string * socketAddress)) :=
  let sock_family := envSocketFamily in
  let find l := findInterfaces (Some l) sock_family ifNameMaxSize maxIfs getifaddrs in
  let automatic :=
    or_else (find "ib")
      (or_else (match getenv "NCCL_COMM_ID" with
                | Some commId => if 1 <? lengthZ commId then find_by_comm_id commId ifNameMaxSize else Some []
                | None => Some []
                end)
         (or_else (find "^docker,lo") (or_else (find "docker") (find "lo")))) in
  match getenv "NCCL_FASTRAK_SOCKET_IFNAME" with
  | Some env => if 1 <? lengthZ env then find env else automatic
  | None => automatic
  end.

(** ** Filling the devices *)

(** [socketIPToString] is [getnameinfo] for numeric hosts. *)
Context (socketIPToString : socketAddress -> string) (realpath : string -> option string).

Definition ncclFasTrakGetPciPath (devName : string) : option string :=
  realpath ("/sys/class/net/" +:+ devName +:+ "/device").

(** The loop that fills the devices. *)
Definition new_device (found : string * socketAddress) : option ncclSocketDev :=
  dev_name ← read_name found.1;
  Some (mkDev found.2 (String.substring 0 (kIpAddrMaxLen - 1) (socketIPToString found.2)) dev_name
          (ncclFasTrakGetPciPath dev_name)).

Definition data_interfaces : option (list (string * socketAddress)) :=
  match getenv "LOOPBACK_ONLY" with
  | Some _ => findInterfaces (Some "lo"%string) (-1) MAX_IF_NAME_SIZE MAX_IFS getifaddrs
  | None =>
      match getenv "NCCL_FASTRAK_IFNAME" with
      | Some fastrak_ifname => findInterfaces (Some fastrak_ifname) (-1) MAX_IF_NAME_SIZE MAX_IFS getifaddrs
      | None => findInterfaces_env MAX_IF_NAME_SIZE MAX_IFS
      end
  end.

Definition initializeNetIfs (s : Devices) : option (ncclResult_t * Devices) :=
  if negb (kNcclNetIfs s =? -1) then Some (ncclSuccess, s)
  else
    found ← data_interfaces;
    let s := mkDevices (Zlen found) (kNcclSocketDevs s) (kNcclCtrlSocketDev s) in
    if Zlen found <=? 0 then Some (ncclSystemError, s)
    else
      let fastrak_ctrl_dev := default "eth0"%string (getenv "NCCL_FASTRAK_CTRL_DEV") in
      ctrl ← findInterfaces (Some fastrak_ctrl_dev) (-1) MAX_IF_NAME_SIZE 1 getifaddrs;
      match ctrl with
      | [ctrl] =>
          devs ← mapM new_device found;
          devs ← sort_devices devs;
          Some (ncclSuccess, mkDevices (Zlen found) devs (Some ctrl))
      | _ => Some (ncclSystemError, s)
      end.

End texts.

(** ** The entries of a list of interfaces *)

(** An entry is a name and the text after its colon. *)
Fixpoint split_port (part : string) : string * option string :=
  match part with
  | EmptyString => (EmptyString, None)
  | String c r =>
      if Ascii.eqb c colon then (EmptyString, Some r)
      else ((String c (split_port r).1), (split_port r).2)
  end.

(** The entries of the list that have a name. *)
Definition named (s : string) : list (string * option string) :=
  filter (fun e => e.1 <> EmptyString) (split_port <$> StrSplit s).

Definition as_netIf (e : string * option string) : option netIf :=
  if (String.length e.1 <? sizeof_prefix)%nat
  then mkNetIf e.1 <$> match e.2 with Some t => atoi t | None => Some (-1) end
  else None.

Fixpoint plain (s : string) : bool :=
  match s with
  | EmptyString => true
  | String c s => negb (Ascii.eqb c colon) && negb (Ascii.eqb c comma) && plain s
  end.

Fixpoint upto_comma (s : string) : string :=
  match s with
  | EmptyString => EmptyString
  | String c s => if Ascii.eqb c comma then EmptyString else String c (upto_comma s)
  end.

Definition after_comma (s : string) : string :=
  match skip_entry s with EmptyString => EmptyString | String _ s => s end.

Lemma StrSplit_upto s :
  StrSplit s = upto_comma s :: match skip_entry s with EmptyString => [] | String _ r => StrSplit r end.
Proof.
  induction s as [|c s IH]; [done|]. cbn [StrSplit upto_comma skip_entry].
  change (ascii_of_N 44) with comma. destruct (Ascii.eqb c comma); [done|]. by rewrite IH.
Qed.

Lemma StrSplit_plain cur s : plain cur = true ->
  StrSplit (cur +:+ s) = (cur +:+ upto_comma s) :: match skip_entry s with EmptyString => [] | String _ r => StrSplit r end.
Proof.
  induction cur as [|c cur IH]; intros Hp; [apply StrSplit_upto|]. cbn in Hp. zbool.
  rewrite !append_cons. cbn [StrSplit]. change (ascii_of_N 44) with comma.
  match goal with H : Ascii.eqb c comma = _ |- _ => rewrite H end. by rewrite IH.
Qed.

Lemma split_port_plain cur s : plain cur = true ->
  split_port (cur +:+ s) = (cur +:+ (split_port s).1, (split_port s).2).
Proof.
  induction cur as [|c cur IH]; intros Hp; [rewrite !append_nil; apply surjective_pairing|]. cbn in Hp. zbool.
  rewrite !append_cons. cbn [split_port]. match goal with H : Ascii.eqb c colon = _ |- _ => rewrite H end. by rewrite IH.
Qed.

Lemma named_nil : named EmptyString = [].
Proof. done. Qed.

(** The first entry, when it begins with [cur]. *)
Lemma named_plain cur s : plain cur = true ->
  named (cur +:+ s) =
    (let e := (cur +:+ (split_port (upto_comma s)).1, (split_port (upto_comma s)).2) in
     if decide (e.1 <> EmptyString) then [e] else []) ++ named (after_comma s).
Proof.
  intros Hp. unfold named at 1. rewrite StrSplit_plain by done. rewrite fmap_cons, split_port_plain by done.
  rewrite filter_cons. unfold after_comma.
  cbv zeta. destruct (decide _); destruct (skip_entry s); reflexivity.
Qed.

Lemma skip_entry_length s : (String.length (skip_entry s) <= String.length s)%nat.
Proof. induction s as [|c s IH]; cbn; [lia|]. destruct (Ascii.eqb c comma); cbn; lia. Qed.

Lemma decimals_upto acc s : decimals acc (upto_comma s) = decimals acc s.
Proof.
  revert acc. induction s as [|c s IH]; intros acc; cbn; [done|].
  destruct (Ascii.eqb_spec c comma) as [->|]; [done|]. cbn. destruct (decimal c); [apply IH|done].
Qed.

Lemma skip_spaces_upto s : skip_spaces (upto_comma s) = upto_comma (skip_spaces s).
Proof.
  induction s as [|c s IH]; cbn; [done|]. destruct (Ascii.eqb_spec c comma) as [->|Hc]; [done|]. cbn.
  destruct (is_space c); [apply IH|]. cbn. by destruct (Ascii.eqb_spec c comma).
Qed.

Lemma atoi_upto s : atoi (upto_comma s) = atoi s.
Proof.
  unfold atoi. rewrite skip_spaces_upto. generalize (skip_spaces s). clear s. intros s.
  assert (forall s', decimals 0 (upto_comma s') = decimals 0 s') as Hd by (intros; apply decimals_upto).
  destruct s as [|c s]; [done|]. cbn [upto_comma].
  destruct (Ascii.eqb_spec c comma) as [->|Hc]; [done|].
  specialize (Hd s) as Hs. pose proof (Hd (String c s)) as Hcs. cbn [upto_comma] in Hcs.
  destruct (Ascii.eqb_spec c comma) as [|_]; [done|].
  destruct c as [[] [] [] [] [] [] [] []]; rewrite ?Hs, ?Hcs; reflexivity.
Qed.

#[local] Arguments Nat.ltb : simpl never.

(** Finishing the current entry adds it if it has a name. *)
Lemma finish_entry_spec cur t p l :
  p = match t with Some t => atoi t | None => Some (-1) end ->
  finish_entry cur p l = (l ++.) <$> mapM as_netIf (if decide (cur <> EmptyString) then [(cur, t)] else []).
Proof.
  intros ->. unfold finish_entry. destruct (decide (cur = EmptyString)) as [Hc|Hc].
  { rewrite decide_False by (intros Hn; by apply Hn). cbn. by rewrite app_nil_r. }
  rewrite decide_True by done. cbn. unfold as_netIf. cbn [fst snd].
  destruct (String.length cur <? sizeof_prefix)%nat; [|done]. by destruct (match t with Some _ => _ | _ => _ end).
Qed.

Lemma mapM_take_app {A B} (f : A -> option B) n l es rest :
  (length l < n)%nat -> (length es <= 1)%nat ->
  (mapM f es ≫= fun bs =>
     if (length (l ++ bs) <? n)%nat then ((l ++ bs) ++.) <$> mapM f (take (n - length (l ++ bs)) rest)
     else Some (l ++ bs)) = (l ++.) <$> mapM f (take (n - length l) (es ++ rest)).
Proof.
  intros Hl He. destruct es as [|e [|]]; cbn in He; [| |lia].
  - cbn [mapM mbind option_bind app]. cbn. rewrite app_nil_r. by rewrite (proj2 (Nat.ltb_lt _ _) Hl).
  - replace (n - length l)%nat with (S (n - length l - 1)) by lia. cbn. destruct (f e) as [b|]; [|done]. cbn.
    rewrite length_app. cbn. destruct (Nat.ltb_spec (length l + 1) n).
    + replace (n - (length l + 1))%nat with (n - length l - 1)%nat by lia.
      destruct (mapM f (take _ rest)); cbn; [|done]. by rewrite <- app_assoc.
    + replace (n - length l - 1)%nat with O by lia. by cbn.
Qed.

Lemma upto_app_no s c : Ascii.eqb c comma = false -> upto_comma (String c s) = String c (upto_comma s).
Proof. intros H. cbn. by rewrite H. Qed.

Lemma plain_app a b : plain (a +:+ b) = plain a && plain b.
Proof. induction a as [|c a IH]; [done|]. rewrite append_cons. cbn. by rewrite IH, andb_assoc. Qed.

(** The loop gives the named entries, as many as there is room for. *)
Lemma parseLoop_spec fuel ptr cur l n :
  (String.length ptr < fuel)%nat -> plain cur = true -> (String.length cur <= sizeof_prefix)%nat -> (length l < n)%nat ->
  parseLoop fuel ptr cur l n = (l ++.) <$> mapM as_netIf (take (n - length l) (named (cur +:+ ptr))).
Proof.
  revert ptr cur l. induction fuel as [|fuel IH]; intros ptr cur l Hf Hp Hc Hl; [lia|].
  rewrite named_plain by done. destruct ptr as [|c rest]; cbn [parseLoop].
  { rewrite (finish_entry_spec cur None) by done. cbn. rewrite string_app_empty.
    destruct (decide _); cbn; [|by rewrite firstn_nil].
    replace (n - length l)%nat with (S (n - length l - 1)) by lia. cbn. rewrite firstn_nil. by destruct (as_netIf _). }
  assert (Hcont : forall s es, (String.length s <= String.length rest)%nat -> (length es <= 1)%nat ->
    (mapM as_netIf es ≫= fun bs => if (length (l ++ bs) <? n)%nat then parseLoop fuel s EmptyString (l ++ bs) n
       else Some (l ++ bs)) = (l ++.) <$> mapM as_netIf (take (n - length l) (es ++ named s))).
  { intros s es Hs He. rewrite <- mapM_take_app by done. destruct (mapM as_netIf es) as [bs|]; [|done]. cbn [mbind option_bind].
    destruct (Nat.ltb_spec (length (l ++ bs)) n); [|done]. rewrite IH; [done|cbn in Hf; lia|done|cbn; lia|done]. }
  destruct (Ascii.eqb_spec c colon) as [->|Hcolon].
  { rewrite (finish_entry_spec cur (Some (upto_comma rest))) by (by rewrite atoi_upto).
    cbn [skip_entry upto_comma split_port Ascii.eqb]. cbn. rewrite string_app_empty.
    rewrite <- Hcont; [| |case_decide; cbn; lia].
    2: { unfold after_comma. pose proof (skip_entry_length rest) as Hsk. cbn [skip_entry]. change (Ascii.eqb colon comma) with false. destruct (skip_entry rest); cbn in Hsk |- *; lia. }
    unfold after_comma. change (skip_entry (String colon rest)) with (skip_entry rest).
    destruct (mapM as_netIf _) as [bs|]; [|done]. cbn. destruct (skip_entry rest) as [|x s] eqn:E; [|done].
    destruct (Nat.ltb_spec (length (l ++ bs)) n); [|done]. rewrite IH; [|cbn in Hf; cbn; lia|done|cbn; lia|done].
    rewrite append_nil, named_nil, firstn_nil. cbn. by rewrite app_nil_r. }
  destruct (Ascii.eqb_spec c comma) as [->|Hcomma].
  { rewrite (finish_entry_spec cur None) by done. change (after_comma (String comma rest)) with rest.
    change (split_port (upto_comma (String comma rest))) with (EmptyString, @None string). cbv zeta. cbn [fst snd].
    rewrite string_app_empty. rewrite <- Hcont; [|lia|case_decide; cbn; lia]. by destruct (mapM as_netIf _). }
  assert (Ecolon : Ascii.eqb c colon = false) by (by apply Ascii.eqb_neq).
  assert (Ecomma : Ascii.eqb c comma = false) by (by apply Ascii.eqb_neq).
  destruct (Nat.ltb_spec (String.length cur) sizeof_prefix) as [Hlt|Hge]; cbn [mbind option_bind].
  - rewrite (proj2 (Nat.ltb_lt _ _) Hl). rewrite IH; [|cbn in Hf; lia| |rewrite length_string_app; cbn; lia|done].
    2: { rewrite plain_app, Hp. cbn. by rewrite Ecolon, Ecomma. }
    rewrite string_app_assoc, append_cons, append_nil. by rewrite named_plain by done.
  - rewrite upto_app_no by done. cbn [split_port]. rewrite Ecolon. cbn [fst snd].
    replace (n - length l)%nat with (S (n - length l - 1)) by lia.
    rewrite decide_True by (destruct cur; [cbn in Hge; unfold sizeof_prefix in Hge; lia|done]).
    rewrite <- app_comm_cons, firstn_cons. cbn [mapM].
    replace (as_netIf _) with (@None netIf); [done|]. unfold as_netIf. cbn [fst]. rewrite length_string_app. cbn [String.length].
    by rewrite (proj2 (Nat.ltb_ge _ _)) by lia.
Qed.

(** ** Matching names *)

Lemma strncmp_eq_exact a b : strncmp_eq a b (S (String.length a)) = String.eqb a b.
Proof.
  revert b. induction a as [|x a IH]; intros [|y b]; try done.
  change (strncmp_eq (String x a) (String y b) _) with (Ascii.eqb x y && strncmp_eq a b (S (String.length a))).
  rewrite IH. cbn. by destruct (Ascii.eqb x y).
Qed.

Lemma strncmp_eq_prefix a b : strncmp_eq a b (String.length b) = String.prefix b a.
Proof.
  revert a. induction b as [|y b IH]; intros a; [by destruct a|]. destruct a as [|x a]; [done|]. cbn. rewrite IH.
  destruct (Ascii.eqb_spec x y) as [->|Hne]; destruct (ascii_dec _ _) as [E|E]; try done; by subst.
Qed.

(** Names that match a list of patterns: equal to one or, without
    [searchExact], beginning with one; every name matches an empty list. *)
Definition names_match (exact : bool) (patterns : list string) (n : string) : bool :=
  bool_decide (patterns = [])
  || existsb (fun p => if exact then String.eqb n p else String.prefix p n) patterns.

Lemma matchIfList_spec n userIfs exact :
  matchIfList n (-1) userIfs exact = names_match exact (prefix <$> userIfs) n.
Proof.
  unfold matchIfList, names_match. destruct userIfs as [|u l]; [done|]. rewrite decide_False by done.
  rewrite bool_decide_false by done. cbn [orb]. generalize (u :: l). clear u l. intros l.
  induction l as [|u l IH]; [done|]. cbn [existsb fmap list_fmap]. rewrite IH. f_equal.
  unfold matchIf, matchPort. cbn [Z.eqb Pos.eqb]. rewrite andb_true_r.
  by destruct exact; [apply strncmp_eq_exact|apply strncmp_eq_prefix].
Qed.

(** ** Interfaces found *)

Lemma substring_all s n : (String.length s <= n)%nat -> String.substring 0 n s = s.
Proof. revert n. induction s as [|c s IH]; intros [|n] H; cbn in *; try done; try lia. by rewrite IH by lia. Qed.

Lemma substring_bound n s : (String.length (String.substring 0 n s) <= n)%nat.
Proof. revert s. induction n as [|n IH]; intros [|c s]; cbn; [lia..|]. specialize (IH s). lia. Qed.

(** A name as [getifaddrs] gives it, short enough for its field. *)
Definition name_fits (size : nat) (n : string) : Prop := c_string n = n /\ (String.length n < size)%nat.

Lemma read_name_zeros n k : c_string n = n -> read_name (n +:+ zeros (S k)) = Some n.
Proof.
  induction n as [|a n IH]; intros Hc; [done|]. rewrite append_cons. cbn in Hc. cbn [read_name].
  destruct (Ascii.eqb a zero); [done|]. injection Hc as Hc. by rewrite IH.
Qed.

Lemma read_name_strncpy n size : name_fits size n -> read_name (strncpy n size) = Some n.
Proof.
  intros [Hc Hl]. unfold strncpy. rewrite substring_all by lia.
  replace (size - String.length n)%nat with (S (size - String.length n - 1)) by lia. by apply read_name_zeros.
Qed.

Definition as_field (size : nat) (e : string * socketAddress) : string * socketAddress := (strncpy e.1 size, e.2).

Lemma duplicate_spec n size out :
  Forall (name_fits size) out.*1 -> duplicate n (as_field size <$> out) = Some (bool_decide (n ∈ out.*1)).
Proof.
  induction out as [|[m a] out IH]; intros Hf; [done|]. inv Hf. cbn [duplicate as_field fmap list_fmap fst snd].
  rewrite read_name_strncpy by done. cbn [mbind option_bind]. destruct (String.eqb_spec n m) as [->|Hne].
  - by rewrite bool_decide_true by set_solver.
  - fold (as_field size <$> out). rewrite IH by done. f_equal. apply bool_decide_ext. set_solver.
Qed.

(** Of several addresses of an interface the first is taken. *)
Fixpoint first_per_name {A} (seen : list string) (l : list (string * A)) : list (string * A) :=
  match l with
  | [] => []
  | (n, a) :: l => if decide (n ∈ seen) then first_per_name seen l else (n, a) :: first_per_name (seen ++ [n]) l
  end.

Definition usable (sock_family : Z) (a : socketAddress) : bool :=
  ((sa_family a =? AF_INET) || (sa_family a =? AF_INET6))
  && ((sock_family =? -1) || (sa_family a =? sock_family))
  && match a with sin6 _ _ s _ => negb (IN6_IS_ADDR_LOOPBACK s || IN6_IS_ADDR_LINKLOCAL s) | _ => true end.

Definition eligible (choose : string -> bool) (sock_family : Z) (i : interface) : option (string * socketAddress) :=
  a ← addr i; if usable sock_family a && choose (name i) then Some (name i, a) else None.

Lemma selected_eligible userIfs searchNot searchExact sock_family i :
  (fun a => (name i, a)) <$> selected userIfs searchNot searchExact sock_family i =
    eligible (fun n => xorb (names_match searchExact (prefix <$> userIfs) n) searchNot) sock_family i.
Proof.
  unfold selected, eligible, usable. destruct (addr i) as [a|]; [|done]. cbn [mbind option_bind].
  rewrite matchIfList_spec. destruct (xorb _ _).
  all: destruct (sa_family a =? AF_INET), (sa_family a =? AF_INET6), (sock_family =? -1), (sa_family a =? sock_family); cbn; try done.
  all: destruct a; try done; by destruct (IN6_IS_ADDR_LOOPBACK _ || IN6_IS_ADDR_LINKLOCAL _).
Qed.

Lemma findLoop_spec userIfs searchNot searchExact sock_family size maxIfs interfaces out :
  Forall (name_fits size) (name <$> interfaces) -> Forall (name_fits size) out.*1 ->
  findLoop userIfs searchNot searchExact sock_family size maxIfs interfaces (as_field size <$> out) =
    Some (as_field size <$> out ++ take (maxIfs - length out) (first_per_name out.*1
      (omap (eligible (fun n => xorb (names_match searchExact (prefix <$> userIfs) n) searchNot) sock_family) interfaces))).
Proof.
  intros Hi. revert out. induction interfaces as [|i interfaces IH]; intros out Ho; cbn [findLoop].
  { cbn. by rewrite firstn_nil, app_nil_r. }
  rewrite length_fmap. destruct (Nat.ltb_spec (length out) maxIfs) as [Hlt|Hge].
  2: { replace (maxIfs - length out)%nat with O by lia. cbn. by rewrite app_nil_r. }
  inv Hi. cbn [omap list_omap]. rewrite <- selected_eligible. destruct (selected _ _ _ _ i) as [a|]; cbn [fmap option_fmap option_map mbind option_bind]; [|by apply IH].
  rewrite duplicate_spec by done. cbn [mbind option_bind first_per_name]. destruct (decide (name i ∈ out.*1)) as [Hin|Hin].
  - rewrite bool_decide_true by done. by apply IH.
  - rewrite bool_decide_false by done. change [(strncpy (name i) size, a)] with (as_field size <$> [(name i, a)]).
    rewrite <- fmap_app. rewrite IH; [|done|rewrite fmap_app; apply Forall_app; split; [done|constructor; [done|constructor]]].
    rewrite length_app, <- app_assoc. replace ((out ++ [(name i, a)]).*1) with (out.*1 ++ [name i]) by (by rewrite fmap_app).
    cbn [length].
    replace (maxIfs - length out)%nat with (S (maxIfs - (length out + 1))) by lia. done.
Qed.

Definition cut (c : ascii) (s : string) : bool * string :=
  match s with
  | String a s' => if Ascii.eqb a c then (true, s') else (false, s)
  | EmptyString => (false, s)
  end.

Lemma strip_cut c s : strip c (Some s) = ((cut c s).1, Some (cut c s).2).
Proof. destruct s as [|a s]; [done|]. cbn. by destruct (Ascii.eqb a c). Qed.

(** The list without its leading ^ and =, and the names it chooses. *)
Definition listed (prefixList : string) : string := (cut "="%char (cut "^"%char prefixList).2).2.

Definition chosen (prefixList n : string) : bool :=
  xorb (names_match (cut "="%char (cut "^"%char prefixList).2).1 (take MAX_IFS (named (listed prefixList))).*1 n)
    (cut "^"%char prefixList).1.

Lemma mapM_prefix es us : mapM as_netIf es = Some us -> prefix <$> us = es.*1.
Proof.
  revert us. induction es as [|[n t] es IH]; intros us; cbn [mapM]; [by intros [= <-]|].
  destruct (as_netIf (n, t)) as [u|] eqn:E; [|done]. cbn. destruct (mapM as_netIf es); [|done]. intros [= <-].
  cbn. rewrite IH by done. f_equal. unfold as_netIf in E. cbn in E. case_match; [|done].
  by destruct (match t with Some _ => _ | _ => _ end); simplify_eq/=.
Qed.

(** [findInterfaces] saves, in the order of the host, the first address of every
    interface that has a usable address of the family asked for and a name the
    list chooses: equal to or, without a leading equals sign, beginning with an
    entry, and the other way round after a caret.  It is undefined exactly if
    one of the first 17 named entries has 64 characters or more, or a port that
    is not an [int]. *)
Lemma findInterfaces_spec prefixList sock_family size maxIfs interfaces :
  Forall (name_fits size) (name <$> interfaces) ->
  findInterfaces (Some prefixList) sock_family size maxIfs (Some interfaces) =
    if decide (Forall (fun e => is_Some (as_netIf e)) (take MAX_IFS (named (listed prefixList))))
    then Some (as_field size <$> take maxIfs (first_per_name [] (omap (eligible (chosen prefixList) sock_family) interfaces)))
    else None.
Proof.
  intros Hf. unfold findInterfaces. rewrite !strip_cut. fold (listed prefixList). cbn [parseStringList].
  rewrite parseLoop_spec by (unfold MAX_IFS; cbn; lia || done). cbn [length]. rewrite Nat.sub_0_r, append_nil.
  destruct (decide _) as [Hok|Hno].
  - apply mapM_is_Some_2 in Hok as [us Hus]. rewrite Hus. cbn [fmap option_fmap option_map app mbind option_bind].
    rewrite (findLoop_spec us _ _ _ size maxIfs interfaces []) by done. cbn [length app]. rewrite Nat.sub_0_r.
    rewrite (mapM_prefix _ _ Hus). done.
  - destruct (mapM as_netIf _) eqn:E; [|done]. contradict Hno. apply mapM_is_Some_1. by rewrite E.
Qed.

(** ** Devices *)

#[export] Instance dev_le_total : Total dev_le.
Proof.
  intros a b. unfold dev_le. destruct (pci_path a), (pci_path b); auto; apply (total String.le).
Qed.

#[export] Instance dev_le_trans : Transitive dev_le.
Proof.
  intros a b c. unfold dev_le. destruct (pci_path a), (pci_path b), (pci_path c); try done; apply transitivity.
Qed.

Lemma first_per_name_NoDup {A} seen (l : list (string * A)) :
  NoDup (first_per_name seen l).*1 /\ forall n, n ∈ (first_per_name seen l).*1 -> n ∉ seen.
Proof.
  revert seen. induction l as [|[n a] l IH]; intros seen; cbn [first_per_name]; [split; [constructor|set_solver]|].
  destruct (decide (n ∈ seen)); [apply IH|]. destruct (IH (seen ++ [n])) as [Hd Hs]. cbn. split.
  - constructor; [|done]. intros Hn. apply (Hs n Hn). set_solver.
  - intros m Hm. apply elem_of_cons in Hm as [->|Hm]; [done|]. specialize (Hs m Hm). set_solver.
Qed.

Lemma first_per_name_elem {A} seen (l : list (string * A)) e : e ∈ first_per_name seen l -> e ∈ l.
Proof.
  revert seen. induction l as [|[n a] l IH]; intros seen; cbn [first_per_name]; [done|].
  destruct (decide (n ∈ seen)); [intros H; right; by eapply IH|].
  intros H. apply elem_of_cons in H as [->|H]; [left|right; by eapply IH].
Qed.

Lemma take_subseteq_elem {A} n (l : list A) x : x ∈ take n l -> x ∈ l.
Proof. intros H. rewrite <- (take_drop n l). apply elem_of_app. by left. Qed.

(** The device made of an interface. *)
Definition device (ip_text : socketAddress -> string) (realpath : string -> option string)
    (e : string * socketAddress) : ncclSocketDev :=
  mkDev e.2 (String.substring 0 (kIpAddrMaxLen - 1) (ip_text e.2)) e.1 (ncclFasTrakGetPciPath realpath e.1).

Lemma mapM_new_device ip_text realpath size found :
  Forall (name_fits size) found.*1 ->
  mapM (new_device ip_text realpath) (as_field size <$> found) = Some (device ip_text realpath <$> found).
Proof.
  induction found as [|e found IH]; intros Hf; [done|]. inv Hf. rewrite fmap_cons. cbn [mapM].
  replace (new_device _ _ _) with (Some (device ip_text realpath e)); [cbn; by rewrite IH|].
  unfold new_device. cbn [as_field fst snd]. by rewrite read_name_strncpy.
Qed.

(** The interfaces a list chooses, at most [maxIfs]. *)
Definition choice (prefixList : string) (maxIfs : nat) (interfaces : list interface) : list (string * socketAddress) :=
  take maxIfs (first_per_name [] (omap (eligible (chosen prefixList) (-1)) interfaces)).

Definition list_fits (prefixList : string) : Prop :=
  Forall (fun e => is_Some (as_netIf e)) (take MAX_IFS (named (listed prefixList))).

Lemma choice_elem l n interfaces e : e ∈ choice l n interfaces ->
  exists i, i ∈ interfaces /\ name i = e.1 /\ addr i = Some e.2 /\ chosen l e.1 = true /\ usable (-1) e.2 = true.
Proof.
  intros H%take_subseteq_elem%first_per_name_elem%list_elem_of_omap. destruct H as (i & Hi & He).
  unfold eligible in He. destruct (addr i) as [a|] eqn:Ea; [|done]. cbn in He.
  destruct (usable (-1) a && chosen l (name i)) eqn:E; [|done]. simplify_eq. zbool. by exists i.
Qed.

Lemma choice_fits l n size interfaces :
  Forall (name_fits size) (name <$> interfaces) -> Forall (name_fits size) (choice l n interfaces).*1.
Proof.
  intros Hf. apply list.Forall_forall. intros m Hm. apply list_elem_of_fmap in Hm as (e & -> & He).
  apply choice_elem in He as (i & Hi & <- & _). rewrite list.Forall_forall in Hf. apply Hf. by apply list_elem_of_fmap_2.
Qed.

Lemma choice_NoDup l n interfaces : NoDup (choice l n interfaces).*1.
Proof.
  unfold choice. rewrite fmap_take. destruct (first_per_name_NoDup [] (omap (eligible (chosen l) (-1)) interfaces)) as [H _].
  rewrite <- (take_drop n _) in H. by apply list.NoDup_app in H as [H _].
Qed.

Lemma findInterfaces_choice l size maxIfs interfaces :
  Forall (name_fits size) (name <$> interfaces) -> list_fits l ->
  findInterfaces (Some l) (-1) size maxIfs (Some interfaces) = Some (as_field size <$> choice l maxIfs interfaces).
Proof. intros Hf Hl. rewrite findInterfaces_spec by done. by rewrite decide_True. Qed.

Lemma sort_devices_ok devs :
  (forall d p, d ∈ devs -> pci_path d = Some p -> is_Some (strrchr_slash p)) ->
  sort_devices devs = Some (merge_sort dev_le devs).
Proof.
  intros Hp. unfold sort_devices. replace (paths_ok devs) with true; [by rewrite orb_true_r|].
  symmetry. apply forallb_forall. intros d Hd%list_elem_of_In. destruct (pci_path d) eqn:E; [|done].
  apply bool_decide_true. by eapply Hp.
Qed.

Section devices.
Context (getaddrinfo : string -> option socketAddress) (pton6 : string -> option (list Z)) (if_nametoindex : string -> Z).
Context (getenv : string -> option string) (interfaces : list interface) (uninitialized : list Z).
Context (ip_text : socketAddress -> string) (realpath : string -> option string).
Context (names_fit : Forall (name_fits MAX_IF_NAME_SIZE) (name <$> interfaces)).

Let init := initializeNetIfs getaddrinfo pton6 if_nametoindex getenv (Some interfaces) uninitialized ip_text realpath.
Let data := data_interfaces getaddrinfo pton6 if_nametoindex getenv (Some interfaces) uninitialized.
Let ctrl := findInterfaces (Some (default "eth0"%string (getenv "NCCL_FASTRAK_CTRL_DEV"))) (-1) MAX_IF_NAME_SIZE 1 (Some interfaces).

(** What a successful start leaves, for the data interfaces [l]. *)
Definition started (l : list (string * socketAddress)) (s : Devices) : Prop :=
  kNcclSocketDevs s ≡ₚ device ip_text realpath <$> l /\
  kNcclNetIfs s = Zlen (kNcclSocketDevs s) /\ 1 <= kNcclNetIfs s <= 17 /\
  StronglySorted dev_le (kNcclSocketDevs s) /\ NoDup (dev_name <$> kNcclSocketDevs s) /\
  init s = Some (ncclSuccess, s).

Lemma initialize_success l s :
  data = Some (as_field MAX_IF_NAME_SIZE <$> l) -> Forall (name_fits MAX_IF_NAME_SIZE) l.*1 -> NoDup l.*1 ->
  (length l <= 17)%nat -> init no_devices = Some (ncclSuccess, s) ->
  started l s /\ exists c, ctrl = Some [c] /\ kNcclCtrlSocketDev s = Some c.
Proof using.
  intros El Hf Hnd Hlen. unfold init at 1, initializeNetIfs. fold data ctrl. rewrite El. cbn [mbind option_bind].
  change (negb (kNcclNetIfs no_devices =? -1)) with false. cbv iota.
  destruct (Z.leb_spec (Zlen (as_field MAX_IF_NAME_SIZE <$> l)) 0) as [|H0]; [done|].
  destruct ctrl as [[|c [|]]|]; try done. cbn [mbind option_bind]. rewrite mapM_new_device by done. cbn [mbind option_bind].
  unfold sort_devices. destruct (_ || _); [|done]. cbn [mbind option_bind]. intros [= <-]. split; [|by exists c].
  unfold started. cbn [kNcclSocketDevs kNcclNetIfs].
  assert (Hperm : merge_sort dev_le (device ip_text realpath <$> l) ≡ₚ device ip_text realpath <$> l)
    by apply merge_sort_Permutation.
  unfold Zlen in *. rewrite length_fmap in *.
  split; [done|]. split; [by rewrite (Permutation_length Hperm), length_fmap|]. split; [lia|].
  split; [apply StronglySorted_merge_sort; apply _|]. split; [rewrite Hperm, <- list_fmap_compose; done|].
  unfold init, initializeNetIfs. cbn [kNcclNetIfs]. by replace (_ =? -1) with false by lia.
Qed.

Lemma initialize_choice l :
  (forall path p, realpath path = Some p -> is_Some (strrchr_slash p)) ->
  data = Some (as_field MAX_IF_NAME_SIZE <$> l) -> Forall (name_fits MAX_IF_NAME_SIZE) l.*1 -> is_Some ctrl ->
  exists r s, init no_devices = Some (r, s) /\ (r = ncclSuccess <-> l <> [] /\ exists c, ctrl = Some [c]).
Proof using.
  intros Hrp El Hf [cs Ec]. unfold init, initializeNetIfs. fold data ctrl. rewrite El, Ec. cbn [mbind option_bind].
  change (negb (kNcclNetIfs no_devices =? -1)) with false. cbv iota.
  destruct l as [|e l]; [eexists _, _; split; [reflexivity|]; naive_solver|].
  replace (_ <=? 0) with false by (symmetry; apply Z.leb_gt; unfold Zlen; rewrite length_fmap; cbn; lia).
  destruct cs as [|c [|]]; [eexists _, _; split; [reflexivity|]; naive_solver| |eexists _, _; split; [reflexivity|]; naive_solver].
  rewrite mapM_new_device by done. cbn [mbind option_bind]. rewrite sort_devices_ok.
  - cbn [mbind option_bind]. eexists _, _. split; [reflexivity|]. naive_solver.
  - intros d p Hd Hp. apply list_elem_of_fmap in Hd as (x & -> & _). cbn in Hp. by eapply Hrp.
Qed.

End devices.

(** C28 (functional) The devices of a list: when the user names the data and the
    control interfaces and every name and entry fits its array,
    [initializeNetIfs] succeeds exactly if the host has interfaces that the two
    lists choose.  The devices are then one for each chosen interface, with its
    first usable address, sorted by PCI address and by name if they have none;
    the control device is the first one its list chooses; and further calls
    change nothing. *)
Theorem devices_of_list getaddrinfo pton6 if_nametoindex getenv interfaces uninitialized ip_text realpath l :
  let init := initializeNetIfs getaddrinfo pton6 if_nametoindex getenv (Some interfaces) uninitialized ip_text realpath in
  let ctrl := default "eth0"%string (getenv "NCCL_FASTRAK_CTRL_DEV") in
  Forall (name_fits MAX_IF_NAME_SIZE) (name <$> interfaces) ->
  (forall path p, realpath path = Some p -> is_Some (strrchr_slash p)) ->
  getenv "LOOPBACK_ONLY" = None -> getenv "NCCL_FASTRAK_IFNAME" = Some l -> list_fits l -> list_fits ctrl ->
  exists r s, init no_devices = Some (r, s) /\
  (r = ncclSuccess <-> choice l MAX_IFS interfaces <> [] /\ choice ctrl 1 interfaces <> []) /\
  (r = ncclSuccess ->
     kNcclSocketDevs s ≡ₚ device ip_text realpath <$> choice l MAX_IFS interfaces /\
     kNcclNetIfs s = Zlen (kNcclSocketDevs s) /\ 1 <= kNcclNetIfs s <= 17 /\
     StronglySorted dev_le (kNcclSocketDevs s) /\ NoDup (dev_name <$> kNcclSocketDevs s) /\
     init s = Some (ncclSuccess, s) /\
     exists c, choice ctrl 1 interfaces = [c] /\ kNcclCtrlSocketDev s = Some (as_field MAX_IF_NAME_SIZE c)).
Proof.
  intros init ctrl Hf Hrp El En Hl Hc.
  assert (Hdata : data_interfaces getaddrinfo pton6 if_nametoindex getenv (Some interfaces) uninitialized =
    Some (as_field MAX_IF_NAME_SIZE <$> choice l MAX_IFS interfaces)).
  { unfold data_interfaces. rewrite El, En. by apply findInterfaces_choice. }
  pose proof (findInterfaces_choice ctrl _ 1 _ Hf Hc) as Hctrl.
  pose proof (choice_fits l MAX_IFS _ _ Hf) as Hfits.
  destruct (initialize_choice getaddrinfo pton6 if_nametoindex getenv interfaces uninitialized ip_text realpath
    _ Hrp Hdata Hfits) as (r & s & E & Hr); [by eexists|].
  exists r, s. split; [exact E|]. fold ctrl in Hr. rewrite Hctrl in Hr.
  assert (Hone : (exists c, Some (as_field MAX_IF_NAME_SIZE <$> choice ctrl 1 interfaces) = Some [c]) <-> choice ctrl 1 interfaces <> []).
  { assert (length (choice ctrl 1 interfaces) <= 1)%nat by (unfold choice; rewrite length_take; lia).
    destruct (choice ctrl 1 interfaces) as [|c [|]]; [by split; [intros [? ?]|]|by split; [|by exists (as_field MAX_IF_NAME_SIZE c)]|cbn in *; lia]. }
  split; [by rewrite Hr, Hone|]. intros ->.
  edestruct initialize_success as [(Hp & Hn & Hb & Hs & Hd & Hi) (c & Hc1 & Hc2)]; [exact Hdata|done|apply choice_NoDup| |exact E|].
  { unfold choice. rewrite length_take. unfold MAX_IFS. lia. }
  repeat (split; [done|]). change (findInterfaces _ _ _ _ _) with (findInterfaces (Some ctrl) (-1) MAX_IF_NAME_SIZE 1 (Some interfaces)) in Hc1.
  rewrite Hctrl in Hc1. destruct (choice ctrl 1 interfaces) as [|c' [|]]; simplify_eq/=. by exists c'.
Qed.

(** ** Any way of choosing *)

(** The names and IPv4 or IPv6 addresses of at most [n] different interfaces. *)
Definition from_host (interfaces : list interface) (n : nat) (found : list (string * socketAddress)) : Prop :=
  exists l, found = as_field MAX_IF_NAME_SIZE <$> l /\ (length l <= n)%nat /\ NoDup l.*1 /\
    Forall (fun e => exists i, i ∈ interfaces /\ name i = e.1 /\ addr i = Some e.2 /\
                     (sa_family e.2 = AF_INET \/ sa_family e.2 = AF_INET6)) l.

Lemma findInterfaces_from_host pl fam n interfaces found :
  Forall (name_fits MAX_IF_NAME_SIZE) (name <$> interfaces) ->
  findInterfaces (Some pl) fam MAX_IF_NAME_SIZE n (Some interfaces) = Some found -> from_host interfaces n found.
Proof.
  intros Hf. rewrite findInterfaces_spec by done. case_decide; [|done]. intros [= <-].
  eexists. split; [done|]. split; [rewrite length_take; lia|]. split.
  - rewrite fmap_take. destruct (first_per_name_NoDup [] (omap (eligible (chosen pl) fam) interfaces)) as [H' _].
    rewrite <- (take_drop n _) in H'. by apply list.NoDup_app in H' as [H' _].
  - apply list.Forall_forall. intros e He%take_subseteq_elem%first_per_name_elem%list_elem_of_omap.
    destruct He as (i & Hi & He). unfold eligible in He. destruct (addr i) as [a|] eqn:Ea; [|done]. cbn in He.
    destruct (usable fam a && _) eqn:E; [|done]. simplify_eq. exists i. repeat (split; [done|]).
    unfold usable in E. zbool. cbn [snd]. repeat match goal with H : _ \/ _ |- _ => destruct H end; zbool; auto.
Qed.

Lemma subnet_from_host remote interfaces found n :
  (1 <= n)%nat -> findInterfaceMatchSubnet remote MAX_IF_NAME_SIZE interfaces = Some found -> from_host interfaces n found.
Proof.
  intros Hn. assert (Hmono : forall i l, from_host l n found -> from_host (i :: l) n found).
  { intros i l (k & -> & Hl & Hd & Hk). exists k. repeat (split; [done|]).
    eapply list.Forall_impl; [exact Hk|]. cbn. intros e (j & Hj & H). exists j. split; [by right|done]. }
  induction interfaces as [|i interfaces IH]; cbn [findInterfaceMatchSubnet].
  { intros [= <-]. exists []. repeat split; [cbn; lia|constructor|constructor]. }
  destruct (addr i) as [a|] eqn:Ea; [|intros H; by apply Hmono, IH].
  assert (Hhit : (sa_family a = AF_INET \/ sa_family a = AF_INET6) -> found = [(strncpy (name i) MAX_IF_NAME_SIZE, a)] ->
    from_host (i :: interfaces) n found).
  { intros Hfam ->. exists [(name i, a)]. repeat split; [cbn; lia|apply NoDup_singleton|]. constructor; [|constructor].
    exists i. split; [left|done]. }
  destruct a; [| |intros H; by apply Hmono, IH].
  all: destruct (matchSubnet _ _ _) as [[]|]; cbn [mbind option_bind]; [|intros H; by apply Hmono, IH|done].
  all: intros [= <-]; apply Hhit; cbn; auto.
Qed.

Lemma or_else_cases a b found : or_else a b = Some found -> a = Some found \/ b = Some found.
Proof. unfold or_else. destruct a as [[|]|]; cbn; auto. Qed.

(** The device table is well formed however its interfaces are chosen:
    after a successful start it has between 1 and 17 devices with different
    names, in the order of their PCI addresses, each with an IPv4 or IPv6
    address and the name of an interface of the host, and the count is that of
    the table. *)
Theorem devices_well_formed getaddrinfo pton6 if_nametoindex getenv interfaces uninitialized ip_text realpath s :
  Forall (name_fits MAX_IF_NAME_SIZE) (name <$> interfaces) ->
  initializeNetIfs getaddrinfo pton6 if_nametoindex getenv (Some interfaces) uninitialized ip_text realpath no_devices
    = Some (ncclSuccess, s) ->
  kNcclNetIfs s = Zlen (kNcclSocketDevs s) /\ 1 <= kNcclNetIfs s <= 17 /\
  StronglySorted dev_le (kNcclSocketDevs s) /\ NoDup (dev_name <$> kNcclSocketDevs s) /\
  forall d, d ∈ kNcclSocketDevs s -> exists i, i ∈ interfaces /\ name i = dev_name d /\ addr i = Some (dev_addr d) /\
    (sa_family (dev_addr d) = AF_INET \/ sa_family (dev_addr d) = AF_INET6) /\
    pci_path d = realpath ("/sys/class/net/" +:+ dev_name d +:+ "/device") /\ (String.length (dev_ip_addr d) < 40)%nat.
Proof.
  intros Hf E.
  destruct (data_interfaces getaddrinfo pton6 if_nametoindex getenv (Some interfaces) uninitialized) as [found|] eqn:Ed.
  2: { unfold initializeNetIfs in E. by rewrite Ed in E. }
  assert (Hfrom : from_host interfaces 17 found).
  { unfold data_interfaces, findInterfaces_env, find_by_comm_id in Ed.
    assert (Hfi : forall pl fam, findInterfaces (Some pl) fam MAX_IF_NAME_SIZE MAX_IFS (Some interfaces) = Some found ->
      from_host interfaces 17 found) by (intros ? ?; by apply findInterfaces_from_host).
    repeat case_match; repeat (apply or_else_cases in Ed as [Ed|Ed]); try (by eapply Hfi); simplify_eq.
    all: try (destruct (GetSocketAddrFromString _ _ _ _ _) as [[|a]|]; cbn [mbind option_bind] in Ed; [done| |done];
              eapply subnet_from_host, Ed; lia).
    all: exists []; repeat split; [cbn; lia|constructor|constructor]. }
  destruct Hfrom as (l & -> & Hl & Hd & Hh).
  destruct (initialize_success getaddrinfo pton6 if_nametoindex getenv interfaces uninitialized ip_text realpath l s Ed)
    as [(Hp & Hn & Hb & Hs & Hnd & _) _]; try done.
  { apply list.Forall_forall. intros m Hm. apply list_elem_of_fmap in Hm as (e & -> & He). pose proof (proj1 (list.Forall_forall _ _) Hf) as Hf'.
    destruct (proj1 (list.Forall_forall _ _) Hh e He) as (i & Hi & <- & _). apply Hf'. by apply list_elem_of_fmap_2. }
  repeat (split; [done|]). intros d Hd'. rewrite Hp in Hd'. apply list_elem_of_fmap in Hd' as (e & -> & He).
  destruct (proj1 (list.Forall_forall _ _) Hh e He) as (i & Hi & Hni & Hai & Hfam). exists i. cbn [device dev_name dev_addr pci_path dev_ip_addr].
  repeat (split; [done|]). pose proof (substring_bound (kIpAddrMaxLen - 1) (ip_text e.2)). change (kIpAddrMaxLen - 1)%nat with 39%nat in *. lia.
Qed.

(** ** Examples *)

Definition ex_ifs : list interface :=
  [mkInterface "lo" (Some (sin 0 2130706433)) (Some (sin 0 4278190080));
   mkInterface "eth0" None None;
   mkInterface "eth0" (Some (sin 0 167772161)) (Some (sin 0 4294967040));
   mkInterface "eth2" (Some (sin 0 167772417)) (Some (sin 0 4294967040));
   mkInterface "eth1" (Some (sin6 0 0 (254 :: 128 :: replicate 14 1) 3)) None;
   mkInterface "eth1" (Some (sin 0 167772673)) (Some (sin 0 4294967040));
   mkInterface "eth1" (Some (sin 0 167772674)) (Some (sin 0 4294967040))].

Definition ex_env (ctrl : option string) (s : string) : option string :=
  if String.eqb s "NCCL_FASTRAK_IFNAME" then Some "eth1:5,,=eth2,eth2"%string
  else if String.eqb s "NCCL_FASTRAK_CTRL_DEV" then ctrl else None.

Definition ex_realpath (path : string) : option string :=
  if String.eqb path "/sys/class/net/eth1/device" then Some "/sys/devices/pci0000:00/0000:06:00.0"%string
  else if String.eqb path "/sys/class/net/eth2/device" then Some "/sys/devices/pci0000:00/0000:0c:00.0"%string
  else None.

Definition ex_ip_text (a : socketAddress) : string := EmptyString.

Definition ex_init (ctrl : option string) : Devices -> option (ncclResult_t * Devices) :=
  initializeNetIfs (fun _ => None) (fun _ => None) (fun _ => 0) (ex_env ctrl) (Some ex_ifs) [] ex_ip_text ex_realpath.

Definition ex_devices : Devices :=
  mkDevices 2 [mkDev (sin 0 167772673) "" "eth1" (Some "/sys/devices/pci0000:00/0000:06:00.0");
               mkDev (sin 0 167772417) "" "eth2" (Some "/sys/devices/pci0000:00/0000:0c:00.0")]
    (Some (strncpy "eth0" 16, sin 0 167772161)).

Lemma ex_names_fit : Forall (name_fits MAX_IF_NAME_SIZE) (name <$> ex_ifs).
Proof. unfold name_fits. by_compute. Qed.

Lemma ex_realpath_slash path p : ex_realpath path = Some p -> is_Some (strrchr_slash p).
Proof. unfold ex_realpath. repeat case_match; intros [= <-]; by eexists. Qed.

Lemma devices_of_list_witness :
  exists r s, ex_init None no_devices = Some (r, s) /\
  (r = ncclSuccess <-> choice "eth1:5,,=eth2,eth2" MAX_IFS ex_ifs <> [] /\ choice "eth0" 1 ex_ifs <> []).
Proof.
  destruct (devices_of_list (fun _ => None) (fun _ => None) (fun _ => 0) (ex_env None) ex_ifs [] ex_ip_text ex_realpath
    "eth1:5,,=eth2,eth2" ex_names_fit ex_realpath_slash eq_refl eq_refl) as (r & s & E & Hr & _).
  - unfold list_fits. by_compute.
  - unfold list_fits. by_compute.
  - exists r, s. split; [exact E|exact Hr].
Defined.

Lemma devices_well_formed_witness : StronglySorted dev_le (kNcclSocketDevs ex_devices).
Proof.
  exact (proj1 (proj2 (proj2 (devices_well_formed (fun _ => None) (fun _ => None) (fun _ => 0) (ex_env None) ex_ifs []
    ex_ip_text ex_realpath ex_devices ex_names_fit ltac:(vm_compute; reflexivity))))).
Defined.

(** A start that fails because there is no control interface leaves the number
    of devices, so that the next call reports success without any device. *)
Example failed_start_then_success :
  exists s, ex_init (Some "ens4"%string) no_devices = Some (ncclSystemError, s) /\
    ex_init (Some "ens4"%string) s = Some (ncclSuccess, s) /\ kNcclNetIfs s = 2 /\ kNcclSocketDevs s = [].
Proof. eexists. split; [vm_compute; reflexivity|]. repeat split. Qed.

(** A name of 64 characters is written outside of its array. *)
Example long_name_overflows :
  parseStringList (Some "0123456789012345678901234567890123456789012345678901234567890123"%string) 1 = None.
Proof. vm_compute. reflexivity. Qed.
