(* ===== verification/NcclListen.v ===== *)
(** * Listening
    (createListenSocket of tcpdirect_plugin/fastrak_offload/utilities.h;
    NcclShim::Create, Listen, Close, CloseListen and GetProperties of
    nccl_shim.cc, GetSpeed of common.cc)

    A listening communication has a TCP socket on the control device and one
    DXS listening socket for each flow; its handle carries their ports to the
    peer.  The results of the socket calls are arguments, and so are the times
    and the messages of the server that arrive while [Listen] waits. *)

From Stdlib Require Import Ascii.
From S2P Require Import Prelude ControlCommand ControlInterface DxsClient BufferManager.
From S2P Require Import MrCache NcclShim PciTopology NcclConnection NetIfs.

(** ** The TCP socket *)

(** The results of the calls, each with [errno]; [getsockname] gives the
    address the socket is bound to. *)
Record SocketCalls := mkSocketCalls {
  call_socket : Z * Z;
  call_setsockopt : Z * Z;
  call_bind : Z * Z;
  call_getsockname : Z * Z * socketAddress;
  call_listen : Z * Z
}.

Section listen_socket.
(** [absl::ErrnoToStatusCode]. *)
Context (ErrnoToStatus : Z -> StatusCode).

Definition SysCallResultToStatus (r : Z * Z) : Status :=
  if r.1 <? 0 then Err (ErrnoToStatus r.2) else OkStatus.

(** The calls after [socket]: the address of the listening socket. *)
Definition bind_and_listen (calls : SocketCalls) (localAddr : socketAddress) : StatusOr socketAddress :=
  _ ← (if negb (socketToPort localAddr =? 0) then SysCallResultToStatus (call_setsockopt calls) else OkStatus);
  _ ← SysCallResultToStatus (call_bind calls);
  let '(r, errno, name) := call_getsockname calls in
  _ ← SysCallResultToStatus (r, errno);
  _ ← SysCallResultToStatus (call_listen calls);
  mret name.

(** [fds] are the open descriptors. *)
Definition createListenSocket (calls : SocketCalls) (localAddr : socketAddress) (fds : gset Z)
    : StatusOr (Z * socketAddress) * gset Z :=
  match SysCallResultToStatus (call_socket calls) with
  | Err e => (Err e, fds)
  | Ok _ =>
      let sockfd := (call_socket calls).1 in
      ((fun name => (sockfd, name)) <$> bind_and_listen calls localAddr, {[sockfd]} ∪ fds)
  end.

(** ** NcclShim::Listen *)

Context {H : Type} `{ControlMessageHandlerInterface H}.
Context (kFastrakNumFlows : nat) (kNcclNetIfs : Z).
Context (ip_addr : Z -> string) (create : string -> StatusOr (Dxs H)).

Definition kListenTimeoutMs : Z := 10000.

(** The first loop: one socket for each flow.  On an error the sockets created
    so far go away with the communication, the last first. *)
Fixpoint listen_flows (n : nat) (socks : list ListenSocket) (w : Dxs H) : StatusOr (list ListenSocket) * Dxs H :=
  match n with
  | O => (Ok socks, w)
  | S n =>
      let '(r, w) := DxsClient.Listen w in
      match r with
      | Ok s => listen_flows n (socks ++ [s]) w
      | Err e => (Err e, foldl (fun w s => destroy_ListenSocket s w) w (reverse socks))
      end
  end.

(** An iteration of the inner loop: its time, and the messages that have
    arrived since the last one. *)
Definition Iteration : Type := Z * list RxEvent.

Definition arrive (now : Z) (evs : list RxEvent) (w : Dxs H) : Dxs H :=
  mkDxs (fold_left (deliver now) evs (client w)) (channel w).

(** The inner loop for one flow; [None] while it waits, or without shared
    state. *)
Fixpoint wait_port (start : Z) (s : ListenSocket) (iterations : list Iteration) (w : Dxs H)
    : option (StatusOr Z * Dxs H) :=
  match iterations with
  | [] => None
  | (now, evs) :: iterations =>
      match CheckTimeout start now kListenTimeoutMs with
      | Err e => Some (Err e, w)
      | Ok _ =>
          let '(r, w) := ListenSocket_SocketReady now s (arrive now evs w) in
          status ← r;
          match status with
          | None => wait_port start s iterations w
          | Some (Err e) => Some (Err e, w)
          | Some (Ok _) =>
              st ← outstanding_listen_sockets_ (client w) !! ls_handle_ s;
              if port_ st =? 0 then wait_port start s iterations w else Some (Ok (port_ st), w)
          end
      end
  end.

(** The second loop; every flow has a timer of its own. *)
Fixpoint wait_ports (socks : list ListenSocket) (waits : list (Z * list Iteration)) (ports : list Z) (w : Dxs H)
    : option (StatusOr (list Z) * Dxs H) :=
  match socks, waits with
  | [], _ => Some (Ok ports, w)
  | _, [] => None
  | s :: socks, (start, iterations) :: waits =>
      '(r, w) ← wait_port start s iterations w;
      match r with
      | Err e => Some (Err e, w)
      | Ok port => wait_ports socks waits (ports ++ [u16 port]) w
      end
  end.

(** The handle of the peer, with the fields that are not in [ncclSocketHandle]. *)
Record ListenComms := mkListenComms {
  listen_comm : ListenCommunication;
  listen_client : string;
  listen_addr : socketAddress;
  socket_handle : ncclSocketHandle
}.

Definition set_router (ip : string) (w : Dxs H) (s : NcclShim) : NcclShim :=
  mkNcclShim (netdev_ s) (comm_counter_ s) (<[ip := w]> (ip_addr_to_client_ s)).

(** [None] while it waits, and for a shim without a device, which reads before
    the table of devices. *)
Definition NcclShim_Listen (calls : SocketCalls) (waits : list (Z * list Iteration)) (ctrl_addr : socketAddress)
    (fastrak_idx_ dev : Z) (s : NcclShim) (fds : gset Z) : option (StatusOr ListenComms * NcclShim * gset Z) :=
  if (dev <? 0) || (kNcclNetIfs <=? dev) then Some (Err kInvalidArgument, s, fds)
  else
    let '(sock, fds) := createListenSocket calls ctrl_addr fds in
    match sock with
    | Err e => Some (Err e, s, fds)
    | Ok (fd, nccl_addr) =>
        if netdev_ s <? 0 then None
        else
          let ip := ip_addr (netdev_ s) in
          let '(dxs, s) := GetOrInitClient create ip s in
          match dxs with
          | Err e => Some (Err e, s, fds)
          | Ok w =>
              let '(socks, w) := listen_flows kFastrakNumFlows [] w in
              match socks with
              | Err e => Some (Err e, set_router ip w s, fds)
              | Ok socks =>
                  '(ports, w) ← wait_ports socks waits [] w;
                  match ports with
                  | Err e =>
                      let w := foldl (fun w s => destroy_ListenSocket s w) w (reverse socks) in
                      Some (Err e, set_router ip w s, fds)
                  | Ok ports =>
                      let dxs_addr := String.substring 0 (kIpAddrMaxLen - 1) ip in
                      Some (Ok (mkListenComms (mkListenCommunication fd socks (mkStage kStart None)) ip nccl_addr
                                  (mkSocketHandle fastrak_idx_ dxs_addr ports (mkStage kStart None))),
                            set_router ip w s, fds)
                  end
              end
          end
    end.

(** ** Creation and closing *)

Definition kMaxGpuDevices : Z := 8.

Definition checkDeviceCount (getDeviceCount : StatusOr Z) (max_devices : Z) : Status :=
  num_devices ← getDeviceCount;
  if max_devices <? num_devices then Err kFailedPrecondition else OkStatus.

(** The parameters of the plugin, the GPU and what is known of it. *)
Record GpuEnv := mkGpuEnv {
  kEnableFasTrak : bool;
  kFastrakAllowNicSubset : bool;
  getDeviceCount : StatusOr Z;
  initGpuDev : StatusOr string;
  idx_from_pci : string -> StatusOr Z;
  closest_netdev : string -> StatusOr Z
}.

(** The new shim with its index, or the error, and the clients of the router. *)
Definition NcclShim_Create (env : GpuEnv) (clients : gmap string (Dxs H))
    : StatusOr (Z * NcclShim) * gmap string (Dxs H) :=
  if negb (kEnableFasTrak env) then (Err kFailedPrecondition, clients)
  else
    match (_ ← checkDeviceCount (getDeviceCount env) kMaxGpuDevices;
           pci_addr ← initGpuDev env;
           idx ← idx_from_pci env pci_addr;
           mret (idx, closest_netdev env pci_addr)) with
    | Err e => (Err e, clients)
    | Ok (idx, Err e) =>
        if negb (kFastrakAllowNicSubset env) then (Err e, clients)
        else (Ok (idx, mkNcclShim (-1) 0 clients), clients)
    | Ok (idx, Ok netdev) =>
        let s := mkNcclShim netdev 0 clients in
        let '(dxs, s) := GetOrInitClient create (ip_addr netdev) s in
        match dxs with
        | Err e => (Err e, ip_addr_to_client_ s)
        | Ok _ =>
            let '(manager, s) := GetOrInitClient create (ip_addr netdev) s in
            match manager with
            | Err e => (Err e, ip_addr_to_client_ s)
            | Ok _ => (Ok (idx, s), ip_addr_to_client_ s)
            end
        end
    end.

(** The communication goes away in any case. *)
Definition NcclShim_CloseListen (close_result : Z * Z) (lc : ListenCommunication) (w : Dxs H) (fds : gset Z)
    : Status * Dxs H * gset Z :=
  let w' := foldl (fun w s => destroy_ListenSocket s w) w (reverse (dxs_listen lc)) in
  if nccl_listen lc =? -1 then (OkStatus, w', fds)
  else
    match SysCallResultToStatus close_result with
    | Err e => (Err e, w', fds)
    | Ok _ => (OkStatus, w', fds ∖ {[nccl_listen lc]})
    end.

Definition destroy_socket (s : option ConnectedSocket) (w : Dxs H) : Dxs H :=
  match s with
  | Some (SendSock s) => destroy_SendSocket s w
  | Some (RecvSock s) => destroy_RecvSocket s w
  | None => w
  end.

(** [Close]; the sockets go away with the communication, the last first. *)
Definition NcclShim_Close (comm : Communication) (w : Dxs H) : Dxs H :=
  foldl (fun w s => destroy_socket s w) w (reverse (dxs_socks comm)).

End listen_socket.

(** ** Properties of a device *)

Definition digit_in (base : Z) (a : ascii) : option Z :=
  d ← hex_digit a; if d <? base then Some d else None.

Fixpoint digits_in (base acc : Z) (s : string) : Z :=
  match s with
  | String a s' => match digit_in base a with Some d => digits_in base (base * acc + d) s' | None => acc end
  | EmptyString => acc
  end.

(** [strtol] with base 0, for texts too short to leave the range. *)
Definition strtol (s : string) : Z :=
  let number s :=
    match s with
    | String "0"%char (String "x"%char ((String a _) as h))
    | String "0"%char (String "X"%char ((String a _) as h)) =>
        match hex_digit a with Some _ => digits_in 16 0 h | None => 0 end
    | String "0"%char s => digits_in 8 0 s
    | _ => digits_in 10 0 s
    end in
  match skip_spaces s with
  | String "-"%char s => - number s
  | String "+"%char s => number s
  | s => number s
  end.

(** [GetSpeed] of the contents of /sys/class/net/<dev>/speed; [None] when it
    cannot be opened or read. *)
Definition GetSpeed (contents : option string) : Z :=
  let speed :=
    match contents with
    | Some (String _ _ as text) =>
        let text := String.substring 0 8 text in
        strtol (text +:+ String.substring 0 (8 - String.length text) "        ")
    | _ => 0
    end in
  if speed <=? 0 then 10000 else speed.

Record ncclNetProperties := mkProperties {
  props_name : string;
  props_pciPath : option string;
  props_guid : Z;
  props_ptrSupport : Z;
  props_speed : Z;
  props_port : Z;
  props_maxComms : Z;
  props_latency : Z;
  props_maxRecvs : Z
}.

(** [None] for a device that is not in the table. *)
Definition GetProperties (NCCL_PTR_HOST NCCL_PTR_CUDA : Z) (speed_file : string -> option string) (d : Devices) (dev : Z)
    : option (StatusOr ncclNetProperties) :=
  if (dev <? 0) || (kNcclNetIfs d <=? dev) then Some (Err kInvalidArgument)
  else
    x ← kNcclSocketDevs d !! Z.to_nat dev;
    Some (Ok (mkProperties (dev_name x) (pci_path x) dev (Z.lor NCCL_PTR_HOST NCCL_PTR_CUDA)
                (GetSpeed (speed_file (dev_name x))) 0 65536 0 1)).

(** ** Listening as an execution of the client *)

Section listening.
Context (ErrnoToStatus : Z -> StatusCode).
Context {H : Type} `{ControlMessageHandlerInterface H}.
Context (kFastrakNumFlows : nat) (kNcclNetIfs : Z) (ip_addr : Z -> string) (create : string -> StatusOr (Dxs H)).
Implicit Types w : Dxs H.

(** There are handles for [n] more listening sockets. *)
Definition room (n : nat) (w : Dxs H) : Prop :=
  counters_ok (client w) /\ next_listen_socket_handle_ (client w) + Z.of_nat n < 2 ^ 64 - 1.

Lemma Listen_room n w r w' : room (S n) w -> DxsClient.Listen w = (r, w') -> room n w'.
Proof using.
  intros [Hc Hn]. unfold DxsClient.Listen, Next. destruct w as [c h]. cbn [client channel] in *.
  destruct (SendTyped _ _) as [[]]; intros [= <- <-]; unfold room, counters_ok in *; destruct c; cbn in *;
    rewrite u64_small by lia; lia.
Qed.

Context (ss : list SendSocket) (rs : list RecvSocket) (so : list SendOp) (ro : list LinearizedRecvOp).
#[local] Abbreviation objects w ls := (mkSys w ls ss rs so ro).

Lemma close_all_steps socks ls w :
  rtc step (objects w (socks ++ ls)) (objects (foldl (fun w s => destroy_ListenSocket s w) w socks) ls).
Proof using.
  revert w. induction socks as [|s socks IH]; intros w; cbn [foldl app]; [apply rtc_refl|].
  eapply rtc_l; [|apply IH]. apply (step_close_listen w s [] (socks ++ ls)).
Qed.

Lemma listen_flows_steps n : forall socks w r w' ls, room n w -> listen_flows n socks w = (r, w') ->
  match r with
  | Ok socks' => length socks' = (length socks + n)%nat
      /\ rtc step (objects w (reverse socks ++ ls)) (objects w' (reverse socks' ++ ls))
  | Err _ => rtc step (objects w (reverse socks ++ ls)) (objects w' ls)
  end.
Proof using.
  induction n as [|n IH]; intros socks w r w' ls Hr; cbn [listen_flows].
  { intros [= <- <-]. split; [lia|apply rtc_refl]. }
  destruct (DxsClient.Listen w) as [[s|e] w1] eqn:El.
  - intros E. pose proof (Listen_room _ _ _ _ Hr El) as Hr1. destruct Hr as [Hc _].
    assert (Hs : step (objects w (reverse socks ++ ls)) (objects w1 (reverse (socks ++ [s]) ++ ls))).
    { rewrite reverse_snoc. by apply step_Listen. }
    specialize (IH _ _ _ _ ls Hr1 E). destruct r as [socks'|].
    + destruct IH as [Hl Hi]. rewrite length_app in Hl. cbn in Hl. split; [lia|by eapply rtc_l].
    + by eapply rtc_l.
  - intros [= <- <-]. destruct Hr as [Hc _]. eapply rtc_l; [by eapply step_Listen_error|]. apply close_all_steps.
Qed.

Lemma arrive_steps now evs ls : forall w, rtc step (objects w ls) (objects (arrive now evs w) ls).
Proof using.
  induction evs as [|e evs IH]; intros [c h]; cbn; [apply rtc_refl|].
  eapply rtc_l; [apply (step_deliver now e c h h)|]. apply (IH (mkDxs (deliver now c e) h)).
Qed.

(** The port of [s], known to the client [w]. *)
Definition has_port (s : ListenSocket) (port : Z) (w : Dxs H) : Prop :=
  exists st, outstanding_listen_sockets_ (client w) !! ls_handle_ s = Some st /\ port_ st = port
             /\ port <> 0 /\ port <> -1.

Lemma wait_port_steps start s ls iterations : forall w r w',
  wait_port start s iterations w = Some (r, w') ->
  rtc step (objects w ls) (objects w' ls) /\ forall port, r = Ok port -> has_port s port w'.
Proof using.
  induction iterations as [|[now evs] iterations IH]; intros w r w' E; [done|]. cbn [wait_port] in E.
  destruct (CheckTimeout _ _ _); [|by simplify_eq; split; [apply rtc_refl|]].
  assert (Hs : rtc step (objects w ls) (objects (Poll now (arrive now evs w)) ls)).
  { eapply rtc_r; [apply arrive_steps|]. apply step_Poll. }
  unfold ListenSocket_SocketReady in E. set (w1 := Poll now (arrive now evs w)) in *. clearbody w1.
  destruct (outstanding_listen_sockets_ (client w1) !! ls_handle_ s) as [st|] eqn:Est; [|done]. cbn in E.
  destruct (Z.eqb_spec (port_ st) (-1)) as [|Hm]; [by simplify_eq; split|].
  destruct (Z.eqb_spec (port_ st) 0) as [|Hz].
  - apply IH in E as [Hi Hp]. split; [by etransitivity|done].
  - cbn in E. simplify_eq.
    split; [done|]. intros port [= <-]. by exists st.
Qed.

Lemma wait_ports_steps ls socks : forall waits ports w r w',
  wait_ports socks waits ports w = Some (r, w') ->
  rtc step (objects w ls) (objects w' ls) /\
  forall ports', r = Ok ports' -> exists new, ports' = ports ++ new /\
    Forall2 (fun s port => exists p w, port = u16 p /\ has_port s p w) socks new.
Proof using.
  induction socks as [|s socks IH]; intros waits ports w r w' E; cbn [wait_ports] in E.
  { simplify_eq. split; [apply rtc_refl|]. intros ports' [= <-]. exists []. by rewrite app_nil_r. }
  destruct waits as [|[start iterations] waits]; [done|].
  destruct (wait_port start s iterations w) as [[[port|e] w1]|] eqn:Ew; [| |done]; cbn in E;
    apply (wait_port_steps _ _ ls) in Ew as [Hs Hp]; [|by simplify_eq].
  apply IH in E as [Hi Hn]. split; [by etransitivity|]. intros ports' Er.
  destruct (Hn ports' Er) as (new & -> & Hf). exists (u16 port :: new). rewrite <- app_assoc. split; [done|].
  constructor; [|done]. exists port, w1. split; [done|]. by apply Hp.
Qed.


End listening.

(** ** Example *)

#[local] Existing Instance LogChannel.

Definition ex_calls_ok : SocketCalls :=
  mkSocketCalls (9, 0) (0, 0) (0, 0) (0, 0, sin (htons 40000) 167772161) (0, 0).

Definition listen_ack (sock port : Z) : RxEvent :=
  RxMessage (encode (mkListenAckMessage (ControlCommand_code kListenAck) sock port
                       (ListenAckStatus_code ListenAck_kOk))).

Definition ex_waits : list (Z * list Iteration) :=
  [(0, [(1, []); (2, [listen_ack 2 5001; listen_ack 1 5000])]); (3, [(4, [])])].

Definition ex_listen : option (StatusOr ListenComms * NcclShim * gset Z) :=
  NcclShim_Listen (fun _ => kInternal) 2 1 (fun _ => "10.0.0.1"%string) (fun _ => Err kUnavailable) ex_calls_ok ex_waits
    (sin 0 167772161) 3 0 ex_shim0 ∅.


(** When the socket cannot be bound its descriptor stays open. *)
Example failed_bind_leaks :
  createListenSocket (fun _ => kInternal) (mkSocketCalls (9, 0) (0, 0) (-1, 98) (0, 0, sin 0 0) (0, 0)) (sin 0 167772161) ∅
    = (Err kInternal, {[9]} ∪ ∅).
Proof. reflexivity. Qed.
