(* ===== verification/NcclPlugin.v ===== *)
(** * Entry points of the plugin
    (tcpdirect_plugin/fastrak_offload/fastrak_plugin.cc, init.cc)

    NCCL calls the plugin through a table of functions with untyped pointers.
    The plugin creates one shim for each GPU, hands out communications, requests
    and memory handles, and translates errors.  The objects NCCL has pointers to
    are in tables under their addresses; 0 is the null pointer, and a pointer
    that is in no table dangles: using it is [None]. *)

From S2P Require Import Prelude ControlCommand ControlInterface DxsClient BufferManager.
From S2P Require Import MrCache NcclShim PciTopology NcclConnection NetIfs NcclListen.

Definition kNcclSocketHandleVersion : Z := 1.
Definition kFastrakInvalidIdx : Z := 255.

(** [ToNccl] of cuda_common.h. *)
Definition ToNccl {A} (s : StatusOr A) : ncclResult_t := ncclSystemError.

(** ** One-time initialization (init.cc) *)

Section core.
Context (kFastrakRxDMInitTimeout : Z).
(** What the [k]-th call of [rxdm_running] returns. *)
Context (rxdm_running : nat -> Status).
(** [initializeNetIfs] of NetIfs.v in the environment of the process. *)
Context (initialize : Devices -> option (ncclResult_t * Devices)).

(** The loop, [n] iterations before its end, after [k] calls. *)
Fixpoint WaitForRxDMLoop (n k : nat) (status : Status) : Status :=
  match n with
  | O => status
  | S n => if is_ok status then status else WaitForRxDMLoop n (S k) (rxdm_running k)
  end.

Definition WaitForRxDM : Status :=
  if kFastrakRxDMInitTimeout =? 0 then OkStatus
  else WaitForRxDMLoop (Z.to_nat kFastrakRxDMInitTimeout) 1 (rxdm_running 0).

Record Core := mkCore { once : bool; init_state : StatusCode; devices : Devices }.

Definition InitOnce (c : Core) : option Core :=
  if negb (is_ok WaitForRxDM) then Some (mkCore true kDeadlineExceeded (devices c))
  else
    '(r, d) ← initialize (devices c);
    Some (mkCore true (if decide (r = ncclSuccess) then kOk else kInternal) d).

Definition PluginCoreInit (c : Core) : option (Status * Core) :=
  c ← (if once c then Some c else InitOnce c);
  Some (if decide (init_state c = kOk) then OkStatus else Err (init_state c), c).

Lemma WaitForRxDMLoop_spec n k status :
  is_ok (WaitForRxDMLoop n k status) = true <->
    is_ok status = true \/ exists j, (k <= j < k + n)%nat /\ is_ok (rxdm_running j) = true.
Proof.
  revert k status. induction n as [|n IH]; intros k status; cbn [WaitForRxDMLoop].
  - split; [by left|]. intros [?|(j & ? & _)]; [done|lia].
  - destruct (is_ok status) eqn:E; [split; [by left|by rewrite E]|]. rewrite IH. split.
    + intros [Hk|(j & Hj & Hr)]; right; [exists k|exists j]; split; (done || lia).
    + intros [|(j & Hj & Hr)]; [done|]. destruct (decide (j = k)) as [->|]; [by left|].
      right. exists j. split; [lia|done].
Qed.

(** The wait succeeds exactly if the daemon is found by one of the calls, one at
    the start and one after each second. *)
Lemma WaitForRxDM_spec : 0 < kFastrakRxDMInitTimeout ->
  is_ok WaitForRxDM = true <->
    exists j, Z.of_nat j <= kFastrakRxDMInitTimeout /\ is_ok (rxdm_running j) = true.
Proof.
  intros Ht. unfold WaitForRxDM. rewrite (proj2 (Z.eqb_neq _ _)) by lia. rewrite WaitForRxDMLoop_spec. split.
  - intros [H0|(j & Hj & Hr)]; [exists O|exists j]; split; (done || lia).
  - intros (j & Hj & Hr). destruct j as [|j]; [by left|]. right. exists (S j). split; [lia|done].
Qed.

End core.

(** ** The state of the process *)

(** A [NcclShim], its address first, without the clients, which are those of the
    router. *)
Record Slot := mkSlot { slot_ptr : Z; slot_idx : Z; slot_netdev : Z; slot_counter : Z }.

Record Request := mkPluginRequest { request_comm : Z; request_error : bool; request_state : ncclSocketRequest }.

Section plugin.
Context {H BM : Type} `{ControlMessageHandlerInterface H} `{BufferManagerClientInterface BM}.

Record World := mkWorld {
  per_gpu_clients : gmap Z Slot;
  clients : gmap string (Dxs H);
  mr_devs : gmap Z (MrDev BM);
  comms : gmap Z Communication;
  listens : gmap Z (string * ListenCommunication);
  requests : gmap Z Request;
  mhandles : gmap Z MemoryHandle;
  sockets : gset Z
}.

Definition set_comms (m : gmap Z Communication) (w : World) : World :=
  mkWorld (per_gpu_clients w) (clients w) (mr_devs w) m (listens w) (requests w) (mhandles w) (sockets w).
Definition set_listens (m : gmap Z (string * ListenCommunication)) (w : World) : World :=
  mkWorld (per_gpu_clients w) (clients w) (mr_devs w) (comms w) m (requests w) (mhandles w) (sockets w).
Definition set_requests (m : gmap Z Request) (w : World) : World :=
  mkWorld (per_gpu_clients w) (clients w) (mr_devs w) (comms w) (listens w) m (mhandles w) (sockets w).
Definition set_mhandles (m : gmap Z MemoryHandle) (w : World) : World :=
  mkWorld (per_gpu_clients w) (clients w) (mr_devs w) (comms w) (listens w) (requests w) m (sockets w).
Definition set_mr (dev : Z) (m : MrDev BM) (w : World) : World :=
  mkWorld (per_gpu_clients w) (clients w) (<[dev := m]> (mr_devs w)) (comms w) (listens w) (requests w) (mhandles w) (sockets w).
Definition set_clients (m : gmap string (Dxs H)) (w : World) : World :=
  mkWorld (per_gpu_clients w) m (mr_devs w) (comms w) (listens w) (requests w) (mhandles w) (sockets w).
Definition set_sockets (fds : gset Z) (w : World) : World :=
  mkWorld (per_gpu_clients w) (clients w) (mr_devs w) (comms w) (listens w) (requests w) (mhandles w) fds.
Definition set_slots (m : gmap Z Slot) (w : World) : World :=
  mkWorld m (clients w) (mr_devs w) (comms w) (listens w) (requests w) (mhandles w) (sockets w).

(** The shim in a slot, and its state after a call. *)
Definition get_shim (slot : Slot) (w : World) : NcclShim :=
  mkNcclShim (slot_netdev slot) (slot_counter slot) (clients w).

Definition put_shim (device : Z) (slot : Slot) (s : NcclShim) (w : World) : World :=
  set_clients (ip_addr_to_client_ s)
    (set_slots (<[device := mkSlot (slot_ptr slot) (slot_idx slot) (netdev_ s) (comm_counter_ s)]> (per_gpu_clients w)) w).

(** ** Shims *)

Context (ErrnoToStatus : Z -> StatusCode) (pton4 pton6 : string -> option (list Z)).
Context (NCCL_PTR_HOST NCCL_PTR_CUDA pageSize : Z).
Context (kFastrakNumFlows : nat) (kNicRailAligned kFastrakCacheMr : bool).
Context (connect_timeout_ accept_timeout_ kSlowness kTransferTimeout : Z).
Context (d : Devices) (ip_addr : Z -> string) (create : string -> StatusOr (Dxs H)).
Context (pci_of : Z -> StatusOr string) (closest : string -> StatusOr Z).

(** [init_shim], under the lock of the device; [env] has the address of the new
    shim. *)
Definition init_shim (env : Z * GpuEnv) (device : Z) (w : World) : Status * World :=
  match per_gpu_clients w !! device with
  | Some _ => (OkStatus, w)
  | None =>
      let '(r, cs) := NcclShim_Create ip_addr create env.2 (clients w) in
      let w := set_clients cs w in
      match r with
      | Err e => (Err e, w)
      | Ok (idx, s) => (OkStatus, set_slots (<[device := mkSlot env.1 idx (netdev_ s) (comm_counter_ s)]> (per_gpu_clients w)) w)
      end
  end.

Definition device_ok (device : Z) : bool := (0 <=? device) && (device <? kMaxGpuDevices).

(** [None]: the process is aborted. *)
Definition Init (core : Status) (device : StatusOr Z) (env : Z * GpuEnv) (w : World) : option ncclResult_t * World :=
  match core, device with
  | Ok _, Ok device =>
      if device_ok device then
        let '(st, w) := init_shim env device w in (if is_ok st then Some ncclSuccess else None, w)
      else (None, w)
  | _, _ => (None, w)
  end.

(** The device whose shim it is. *)
Definition GetShim (device : StatusOr Z) (env : Z * GpuEnv) (w : World) : StatusOr Z * World :=
  match device with
  | Err e => (Err e, w)
  | Ok device =>
      if negb (device_ok device) then (Err kInternal, w)
      else
        match per_gpu_clients w !! device with
        | Some _ => (Ok device, w)
        | None => let '(st, w) := init_shim env device w in ((fun _ => device) <$> st, w)
        end
  end.

(** ** Connections

    The results are the code, what was written through the pointers that are
    not null, and the state.  [ptr] is the address of the object that is handed
    out. *)

Definition Plugin_Listen (device : StatusOr Z) (env : Z * GpuEnv) (calls : SocketCalls) (waits : list (Z * list Iteration))
    (dev : Z) (handle listenComm : bool) (ptr : Z) (w : World)
    : option (ncclResult_t * option ncclSocketHandle * World) :=
  let '(g, w) := GetShim device env w in
  match g with
  | Err e => Some (ncclSystemError, None, w)
  | Ok device =>
      if negb handle || negb listenComm then Some (ncclSystemError, None, w)
      else
        slot ← per_gpu_clients w !! device;
        ctrl ← kNcclCtrlSocketDev d;
        '(r, s, fds) ← NcclShim_Listen ErrnoToStatus kFastrakNumFlows (NetIfs.kNcclNetIfs d) ip_addr create calls waits
                         ctrl.2 (slot_idx slot) dev (get_shim slot w) (sockets w);
        let w := set_sockets fds (put_shim device slot s w) in
        match r with
        | Err e => Some (ToNccl r, None, w)
        | Ok c =>
            Some (ncclSuccess, Some (socket_handle c),
                  set_listens (<[ptr := (listen_client c, listen_comm c)]> (listens w)) w)
        end
  end.

(** [opaqueHandle] is the version and the rest of the handle. *)
Definition Plugin_Connect (device : StatusOr Z) (env : Z * GpuEnv) (now dev : Z) (opaqueHandle : option (Z * ncclSocketHandle))
    (sendComm sendDevComm : bool) (ptr : Z) (w : World)
    : option (ncclResult_t * option ncclSocketHandle * option Z * World) :=
  let '(g, w) := GetShim device env w in
  match g, opaqueHandle with
  | Err _, _ | _, None => Some (ncclSystemError, snd <$> opaqueHandle, None, w)
  | Ok device, Some (version, handle) =>
      if negb sendComm || negb sendDevComm then Some (ncclSystemError, Some handle, None, w)
      else if negb (version =? kNcclSocketHandleVersion) then Some (ncclRemoteError, Some handle, None, w)
      else if fastrak_idx handle =? kFastrakInvalidIdx then Some (ncclRemoteError, Some handle, None, w)
      else
        slot ← per_gpu_clients w !! device;
        '(r, handle, s) ← NcclConnection.Connect pton4 pton6 kFastrakNumFlows (NetIfs.kNcclNetIfs d) kNicRailAligned
                            connect_timeout_ ip_addr create pci_of closest now dev handle (get_shim slot w);
        let w := put_shim device slot s w in
        match r with
        | Err _ => Some (ToNccl r, Some handle, None, w)
        | Ok None => Some (ncclSuccess, Some handle, None, w)
        | Ok (Some comm) => Some (ncclSuccess, Some handle, Some ptr, set_comms (<[ptr := comm]> (comms w)) w)
        end
  end.

Definition Plugin_Accept (device : StatusOr Z) (env : Z * GpuEnv) (now listenComm : Z) (recvComm recvDevComm : bool) (ptr : Z)
    (w : World) : option (ncclResult_t * option Z * World) :=
  let '(g, w) := GetShim device env w in
  match g with
  | Err _ => Some (ncclSystemError, None, w)
  | Ok device =>
      if (listenComm =? 0) || negb recvComm || negb recvDevComm then Some (ncclSystemError, None, w)
      else
        slot ← per_gpu_clients w !! device;
        '(ip, lc) ← listens w !! listenComm;
        '(r, lc, s) ← NcclConnection.Accept kFastrakNumFlows accept_timeout_ ip_addr create now lc (get_shim slot w);
        let w := put_shim device slot s w in
        let w := set_listens (<[listenComm := (ip, lc)]> (listens w)) w in
        match r with
        | Err _ => Some (ToNccl r, None, w)
        | Ok None => Some (ncclSuccess, None, w)
        | Ok (Some comm) => Some (ncclSuccess, Some ptr, set_comms (<[ptr := comm]> (comms w)) w)
        end
  end.

Definition Plugin_Close (opaqueComm : Z) (w : World) : option (ncclResult_t * World) :=
  if opaqueComm =? 0 then Some (ncclSystemError, w)
  else
    comm ← comms w !! opaqueComm;
    let ip := ip_addr (selected_dev comm) in
    dxs ← clients w !! ip;
    Some (ncclSuccess, set_comms (delete opaqueComm (comms w)) (set_clients (<[ip := NcclShim_Close comm dxs]> (clients w)) w)).

Definition Plugin_CloseListen (device : StatusOr Z) (env : Z * GpuEnv) (close_result : Z * Z) (opaqueListenComm : Z) (w : World)
    : option (ncclResult_t * World) :=
  if opaqueListenComm =? 0 then Some (ncclSystemError, w)
  else
    let '(g, w) := GetShim device env w in
    match g with
    | Err _ => Some (ncclSystemError, w)
    | Ok _ =>
        '(ip, lc) ← listens w !! opaqueListenComm;
        dxs ← clients w !! ip;
        let '(st, dxs, fds) := NcclShim_CloseListen ErrnoToStatus close_result lc dxs (sockets w) in
        let w := set_sockets fds (set_clients (<[ip := dxs]> (clients w)) (set_listens (delete opaqueListenComm (listens w)) w)) in
        Some (if is_ok st then ncclSuccess else ToNccl st, w)
    end.

(** ** Requests *)

(** The common part of [Isend] and [Irecv]: [op] on the communication and the
    memory handle, with the client of the communication. *)
Definition issue_request (op : iovec -> MemoryHandle -> Communication -> Dxs H ->
    option (StatusOr ncclSocketRequest * Communication * Dxs H))
    (commp data size handle ptr : Z) (w : World) : option (ncclResult_t * option Z * World) :=
  comm ← comms w !! commp;
  mhandle ← mhandles w !! handle;
  let ip := ip_addr (selected_dev comm) in
  dxs ← clients w !! ip;
  '(r, comm, dxs) ← op (mkIovec data (u64 size)) mhandle comm dxs;
  let w := set_comms (<[commp := comm]> (comms w)) (set_clients (<[ip := dxs]> (clients w)) w) in
  match r with
  | Err _ => Some (ToNccl r, None, w)
  | Ok req =>
      Some (ncclSuccess, Some ptr, set_requests (<[ptr := mkPluginRequest commp false req]> (requests w)) w)
  end.

Definition Plugin_Isend (now sendComm data size opaqueHandle : Z) (opaqueRequest : bool) (ptr : Z) (w : World)
    : option (ncclResult_t * option Z * World) :=
  if (sendComm =? 0) || (opaqueHandle =? 0) || negb opaqueRequest then Some (ncclSystemError, None, w)
  else issue_request (Isend NCCL_PTR_HOST NCCL_PTR_CUDA (Z.of_nat kFastrakNumFlows) kSlowness now)
         sendComm data size opaqueHandle ptr w.

(** The arrays are [None] for null pointers; their first elements are used. *)
Definition Plugin_Irecv (now recvComm n : Z) (data sizes tags opaqueHandles : option Z) (opaqueRequest : bool) (ptr : Z)
    (w : World) : option (ncclResult_t * option Z * World) :=
  if negb (n =? 1) then Some (ncclSystemError, None, w)
  else if recvComm =? 0 then Some (ncclSystemError, None, w)
  else
    match data, sizes, tags, opaqueHandles with
    | Some data, Some size, Some _, Some opaqueHandle =>
        if (opaqueHandle =? 0) || negb opaqueRequest then Some (ncclSystemError, None, w)
        else issue_request (Irecv NCCL_PTR_HOST NCCL_PTR_CUDA (Z.of_nat kFastrakNumFlows) kSlowness now)
               recvComm data size opaqueHandle ptr w
    | _, _, _, _ => Some (ncclSystemError, None, w)
    end.

(** The code, and [done] and [size] if they were written.  The request is
    deleted when it is done. *)
Definition Plugin_Test (now request : Z) (done : bool) (w : World)
    : option (ncclResult_t * option (bool * Z) * World) :=
  if (request =? 0) || negb done then Some (ncclSystemError, None, w)
  else
    req ← requests w !! request;
    if request_error req then Some (ncclSystemError, None, w)
    else
      comm ← comms w !! request_comm req;
      let ip := ip_addr (selected_dev comm) in
      dxs ← clients w !! ip;
      '(r, q, comm, dxs) ← NcclShim_Test kTransferTimeout now (request_state req) comm dxs;
      let w := set_comms (<[request_comm req := comm]> (comms w)) (set_clients (<[ip := dxs]> (clients w)) w) in
      match r with
      | Err _ =>
          Some (ToNccl r, Some (true, 0),
                set_requests (<[request := mkPluginRequest (request_comm req) true q]> (requests w)) w)
      | Ok None =>
          Some (ncclSuccess, Some (false, 0),
                set_requests (<[request := mkPluginRequest (request_comm req) false q]> (requests w)) w)
      | Ok (Some size) => Some (ncclSuccess, Some (true, size), set_requests (delete request (requests w)) w)
      end.

(** ** Memory *)

Definition register (realloc_ok : bool) (new_fd : StatusOr Z) (regComm data size type : Z) (fd : option Z) (ptr : Z)
    (w : World) : option (ncclResult_t * option Z * World) :=
  comm ← comms w !! regComm;
  m ← mr_devs w !! selected_dev comm;
  '(r, m) ← RegMrDmaBuf NCCL_PTR_CUDA pageSize kFastrakCacheMr realloc_ok new_fd (mkIovec data (u64 size)) type fd m;
  let w := set_mr (selected_dev comm) m w in
  match r with
  | Err _ => Some (ToNccl r, None, w)
  | Ok handle => Some (ncclSuccess, Some ptr, set_mhandles (<[ptr := handle]> (mhandles w)) w)
  end.

Definition Plugin_RegMr (realloc_ok : bool) (new_fd : StatusOr Z) (regComm data size type : Z) (opaqueHandle : bool)
    (ptr : Z) (w : World) : option (ncclResult_t * option Z * World) :=
  if (regComm =? 0) || negb opaqueHandle then Some (ncclSystemError, None, w)
  else register realloc_ok new_fd regComm data size type None ptr w.

Definition Plugin_RegMrDmaBuf (realloc_ok : bool) (new_fd : StatusOr Z) (regComm data size type fd : Z)
    (opaqueHandle : bool) (ptr : Z) (w : World) : option (ncclResult_t * option Z * World) :=
  if (regComm =? 0) || negb opaqueHandle then Some (ncclSystemError, None, w)
  else register realloc_ok new_fd regComm data size type (Some fd) ptr w.

(** The handle goes away in any case. *)
Definition Plugin_DeregMr (deregComm opaqueHandle : Z) (w : World) : option (ncclResult_t * World) :=
  if (deregComm =? 0) || (opaqueHandle =? 0) then Some (ncclSystemError, w)
  else
    comm ← comms w !! deregComm;
    handle ← mhandles w !! opaqueHandle;
    m ← mr_devs w !! selected_dev comm;
    let '(st, m) := DeregMr NCCL_PTR_CUDA kFastrakCacheMr handle m in
    Some (if is_ok st then ncclSuccess else ToNccl st,
          set_mhandles (delete opaqueHandle (mhandles w)) (set_mr (selected_dev comm) m w)).

(** ** The rest *)

Definition Plugin_Devices (ndev : Z) : ncclResult_t * Z := (ncclSuccess, NetIfs.kNcclNetIfs d).

Definition Plugin_GetProperties (device : StatusOr Z) (env : Z * GpuEnv) (speed_file : string -> option string) (dev : Z)
    (props : bool) (w : World) : option (ncclResult_t * option ncclNetProperties * World) :=
  if negb props then Some (ncclSystemError, None, w)
  else
    let '(g, w) := GetShim device env w in
    match g with
    | Err _ => Some (ncclSystemError, None, w)
    | Ok _ =>
        r ← GetProperties NCCL_PTR_HOST NCCL_PTR_CUDA speed_file d dev;
        match r with
        | Err _ => Some (ToNccl r, None, w)
        | Ok p => Some (ncclSuccess, Some p, w)
        end
    end.

(** [ResetNcclShim]: at exit the shims are deleted. *)
Definition ResetNcclShim (w : World) : World := set_slots ∅ w.

End plugin.
Arguments World H BM : clear implicits.

(** ** Threads that ask for the shim of a device *)

(** [GetShim] of a thread: before the first load, after a load that gave the
    null pointer, after [init_shim], and at the end with the shim's address. *)
Inductive ShimThread : Type :=
  | Asking
  | Missed
  | Created
  | Got (result : StatusOr Z).

Section shims.
Context {H BM : Type} `{ControlMessageHandlerInterface H} `{BufferManagerClientInterface BM}.
Context (ip_addr : Z -> string) (create : string -> StatusOr (Dxs H)) (device : Z).
Implicit Types w : World H BM.

Definition load w : Z := match per_gpu_clients w !! device with Some s => slot_ptr s | None => 0 end.

(** The steps of the threads; [init_shim] is one step because of its lock.  Other
    calls may change anything but the addresses in the slots. *)
Inductive shim_step : World H BM * list ShimThread -> World H BM * list ShimThread -> Prop :=
  | step_load w ts i :
      ts !! i = Some Asking ->
      shim_step (w, ts) (w, <[i := if load w =? 0 then Missed else Got (Ok (load w))]> ts)
  | step_init w ts i env st w' :
      ts !! i = Some Missed -> env.1 <> 0 -> init_shim ip_addr create env device w = (st, w') ->
      shim_step (w, ts) (w', <[i := match st with Ok _ => Created | Err e => Got (Err e) end]> ts)
  | step_reload w ts i :
      ts !! i = Some Created -> shim_step (w, ts) (w, <[i := Got (Ok (load w))]> ts)
  | step_other w w' ts : slot_ptr <$> per_gpu_clients w' !! device = slot_ptr <$> per_gpu_clients w !! device ->
      shim_step (w, ts) (w', ts).

(** Addresses of shims are not null; a thread past [init_shim] finds one, and a
    thread that has one has that of the slot. *)
Definition shims_inv (s : World H BM * list ShimThread) : Prop :=
  (forall slot, per_gpu_clients s.1 !! device = Some slot -> slot_ptr slot <> 0) /\
  forall i, match s.2 !! i with
            | Some Created => load s.1 <> 0
            | Some (Got (Ok p)) => p <> 0 /\ load s.1 = p
            | _ => True
            end.

Lemma load_0 s : shims_inv s -> load s.1 = 0 <-> per_gpu_clients s.1 !! device = None.
Proof using.
  intros [Hs _]. unfold load. destruct (per_gpu_clients s.1 !! device) as [slot|] eqn:E; [|done].
  split; [|done]. intros E0. by destruct (Hs slot).
Qed.

(** A step keeps the address in the slot. *)
Lemma shim_step_inv s s' : shims_inv s -> shim_step s s' -> shims_inv s' /\ (load s.1 <> 0 -> load s'.1 = load s.1).
Proof using.
  intros Hi St. pose proof (load_0 s Hi) as Hz0. destruct Hi as [Hs Ht].
  destruct St as [w ts i Hts|w ts i env st w' Hts Hp E|w ts i Hts|w w' ts E]; cbn [fst snd] in *.
  - split; [|done]. split; [done|]. intros j. cbn [fst snd]. destruct (decide (j = i)) as [->|Hne].
    + rewrite list_lookup_insert_eq by (by eapply lookup_lt_Some). by destruct (Z.eqb_spec (load w) 0).
    + rewrite list_lookup_insert_ne by done. apply Ht.
  - assert (Hw : load w <> 0 -> w' = w /\ st = OkStatus).
    { intros Hn. unfold init_shim in E. destruct (per_gpu_clients w !! device) as [slot|] eqn:El; [by simplify_eq|]. by rewrite Hz0 in Hn. }
    assert (Hnew : load w = 0 -> match st with Ok _ => load w' = env.1 | Err _ => load w' = 0 end /\
      forall slot, per_gpu_clients w' !! device = Some slot -> slot_ptr slot = env.1).
    { intros Hn%Hz0. unfold init_shim in E. rewrite Hn in E. destruct (NcclShim_Create _ _ _ _) as [[[idx s]|e] cs]; simplify_eq;
        unfold load; cbn [set_slots set_clients per_gpu_clients]; [rewrite lookup_insert_eq|rewrite Hn]; naive_solver. }
    destruct (decide (load w = 0)) as [Hz|Hz]; [destruct (Hnew Hz) as [Hl Hsl]|destruct (Hw Hz) as [-> ->]].
    + split; [|done]. split; [intros slot Hslot; by rewrite (Hsl slot Hslot)|]. intros j. cbn [fst snd]. destruct (decide (j = i)) as [->|Hne].
      * rewrite list_lookup_insert_eq by (by eapply lookup_lt_Some). destruct st; [by rewrite Hl|done].
      * rewrite list_lookup_insert_ne by done. specialize (Ht j). destruct (ts !! j) as [[| | |[]]|]; naive_solver.
    + split; [|done]. split; [done|]. intros j. cbn [fst snd]. destruct (decide (j = i)) as [->|Hne].
      * by rewrite list_lookup_insert_eq by (by eapply lookup_lt_Some).
      * rewrite list_lookup_insert_ne by done. apply Ht.
  - split; [|done]. split; [done|]. intros j. cbn [fst snd]. destruct (decide (j = i)) as [->|Hne].
    + rewrite list_lookup_insert_eq by (by eapply lookup_lt_Some). specialize (Ht i). by rewrite Hts in Ht.
    + rewrite list_lookup_insert_ne by done. apply Ht.
  - assert (El : load w' = load w). { unfold load. by destruct (per_gpu_clients w !! device), (per_gpu_clients w' !! device); simplify_eq/=. }
    split; [|done]. split; [|intros j; cbn [fst snd]; rewrite El; apply Ht].
    intros slot Es. cbn [fst] in Es. rewrite Es in E. cbn in E. destruct (per_gpu_clients w !! device) as [slot'|]; simplify_eq/=. rewrite E. by apply Hs.
Qed.

(** C33 (invariant) Whatever the order in which threads initialize the plugin on a GPU
    and ask for its shim, and whatever else happens, all of them get the same
    shim, it is never null, and it stays the shim of the GPU. *)
Theorem one_shim_per_gpu n w s :
  per_gpu_clients w !! device = None -> rtc shim_step (w, replicate n Asking) s ->
  (forall i p, s.2 !! i = Some (Got (Ok p)) -> p <> 0 /\ load s.1 = p) /\
  (forall s', load s.1 <> 0 -> rtc shim_step s s' -> load s'.1 = load s.1).
Proof using.
  intros Hw Hr.
  assert (Hinv : forall a b, rtc shim_step a b -> shims_inv a -> shims_inv b /\ (load a.1 <> 0 -> load b.1 = load a.1)).
  { induction 1 as [a|a b c Hab _ IH]; intros Ha; [done|]. destruct (shim_step_inv _ _ Ha Hab) as [Hb Hl].
    destruct (IH Hb) as [Hc Hl']. split; [done|]. intros Hn. rewrite <- (Hl Hn). apply Hl'. by rewrite Hl. }
  destruct (Hinv _ _ Hr) as [Hs _].
  { split; cbn; [by rewrite Hw|]. intros i. destruct (replicate n Asking !! i) eqn:E; [|done]. by apply lookup_replicate in E as [-> _]. }
  split; [|intros s' Hn Hs'; by apply (Hinv _ _ Hs')].
  intros i p E. destruct Hs as [_ Ht]. specialize (Ht i). by rewrite E in Ht.
Qed.

End shims.

(** ** Requests and their communications *)

Section accounting.
Context {H BM : Type} `{ControlMessageHandlerInterface H} `{BufferManagerClientInterface BM}.
Context (ErrnoToStatus : Z -> StatusCode) (pton4 pton6 : string -> option (list Z)).
Context (NCCL_PTR_HOST NCCL_PTR_CUDA pageSize : Z).
Context (kFastrakNumFlows : nat) (kNicRailAligned kFastrakCacheMr : bool).
Context (connect_timeout_ accept_timeout_ kSlowness kTransferTimeout : Z).
Context (d : Devices) (ip_addr : Z -> string) (create : string -> StatusOr (Dxs H)).
Context (pci_of : Z -> StatusOr string) (closest : string -> StatusOr Z).
Implicit Types w : World H BM.

(** The live requests of a communication, failed ones included. *)
Definition pending (p : Z) (m : gmap Z Request) : nat := size (filter (fun kv => request_comm kv.2 = p) m).

Lemma pending_insert_new p q r m : m !! q = None ->
  pending p (<[q := r]> m) = (pending p m + if decide (request_comm r = p) then 1 else 0)%nat.
Proof using.
  intros Hq. unfold pending. destruct (decide (request_comm r = p)) as [Hc|Hc].
  - rewrite map_filter_insert_True by done. rewrite map_size_insert_None; [lia|]. apply map_lookup_filter_None. by left.
  - rewrite map_filter_insert_False by done. rewrite delete_id by done. lia.
Qed.

Lemma pending_insert_same p q r r' m : m !! q = Some r -> request_comm r' = request_comm r ->
  pending p (<[q := r']> m) = pending p m.
Proof using.
  intros Hq Hc. unfold pending. destruct (decide (request_comm r' = p)) as [Hp|Hp].
  - rewrite map_filter_insert_True by done. apply map_size_insert_Some. exists r. apply map_lookup_filter_Some. split; [done|]. cbn. by rewrite <- Hc.
  - rewrite map_filter_insert_False by done. rewrite map_filter_delete, delete_id; [done|].
    apply map_lookup_filter_None. right. intros x Hx. simplify_eq. cbn. by rewrite <- Hc.
Qed.

Lemma pending_delete p q r m : m !! q = Some r ->
  pending p m = (pending p (delete q m) + if decide (request_comm r = p) then 1 else 0)%nat.
Proof using.
  intros Hq. rewrite <- (insert_delete_id _ _ _ Hq) at 1. rewrite pending_insert_new by apply lookup_delete_eq. done.
Qed.

Lemma pending_pos q r m : m !! q = Some r -> (1 <= pending (request_comm r) m)%nat.
Proof using. intros Hq. rewrite (pending_delete _ _ _ _ Hq), decide_True by done. lia. Qed.

(** *** What the calls do to the clients and the communications *)

Definition grows (cs cs' : gmap string (Dxs H)) : Prop := forall ip, is_Some (cs !! ip) -> is_Some (cs' !! ip).

Lemma grows_refl cs : grows cs cs.
Proof using. by intros ip. Qed.

Lemma grows_trans cs1 cs2 cs3 : grows cs1 cs2 -> grows cs2 cs3 -> grows cs1 cs3.
Proof using. intros H12 H23 ip Hi. by apply H23, H12. Qed.

Lemma grows_insert ip x cs cs' : grows cs cs' -> grows cs (<[ip := x]> cs').
Proof using. intros Hg i Hi. destruct (decide (ip = i)) as [->|]; [by rewrite lookup_insert_eq|]. rewrite lookup_insert_ne by done. by apply Hg. Qed.

Lemma GetOrInit_grows ip s r s' : GetOrInitClient create ip s = (r, s') ->
  grows (ip_addr_to_client_ s) (ip_addr_to_client_ s') /\ netdev_ s' = netdev_ s /\
  (is_ok r = true -> is_Some (ip_addr_to_client_ s' !! ip)).
Proof using.
  unfold GetOrInitClient. destruct (ip_addr_to_client_ s !! ip) eqn:E.
  { intros [= <- <-]. split; [apply grows_refl|]. split; [done|]. by rewrite E. }
  destruct (create ip); intros [= <- <-]; cbn; [|by split; [apply grows_refl|]].
  split; [apply grows_insert, grows_refl|]. by rewrite lookup_insert_eq.
Qed.

Definition idle (c : Communication) : Prop := offload_scheduled c = 0 /\ offload_completed c = 0.

(** A communication in progress has no requests yet, and its client is there. *)
Definition stage_ok (cs : gmap string (Dxs H)) (st : ncclSocketCommStage) : Prop :=
  state st = kConnecting \/ state st = kAccepting ->
  forall c, stage_comm st = Some c -> idle c /\ is_Some (cs !! ip_addr (selected_dev c)).

Lemma stage_ok_grows cs cs' st : grows cs cs' -> stage_ok cs st -> stage_ok cs' st.
Proof using. intros Hg Hs Hst c Hc. destruct (Hs Hst c Hc). split; [done|by apply Hg]. Qed.

Definition fresh_comm (cs : gmap string (Dxs H)) (r : StatusOr (option Communication)) : Prop :=
  forall c, r = Ok (Some c) -> idle c /\ is_Some (cs !! ip_addr (selected_dev c)).

Lemma connecting_fresh now h c s r h' s' : idle c ->
  connecting kFastrakNumFlows connect_timeout_ ip_addr now h c s = Some (r, h', s') ->
  grows (ip_addr_to_client_ s) (ip_addr_to_client_ s') /\ stage_ok (ip_addr_to_client_ s') (stage h') /\
  fresh_comm (ip_addr_to_client_ s') r.
Proof using.
  intros Hi. unfold connecting. destruct (ip_addr_to_client_ s !! _) as [x|] eqn:E; [|done]. cbn.
  destruct (flows_ready _ _ _ _ _) as [[fr w']|]; [|done]. cbn.
  assert (Hc : is_Some (<[ip_addr (selected_dev c) := w']> (ip_addr_to_client_ s) !! ip_addr (selected_dev c))) by (by rewrite lookup_insert_eq).
  destruct fr; [| |]; [|destruct (CheckTimeout _ _ _)|]; intros [= <- <- <-]; cbn.
  all: split; [apply grows_insert, grows_refl|]; split; [|by intros ? [=]; subst].
  all: intros Hst c' Hc'; cbn in *; simplify_eq; by split.
Qed.

Lemma Connect_fresh now dev h s r h' s' : stage_ok (ip_addr_to_client_ s) (stage h) ->
  NcclConnection.Connect pton4 pton6 kFastrakNumFlows (NetIfs.kNcclNetIfs d) kNicRailAligned connect_timeout_ ip_addr create
    pci_of closest now dev h s = Some (r, h', s') ->
  grows (ip_addr_to_client_ s) (ip_addr_to_client_ s') /\ stage_ok (ip_addr_to_client_ s') (stage h') /\
  fresh_comm (ip_addr_to_client_ s') r.
Proof using.
  intros Hs. unfold Connect. destruct (_ || _); [intros [= <- <- <-]; split; [apply grows_refl|by split]|].
  destruct (state (stage h)) eqn:Est.
  - destruct (select_dev _ _ _ _ _) as [dv|e]; [|intros [= <- <- <-]; split; [apply grows_refl|by split]]. cbn [next_comm].
    destruct (GetOrInitClient _ _ _) as [[x|e] s1] eqn:E1; apply GetOrInit_grows in E1 as (G1 & _ & _); cbn in G1.
    2: { intros [= <- <- <-]. split; [done|]. split; [|done]. intros [|]; done. }
    destruct (GetOrInitClient _ _ _) as [[y|e] s2] eqn:E2; apply GetOrInit_grows in E2 as (G2 & _ & _).
    2: { intros [= <- <- <-]. split; [by eapply grows_trans|]. split; [|done]. intros [|]; done. }
    destruct (BeginDxsConnect _ _ _ _ _ _) as [[[[]|e] c] z] eqn:Eb.
    2: { intros [= <- <- <-]. split; [eapply grows_trans; [exact G1|]; by apply grows_insert|]. split; [|done]. intros [|]; done. }
    intros E. apply connecting_fresh in E as (G3 & Hst & Hf).
    + split; [|done]. eapply grows_trans; [exact G1|]. eapply grows_trans; [|exact G3]. by apply grows_insert.
    + unfold BeginDxsConnect in Eb. destruct (connect_flows _ _ _ _ _ _ _ _) as [[? ?] ?]. by simplify_eq.
  - destruct (stage_comm (stage h)) as [c|] eqn:Ec; [|done]. cbn. intros E. destruct (Hs (or_introl Est) c Ec) as [Hi _].
    by apply connecting_fresh in E.
  - intros [= <- <- <-]. split; [apply grows_refl|by split].
  - intros [= <- <- <-]. split; [apply grows_refl|by split].
Qed.

Lemma Accept_fresh now lc s r lc' s' : stage_ok (ip_addr_to_client_ s) (listen_stage lc) ->
  NcclConnection.Accept kFastrakNumFlows accept_timeout_ ip_addr create now lc s = Some (r, lc', s') ->
  grows (ip_addr_to_client_ s) (ip_addr_to_client_ s') /\ stage_ok (ip_addr_to_client_ s') (listen_stage lc') /\
  fresh_comm (ip_addr_to_client_ s') r.
Proof using.
  intros Hs.
  assert (Hacc : forall c s, idle c -> is_Some (ip_addr_to_client_ s !! ip_addr (selected_dev c)) ->
    accepting kFastrakNumFlows accept_timeout_ ip_addr now lc c s = Some (r, lc', s') ->
    grows (ip_addr_to_client_ s) (ip_addr_to_client_ s') /\ stage_ok (ip_addr_to_client_ s') (listen_stage lc') /\
    fresh_comm (ip_addr_to_client_ s') r).
  { clear Hs s. intros c s Hi Hc. unfold accepting. destruct (ip_addr_to_client_ s !! ip_addr (netdev_ s)) as [x|]; [|done]. cbn.
    destruct (accept_flows _ _ _ _ _ _) as [[[fr socks] x']|]; [|done]. cbn.
    assert (G : grows (ip_addr_to_client_ s) (<[ip_addr (netdev_ s) := x']> (ip_addr_to_client_ s))) by apply grows_insert, grows_refl.
    destruct fr; [|destruct (CheckTimeout _ _ _)|]; intros [= <- <- <-]; cbn.
    all: split; [done|]; split; [|first [by intros ? [=] | intros ? [= <-]; split; [done|by apply G]]].
    all: intros Hst c' Hc'; cbn in *; first [discriminate Hc' | injection Hc' as <-; split; [done|by apply G]]. }
  unfold Accept. destruct (state (listen_stage lc)) eqn:Est.
  - cbn [next_comm]. destruct (GetOrInitClient _ _ _) as [[x|e] s1] eqn:E1; apply GetOrInit_grows in E1 as (G1 & Hn & Hok); cbn in G1, Hok.
    + intros E. apply Hacc in E as (G & Hst & Hf); [split; [by eapply grows_trans|done]|done|]. cbn. by apply Hok.
    + intros [= <- <- <-]. split; [done|]. split; [|done]. intros [|]; done.
  - intros [= <- <- <-]. split; [apply grows_refl|by split].
  - destruct (stage_comm (listen_stage lc)) as [c|] eqn:Ec; [|done]. cbn. destruct (Hs (or_intror Est) c Ec). by apply Hacc.
  - intros [= <- <- <-]. split; [apply grows_refl|by split].
Qed.

Lemma Create_grows env cs r cs' : NcclShim_Create ip_addr create env cs = (r, cs') -> grows cs cs'.
Proof using.
  unfold NcclShim_Create. destruct (negb _); [intros [= _ <-]; apply grows_refl|].
  destruct (_ ≫= _) as [[idx [netdev|e]]|e]; [| |intros [= _ <-]; apply grows_refl].
  - destruct (GetOrInitClient _ _ _) as [[x|e] s1] eqn:E1; apply GetOrInit_grows in E1 as (G1 & _); cbn in G1; [|by intros [= _ <-]].
    destruct (GetOrInitClient _ _ _) as [[y|e] s2] eqn:E2; apply GetOrInit_grows in E2 as (G2 & _); intros [= _ <-]; by eapply grows_trans.
  - case_match; intros [= _ <-]; apply grows_refl.
Qed.

Lemma Listen_grows calls waits ctrl idx dev s fds r s' fds' :
  NcclShim_Listen ErrnoToStatus kFastrakNumFlows (NetIfs.kNcclNetIfs d) ip_addr create calls waits ctrl idx dev s fds
    = Some (r, s', fds') ->
  grows (ip_addr_to_client_ s) (ip_addr_to_client_ s') /\
  forall c, r = Ok c -> is_Some (ip_addr_to_client_ s' !! listen_client c) /\ state (listen_stage (listen_comm c)) = kStart.
Proof using.
  unfold NcclShim_Listen. destruct (_ || _); [intros [= <- <- _]; split; [apply grows_refl|done]|].
  destruct (createListenSocket _ _ _ _) as [[[fd a]|e] fds1]; [|intros [= <- <- _]; split; [apply grows_refl|done]].
  destruct (netdev_ s <? 0); [done|]. destruct (GetOrInitClient _ _ _) as [[x|e] s1] eqn:E1; apply GetOrInit_grows in E1 as (G1 & _).
  2: { intros [= <- <- _]. by split. }
  destruct (listen_flows _ _ _) as [[socks|e] w1]; [|intros [= <- <- _]; split; [by apply grows_insert|done]].
  destruct (wait_ports _ _ _ _) as [[[ports|e] w2]|]; [| |done]; cbn; intros [= <- <- _].
  - split; [by apply grows_insert|]. intros c [= <-]. cbn. by rewrite lookup_insert_eq.
  - split; [by apply grows_insert|done].
Qed.

(** *** The invariant *)

Record plugin_inv w : Prop := {
  pi_requests : forall q r, requests w !! q = Some r -> is_Some (comms w !! request_comm r);
  pi_backlog : forall p c, comms w !! p = Some c -> GetOffloadBacklog c = u64 (Z.of_nat (pending p (requests w)));
  pi_client : forall p c, comms w !! p = Some c -> is_Some (clients w !! ip_addr (selected_dev c));
  pi_listens : forall l ip lc, listens w !! l = Some (ip, lc) ->
    stage_ok (clients w) (listen_stage lc) /\ is_Some (clients w !! ip)
}.

Lemma inv_frame w w' : comms w' = comms w -> listens w' = listens w -> requests w' = requests w ->
  grows (clients w) (clients w') -> plugin_inv w -> plugin_inv w'.
Proof using.
  intros Ec El Er G [I1 I2 I3 I4]. split; rewrite ?Ec, ?El, ?Er; [done|done| |].
  - intros p c Hc. apply G. by apply (I3 p).
  - intros l ip lc Hl. destruct (I4 l ip lc Hl) as [Hs Hi]. split; [by eapply stage_ok_grows|by apply G].
Qed.

Lemma init_shim_frame env device w st w' : init_shim ip_addr create env device w = (st, w') ->
  comms w' = comms w /\ listens w' = listens w /\ requests w' = requests w /\ grows (clients w) (clients w').
Proof using.
  unfold init_shim. destruct (_ !! _); [intros [= _ <-]; repeat split; apply grows_refl|].
  destruct (NcclShim_Create _ _ _ _) as [[[idx s]|e] cs] eqn:E; apply Create_grows in E; intros [= _ <-]; done.
Qed.

Lemma GetShim_frame device env w g w' : GetShim ip_addr create device env w = (g, w') ->
  comms w' = comms w /\ listens w' = listens w /\ requests w' = requests w /\ grows (clients w) (clients w').
Proof using.
  unfold GetShim. destruct device as [device|]; [|intros [= _ <-]; repeat split; apply grows_refl].
  destruct (negb _); [intros [= _ <-]; repeat split; apply grows_refl|].
  destruct (_ !! _); [intros [= _ <-]; repeat split; apply grows_refl|].
  destruct (init_shim _ _ _ _ _) as [st w1] eqn:E; intros [= _ <-]. by eapply init_shim_frame.
Qed.

Lemma inv_GetShim device env w g w' : GetShim ip_addr create device env w = (g, w') -> plugin_inv w -> plugin_inv w'.
Proof using. intros E. apply GetShim_frame in E as (? & ? & ? & ?). by apply inv_frame. Qed.

(** A new communication without requests. *)
Lemma inv_new_comm p c w : comms w !! p = None -> idle c -> is_Some (clients w !! ip_addr (selected_dev c)) ->
  plugin_inv w -> plugin_inv (set_comms (<[p := c]> (comms w)) w).
Proof using.
  intros Hp [Hs Hc] Hcl [I1 I2 I3 I4]. split; cbn; [| | |done].
  - intros q r Hr. destruct (decide (p = request_comm r)) as [->|]; [by rewrite lookup_insert_eq|].
    rewrite lookup_insert_ne by done. by apply (I1 q).
  - intros p' c'. destruct (decide (p = p')) as [<-|]; [|rewrite lookup_insert_ne by done; apply I2].
    rewrite lookup_insert_eq. intros [= <-]. unfold GetOffloadBacklog. rewrite Hs, Hc.
    replace (pending p (requests w)) with O; [done|]. symmetry. apply map_size_empty_iff, map_empty. intros q.
    apply map_lookup_filter_None. right. intros r Hr E. cbn in E. subst. apply I1 in Hr as [? Hr]. congruence.
  - intros p' c'. destruct (decide (p = p')) as [<-|]; [|rewrite lookup_insert_ne by done; apply I3].
    rewrite lookup_insert_eq. by intros [= <-].
Qed.

(** A communication with a new state, and its requests with it. *)
Lemma inv_update p c c' ip x rs w : comms w !! p = Some c -> selected_dev c' = selected_dev c ->
  (forall q r, rs !! q = Some r -> request_comm r = p \/ requests w !! q = Some r) ->
  (forall p', p' <> p -> pending p' rs = pending p' (requests w)) ->
  GetOffloadBacklog c' = u64 (Z.of_nat (pending p rs)) -> plugin_inv w ->
  plugin_inv (set_requests rs (set_comms (<[p := c']> (comms w)) (set_clients (<[ip := x]> (clients w)) w))).
Proof using.
  intros Hp Hd Hrs Hpend Hb [I1 I2 I3 I4]. split; cbn.
  - intros q r Hr. destruct (decide (p = request_comm r)) as [<-|]; [by rewrite lookup_insert_eq|].
    rewrite lookup_insert_ne by done. destruct (Hrs q r Hr); [done|by apply (I1 q)].
  - intros p' c''. destruct (decide (p = p')) as [<-|].
    + rewrite lookup_insert_eq. by intros [= <-].
    + rewrite lookup_insert_ne by done. intros E. rewrite Hpend by done. by apply I2.
  - intros p' c''. destruct (decide (p = p')) as [<-|].
    + rewrite lookup_insert_eq. intros [= <-]. apply (grows_insert _ _ _ _ (grows_refl _)). rewrite Hd. by apply (I3 p).
    + rewrite lookup_insert_ne by done. intros E. apply (grows_insert _ _ _ _ (grows_refl _)). by apply (I3 p').
  - intros l ip' lc Hl. destruct (I4 l ip' lc Hl) as [Hs Hi]. split; [|by apply (grows_insert _ _ _ _ (grows_refl _))].
    eapply stage_ok_grows; [|exact Hs]. apply grows_insert, grows_refl.
Qed.

Lemma GetRequest_backlog now data mh c x r c' x' :
  GetRequest NCCL_PTR_HOST NCCL_PTR_CUDA (Z.of_nat kFastrakNumFlows) kSlowness now data mh c x = Some (r, c', x') ->
  selected_dev c' = selected_dev c /\
  match r with Ok _ => GetOffloadBacklog c' = u64 (GetOffloadBacklog c + 1) | Err _ => c' = c end.
Proof using.
  unfold GetRequest. destruct (_ && _); [by intros [= <- <- _]|]. destruct (_ =? 0); [by intros [= <- <- _]|].
  destruct (dxs_socks c !! _) as [sock|]; [|done]. cbn [mbind option_bind].
  destruct (schedule _ _ _ _ _ _) as [[[op|e] w1]|]; [| |done]; cbn [mbind option_bind]; intros [= <- <- _]; [|done].
  split; [done|]. unfold GetOffloadBacklog. cbn [offload_scheduled offload_completed].
  rewrite u64_add_l, <- (Z.add_opp_r (u64 _)), u64_add_l. f_equal. lia.
Qed.

Lemma Test_backlog now q c x r q' c' x' :
  NcclShim_Test kTransferTimeout now q c x = Some (r, q', c', x') ->
  selected_dev c' = selected_dev c /\
  match r with Ok (Some _) => GetOffloadBacklog c' = u64 (GetOffloadBacklog c - 1) | _ => c' = c end.
Proof using.
  unfold NcclShim_Test. destruct (pollFromDxs _ _ _) as [[[polled q1] w1]|]; [|done]. cbn [mbind option_bind].
  destruct polled as [[|]|e]; [|destruct (CheckTimeout _ _ _)|]; intros [= <- _ <- _]; try done.
  split; [done|]. unfold GetOffloadBacklog. cbn [offload_scheduled offload_completed].
  rewrite <- (Z.add_opp_r (u64 _)), u64_add_l. unfold u64. rewrite Zminus_mod_idemp_r. f_equal. lia.
Qed.

Lemma inv_issue op commp data size handle ptr w r p w' :
  (forall data mh c x r c' x', op data mh c x = Some (r, c', x') -> selected_dev c' = selected_dev c /\
    match r with Ok _ => GetOffloadBacklog c' = u64 (GetOffloadBacklog c + 1) | Err _ => c' = c end) ->
  requests w !! ptr = None -> issue_request ip_addr op commp data size handle ptr w = Some (r, p, w') ->
  plugin_inv w -> plugin_inv w'.
Proof using.
  intros Hop Hptr E I. unfold issue_request in E. destruct (comms w !! commp) as [c|] eqn:Ec; [|done]. cbn in E.
  destruct (mhandles w !! handle) as [mh|]; [|done]. cbn in E. destruct (clients w !! _) as [x|]; [|done]. cbn in E.
  destruct (op _ mh c x) as [[[res c'] x']|] eqn:Eo; [|done]. cbn in E. apply Hop in Eo as [Hd Hres].
  pose proof (pi_backlog _ I commp c Ec) as Hb.
  destruct res as [req|e]; simplify_eq.
  - apply (inv_update commp c c' _ x' (<[ptr := mkPluginRequest commp false req]> (requests w)) w); try done.
    + intros q rq. destruct (decide (ptr = q)) as [<-|]; [|rewrite lookup_insert_ne by done; by right].
      rewrite lookup_insert_eq. intros [= <-]. by left.
    + intros p' Hp'. rewrite pending_insert_new by done. cbn. rewrite decide_False by done. lia.
    + rewrite pending_insert_new by done. cbn. rewrite decide_True by done. rewrite Hres, Hb, u64_add_l. f_equal. lia.
  - apply (inv_update commp c c _ x' (requests w) w); try done. intros q rq Hq. by right.
Qed.

Lemma inv_Test now q done w r out w' :
  Plugin_Test kTransferTimeout ip_addr now q done w = Some (r, out, w') -> plugin_inv w -> plugin_inv w'.
Proof using.
  intros E I. unfold Plugin_Test in E. destruct (_ || _); [by simplify_eq|].
  destruct (requests w !! q) as [rq|] eqn:Eq; [|done]. cbn in E. destruct (request_error rq); [by simplify_eq|].
  destruct (comms w !! request_comm rq) as [c|] eqn:Ec; [|done]. cbn in E. destruct (clients w !! _) as [x|]; [|done]. cbn in E.
  destruct (NcclShim_Test _ _ _ _ _) as [[[[res q'] c'] x']|] eqn:Et; [|done]. cbn in E. apply Test_backlog in Et as [Hd Hres].
  pose proof (pi_backlog _ I _ c Ec) as Hb.
  assert (Hkeep : forall rq', request_comm rq' = request_comm rq -> c' = c ->
    plugin_inv (set_requests (<[q := rq']> (requests w)) (set_comms (<[request_comm rq := c']> (comms w))
      (set_clients (<[ip_addr (selected_dev c) := x']> (clients w)) w)))).
  { intros rq' Hrq ->. apply (inv_update _ c); try done.
    - intros k v. destruct (decide (q = k)) as [<-|]; [rewrite lookup_insert_eq; intros [= <-]; by left|rewrite lookup_insert_ne by done; by right].
    - intros p' _. by rewrite (pending_insert_same _ _ rq).
    - by rewrite (pending_insert_same _ _ rq). }
  destruct res as [[size|]|e]; simplify_eq; [|by apply Hkeep..].
  apply (inv_update _ c); try done.
  - intros k v Hk. apply lookup_delete_Some in Hk as [_ Hk]. by right.
  - intros p' Hp'. rewrite (pending_delete p' q rq (requests w)) by done. rewrite decide_False by done. lia.
  - rewrite Hres, Hb. rewrite (pending_delete _ q rq (requests w)) at 1 by done. rewrite decide_True by done.
    rewrite <- (Z.add_opp_r (u64 _)), u64_add_l. f_equal. lia.
Qed.

(** *** The calls of NCCL

    A new object has an address that is not in use; a handle given to [Connect]
    is new or was returned by an earlier call; a communication is closed when it
    has no live requests.  Messages of the server change the clients. *)

Inductive plugin_step : World H BM -> World H BM -> Prop :=
  | call_Init core device env w r w' :
      Init ip_addr create core device env w = (r, w') -> plugin_step w w'
  | call_Listen device env calls waits dev handle listenComm ptr w r h w' :
      listens w !! ptr = None ->
      Plugin_Listen ErrnoToStatus kFastrakNumFlows d ip_addr create device env calls waits dev handle listenComm ptr w
        = Some (r, h, w') -> plugin_step w w'
  | call_Connect device env now dev handle sendComm sendDevComm ptr w r h p w' :
      comms w !! ptr = None -> (forall v h, handle = Some (v, h) -> stage_ok (clients w) (stage h)) ->
      Plugin_Connect pton4 pton6 kFastrakNumFlows kNicRailAligned connect_timeout_ d ip_addr create pci_of closest
        device env now dev handle sendComm sendDevComm ptr w = Some (r, h, p, w') -> plugin_step w w'
  | call_Accept device env now listenComm recvComm recvDevComm ptr w r p w' :
      comms w !! ptr = None ->
      Plugin_Accept kFastrakNumFlows accept_timeout_ ip_addr create device env now listenComm recvComm recvDevComm ptr w
        = Some (r, p, w') -> plugin_step w w'
  | call_Isend now comm data size handle request ptr w r p w' :
      requests w !! ptr = None ->
      Plugin_Isend NCCL_PTR_HOST NCCL_PTR_CUDA kFastrakNumFlows kSlowness ip_addr now comm data size handle request ptr w
        = Some (r, p, w') -> plugin_step w w'
  | call_Irecv now comm n data sizes tags handles request ptr w r p w' :
      requests w !! ptr = None ->
      Plugin_Irecv NCCL_PTR_HOST NCCL_PTR_CUDA kFastrakNumFlows kSlowness ip_addr now comm n data sizes tags handles request ptr w
        = Some (r, p, w') -> plugin_step w w'
  | call_Test now request done w r out w' :
      Plugin_Test kTransferTimeout ip_addr now request done w = Some (r, out, w') -> plugin_step w w'
  | call_RegMr realloc_ok new_fd comm data size type handle ptr w r p w' :
      Plugin_RegMr NCCL_PTR_CUDA pageSize kFastrakCacheMr realloc_ok new_fd comm data size type handle ptr w = Some (r, p, w') ->
      plugin_step w w'
  | call_RegMrDmaBuf realloc_ok new_fd comm data size type fd handle ptr w r p w' :
      Plugin_RegMrDmaBuf NCCL_PTR_CUDA pageSize kFastrakCacheMr realloc_ok new_fd comm data size type fd handle ptr w
        = Some (r, p, w') -> plugin_step w w'
  | call_DeregMr comm handle w r w' :
      Plugin_DeregMr NCCL_PTR_CUDA kFastrakCacheMr comm handle w = Some (r, w') -> plugin_step w w'
  | call_GetProperties device env speed_file dev props w r p w' :
      Plugin_GetProperties NCCL_PTR_HOST NCCL_PTR_CUDA d ip_addr create device env speed_file dev props w = Some (r, p, w') ->
      plugin_step w w'
  | call_Close comm w r w' :
      pending comm (requests w) = O -> Plugin_Close ip_addr comm w = Some (r, w') -> plugin_step w w'
  | call_CloseListen device env close_result comm w r w' :
      Plugin_CloseListen ErrnoToStatus ip_addr create device env close_result comm w = Some (r, w') -> plugin_step w w'
  | messages ip x x' w :
      clients w !! ip = Some x -> plugin_step w (set_clients (<[ip := x']> (clients w)) w).

Lemma inv_Connect device env now dev handle sendComm sendDevComm ptr w r h p w' :
  comms w !! ptr = None -> (forall v h, handle = Some (v, h) -> stage_ok (clients w) (stage h)) ->
  Plugin_Connect pton4 pton6 kFastrakNumFlows kNicRailAligned connect_timeout_ d ip_addr create pci_of closest
    device env now dev handle sendComm sendDevComm ptr w = Some (r, h, p, w') -> plugin_inv w -> plugin_inv w'.
Proof using.
  intros Hp Hh E I. unfold Plugin_Connect in E. destruct (GetShim _ _ _ _ _) as [g w1] eqn:Eg.
  pose proof (inv_GetShim _ _ _ _ _ Eg I) as I1. apply GetShim_frame in Eg as (Ec & _ & _ & G).
  destruct g as [device'|]; [|by simplify_eq]. destruct handle as [[v h0]|]; [|by simplify_eq].
  destruct (_ || _); [by simplify_eq|]. destruct (negb _); [by simplify_eq|]. destruct (_ =? kFastrakInvalidIdx); [by simplify_eq|].
  destruct (per_gpu_clients w1 !! device') as [slot|]; [|done]. cbn in E.
  destruct (NcclConnection.Connect _ _ _ _ _ _ _ _ _ _ _ _ _ _) as [[[res h1] s1]|] eqn:En; [|done]. cbn in E.
  apply Connect_fresh in En as (G1 & _ & Hf); [|eapply stage_ok_grows; [exact G|by eapply Hh]].
  assert (I2 : plugin_inv (put_shim device' slot s1 w1)) by (eapply inv_frame; [..|exact I1]; done).
  destruct res as [[c|]|e]; simplify_eq; [|done..].
  destruct (Hf c eq_refl). apply (inv_new_comm _ _ (put_shim device' slot s1 w1)); try done. cbn. by rewrite Ec.
Qed.

Lemma inv_Accept device env now lp recvComm recvDevComm ptr w r p w' :
  comms w !! ptr = None ->
  Plugin_Accept kFastrakNumFlows accept_timeout_ ip_addr create device env now lp recvComm recvDevComm ptr w = Some (r, p, w') ->
  plugin_inv w -> plugin_inv w'.
Proof using.
  intros Hp E I. unfold Plugin_Accept in E. destruct (GetShim _ _ _ _ _) as [g w1] eqn:Eg.
  pose proof (inv_GetShim _ _ _ _ _ Eg I) as I1. apply GetShim_frame in Eg as (Ec & _ & _ & _).
  destruct g as [device'|]; [|by simplify_eq]. destruct (_ || _); [by simplify_eq|].
  destruct (per_gpu_clients w1 !! device') as [slot|]; [|done]. cbn in E.
  destruct (listens w1 !! lp) as [[ip lc]|] eqn:El; [|done]. cbn in E. destruct (pi_listens _ I1 _ _ _ El) as [Hs Hip].
  destruct (NcclConnection.Accept _ _ _ _ _ _ _) as [[[res lc1] s1]|] eqn:En; [|done]. cbn in E.
  apply Accept_fresh in En as (G1 & Hs1 & Hf); [|exact Hs].
  assert (I2 : plugin_inv (put_shim device' slot s1 w1)) by (eapply inv_frame; [..|exact I1]; done).
  assert (I3 : plugin_inv (set_listens (<[lp := (ip, lc1)]> (listens (put_shim device' slot s1 w1))) (put_shim device' slot s1 w1))).
  { destruct I2 as [J1 J2 J3 J4]. split; [done..|]. cbn. intros l ip' lc'. destruct (decide (lp = l)) as [<-|].
    - rewrite lookup_insert_eq. intros [= <- <-]. split; [done|by apply G1].
    - rewrite lookup_insert_ne by done. apply J4. }
  destruct res as [[c|]|e]; simplify_eq; [|done..].
  destruct (Hf c eq_refl). apply (inv_new_comm _ _ (set_listens (<[lp := (ip, lc1)]> (listens w1)) (put_shim device' slot s1 w1))); try done. cbn. by rewrite Ec.
Qed.

Lemma inv_Listen device env calls waits dev handle listenComm ptr w r h w' :
  listens w !! ptr = None ->
  Plugin_Listen ErrnoToStatus kFastrakNumFlows d ip_addr create device env calls waits dev handle listenComm ptr w
    = Some (r, h, w') -> plugin_inv w -> plugin_inv w'.
Proof using.
  intros Hp E I. unfold Plugin_Listen in E. destruct (GetShim _ _ _ _ _) as [g w1] eqn:Eg.
  pose proof (inv_GetShim _ _ _ _ _ Eg I) as I1.
  destruct g as [device'|]; [|by simplify_eq]. destruct (_ || _); [by simplify_eq|].
  destruct (per_gpu_clients w1 !! device') as [slot|]; [|done]. cbn in E. destruct (kNcclCtrlSocketDev d) as [ctrl|]; [|done]. cbn in E.
  destruct (NcclShim_Listen _ _ _ _ _ _ _ _ _ _ _ _) as [[[res s1] fds]|] eqn:En; [|done]. cbn in E.
  apply Listen_grows in En as (G1 & Hc).
  assert (I2 : plugin_inv (set_sockets fds (put_shim device' slot s1 w1))) by (eapply inv_frame; [..|exact I1]; done).
  destruct res as [c|e]; simplify_eq; [|done]. destruct (Hc c eq_refl) as [Hip Hst].
  destruct I2 as [J1 J2 J3 J4]. split; [done..|]. cbn. intros l ip' lc'. destruct (decide (ptr = l)) as [<-|].
  - rewrite lookup_insert_eq. intros [= <- <-]. split; [|done]. intros [|]; congruence.
  - rewrite lookup_insert_ne by done. apply J4.
Qed.

Lemma inv_Close p w r w' : pending p (requests w) = O -> Plugin_Close ip_addr p w = Some (r, w') -> plugin_inv w -> plugin_inv w'.
Proof using.
  intros Hp E I. unfold Plugin_Close in E. destruct (_ =? 0); [by simplify_eq|].
  destruct (comms w !! p) as [c|] eqn:Ec; [|done]. cbn in E. destruct (clients w !! _) as [x|]; [|done]. cbn in E. simplify_eq.
  assert (I2 : plugin_inv (set_clients (<[ip_addr (selected_dev c) := NcclShim_Close c x]> (clients w)) w)).
  { eapply inv_frame; [..|exact I]; try done. apply grows_insert, grows_refl. }
  destruct I2 as [J1 J2 J3 J4]. split; cbn in *; [| | |done].
  - intros q rq Hq. rewrite lookup_delete_ne; [by apply (J1 q)|]. intros ->. apply pending_pos in Hq. lia.
  - intros p' c' Hc'. apply lookup_delete_Some in Hc' as [_ Hc']. by apply J2.
  - intros p' c' Hc'. apply lookup_delete_Some in Hc' as [_ Hc']. by apply (J3 p').
Qed.

Lemma inv_CloseListen device env close_result lp w r w' :
  Plugin_CloseListen ErrnoToStatus ip_addr create device env close_result lp w = Some (r, w') -> plugin_inv w -> plugin_inv w'.
Proof using.
  intros E I. unfold Plugin_CloseListen in E. destruct (_ =? 0); [by simplify_eq|].
  destruct (GetShim _ _ _ _ _) as [g w1] eqn:Eg. pose proof (inv_GetShim _ _ _ _ _ Eg I) as I1.
  destruct g as [device'|]; [|by simplify_eq]. destruct (listens w1 !! lp) as [[ip lc]|]; [|done]. cbn in E.
  destruct (clients w1 !! ip) as [x|]; [|done]. cbn in E. destruct (NcclShim_CloseListen _ _ _ _ _) as [[st x'] fds]. simplify_eq.
  assert (I2 : plugin_inv (set_sockets fds (set_clients (<[ip := x']> (clients w1)) w1))).
  { eapply inv_frame; [..|exact I1]; try done. apply grows_insert, grows_refl. }
  destruct I2 as [J1 J2 J3 J4]. split; cbn in *; [done..|].
  intros l ip' lc' Hl. apply lookup_delete_Some in Hl as [_ Hl]. by apply (J4 l).
Qed.

Lemma inv_register realloc_ok new_fd comm data size type fd ptr w r p w' :
  register NCCL_PTR_CUDA pageSize kFastrakCacheMr realloc_ok new_fd comm data size type fd ptr w = Some (r, p, w') ->
  plugin_inv w -> plugin_inv w'.
Proof using.
  intros E. unfold register in E. destruct (comms w !! comm) as [c|]; [|done]. cbn in E.
  destruct (mr_devs w !! _) as [m|]; [|done]. cbn in E.
  destruct (RegMrDmaBuf _ _ _ _ _ _ _ _ _) as [[[h|e] m']|]; [| |done]; cbn in E; simplify_eq;
    (apply inv_frame; [done..|apply grows_refl]).
Qed.

Lemma plugin_step_inv w w' : plugin_step w w' -> plugin_inv w -> plugin_inv w'.
Proof using.
  intros St. destruct St as [core device env w r w' E|? ? ? ? ? ? ? ? ? ? ? ? Hp E|? ? ? ? ? ? ? ? ? ? ? ? ? Hp Hh E|? ? ? ? ? ? ? ? ? ? ? Hp E
    |? ? ? ? ? ? ? ? ? ? ? Hp E|now comm n data sizes tags handles ? ? ? ? ? ? Hp E|? ? ? ? ? ? ? E|? ? ? ? ? ? ? ? w r p w' E|? ? ? ? ? ? ? ? ? w r p w' E
    |comm handle w r w' E|? ? ? ? ? w r p w' E|? ? ? ? Hp E|? ? ? ? ? ? ? E|ip x x' w E].
  - unfold Init in E. destruct core, device as [device|]; [|by simplify_eq..]. destruct (device_ok _); [|by simplify_eq].
    destruct (init_shim _ _ _ _ _) as [st w1] eqn:Es. apply init_shim_frame in Es as (? & ? & ? & ?). simplify_eq. by apply inv_frame.
  - by eapply inv_Listen.
  - by eapply inv_Connect.
  - by eapply inv_Accept.
  - unfold Plugin_Isend in E. destruct (_ || _); [by simplify_eq|]. eapply inv_issue; [|done|exact E].
    intros *. unfold Isend. destruct (negb _); [by intros [= <- <- _]|]. apply GetRequest_backlog.
  - unfold Plugin_Irecv in E. destruct (negb (n =? 1)); [by simplify_eq|]. destruct (comm =? 0); [by simplify_eq|].
    destruct data as [x1|], sizes as [x2|], tags as [x3|], handles as [x4|]; try (by simplify_eq).
    destruct (_ || _); [by simplify_eq|]. eapply inv_issue; [|done|exact E].
    intros *. unfold Irecv. destruct (comm_send _); [by intros [= <- <- _]|]. apply GetRequest_backlog.
  - by eapply inv_Test.
  - unfold Plugin_RegMr in E. destruct (_ || _); [by simplify_eq|]. by eapply inv_register.
  - unfold Plugin_RegMrDmaBuf in E. destruct (_ || _); [by simplify_eq|]. by eapply inv_register.
  - unfold Plugin_DeregMr in E. destruct (_ || _); [by simplify_eq|]. destruct (comms w !! comm) as [c|]; [|done]. cbn in E.
    destruct (mhandles w !! handle); [|done]. cbn in E. destruct (mr_devs w !! _); [|done]. cbn in E.
    destruct (DeregMr _ _ _ _). simplify_eq. apply inv_frame; [done..|apply grows_refl].
  - unfold Plugin_GetProperties in E. destruct (negb _); [by simplify_eq|]. destruct (GetShim _ _ _ _ _) as [g w1] eqn:Eg.
    intros I. apply (inv_GetShim _ _ _ _ _ Eg) in I. destruct g; [|by simplify_eq].
    destruct (GetProperties _ _ _ _ _) as [[]|]; cbn in E; by simplify_eq.
  - by eapply inv_Close.
  - by eapply inv_CloseListen.
  - apply inv_frame; [done..|]. apply grows_insert, grows_refl.
Qed.


End accounting.

(** ** Examples *)

#[local] Existing Instance LogChannel.

Definition ex_gpu_env : GpuEnv :=
  mkGpuEnv true false (Ok 8) (Ok "0000:05:00.0"%string) (fun _ => Ok 0) (fun _ => Ok 0).

Definition ex_world : World (list (list Z)) TableBm :=
  mkWorld ∅ ∅ {[0 := mkMrDev empty_cache (mkTableBm 0 ∅) ∅]} ∅ ∅ ∅ ∅ ∅.

Definition ex_ip (dev : Z) : string := "10.0.0.1"%string.
Definition ex_create (ip : string) : StatusOr (Dxs (list (list Z))) := Ok ex_dxs0.

(** Two threads ask for the shim of a GPU and both miss. *)
Definition ex_shared : World (list (list Z)) TableBm := (init_shim ex_ip ex_create (4096, ex_gpu_env) 0 ex_world).2.

Lemma ex_shims :
  rtc (shim_step ex_ip ex_create 0) (ex_world, [Asking; Asking]) (ex_shared, [Got (Ok 4096); Created]).
Proof.
  eapply rtc_l; [by apply (step_load _ _ _ _ _ 0)|]. eapply rtc_l; [by apply (step_load _ _ _ _ _ 1)|].
  eapply rtc_l; [by apply (step_init _ _ _ _ _ 0 (4096, ex_gpu_env) OkStatus ex_shared)|].
  eapply rtc_l; [by apply (step_init _ _ _ _ _ 1 (8192, ex_gpu_env) OkStatus ex_shared)|].
  apply rtc_once. exact (step_reload ex_ip ex_create 0 ex_shared [Created; Created] 0 eq_refl).
Qed.

Lemma one_shim_per_gpu_witness : 4096 <> 0 /\ load 0 ex_shared = 4096.
Proof.
  exact (proj1 (one_shim_per_gpu ex_ip ex_create 0 2 ex_world (ex_shared, [Got (Ok 4096); Created]) eq_refl ex_shims) 0%nat 4096 eq_refl).
Defined.

(** Then the plugin connects, registers a buffer and issues a request. *)
Definition ex_one_device : Devices := mkDevices 1 [] None.

Definition result {A} (x : option A) (d : A) : A := default d x.

Abbreviation ex_do_connect now h w :=
  (Plugin_Connect ex_pton (fun _ => None) 2 true 100 ex_one_device ex_ip ex_create (fun _ => Ok EmptyString) (fun _ => Ok 0)
     (Ok 0) (0, ex_gpu_env) now 0 (Some (1, h)) true true 64 w).

Definition ex_w1 := result (ex_do_connect 0 ex_handle0 ex_shared) (ncclSystemError, None, None, ex_world).
Definition ex_client1 : Dxs (list (list Z)) := default ex_dxs0 (clients ex_w1.2 !! ex_ip 0).
Definition ex_client2 : Dxs (list (list Z)) :=
  let ack sock := RxMessage (encode (mkConnectAckMessage (ControlCommand_code kConnectAck) sock
                                       (DataSockStatus_code DataSock_kConnected) 0)) in
  mkDxs (fold_left (deliver 1) [ack 1; ack 2] (client ex_client1)) (channel ex_client1).
Definition ex_w2 : World (list (list Z)) TableBm := set_clients (<[ex_ip 0 := ex_client2]> (clients ex_w1.2)) ex_w1.2.
Definition ex_handle2 : ncclSocketHandle := default ex_handle0 ex_w1.1.1.2.
Definition ex_w3 := result (ex_do_connect 2 ex_handle2 ex_w2) (ncclSystemError, None, None, ex_world).
Definition ex_w4 := result (Plugin_RegMr 2 4096 true true (Ok 9) 64 4096 8192 2 true 128 ex_w3.2) (ncclSystemError, None, ex_world).
Definition ex_w5 := result (Plugin_Isend 1 2 2 5 ex_ip 3 64 4096 100 128 true 256 ex_w4.2) (ncclSystemError, None, ex_world).

Abbreviation ex_step :=
  (plugin_step (fun _ => kInternal) ex_pton (fun _ => None) 1 2 4096 2 true true 100 100 5 0 ex_one_device ex_ip ex_create
     (fun _ => Ok EmptyString) (fun _ => Ok 0)).

Lemma ex_connect1 : ex_do_connect 0 ex_handle0 ex_shared = Some (ex_w1.1.1.1, ex_w1.1.1.2, ex_w1.1.2, ex_w1.2).
Proof. vm_compute. reflexivity. Qed.

Lemma ex_connect2 : ex_do_connect 2 ex_handle2 ex_w2 = Some (ex_w3.1.1.1, ex_w3.1.1.2, ex_w3.1.2, ex_w3.2).
Proof. vm_compute. reflexivity. Qed.

Lemma ex_stage2 : stage_ok ex_ip (clients ex_w2) (stage ex_handle2).
Proof. intros _ c Hc. vm_compute in Hc. injection Hc as <-. split; [done|]. vm_compute. by eexists. Qed.

Lemma ex_calls_made : rtc ex_step ex_world ex_w5.2.
Proof.
  apply rtc_l with ex_shared; [eapply call_Init with (core := OkStatus) (device := Ok 0) (env := (4096, ex_gpu_env)); reflexivity|].
  apply rtc_l with ex_w1.2; [eapply call_Connect; [| |exact ex_connect1]; [reflexivity|]; intros v h [= <- <-]; by intros [|]|].
  apply rtc_l with ex_w2; [apply (messages _ _ _ _ _ _ _ _ _ _ _ _ _ _ _ _ _ _ (ex_ip 0) ex_client1); vm_compute; reflexivity|].
  apply rtc_l with ex_w3.2.
  { eapply call_Connect; [| |exact ex_connect2]; [vm_compute; reflexivity|]. intros v h [= <- <-]. apply ex_stage2. }
  apply rtc_l with ex_w4.2.
  { apply (call_RegMr _ _ _ _ _ _ _ _ _ _ _ _ _ _ _ _ _ _ true (Ok 9) 64 4096 8192 2 true 128 _ ex_w4.1.1 ex_w4.1.2). vm_compute. reflexivity. }
  apply rtc_once. apply (call_Isend _ _ _ _ _ _ _ _ _ _ _ _ _ _ _ _ _ _ 3 64 4096 100 128 true 256 _ ex_w5.1.1 ex_w5.1.2); vm_compute; reflexivity.
Qed.

