(* ===== verification/LlcmDevice.v ===== *)
(** * The LLCM device of the guest
    (dxs/client/guest-llcm-device.{h,cc}, guest_llcm/guest_llcm.{h,cc},
    oss/htonl.h)

    A virtual machine reaches the low-latency queues through a PCIe device per
    NIC: BAR4 has the address of the NIC, BAR0 the memory of the server and
    BAR2 the memory of the client.  What the files below the PCI directory
    contain is an argument; it does not change while a device is looked for. *)

From Stdlib Require Import Ascii.
From S2P Require Import Prelude SpscQueuePair ControlCommand ControlInterface.

#[export] Instance WireSocketAddr_eq_dec : EqDecision WireSocketAddr.
Proof. solve_decision. Defined.

(** ** Byte order *)

(** [absl::byteswap] of an [n]-byte integer. *)
Definition byteswap (n : nat) (x : Z) : Z := le_decode (reverse (le_encode n x)).

Definition fhtonl (x : Z) : Z := byteswap 4 x.
Definition fhtonll (x : Z) : Z := byteswap 8 x.
Definition fntohl (x : Z) : Z := fhtonl x.

(** ** Finding the device *)

Definition kVendorId : Z := 0x1ae0.
Definition kDeviceId : Z := 0x0084.

(** The calls [GetContents] makes on a file: [open] and [fstat] with
    [errno], the text [read] gives, [None] when it returns -1. *)
Record FileCalls := mkFileCalls {
  file_open : Z * Z;
  file_fstat : Z * Z;
  file_read : option string
}.

(** [open] and [mmap] of a BAR; the mapping gives [sizeof(uint128)] bytes or
    fails with [errno]. *)
Record BarCalls := mkBarCalls {
  bar_open : Z * Z;
  bar_mmap : Z + list Z
}.

Inductive GlobResult : Type :=
  | GlobMatches (gl_pathv : list string)
  | GLOB_NOMATCH
  | GlobError.

(** [parts.back()] of [absl::StrSplit] at slashes: what follows the last
    slash. *)
Fixpoint has_slash (s : string) : bool :=
  match s with
  | EmptyString => false
  | String a s' => Ascii.eqb a "/" || has_slash s'
  end.

Fixpoint last_part (s : string) : string :=
  match s with
  | EmptyString => EmptyString
  | String a s' => if has_slash s then last_part s' else s
  end.

Section devices.
(** [absl::ErrnoToStatusCode], [absl::StripAsciiWhitespace] and
    [absl::SimpleHexAtoi] for [uint32_t]; [inet_ntop]. *)
Context (ErrnoToStatus : Z -> StatusCode).
Context (StripAsciiWhitespace : string -> string) (SimpleHexAtoi : string -> option Z).
Context (ntop : bool -> list Z -> option string).
(** The files of the PCI directory, and the flag
    [dxs_guest_llcm_use_ipv6]. *)
Context (file : string -> FileCalls) (bar : string -> BarCalls) (glob : string -> GlobResult).
Context (dxs_guest_llcm_use_ipv6 : bool).

(** [None] is an exception: the result of [read] is kept in a [size_t], so
    that -1 is not less than zero but a length [resize] refuses.  The cleanup
    closes the file on every path. *)
Definition GetContents (filename : string) : option (StatusOr string) :=
  let c := file filename in
  if (file_open c).1 <? 0 then Some (Err (ErrnoToStatus (file_open c).2))
  else if negb ((file_fstat c).1 =? 0) then Some (Err (ErrnoToStatus (file_fstat c).2))
  else contents ← file_read c; Some (Ok contents).

Definition Glob (pattern : string) : StatusOr (list string) :=
  match glob pattern with
  | GLOB_NOMATCH => Err kNotFound
  | GlobError => Err kInternal
  | GlobMatches paths => Ok paths
  end.

Definition ReadFileAsHexUint32 (filename : string) : option (StatusOr Z) :=
  r ← GetContents filename;
  Some (contents ← r;
        match SimpleHexAtoi (StripAsciiWhitespace contents) with
        | Some value => Ok value
        | None => Err kInvalidArgument
        end).

(** The loop of [GetPcieDeviceBdfs]. *)
Fixpoint device_bdfs (device_paths : list string) : option (list string) :=
  match device_paths with
  | [] => Some []
  | device_path :: rest =>
      vendor_id_or ← ReadFileAsHexUint32 (device_path +:+ "/vendor");
      if negb (bool_decide (vendor_id_or = Ok kVendorId)) then device_bdfs rest
      else
        device_id_or ← ReadFileAsHexUint32 (device_path +:+ "/device");
        if negb (bool_decide (device_id_or = Ok kDeviceId)) then device_bdfs rest
        else cons (last_part device_path) <$> device_bdfs rest
  end.

Definition GetPcieDeviceBdfs (sysfs_pci_devices_dir : string) : option (StatusOr (list string)) :=
  match Glob (sysfs_pci_devices_dir +:+ "/*") with
  | Err e => Some (Err e)
  | Ok device_paths => Ok <$> device_bdfs device_paths
  end.

(** The address in the 16 bytes of BAR4; the fields of [addr] are zero
    before. *)
Definition bar_address (mem : list Z) : WireSocketAddr :=
  if dxs_guest_llcm_use_ipv6 then
    let low_net := fhtonll (le_decode (drop 8 mem)) in
    let high_net := fhtonll (le_decode (take 8 mem)) in
    mkWireSocketAddr true (le_encode 8 low_net ++ le_encode 8 high_net) 0
  else
    let ipv4_address := fntohl (le_decode (take 4 mem)) in
    mkWireSocketAddr false (le_encode 4 ipv4_address ++ replicate 12 0) 0.

(** The cleanups unmap the BAR and close the file. *)
Definition ReadVipForDevice (bdf sysfs_pci_devices_dir : string) : StatusOr WireSocketAddr :=
  let c := bar (sysfs_pci_devices_dir +:+ "/" +:+ bdf +:+ "/resource4") in
  if (bar_open c).1 <? 0 then Err (ErrnoToStatus (bar_open c).2)
  else
    match bar_mmap c with
    | inl errno => Err (ErrnoToStatus errno)
    | inr mem => Ok (bar_address mem)
    end.

(** The loop of [FindLlcmBdfForNic]; the addresses it logs have to be
    convertible to text. *)
Fixpoint find_bdf (address : WireSocketAddr) (sysfs_pci_devices_dir : string) (bdfs : list string)
    : StatusOr string :=
  match bdfs with
  | [] => _ ← UnpackIpAddress ntop address; Err kNotFound
  | bdf :: rest =>
      match ReadVipForDevice bdf sysfs_pci_devices_dir with
      | Err _ => find_bdf address sysfs_pci_devices_dir rest
      | Ok vip =>
          let temp_addr :=
            mkWireSocketAddr (WireSocketAddr_is_ipv6 address)
              (take 8 (WireSocketAddr_addr address) ++ replicate 8 0) (WireSocketAddr_port address) in
          found ←
            (if WireSocketAddr_is_ipv6 vip then
               _ ← UnpackIpAddress ntop address;
               _ ← UnpackIpAddress ntop vip;
               if bool_decide (vip = temp_addr) then Ok true
               else _ ← UnpackIpAddress ntop temp_addr; Ok false
             else Ok false);
          if found || bool_decide (vip = address) then Ok bdf
          else _ ← UnpackIpAddress ntop vip; find_bdf address sysfs_pci_devices_dir rest
      end
  end.

Definition FindLlcmBdfForNic (address : WireSocketAddr) (sysfs_pci_devices_dir : string)
    : option (StatusOr string) :=
  r ← GetPcieDeviceBdfs sysfs_pci_devices_dir;
  Some (bdfs ← r; find_bdf address sysfs_pci_devices_dir bdfs).

(** ** The mappings *)

(** What the process has: its open descriptors and its mappings by address,
    with their lengths. *)
Record Os := mkOs { fds : gset Z; maps : gmap Z Z }.

Definition os_open (fd : Z) (os : Os) : Os := mkOs ({[fd]} ∪ fds os) (maps os).
Definition os_close (fd : Z) (os : Os) : Os := mkOs (fds os ∖ {[fd]}) (maps os).
Definition os_map (ptr length : Z) (os : Os) : Os := mkOs (fds os) (<[ptr := length]> (maps os)).

(** [munmap] of a whole mapping; a length of zero is an error. *)
Definition munmap (ptr length : Z) (os : Os) : Os :=
  if length =? 0 then os else mkOs (fds os) (delete ptr (maps os)).

(** A [unique_ptr<void, MemmapDeleter>]; constructed from a pointer alone,
    its deleter is value-initialized. *)
Record MemmapPtr := mkMemmapPtr { mm_ptr : Z; deleter_size : Z }.

Definition new_MemmapPtr (ptr : Z) : MemmapPtr := mkMemmapPtr ptr 0.

Definition destroy_MemmapPtr (p : MemmapPtr) (os : Os) : Os := munmap (mm_ptr p) (deleter_size p) os.

Record GuestLlcm := mkGuestLlcm { llcm_ : MemmapPtr; reverse_llcm_ : MemmapPtr }.

Definition llcm (g : GuestLlcm) : Span := mkSpan (mm_ptr (llcm_ g)) (deleter_size (llcm_ g)).
Definition reverse_llcm (g : GuestLlcm) : Span :=
  mkSpan (mm_ptr (reverse_llcm_ g)) (deleter_size (reverse_llcm_ g)).

(** The members are destroyed in the reverse of their order. *)
Definition destroy_GuestLlcm (g : GuestLlcm) (os : Os) : Os :=
  destroy_MemmapPtr (llcm_ g) (destroy_MemmapPtr (reverse_llcm_ g) os).

(** The calls of [GuestLlcm::Create] on the two BARs: [open] with [errno],
    [fstat] with [errno] and [st_size], and [mmap]. *)
Record LlcmCalls := mkLlcmCalls {
  call_open0 : Z * Z;
  call_open2 : Z * Z;
  call_fstat0 : Z * Z * Z;
  call_fstat2 : Z * Z * Z;
  call_mmap0 : Z + Z;
  call_mmap2 : Z + Z
}.

Definition GetFileSize (fstat : Z * Z * Z) : StatusOr Z :=
  let '(err, errno, st_size) := fstat in
  if negb (err =? 0) then Err (ErrnoToStatus errno) else Ok st_size.

(** The two checks of the sizes. *)
Definition check_sizes (calls : LlcmCalls) (llcm_size reverse_llcm_size : Z) : Status :=
  resource0_size ← GetFileSize (call_fstat0 calls);
  if resource0_size <? llcm_size then Err kInvalidArgument
  else
    resource2_size ← GetFileSize (call_fstat2 calls);
    if resource2_size <? reverse_llcm_size then Err kInvalidArgument else OkStatus.

(** The part with both files open. *)
Definition map_regions (calls : LlcmCalls) (llcm_size reverse_llcm_size : Z) (os : Os)
    : StatusOr GuestLlcm * Os :=
  match check_sizes calls llcm_size reverse_llcm_size with
  | Err e => (Err e, os)
  | Ok _ =>
      match call_mmap0 calls with
      | inl errno => (Err (ErrnoToStatus errno), os)
      | inr ptr =>
          let os := os_map ptr llcm_size os in
          let llcm_unique := new_MemmapPtr ptr in
          match call_mmap2 calls with
          | inl errno => (Err (ErrnoToStatus errno), destroy_MemmapPtr llcm_unique os)
          | inr ptr2 =>
              (Ok (mkGuestLlcm llcm_unique (new_MemmapPtr ptr2)), os_map ptr2 reverse_llcm_size os)
          end
      end
  end.

Definition GuestLlcm_Create (calls : LlcmCalls) (llcm_size reverse_llcm_size : Z) (os : Os)
    : StatusOr GuestLlcm * Os :=
  let '(fd_0, errno) := call_open0 calls in
  if fd_0 <? 0 then (Err (ErrnoToStatus errno), os)
  else
    let os := os_open fd_0 os in
    let '(fd_2, errno) := call_open2 calls in
    if fd_2 <? 0 then (Err (ErrnoToStatus errno), os_close fd_0 os)
    else
      let '(r, os) := map_regions calls llcm_size reverse_llcm_size (os_open fd_2 os) in
      (r, os_close fd_0 (os_close fd_2 os)).

Definition kLlcmBackingSize : Z := Z.shiftl 8 20.
Definition kReverseLlcmBackingSize : Z := Z.shiftl 8 20.

(** [GuestLlcmDevice::Init]: [calls] are the calls for the files of a
    device. *)
Definition GuestLlcmDevice_Init (local_address : WireSocketAddr) (sysfs_pci_devices_dir : string)
    (calls : string -> LlcmCalls) (os : Os) : option (StatusOr GuestLlcm * Os) :=
  r ← FindLlcmBdfForNic local_address sysfs_pci_devices_dir;
  match r with
  | Err e => Some (Err e, os)
  | Ok bdf => Some (GuestLlcm_Create (calls bdf) kLlcmBackingSize kReverseLlcmBackingSize os)
  end.

Definition GetLocalMemory (device_ : GuestLlcm) (offset size : Z) : Span :=
  mkSpan (u64 (data (reverse_llcm device_) + offset)) size.

Definition GetRemoteMemory (device_ : GuestLlcm) (offset size : Z) : Span :=
  mkSpan (u64 (data (llcm device_) + offset)) size.


(** ** Lemmas *)

Lemma le_encode_byteswap n x : le_encode n (byteswap n x) = reverse (le_encode n x).
Proof using.
  unfold byteswap. rewrite <- (le_encode_decode (reverse (le_encode n x))) at 2.
  - by rewrite length_reverse, le_encode_length.
  - apply Forall_reverse, le_encode_ok.
Qed.

(** Sixteen bytes of a BAR. *)
Definition bar_bytes (mem : list Z) : Prop := length mem = 16%nat /\ Forall byte_ok mem.

(** A BAR with an address in host byte order: the bytes on the wire are
    those of the BAR in reverse. *)
Lemma bar_address_spec mem :
  bar_bytes mem ->
  bar_address mem =
  mkWireSocketAddr dxs_guest_llcm_use_ipv6
    (if dxs_guest_llcm_use_ipv6 then reverse mem else reverse (take 4 mem) ++ replicate 12 0) 0.
Proof using.
  intros [Hl Hb]. unfold bar_address, fhtonll, fntohl, fhtonl.
  assert (enc : forall n (l : list Z), length l = n -> Forall byte_ok l ->
            le_encode n (byteswap n (le_decode l)) = reverse l).
  { intros n l Hn Hf. rewrite le_encode_byteswap. f_equal. rewrite <- Hn. by apply le_encode_decode. }
  destruct dxs_guest_llcm_use_ipv6; f_equal.
  - rewrite !enc; [|rewrite ?length_take, ?length_drop, ?Hl; done || eauto using Forall_take, Forall_drop..].
    by rewrite <- reverse_app, take_drop.
  - f_equal. apply enc; [rewrite length_take, Hl; done|by apply Forall_take].
Qed.

(** The BAR has the address: as a whole, or, for IPv6, its first half with
    zeros in the second. *)
Definition bar_matches (address : WireSocketAddr) (mem : list Z) : Prop :=
  WireSocketAddr_is_ipv6 address = dxs_guest_llcm_use_ipv6
  /\ WireSocketAddr_port address = 0
  /\ (WireSocketAddr_addr address =
        (if dxs_guest_llcm_use_ipv6 then reverse mem else reverse (take 4 mem) ++ replicate 12 0)
      \/ dxs_guest_llcm_use_ipv6 = true
         /\ take 8 (WireSocketAddr_addr address) ++ replicate 8 0 = reverse mem).

(** The device at [path] is an LLCM device whose BAR4 can be read and has the
    address. *)
Definition device_serves (address : WireSocketAddr) (dir path : string) : Prop :=
  ReadFileAsHexUint32 (path +:+ "/vendor") = Some (Ok kVendorId)
  /\ ReadFileAsHexUint32 (path +:+ "/device") = Some (Ok kDeviceId)
  /\ let c := bar (dir +:+ "/" +:+ last_part path +:+ "/resource4") in
     0 <= (bar_open c).1
     /\ match bar_mmap c with inl _ => False | inr mem => bar_matches address mem end.

#[local] Instance bar_matches_dec address mem : Decision (bar_matches address mem).
Proof using. unfold bar_matches. solve_decision. Defined.

#[local] Instance device_serves_dec address dir path : Decision (device_serves address dir path).
Proof using. unfold device_serves. cbn zeta. destruct (bar_mmap _); solve_decision. Defined.

(** [read] never fails, the BARs have 16 bytes and every address has a
    text. *)
Definition sysfs_ok : Prop :=
  (forall path, is_Some (file_read (file path)))
  /\ (forall path mem, bar_mmap (bar path) = inr mem -> bar_bytes mem)
  /\ (forall is_ipv6 bytes, is_Some (ntop is_ipv6 bytes)).

Lemma read_hex_total path : sysfs_ok -> is_Some (ReadFileAsHexUint32 path).
Proof using.
  intros (Hr & _). unfold ReadFileAsHexUint32, GetContents. destruct (Hr path) as [t ->].
  by destruct (_ <? 0); [|destruct (negb _)]; cbn; eauto.
Qed.

Lemma unpack_total address : sysfs_ok -> exists text, UnpackIpAddress ntop address = Ok text.
Proof using.
  intros (_ & _ & Hn). unfold UnpackIpAddress.
  destruct (WireSocketAddr_is_ipv6 address);
    edestruct Hn as [t ->]; eauto.
Qed.

(** One round of the loop, for a device that was read. *)
Lemma find_bdf_vip address dir bdf rest mem :
  sysfs_ok -> WireSocketAddr_port address = 0 -> bar_bytes mem ->
  ReadVipForDevice bdf dir = Ok (bar_address mem) ->
  find_bdf address dir (bdf :: rest)
  = if decide (bar_matches address mem) then Ok bdf else find_bdf address dir rest.
Proof using.
  clear glob StripAsciiWhitespace SimpleHexAtoi. intros Hs Hp Hm Hv. cbn [find_bdf]. rewrite Hv, bar_address_spec by done.
  destruct address as [v6 a port]. cbn in Hp. subst port.
  destruct (unpack_total (mkWireSocketAddr v6 a 0) Hs) as [t1 E1].
  destruct (unpack_total (mkWireSocketAddr v6 (take 8 a ++ replicate 8 0) 0) Hs) as [t2 E2].
  destruct (unpack_total (mkWireSocketAddr dxs_guest_llcm_use_ipv6 (if dxs_guest_llcm_use_ipv6 then reverse mem
    else reverse (take 4 mem) ++ replicate 12 0) 0) Hs) as [t3 E3].
  cbn [WireSocketAddr_is_ipv6 WireSocketAddr_addr WireSocketAddr_port]. rewrite E1, E2, E3. cbn [mbind StatusOr_bind].
  destruct (decide _) as [M|M]; revert M; unfold bar_matches;
    cbn [WireSocketAddr_is_ipv6 WireSocketAddr_addr WireSocketAddr_port];
    destruct dxs_guest_llcm_use_ipv6; repeat case_bool_decide; cbn [mbind StatusOr_bind orb]; naive_solver congruence.
Qed.

Lemma find_bdf_cons address dir path rest :
  sysfs_ok -> WireSocketAddr_port address = 0 ->
  ReadFileAsHexUint32 (path +:+ "/vendor") = Some (Ok kVendorId) ->
  ReadFileAsHexUint32 (path +:+ "/device") = Some (Ok kDeviceId) ->
  find_bdf address dir (last_part path :: rest)
  = if decide (device_serves address dir path) then Ok (last_part path) else find_bdf address dir rest.
Proof using.
  clear glob. intros Hs Hp Hv Hd. destruct (ReadVipForDevice (last_part path) dir) as [vip|e] eqn:E.
  - pose proof E as E'. unfold ReadVipForDevice in E'. destruct (Z.ltb_spec (bar_open (bar (dir +:+ "/" +:+ last_part path +:+ "/resource4"))).1 0) as [|Hfd]; [done|].
    destruct (bar_mmap _) as [?|mem] eqn:Em; simplify_eq.
    rewrite (find_bdf_vip _ _ _ _ mem) by (done || eapply (proj1 (proj2 Hs)), Em).
    apply decide_ext. unfold device_serves. rewrite Em. naive_solver.
  - cbn [find_bdf]. rewrite E, decide_False; [done|]. intros (_ & _ & Ho & Hb). unfold ReadVipForDevice in E.
    rewrite (proj2 (Z.ltb_ge _ _) Ho) in E. by destruct (bar_mmap _).
Qed.

Lemma device_bdfs_find address dir paths :
  sysfs_ok -> WireSocketAddr_port address = 0 ->
  exists bdfs, device_bdfs paths = Some bdfs
  /\ find_bdf address dir bdfs
     = match list_find (device_serves address dir) paths with
       | Some (_, path) => Ok (last_part path)
       | None => Err kNotFound
       end.
Proof using.
  clear glob. intros Hs Hp. induction paths as [|path paths (bdfs & E & IH)].
  { exists []. split; [done|]. cbn [find_bdf]. by destruct (unpack_total address Hs) as [t ->]. }
  cbn [device_bdfs list_find]. destruct (read_hex_total (path +:+ "/vendor") Hs) as [v Ev].
  destruct (read_hex_total (path +:+ "/device") Hs) as [d Ed]. rewrite Ev, Ed. cbn [mbind option_bind].
  assert (forall b, device_bdfs paths = Some b -> find_bdf address dir b =
    match list_find (device_serves address dir) paths with
       | Some (_, path) => Ok (last_part path) | None => Err kNotFound end) as IH' by naive_solver.
  destruct (decide (v = Ok kVendorId /\ d = Ok kDeviceId)) as [[-> ->]|Hn].
  - rewrite !bool_decide_true by done. cbn [negb]. rewrite E. eexists; split; [done|].
    rewrite find_bdf_cons by done. destruct (decide (device_serves _ _ _)); [done|].
    rewrite IH. by destruct (list_find _ _) as [[? ?]|].
  - exists bdfs. split.
    + case_bool_decide; cbn [negb]; [|done]. case_bool_decide; cbn [negb]; [naive_solver|done].
    + rewrite decide_False by (unfold device_serves; naive_solver).
      rewrite IH. by destruct (list_find _ _) as [[? ?]|].
Qed.

(** [FindLlcmBdfForNic] is a search for the first device:
    in the order of the PCI directory it returns the name of the first device
    with the identifiers of an LLCM device and a readable BAR4 that has the
    address of the NIC in host byte order (for IPv6 possibly its first half
    only); devices that cannot be read are passed over, and without such a
    device the result is kNotFound. *)
Theorem find_llcm_device address dir paths :
  sysfs_ok -> WireSocketAddr_port address = 0 -> glob (dir +:+ "/*") = GlobMatches paths ->
  FindLlcmBdfForNic address dir
  = Some match list_find (device_serves address dir) paths with
         | Some (_, path) => Ok (last_part path)
         | None => Err kNotFound
         end.
Proof using.
  intros Hs Hp Hg. unfold FindLlcmBdfForNic, GetPcieDeviceBdfs, Glob. rewrite Hg.
  by destruct (device_bdfs_find address dir paths Hs Hp) as (bdfs & -> & <-).
Qed.

(** The descriptors are closed on every path; only the mappings remain. *)
Lemma GuestLlcm_Create_os calls l r os :
  (forall fd, fd = (call_open0 calls).1 \/ fd = (call_open2 calls).1 -> fd ∉ fds os) ->
  let '(res, os') := GuestLlcm_Create calls l r os in
  fds os' = fds os
  /\ match res with
     | Ok g => exists p0 p2, g = mkGuestLlcm (mkMemmapPtr p0 0) (mkMemmapPtr p2 0)
         /\ call_mmap0 calls = inr p0 /\ call_mmap2 calls = inr p2
         /\ l <= (call_fstat0 calls).2 /\ r <= (call_fstat2 calls).2
         /\ maps os' = <[p2 := r]> (<[p0 := l]> (maps os))
     | Err _ => maps os' = maps os \/ exists p0, call_mmap0 calls = inr p0 /\ maps os' = <[p0 := l]> (maps os)
     end.
Proof using.
  clear ntop dxs_guest_llcm_use_ipv6. intros Hf. unfold GuestLlcm_Create, map_regions, check_sizes, GetFileSize.
  destruct calls as [[fd0 e0] [fd2 e2] [[s0 se0] sz0] [[s2 se2] sz2] m0 m2]; cbn in *.
  assert (forall fd (X : gset Z), fd ∉ X -> ({[fd]} ∪ X) ∖ {[fd]} = X) as C by set_solver.
  destruct (fd0 <? 0); [naive_solver|]. destruct (fd2 <? 0); [unfold os_close; cbn; rewrite C; naive_solver|].
  assert (({[fd2]} ∪ ({[fd0]} ∪ fds os)) ∖ {[fd2]} ∖ {[fd0]} = fds os) as C2
    by (apply set_eq; intros x; pose proof (Hf fd0); pose proof (Hf fd2); set_solver).
  destruct (negb (s0 =? 0)); cbn; [naive_solver|].
  destruct (Z.ltb_spec sz0 l); cbn; [naive_solver|]. destruct (negb (s2 =? 0)); cbn; [naive_solver|].
  destruct (Z.ltb_spec sz2 r); cbn; [naive_solver|]. destruct m0 as [?|p0]; cbn; [naive_solver|].
  destruct m2 as [?|p2]; cbn; [naive_solver|]. split; [done|]. exists p0, p2. repeat split; (done || lia).
Qed.

End devices.

(** ** Examples *)

(** A directory with a network card, an LLCM device of another NIC and the
    device of 10.0.0.7. *)
Definition ex_paths : list string := ["/d/0000:00:04.0"; "/d/0000:00:0c.0"; "/d/0000:00:0d.0"].

Definition ex_file (path : string) : FileCalls :=
  mkFileCalls (3, 0) (0, 0)
    (Some (if bool_decide (path = "/d/0000:00:04.0/vendor") then "8086"
           else if bool_decide (last_part path = "vendor") then "1ae0" else "84")).

Definition ex_bar (path : string) : BarCalls :=
  mkBarCalls (3, 0)
    (inr (if bool_decide (path = "/d/0000:00:0d.0/resource4") then [7; 0; 0; 10] ++ replicate 12 0
          else [8; 0; 0; 10] ++ replicate 12 0)).

Definition ex_hex (s : string) : option Z :=
  if bool_decide (s = "1ae0") then Some 0x1ae0
  else if bool_decide (s = "84") then Some 0x84 else None.

Definition ex_find : option (StatusOr string) :=
  FindLlcmBdfForNic (fun _ => kUnknown) id ex_hex (fun _ _ => Some EmptyString) ex_file ex_bar
    (fun _ => GlobMatches ex_paths) false (FromIp4 [10; 0; 0; 7] 0) "/d".

Lemma find_llcm_device_witness : ex_find = Some (Ok "0000:00:0d.0").
Proof.
  unfold ex_find. rewrite (find_llcm_device _ _ _ _ _ _ _ _ _ _ ex_paths); [by vm_compute| |done|done].
  repeat split; cbn; try by eauto.
  - injection H as <-. by case_bool_decide.
  - injection H as <-. case_bool_decide; repeat constructor; lia.
Defined.

(** The mappings of a device stay when it is destroyed, because the deleters
    do not have their size. *)
Lemma mappings_never_unmapped ErrnoToStatus calls l r os g os' :
  GuestLlcm_Create ErrnoToStatus calls l r os = (Ok g, os') -> destroy_GuestLlcm g os' = os'.
Proof.
  unfold GuestLlcm_Create, map_regions.
  destruct calls as [[fd0 e0] [fd2 e2] f0 f2 m0 m2]; cbn. intros.
  repeat (case_match; simplify_eq/=); done.
Qed.
