(* ===== verification/DxsCreate.v ===== *)
(** * Creation of the DXS clients
    (dxs/client/dxs-client.cc, Init of dxs/client/llcm-handler.cc)

    A client opens a UDP socket on the interface of its NIC, runs SCTP over it
    and introduces itself to the server; with LLCM it then waits for the
    offsets of its queues and puts the queue pair into the memory of the LLCM
    device.  The results of the system calls and the messages that arrive while
    [Init] waits are arguments. *)

From S2P Require Import Prelude Ring SpscQueuePair SpscMessaging Packed ControlCommand ControlInterface.
From S2P Require Import LlcmHandler DxsClient BufferManager SctpHandler NetIfs LlcmDevice.

Definition kDefaultDxsAddr : string := "169.254.169.254".
Definition kDefaultDxsPort : string := "55555".
Definition kBufferManagerSourcePort : string := "338".
Definition kAnyPort : string := "0".

(** ** Addresses and sockets *)

Inductive GaiResult : Type :=
  | GaiAddress (ai_addr : socketAddress)
  | EAI_SYSTEM (errno : Z)
  | GaiFailed.

(** What the kernel knows of a socket. *)
Record Socket := mkSocket {
  bound_addr : option socketAddress;
  bound_device : option string;
  peer_addr : option socketAddress
}.

(** [getaddrinfo] gives IPv4 and IPv6 addresses only. *)
Definition GetPortFromAddrInfo (ai : socketAddress) : Z :=
  match ai with
  | sin sin_port _ => ntohs sin_port
  | sin6 sin6_port _ _ _ => ntohs sin6_port
  | other_family _ => 0
  end.

Definition IsSockaddrEqual (a b : socketAddress) : bool :=
  match a, b with
  | sin _ x, sin _ y => x =? y
  | sin6 _ _ x _, sin6 _ _ y _ => bool_decide (x = y)
  | _, _ => false
  end.

(** The name of the first interface with the address; empty if there is
    none. *)
Fixpoint find_device (interfaces : list interface) (src_addr : socketAddress) : string :=
  match interfaces with
  | [] => EmptyString
  | ifa :: rest =>
      if match addr ifa with Some a => IsSockaddrEqual a src_addr | None => false end
      then name ifa else find_device rest src_addr
  end.

(** The calls on the socket, with [errno], the port [getsockname] gives in
    network byte order, and the two calls of [SctpHandler::Init]. *)
Record ChannelCalls := mkChannelCalls {
  ch_socket : Z * Z;
  ch_bind : Z * Z;
  ch_interfaces : list interface;
  ch_bindtodevice : Z * Z;
  ch_connect : Z * Z;
  ch_getsockname : Z * Z * Z;
  ch_set_rcvbuf : bool;
  ch_get_mtu : option Z
}.

(** [client_build_id]: at most 254 characters of the label, then zeros. *)
Definition build_id (build_label : list Z) : list Z :=
  let s := take 254 (until_nul build_label) in s ++ replicate (256 - length s) 0.

Section channel.
Context (ErrnoToStatus : Z -> StatusCode) (getaddrinfo : string -> string -> GaiResult).
(** The flags [dxs_socket_mtu_testonly] and [dxs_sctp_max_retransmissions]. *)
Context (dxs_socket_mtu_testonly dxs_sctp_max_retransmissions : Z).
(** The SCTP handler as a control channel, after [Init] with the options. *)
Context {S : Type} `{ControlMessageHandlerInterface S} (sctp : SctpHandler.DcSctpOptions -> S).

(** The calls between [socket] and the construction of the handler: the
    state of the socket and the port it got. *)
Definition connect_socket (calls : ChannelCalls) (dest_addr src_addr : socketAddress)
    : StatusOr Z * Socket :=
  let sk := mkSocket None None None in
  if negb ((ch_bind calls).1 =? 0) then (Err (ErrnoToStatus (ch_bind calls).2), sk)
  else
    let sk := mkSocket (Some src_addr) None None in
    let device_name := find_device (ch_interfaces calls) src_addr in
    if decide (device_name = EmptyString) then (Err kFailedPrecondition, sk)
    else if IFNAMSIZ <? Z.of_nat (String.length device_name) then (Err kInternal, sk)
    else if negb ((ch_bindtodevice calls).1 =? 0) then (Err (ErrnoToStatus (ch_bindtodevice calls).2), sk)
    else
      let sk := mkSocket (Some src_addr) (Some device_name) None in
      if negb ((ch_connect calls).1 =? 0) then (Err (ErrnoToStatus (ch_connect calls).2), sk)
      else
        let sk := mkSocket (Some src_addr) (Some device_name) (Some dest_addr) in
        let '(result, errno, sin_port) := ch_getsockname calls in
        if negb (result =? 0) then (Err (ErrnoToStatus errno), sk) else (Ok (ntohs sin_port), sk).

(** The messages a new handler sends. *)
Definition introduce (build_label : list Z) (is_buffer_manager enable_llcm : bool) (h : S) : Status * S :=
  let client_type := if is_buffer_manager then ClientType_kBufferManager else ClientType_kSnapClient in
  let init_message :=
    mkVersionedInitMessage (ControlCommand_code kVersionedInit) (ClientType_code client_type)
      (build_id build_label) kWireVersion in
  let '(st, h) := SendTyped init_message h in
  match st with
  | Err e => (Err e, h)
  | Ok _ =>
      if enable_llcm then SendTyped (mkInitLlcmMessage (ControlCommand_code kInitLlcm)) h
      else (OkStatus, h)
  end.

(** The result is the descriptor of the socket and the handler; the
    destructor of a handler that is not returned closes its socket. *)
Definition CreateControlMessageHandler (calls : ChannelCalls) (build_label : list Z)
    (nic_addr dxs_addr dxs_port source_port : string) (is_buffer_manager enable_llcm : bool)
    (socks : gmap Z Socket) : StatusOr (Z * S) * gmap Z Socket :=
  match getaddrinfo dxs_addr dxs_port with
  | EAI_SYSTEM _ | GaiFailed => (Err kInternal, socks)
  | GaiAddress dest_addr =>
      match getaddrinfo nic_addr source_port with
      | EAI_SYSTEM errno => (Err (ErrnoToStatus errno), socks)
      | GaiFailed => (Err kInternal, socks)
      | GaiAddress src_addr =>
          let '(socket_fd, errno) := ch_socket calls in
          if socket_fd <? 0 then (Err (ErrnoToStatus errno), socks)
          else
            let '(r, sk) := connect_socket calls dest_addr src_addr in
            let socks := <[socket_fd := sk]> socks in
            match r with
            | Err e => (Err e, socks)
            | Ok actual_source_port =>
                match SctpHandler.Init dxs_socket_mtu_testonly dxs_sctp_max_retransmissions
                        actual_source_port (GetPortFromAddrInfo dest_addr)
                        (ch_set_rcvbuf calls) (ch_get_mtu calls) with
                | None => (Err kInternal, delete socket_fd socks)
                | Some (_, options, _) =>
                    let '(st, h) := introduce build_label is_buffer_manager enable_llcm (sctp options) in
                    match st with
                    | Err e => (Err e, delete socket_fd socks)
                    | Ok _ => (Ok (socket_fd, h), socks)
                    end
                end
            end
      end
  end.

(** ** DxsClient::Create *)

(** [LlcmMemoryInterface]: where the queues of the client live, and what its
    destruction does to the process. *)
Class LlcmMemoryInterface (M : Type) := {
  LocalMemory : M -> Z -> Z -> Span;
  RemoteMemory : M -> Z -> Z -> Span;
  destroy_memory : M -> Os -> Os
}.

Context {M : Type} `{LlcmMemoryInterface M}.

(** The message queue over the shared memory. *)
Context {W : Type} `{MsgTransport W} (attach : SpscQueuePair -> W).

(** [message_handler_do_not_access_directly_] *)
Inductive Channel : Type :=
  | SctpChannel (h : S)
  | LlcmChannel (h : LlcmHandler W S).

#[local] Instance Channel_handler : ControlMessageHandlerInterface Channel := {|
  SendControlMessage buffer c :=
    match c with
    | SctpChannel h => let '(st, h) := SendControlMessage buffer h in (st, SctpChannel h)
    | LlcmChannel h => let '(st, h) := SendControlMessage buffer h in (st, LlcmChannel h)
    end;
  RxPoll c :=
    match c with
    | SctpChannel h => let '(h, evs) := RxPoll h in (SctpChannel h, evs)
    | LlcmChannel h => let '(h, evs) := RxPoll h in (LlcmChannel h, evs)
    end
|}.

(** [LlcmHandler] constructed over the slow handler and [Init]. *)
Definition LlcmHandler_Init (local_memory remote_memory : Span) (slow_handler : S)
    : StatusOr (LlcmHandler W S) :=
  llcmq_ ← SpscMessaging.Create local_memory remote_memory;
  Ok (mkLlcmHandler (attach llcmq_) [] (Some slow_handler)).

(** The process: its sockets, its descriptors and its mappings. *)
Record Process := mkProcess { sockets : gmap Z Socket; os : Os }.

(** The members the destructor of a client releases: the socket of its
    channel and the memory of LLCM. *)
Definition destroy_client (fd : option Z) (llcm_memory_ : option M) (p : Process) : Process :=
  mkProcess (match fd with Some fd => delete fd (sockets p) | None => sockets p end)
    (match llcm_memory_ with Some m => destroy_memory m (os p) | None => os p end).

(** The end of [Init], once the condition holds; [None] when [llcm_info_] is
    read without a value. *)
Definition finish_init (llcm_memory_ : option M) (c : DxsClient) (h : S) : option (StatusOr (Dxs Channel)) :=
  match init_result c with
  | Err e => Some (Err e)
  | Ok _ =>
      match llcm_memory_ with
      | None => Some (Ok (mkDxs c (SctpChannel h)))
      | Some m =>
          info ← llcm_info_ c;
          Some (llcm_handler ← LlcmHandler_Init
                  (LocalMemory m (reverse_llcm_queue_offset info) (reverse_llcm_queue_size info))
                  (RemoteMemory m (llcm_queue_offset info) (llcm_queue_size info)) h;
                Ok (mkDxs c (LlcmChannel llcm_handler)))
      end
  end.

(** [CreateInternal]: the constructor, [Init], and the destructor when [Init]
    fails.  [wait] are the events until [Init] wakes up, with their times.
    [None]: [Init] waits for ever, or the program aborts. *)
Definition CreateInternal (calls : ChannelCalls) (build_label : list Z) (wait : list (Z * RxEvent))
    (nic_addr dxs_addr dxs_port source_port : string) (llcm_memory : option M)
    (send_close_on_teardown : bool) (p : Process) : option (StatusOr (Dxs Channel) * Process) :=
  let enable_llcm := bool_decide (is_Some llcm_memory) in
  let c := new_DxsClient send_close_on_teardown in
  let '(r, socks) :=
    CreateControlMessageHandler calls build_label nic_addr dxs_addr dxs_port source_port false enable_llcm
      (sockets p) in
  let p := mkProcess socks (os p) in
  match r with
  | Err e => if destroy_DxsClient c then Some (Err e, destroy_client None llcm_memory p) else None
  | Ok (fd, h) =>
      let c := fold_left (fun c e => deliver e.1 c e.2) wait c in
      if negb (init_done enable_llcm c) then None
      else
        r ← finish_init llcm_memory c h;
        match r with
        | Ok w => Some (Ok w, p)
        | Err e => if destroy_DxsClient c then Some (Err e, destroy_client (Some fd) llcm_memory p) else None
        end
  end.

(** ** Lemmas *)

Lemma find_device_spec interfaces src :
  find_device interfaces src <> EmptyString ->
  exists ifa a, ifa ∈ interfaces /\ addr ifa = Some a /\ IsSockaddrEqual a src = true
                /\ find_device interfaces src = name ifa.
Proof using.
  clear. induction interfaces as [|ifa rest IH]; cbn [find_device]; [done|].
  destruct (addr ifa) as [a|] eqn:E; [destruct (IsSockaddrEqual a src) eqn:Ea|]; intros Hn.
  - exists ifa, a. split_and!; [left|..]; done.
  - destruct (IH Hn) as (i & b & ? & ?). exists i, b. split; [by right|done].
  - destruct (IH Hn) as (i & b & ? & ?). exists i, b. split; [by right|done].
Qed.

(** A socket on the interface of the source, connected to the server. *)
Definition nic_socket (calls : ChannelCalls) (src dest : socketAddress) (sk : Socket) : Prop :=
  exists ifa a, ifa ∈ ch_interfaces calls /\ addr ifa = Some a /\ IsSockaddrEqual a src = true
    /\ sk = mkSocket (Some src) (Some (name ifa)) (Some dest).

Lemma connect_socket_spec calls dest src port sk :
  connect_socket calls dest src = (Ok port, sk) -> nic_socket calls src dest sk.
Proof using.
  unfold connect_socket. intros E. repeat case_match; simplify_eq/=.
  destruct (find_device_spec _ _ ltac:(eassumption)) as (ifa & a & ? & ? & ? & ->). by exists ifa, a.
Qed.

(** A channel: its socket, and the handler after the introduction. *)
Definition channel_made (calls : ChannelCalls) (build_label : list Z)
    (nic_addr dxs_addr dxs_port source_port : string) (is_buffer_manager enable_llcm : bool)
    (socks : gmap Z Socket) (h : S) (socks' : gmap Z Socket) : Prop :=
  exists dest src sk options,
    getaddrinfo dxs_addr dxs_port = GaiAddress dest /\ getaddrinfo nic_addr source_port = GaiAddress src
    /\ nic_socket calls src dest sk /\ socks' = <[(ch_socket calls).1 := sk]> socks
    /\ SctpHandler.remote_port options = GetPortFromAddrInfo dest
    /\ introduce build_label is_buffer_manager enable_llcm (sctp options) = (OkStatus, h).

(** The socket is left open when one of the calls before the construction of
    the handler fails. *)
Definition socket_left (calls : ChannelCalls) (socks socks' : gmap Z Socket) : Prop :=
  exists dest src e sk, connect_socket calls dest src = (Err e, sk)
                        /\ socks' = <[(ch_socket calls).1 := sk]> socks.

Lemma CreateControlMessageHandler_spec calls label nic dxs dport sport bm llcm socks :
  socks !! (ch_socket calls).1 = None ->
  let '(r, socks') := CreateControlMessageHandler calls label nic dxs dport sport bm llcm socks in
  match r with
  | Ok (fd, h) => fd = (ch_socket calls).1 /\ channel_made calls label nic dxs dport sport bm llcm socks h socks'
  | Err _ => socks' = socks \/ socket_left calls socks socks'
  end.
Proof using.
  intros Hf. unfold CreateControlMessageHandler.
  destruct (getaddrinfo dxs dport) as [dest| |] eqn:Ed; [|naive_solver..].
  destruct (getaddrinfo nic sport) as [src| |] eqn:Es; [|naive_solver..].
  destruct (ch_socket calls) as [fd errno] eqn:Ec; cbn in Hf. destruct (fd <? 0); [naive_solver|].
  destruct (connect_socket calls dest src) as [[port|e] sk] eqn:Ek.
  2: { right. exists dest, src, e, sk. by rewrite Ec. }
  unfold SctpHandler.Init. destruct (negb (ch_set_rcvbuf calls)).
  { left. by rewrite delete_insert_id. }
  destruct (if _ =? 0 then _ else _) as [mtu|]; cbn [mbind option_bind]; [|left; by rewrite delete_insert_id].
  destruct (introduce label bm llcm _) as [[[]|e] h] eqn:Ei; [|left; by rewrite delete_insert_id].
  split; [done|]. exists dest, src, sk. eexists. rewrite Ec. split_and!; [done..| | | |exact Ei]; [|done..].
  eapply connect_socket_spec, Ek.
Qed.

(** The messages of the server register no objects. *)
Lemma wait_registers_nothing close wait :
  destroy_DxsClient (fold_left (fun c e => deliver e.1 c e.2) wait (new_DxsClient close)) = true.
Proof using.
  clear. assert (forall c, registry_eq c (fold_left (fun c e => deliver e.1 c e.2) wait c)) as R.
  { induction wait as [|e wait IH]; intros c; cbn; [apply registry_eq_refl|].
    eapply registry_eq_trans; [apply deliver_registry|apply IH]. }
  destruct (R (new_DxsClient close)) as (H1 & H2 & H3 & H4 & _). clear R.
  unfold destroy_DxsClient. revert H1 H2 H3 H4. cbn [new_DxsClient outstanding_listen_sockets_
    outstanding_data_sockets_ outstanding_send_ops_ outstanding_linearized_recv_ops_].
  rewrite !dom_empty_L, !dom_empty_iff_L. intros H1 H2 H3 H4. by rewrite H1, H2, H3, H4, !bool_decide_true.
Qed.

(** The client after the events of [wait]. *)
Definition waited (send_close_on_teardown : bool) (wait : list (Z * RxEvent)) : DxsClient :=
  fold_left (fun c e => deliver e.1 c e.2) wait (new_DxsClient send_close_on_teardown).

(** The channel of a client: SCTP, or LLCM over SCTP with its queues where
    the server said. *)
Definition channel_set_up (llcm_memory : option M) (c : DxsClient) (h : S) (ch : Channel) : Prop :=
  match llcm_memory with
  | None => ch = SctpChannel h
  | Some m => exists info q, llcm_info_ c = Some info
      /\ SpscMessaging.Create
           (LocalMemory m (reverse_llcm_queue_offset info) (reverse_llcm_queue_size info))
           (RemoteMemory m (llcm_queue_offset info) (llcm_queue_size info)) = Ok q
      /\ ch = LlcmChannel (mkLlcmHandler (attach q) [] (Some h))
  end.

Lemma finish_init_spec m c h :
  init_done (bool_decide (is_Some m)) c = true ->
  match finish_init m c h with
  | Some (Ok w) => client w = c /\ initialized_ c = true /\ failed_ c = false /\ channel_set_up m c h (channel w)
  | Some (Err _) => True
  | None => False
  end.
Proof using.
  unfold init_done, finish_init, init_result, LlcmHandler_Init, channel_set_up.
  destruct (failed_ c); [done|]. destruct (initialized_ c); [|done]. cbn [orb andb].
  destruct m as [m|]; [|by repeat split]. rewrite (bool_decide_true (is_Some (Some m))) by eauto. cbn [andb].
  destruct (llcm_info_ c) as [info|]; cbn [mbind option_bind].
  2: { by rewrite bool_decide_false by (by intros [? ?]). }
  intros _. destruct (SpscMessaging.Create _ _) as [q|e] eqn:Eq; cbn [mbind StatusOr_bind]; [|done].
  repeat split. by exists info, q.
Qed.

Lemma CreateInternal_spec calls label wait nic dxs dport sport m close p :
  sockets p !! (ch_socket calls).1 = None ->
  let c := waited close wait in
  match CreateInternal calls label wait nic dxs dport sport m close p with
  | Some (Ok w, p') =>
      exists h, channel_made calls label nic dxs dport sport false (bool_decide (is_Some m)) (sockets p) h (sockets p')
      /\ os p' = os p /\ client w = c /\ initialized_ c = true /\ failed_ c = false
      /\ channel_set_up m c h (channel w)
  | Some (Err _, p') =>
      (sockets p' = sockets p \/ socket_left calls (sockets p) (sockets p'))
      /\ os p' = match m with Some m => destroy_memory m (os p) | None => os p end
  | None => init_done (bool_decide (is_Some m)) c = false
  end.
Proof using.
  intros Hf. cbn zeta. unfold CreateInternal. fold (waited close wait).
  pose proof (CreateControlMessageHandler_spec calls label nic dxs dport sport false (bool_decide (is_Some m)) _ Hf) as R.
  destruct (CreateControlMessageHandler _ _ _ _ _ _ _ _) as [[[fd h]|e] socks]; [destruct R as [-> R]|].
  - destruct (init_done _ _) eqn:Ed; cbn [negb]; [|done].
    pose proof (finish_init_spec m (waited close wait) h Ed) as F.
    destruct (finish_init _ _ _) as [[w|e]|]; cbn [mbind option_bind]; [|clear F|done].
    + exists h. naive_solver.
    + unfold waited. rewrite wait_registers_nothing. unfold destroy_client; cbn [sockets os].
      destruct R as (dest & src & sk & o & _ & _ & _ & -> & _). rewrite delete_insert_id by done. auto.
  - pose proof (wait_registers_nothing close []) as E. cbn [fold_left] in E. by rewrite E.
Qed.

(** ** BufferManager::Create *)

Record BufferManagerOptions := mkBufferManagerOptions {
  source_addr : string;
  source_port : string;
  dest_addr_override : option string;
  dest_port : string;
  periodic_stats_options : option (list Z)
}.

(** The options of [BufferManager::Create] for a NIC alone. *)
Definition nic_options (nic_addr : string) : BufferManagerOptions :=
  mkBufferManagerOptions nic_addr kBufferManagerSourcePort None kDefaultDxsPort None.

(** The options for an explicit server. *)
Definition server_options (nic_addr dxs_addr dxs_port source_port : string) : BufferManagerOptions :=
  mkBufferManagerOptions nic_addr source_port (Some dxs_addr) dxs_port None.

(** The address the manager connects to; [pton4] is [inet_pton] for IPv4,
    and without an override only IPv4 is supported. *)
Definition manager_dest (pton4 : string -> option (list Z)) (options : BufferManagerOptions)
    : StatusOr string :=
  match dest_addr_override options with
  | Some a => Ok a
  | None => if pton4 (source_addr options) is Some _ then Ok kDefaultDxsAddr else Err kInvalidArgument
  end.

(** [BufferManager::Create] and [Init] with the events until it wakes up; a
    manager that is not returned closes its socket. *)
Definition BufferManager_Create {Stats} (ParseStats : list Z -> option Stats)
    (pton4 : string -> option (list Z)) (calls : ChannelCalls) (build_label : list Z) (wait : list RxEvent)
    (options : BufferManagerOptions) (b : BufferManager Stats) (socks : gmap Z Socket)
    : option (StatusOr (Bm Stats S) * gmap Z Socket) :=
  match manager_dest pton4 options with
  | Err e => Some (Err e, socks)
  | Ok dest_addr =>
      let '(r, socks) :=
        CreateControlMessageHandler calls build_label (source_addr options) dest_addr (dest_port options)
          (source_port options) true false socks in
      match r with
      | Err e => Some (Err e, socks)
      | Ok (fd, h) =>
          '(st, manager) ← BufferManager.Init ParseStats wait (periodic_stats_options options) (mkBm b h);
          Some match st with
               | Ok _ => (Ok manager, socks)
               | Err e => (Err e, delete fd socks)
               end
      end
  end.

End channel.

#[export] Instance GuestLlcmMemory : LlcmMemoryInterface GuestLlcm := {|
  LocalMemory := GetLocalMemory;
  RemoteMemory := GetRemoteMemory;
  destroy_memory := destroy_GuestLlcm
|}.

(** ** DxsClient::Create *)

(** The PCI directory, as [GuestLlcmDevice] sees it. *)
Record Pci := mkPci {
  pci_StripAsciiWhitespace : string -> string;
  pci_SimpleHexAtoi : string -> option Z;
  pci_ntop : bool -> list Z -> option string;
  pci_file : string -> FileCalls;
  pci_bar : string -> BarCalls;
  pci_glob : string -> GlobResult;
  pci_use_ipv6 : bool;
  pci_calls : string -> LlcmCalls
}.

Section create.
Context (ErrnoToStatus : Z -> StatusCode) (getaddrinfo : string -> string -> GaiResult).
Context (pton4 pton6 : string -> option (list Z)) (pci : Pci).
Context (dxs_socket_mtu_testonly dxs_sctp_max_retransmissions : Z).
Context {S : Type} `{ControlMessageHandlerInterface S} (sctp : SctpHandler.DcSctpOptions -> S).
Context {W : Type} `{MsgTransport W} (attach : SpscQueuePair -> W).

Definition llcm_device (local_address : WireSocketAddr) (llcm_device_directory : string) (os : Os)
    : option (StatusOr GuestLlcm * Os) :=
  GuestLlcmDevice_Init ErrnoToStatus (pci_StripAsciiWhitespace pci) (pci_SimpleHexAtoi pci) (pci_ntop pci)
    (pci_file pci) (pci_bar pci) (pci_glob pci) (pci_use_ipv6 pci) local_address llcm_device_directory
    (pci_calls pci) os.

Definition DxsClient_Create (calls : ChannelCalls) (build_label : list Z) (wait : list (Z * RxEvent))
    (nic_addr dxs_addr dxs_port source_port : string) (enable_llcm : bool) (llcm_device_directory : string)
    (send_close_on_teardown : bool) (p : Process) : option (StatusOr (Dxs (Channel (S:=S) (W:=W))) * Process) :=
  let create :=
    CreateInternal ErrnoToStatus getaddrinfo dxs_socket_mtu_testonly dxs_sctp_max_retransmissions sctp attach
      calls build_label wait nic_addr dxs_addr dxs_port source_port in
  if negb enable_llcm then create None send_close_on_teardown p
  else
    match PackIpAddress pton4 pton6 nic_addr 0 with
    | Err e => Some (Err e, p)
    | Ok local_address =>
        '(r, o) ← llcm_device local_address llcm_device_directory (os p);
        let p := mkProcess (sockets p) o in
        match r with
        | Err e => Some (Err e, p)
        | Ok device => create (Some device) send_close_on_teardown p
        end
    end.

(** [Create] for the default server. *)
Definition DxsClient_Create_nic (calls : ChannelCalls) (build_label : list Z) (wait : list (Z * RxEvent))
    (nic_addr : string) (enable_llcm : bool) (llcm_device_directory : string) (send_close_on_teardown : bool)
    (p : Process) : option (StatusOr (Dxs (Channel (S:=S) (W:=W))) * Process) :=
  DxsClient_Create calls build_label wait nic_addr kDefaultDxsAddr kDefaultDxsPort kAnyPort enable_llcm
    llcm_device_directory send_close_on_teardown p.

Lemma llcm_device_total local_address dir o :
  sysfs_ok (pci_ntop pci) (pci_file pci) (pci_bar pci) -> WireSocketAddr_port local_address = 0 ->
  exists r, llcm_device local_address dir o = Some r.
Proof using.
  intros Hs Hp. unfold llcm_device, GuestLlcmDevice_Init, FindLlcmBdfForNic, GetPcieDeviceBdfs.
  destruct (Glob _ _) as [paths|]; cbn; [|by eauto].
  edestruct (device_bdfs_find ErrnoToStatus (pci_StripAsciiWhitespace pci) (pci_SimpleHexAtoi pci) (pci_ntop pci)
    (pci_file pci) (pci_bar pci) (pci_use_ipv6 pci) local_address dir paths) as (bdfs & -> & _); [done..|].
  cbn. destruct (find_bdf _ _ _ _ _ _); by eauto.
Qed.

(** The channel of a client with LLCM. *)
Lemma created_with_llcm calls label wait nic dxs dport sport dir close p w p' :
  sockets p !! (ch_socket calls).1 = None ->
  DxsClient_Create calls label wait nic dxs dport sport true dir close p = Some (Ok w, p') ->
  exists (g : GuestLlcm) h, channel_set_up attach (Some g) (client w) h (channel w).
Proof using.
  intros Hf E. unfold DxsClient_Create in E. cbn [negb] in E.
  destruct (PackIpAddress pton4 pton6 nic 0) as [a|]; [|done].
  destruct (llcm_device a dir (os p)) as [[[g|e] o]|]; cbn [mbind option_bind] in E; [|done..].
  pose proof (CreateInternal_spec ErrnoToStatus getaddrinfo dxs_socket_mtu_testonly dxs_sctp_max_retransmissions
    sctp attach calls label wait nic dxs dport sport (Some g) close (mkProcess (sockets p) o) Hf) as R.
  cbn zeta in R. rewrite E in R. destruct R as (h & _ & _ & <- & _ & _ & R). by exists g, h.
Qed.

(** C13 (functional).  A client [DxsClient::Create] returns has one socket,
    bound to the address of the NIC and to an interface with that address and
    connected to the server; it has introduced itself over SCTP, the server has
    accepted it, and its channel is SCTP or LLCM with the queues in the device
    memory at the offsets the server gave.  When [Create] fails, its socket is
    closed again, except when a call before the construction of the SCTP handler
    failed.  It waits for ever only if the server does not answer. *)
Theorem client_created calls label wait nic dxs dport sport llcm dir close p :
  sockets p !! (ch_socket calls).1 = None -> sysfs_ok (pci_ntop pci) (pci_file pci) (pci_bar pci) ->
  let c := waited close wait in
  match DxsClient_Create calls label wait nic dxs dport sport llcm dir close p with
  | Some (Ok w, p') =>
      exists h device,
      channel_made getaddrinfo sctp calls label nic dxs dport sport false llcm
        (sockets p) h (sockets p')
      /\ client w = c /\ initialized_ c = true /\ failed_ c = false
      /\ channel_set_up attach device c h (channel w)
      /\ (if llcm then exists addr g, device = Some g /\ PackIpAddress pton4 pton6 nic 0 = Ok addr
            /\ llcm_device addr dir (os p) = Some (Ok g, os p')
          else device = None /\ os p' = os p)
  | Some (Err _, p') =>
      sockets p' = sockets p \/ socket_left ErrnoToStatus calls (sockets p) (sockets p')
  | None => init_done llcm c = false
  end.
Proof using.
  intros Hf Hs. cbn zeta. unfold DxsClient_Create. destruct llcm; cbn [negb].
  - destruct (PackIpAddress pton4 pton6 nic 0) as [a|] eqn:Ea; [|by left].
    assert (WireSocketAddr_port a = 0) as Hp.
    { unfold PackIpAddress in Ea. by repeat case_match; simplify_eq. }
    destruct (llcm_device_total a dir (os p) Hs Hp) as [[[g|e] o] Eg]; rewrite Eg; cbn [mbind option_bind]; [|by left].
    epose proof (CreateInternal_spec ErrnoToStatus getaddrinfo dxs_socket_mtu_testonly dxs_sctp_max_retransmissions
      sctp attach calls label wait nic dxs dport sport (Some g) close (mkProcess (sockets p) o) Hf) as R.
    rewrite bool_decide_true in R by eauto. cbn zeta in R. destruct (CreateInternal _ _ _ _ _ _ _ _ _ _ _ _ _ _ _ _) as [[[w|e] p']|].
    + destruct R as (h & R1 & R2 & R3). exists h, (Some g). cbn in R2. rewrite R2. naive_solver.
    + by destruct R.
    + done.
  - epose proof (CreateInternal_spec ErrnoToStatus getaddrinfo dxs_socket_mtu_testonly dxs_sctp_max_retransmissions
      sctp attach calls label wait nic dxs dport sport (@None GuestLlcm) close p Hf) as R.
    rewrite bool_decide_false in R by (by intros [? ?]). cbn zeta in R. destruct (CreateInternal _ _ _ _ _ _ _ _ _ _ _ _ _ _ _ _) as [[[w|e] p']|].
    + destruct R as (h & R1 & R2 & R3). exists h, None. naive_solver.
    + by destruct R.
    + done.
Qed.

End create.

(** ** The low-latency queues of a new client *)

(** The server has its end of the queues over the regions it announced in
    [info], all of it still zero: [srv_local] and [srv_remote] are its regions,
    [mem] and [mem'] the contents of the client's and of the server's own. *)
Definition server_ready (info : LlcmInfo) (srv_local srv_remote : Span) (mem mem' : Region) : Prop :=
  size srv_local = llcm_queue_size info /\ size srv_remote = reverse_llcm_queue_size info
  /\ kDoorbellsSize <= llcm_queue_size info < 2 ^ 64 /\ kDoorbellsSize <= reverse_llcm_queue_size info < 2 ^ 64
  /\ doorbells mem = mkDoorbells 0 0 /\ doorbells mem' = mkDoorbells 0 0
  /\ Zlen (ring mem) = reverse_llcm_queue_size info - kDoorbellsSize
  /\ Zlen (ring mem') = llcm_queue_size info - kDoorbellsSize.

Lemma regions_connect local remote srv_local srv_remote q q' mem mem' info :
  SpscMessaging.Create local remote = Ok q -> SpscMessaging.Create srv_local srv_remote = Ok q' ->
  size local = reverse_llcm_queue_size info -> size remote = llcm_queue_size info ->
  server_ready info srv_local srv_remote mem mem' ->
  connected (mkNode q mem None None) (mkNode q' mem' None None).
Proof.
  unfold SpscMessaging.Create. intros Hq Hq' Hl Hr (S1 & S2 & B1 & B2 & D1 & D2 & R1 & R2).
  do 8 eexists. cbn [qp region sbatch rbatch]. split; [exact Hq|split; [exact Hq'|]].
  unfold region_ring, subspan. cbn [size]. rewrite Hl, Hr, S1, S2. unfold kDoorbellsSize, kPageSize in *.
  split_and!; (done || lia).
Qed.


(** ** Examples: the NIC 10.0.0.7 on eth1 *)

#[local] Existing Instance LogChannel.

Definition ex_src : socketAddress := sin 0 0x0700000a.
Definition ex_dest : socketAddress := sin (htons 55555) 0xfea9fea9.

Definition ex_gai (host port : string) : GaiResult :=
  if bool_decide (host = "10.0.0.7") then GaiAddress ex_src
  else if bool_decide (host = kDefaultDxsAddr) then GaiAddress ex_dest else GaiFailed.

Definition ex_pton4 (s : string) : option (list Z) :=
  if bool_decide (s = "10.0.0.7") then Some [10; 0; 0; 7] else None.

Definition ex_channel_calls (bind : Z * Z) : ChannelCalls :=
  mkChannelCalls (5, 0) bind
    [mkInterface "lo" (Some (sin 0 0x0100007f)) None; mkInterface "eth1" (Some ex_src) None]
    (0, 0) (0, 0) (0, 0, 1) true (Some 1460).

(** BAR0 is mapped at 1 GiB, BAR2 at 2 GiB. *)
Definition ex_pci : Pci :=
  mkPci id ex_hex (fun _ _ => Some EmptyString) ex_file ex_bar (fun _ => GlobMatches ex_paths) false
    (fun _ => mkLlcmCalls (3, 0) (4, 0) (0, 0, Z.shiftl 8 20) (0, 0, Z.shiftl 8 20)
                (inr (2 ^ 30)) (inr (2 ^ 31))).

(** The server puts the queues at an offset of 64 KiB, with rings of a
    page. *)
Definition ex_wait : list (Z * RxEvent) :=
  [(1, RxMessage ex_init_ack);
   (2, RxMessage (encode (mkInitLlcmAckMessage (ControlCommand_code kInitLlcmAck) 0 65536 8192 65536 8192)))].

Definition ex_process : Process := mkProcess ∅ (mkOs ∅ ∅).
Definition ex_mem : Region := mkRegion (mkDoorbells 0 0) (replicate 4096 0).
Definition ex_server : SpscQueuePair := new_SpscQueuePair (mkSpan 8192 4096) (mkSpan 16384 4096).

Definition ex_create (bind : Z * Z) :=
  DxsClient_Create (fun _ => kUnknown) ex_gai ex_pton4 (fun _ => None) ex_pci 0 60
    (fun _ => []) (fun q => mkLink q ex_mem ex_server ex_mem) (ex_channel_calls bind) [100; 120; 115] ex_wait
    "10.0.0.7" kDefaultDxsAddr kDefaultDxsPort kAnyPort true "/d" true ex_process.

Definition ex_client : Dxs (Channel (S := list (list Z)) (W := Link)) :=
  match ex_create (0, 0) with Some (Ok w, _) => w | _ => mkDxs (new_DxsClient true) (SctpChannel []) end.

Definition ex_after : Process := match ex_create (0, 0) with Some (_, p) => p | None => ex_process end.

Lemma ex_create_ok : ex_create (0, 0) = Some (Ok ex_client, ex_after).
Proof. by vm_compute. Qed.

Lemma ex_sysfs_ok : sysfs_ok (pci_ntop ex_pci) (pci_file ex_pci) (pci_bar ex_pci).
Proof.
  repeat split; cbn; try by eauto.
  - injection H as <-. by case_bool_decide.
  - injection H as <-. case_bool_decide; repeat constructor; lia.
Qed.

Lemma client_created_witness :
  initialized_ (client ex_client) = true
  /\ exists sk, sockets ex_after !! 5 = Some sk /\ bound_device sk = Some "eth1".
Proof.
  pose proof (client_created (fun _ => kUnknown) ex_gai ex_pton4 (fun _ => None) ex_pci 0 60
    (fun _ => []) (fun q => mkLink q ex_mem ex_server ex_mem) (ex_channel_calls (0, 0)) [100; 120; 115] ex_wait
    "10.0.0.7" kDefaultDxsAddr kDefaultDxsPort kAnyPort true "/d" true ex_process eq_refl ex_sysfs_ok) as R.
  cbn zeta in R. fold (ex_create (0, 0)) in R. rewrite ex_create_ok in R.
  destruct R as (h & device & Hch & -> & Hi & _). split; [exact Hi|].
  destruct Hch as (dest & src & sk & o & _ & Es & (ifa & a & Hin & Ha & Heq & ->) & -> & _).
  eexists; split; [reflexivity|]. injection Es as <-.
  cbn in Hin. apply elem_of_cons in Hin as [->|Hin]; [by injection Ha as <-|].
  by apply list_elem_of_singleton in Hin as ->.
Defined.


(** When [bind] fails, the socket stays open. *)
Example failed_bind_leaves_socket :
  exists e p', ex_create (-1, 98) = Some (Err e, p') /\ dom (sockets p') = {[5]}.
Proof. eexists _, _. split; [by vm_compute|]. by vm_compute. Qed.
