(* ===== verification/Payload.v ===== *)
(** * Random payloads (nccl_cuda/cuda_common.cc)

    A kernel fills GPU memory with random words, or checks that memory has
    them: thread [t] of the block handles the words [t], [t + 1024], ..., with a
    random number generator of its own.  The threads of a launch take their
    iterations in an order given by an arbitrary schedule, after which all of
    them run to their end; the theorem holds for every schedule. *)

From S2P Require Import Prelude.

(** A thread: the variable [i] of its loop, how many numbers it has drawn,
    and whether it has left the loop. *)
Record RngThread := mkRngThread { th_i : Z; drawn : nat; th_done : bool }.

(** The words of the buffer, the shared flag and the threads. *)
Record RngState := mkRngState { words : list Z; mismatch_happened : bool; threads : list RngThread }.

Section rng.
(** The [k]-th number of [curand] after [curand_init(seed, thread, 0)]. *)
Context (curand : Z -> Z -> nat -> Z).
Context (seed num_elems : Z).

Definition blockDim : Z := 1024.

(** The number for word [i]: the first and the last have special values. *)
Definition rand_num (i number : Z) : Z :=
  if i =? 0 then u32 seed
  else if i =? u64 (num_elems - 1) then u32 (u64 (seed + 1))
  else number.

Definition set_thread (t : nat) (th : RngThread) (st : RngState) : RngState :=
  mkRngState (words st) (mismatch_happened st) (<[t := th]> (threads st)).

(** An iteration of thread [t]; [match_] is whether the kernel validates.
    [None] is an access outside of the buffer. *)
Definition iteration (match_ : bool) (t : nat) (st : RngState) : option RngState :=
  match threads st !! t with
  | None => Some st
  | Some th =>
      if th_done th then Some st
      else
        let leave := mkRngThread (th_i th) (drawn th) true in
        if negb (th_i th <? num_elems) then Some (set_thread t leave st)
        else if mismatch_happened st then Some (set_thread t leave st)
        else
          let r := rand_num (th_i th) (curand seed (Z.of_nat t) (drawn th)) in
          let th := mkRngThread (u64 (th_i th + blockDim)) (S (drawn th)) false in
          old ← words st !! Z.to_nat (th_i leave);
          if negb match_
          then Some (set_thread t th (mkRngState (<[Z.to_nat (th_i leave) := r]> (words st))
                                        (mismatch_happened st) (threads st)))
          else if negb (old =? r)
          then Some (set_thread t leave (mkRngState (words st) true (threads st)))
          else Some (set_thread t th st)
  end.

Fixpoint iterations (match_ : bool) (ts : list nat) (st : RngState) : option RngState :=
  match ts with
  | [] => Some st
  | t :: ts => st ← iteration match_ t st; iterations match_ ts st
  end.

(** All threads run to their end; a thread has at most one iteration per
    word and the one that leaves the loop. *)
Definition to_end : list nat :=
  seq 0 (Z.to_nat blockDim) ≫= fun t => replicate (S (Z.to_nat num_elems)) t.

Definition rng_kernel (match_ : bool) (schedule : list nat) (data : list Z) : option RngState :=
  iterations match_ (schedule ++ to_end)
    (mkRngState data false ((fun t => mkRngThread t 0 false) <$> seqZ 0 blockDim)).

(** ** Lemmas *)

(** The payload: word [i] is number [i / 1024] of thread [i mod 1024]. *)
Definition payload_word (i : Z) : Z :=
  rand_num i (curand seed (i mod blockDim) (Z.to_nat (i / blockDim))).

Definition payload : list Z := payload_word <$> seqZ 0 num_elems.

Definition thread_ok (st : RngState) (t : nat) (th : RngThread) : Prop :=
  th_i th = Z.of_nat t + Z.of_nat (drawn th) * blockDim
  /\ (th_done th = true -> num_elems <= th_i th \/ mismatch_happened st = true).

(** Every word a thread has gone past is as in the payload, and the flag is
    set only by a word that is not. *)
Record rng_inv (match_ : bool) (data : list Z) (st : RngState) : Prop := {
  inv_threads : forall t th, threads st !! t = Some th -> thread_ok st t th;
  inv_block : length (threads st) = Z.to_nat blockDim;
  inv_length : Zlen (words st) = num_elems;
  inv_passed : forall t th k, threads st !! t = Some th -> (k < drawn th)%nat ->
    Z.of_nat t + Z.of_nat k * blockDim < num_elems ->
    words st !! Z.to_nat (Z.of_nat t + Z.of_nat k * blockDim)
    = Some (payload_word (Z.of_nat t + Z.of_nat k * blockDim));
  inv_mismatch : mismatch_happened st = true -> match_ = true /\ data <> payload;
  inv_data : match_ = true -> words st = data
}.

Hypothesis Hn : 0 <= num_elems <= 2 ^ 62.

Lemma payload_word_thread t k :
  (t < Z.to_nat blockDim)%nat ->
  payload_word (Z.of_nat t + Z.of_nat k * blockDim)
  = rand_num (Z.of_nat t + Z.of_nat k * blockDim) (curand seed (Z.of_nat t) k).
Proof using.
  clear Hn. unfold blockDim. intros Ht. unfold payload_word. f_equal. unfold blockDim.
  rewrite Z.mod_add, Z.mod_small, Z.div_add, Z.div_small by lia. f_equal. lia.
Qed.

Lemma payload_lookup i : 0 <= i < num_elems -> payload !! Z.to_nat i = Some (payload_word i).
Proof using.
  clear Hn. intros Hi. unfold payload. rewrite list_lookup_fmap, lookup_seqZ_lt by lia. cbn. do 2 f_equal. lia.
Qed.

(** A thread that leaves the loop. *)
Lemma leave_inv match_ data t st th flag :
  rng_inv match_ data st -> threads st !! t = Some th ->
  (mismatch_happened st = true -> flag = true) -> (flag = true -> match_ = true /\ data <> payload) ->
  (num_elems <= th_i th \/ flag = true) ->
  rng_inv match_ data (set_thread t (mkRngThread (th_i th) (drawn th) true) (mkRngState (words st) flag (threads st))).
Proof using.
  clear Hn. intros I Et Hf Hm Hl. destruct (inv_threads _ _ _ I t th Et) as [Hi _].
  split; cbn [set_thread threads words mismatch_happened].
  - intros u uh [(<- & <- & _)|[Hne Eu]]%list_lookup_insert_Some; [done|].
    destruct (inv_threads _ _ _ I u uh Eu) as [? Hdu]. split; [done|]. cbn. naive_solver.
  - rewrite length_insert. apply I.
  - apply I.
  - intros u uh k [(<- & <- & _)|[Hne Eu]]%list_lookup_insert_Some; [|by apply I].
    apply (inv_passed _ _ _ I t th k Et).
  - done.
  - apply I.
Qed.

(** A thread that goes on to its next word, with [ws] the words. *)
Lemma advance_inv match_ data t st th ws :
  rng_inv match_ data st -> threads st !! t = Some th -> th_i th < num_elems ->
  (forall j, j <> Z.to_nat (th_i th) -> ws !! j = words st !! j) -> length ws = length (words st) ->
  ws !! Z.to_nat (th_i th) = Some (payload_word (th_i th)) -> (match_ = true -> ws = words st) ->
  rng_inv match_ data (set_thread t (mkRngThread (u64 (th_i th + blockDim)) (S (drawn th)) false)
                         (mkRngState ws (mismatch_happened st) (threads st))).
Proof using Hn.
  intros I Et Hlt Hsame Hlen Hw Hm. destruct (inv_threads _ _ _ I t th Et) as [Hi _].
  split; cbn [set_thread threads words mismatch_happened].
  - intros u uh [(<- & <- & _)|[Hne Eu]]%list_lookup_insert_Some; [|by apply I].
    split; [|done]. cbn. rewrite u64_small by (unfold is_u64, blockDim in *; lia). rewrite Hi. lia.
  - rewrite length_insert. apply I.
  - unfold Zlen. rewrite Hlen. apply I.
  - assert (forall u uh k, threads st !! u = Some uh -> (k < drawn uh)%nat ->
      Z.of_nat u + Z.of_nat k * blockDim < num_elems ->
      ws !! Z.to_nat (Z.of_nat u + Z.of_nat k * blockDim)
      = Some (payload_word (Z.of_nat u + Z.of_nat k * blockDim))) as Hold.
    { intros u uh k Eu Hk Hj. destruct (decide (Z.of_nat u + Z.of_nat k * blockDim = th_i th)) as [->|Hne]; [done|].
      rewrite Hsame by (unfold blockDim in *; lia). by eapply inv_passed. }
    intros u uh k [(<- & <- & _)|[Hne Eu]]%list_lookup_insert_Some Hk Hj; [|by eapply Hold].
    cbn in Hk. destruct (decide (k = drawn th)) as [->|]; [by rewrite <- Hi|]. eapply Hold; [done|lia|done].
  - apply I.
  - intros E. rewrite Hm by done. by apply I.
Qed.

Lemma iteration_inv match_ data t st :
  rng_inv match_ data st -> exists st', iteration match_ t st = Some st' /\ rng_inv match_ data st'.
Proof using Hn.
  intros I. unfold iteration. destruct (threads st !! t) as [th|] eqn:Et; [|eauto].
  destruct (inv_threads _ _ _ I t th Et) as [Hi Hd].
  assert (t < Z.to_nat blockDim)%nat as Ht by (rewrite <- (inv_block _ _ _ I); by eapply lookup_lt_Some).
  destruct (th_done th) eqn:Ed; [eauto|]. destruct (Z.ltb_spec (th_i th) num_elems) as [Hlt|Hge]; cbn [negb].
  2: { eexists; split; [done|]. destruct st as [ws fl ths]. eapply (leave_inv _ _ _ (mkRngState ws fl ths)); eauto.
       apply I. }
  destruct (mismatch_happened st) eqn:Em.
  { eexists; split; [done|]. destruct st as [ws fl ths]; cbn in *. subst fl.
    eapply (leave_inv _ _ _ (mkRngState ws true ths)); eauto. by apply I. }
  assert (0 <= th_i th) as H0 by (unfold blockDim in *; lia). cbn [th_i].
  pose proof (payload_word_thread t (drawn th) Ht) as Hp. rewrite <- Hi in Hp. rewrite <- Hp.
  destruct (lookup_lt_is_Some_2 (words st) (Z.to_nat (th_i th))) as [old Eo].
  { pose proof (inv_length _ _ _ I) as Hl. unfold Zlen in Hl. lia. }
  rewrite Eo. cbn [mbind option_bind]. destruct match_; cbn [negb].
  - destruct (Z.eqb_spec old (payload_word (th_i th))) as [->|Hne]; cbn [negb]; eexists; (split; [done|]).
    + destruct st as [ws fl ths]; cbn in *. subst fl.
      apply (advance_inv true data t (mkRngState ws false ths)); done.
    + eapply leave_inv; eauto. intros _. split; [done|]. intros ->.
      rewrite (inv_data _ _ _ I), payload_lookup in Eo by (done || lia). naive_solver.
  - eexists; split; [done|].
    pose proof (advance_inv false data t st th (<[Z.to_nat (th_i th) := payload_word (th_i th)]> (words st)) I Et Hlt) as A.
    rewrite Em in A. apply A; try done.
    + intros j Hj. by rewrite list_lookup_insert_ne.
    + by rewrite length_insert.
    + apply list_lookup_insert_eq. by eapply lookup_lt_Some.
Qed.

Lemma iterations_app match_ ts us st :
  iterations match_ (ts ++ us) st = (iterations match_ ts st ≫= iterations match_ us).
Proof using.
  clear Hn. revert st. induction ts as [|t ts IH]; intros st; cbn [app iterations]; [done|].
  destruct (iteration match_ t st) as [st'|]; cbn; [apply IH|done].
Qed.

Lemma iterations_inv match_ data ts st :
  rng_inv match_ data st -> exists st', iterations match_ ts st = Some st' /\ rng_inv match_ data st'.
Proof using Hn.
  revert st. induction ts as [|t ts IH]; intros st I; cbn [iterations]; [eauto|].
  destruct (iteration_inv match_ data t st I) as (st' & -> & I'). by apply IH.
Qed.

(** Thread [t] has left the loop, or its variable is at least [b]. *)
Definition progress (t : nat) (b : Z) (st : RngState) : Prop :=
  exists th, threads st !! t = Some th /\ (th_done th = true \/ b <= th_i th).

Definition left_loop (t : nat) (st : RngState) : Prop :=
  exists th, threads st !! t = Some th /\ th_done th = true.

(** What an iteration does to the threads. *)
Lemma iteration_threads match_ u st st' :
  iteration match_ u st = Some st' ->
  threads st' = threads st /\ (forall th, threads st !! u = Some th -> th_done th = true)
  \/ exists th th', threads st !! u = Some th /\ th_done th = false /\ threads st' = <[u := th']> (threads st)
     /\ (th_done th' = true \/ th_i th < num_elems /\ th_i th' = u64 (th_i th + blockDim)).
Proof using.
  clear Hn. unfold iteration. destruct (threads st !! u) as [th|] eqn:Eu; [|naive_solver].
  destruct (th_done th) eqn:Ed; [naive_solver|].
  destruct (Z.ltb_spec (th_i th) num_elems) as [Hlt|Hge]; cbn [negb].
  - destruct (mismatch_happened st).
    { intros [= <-]. right. do 2 eexists. split_and!; [done|done|reflexivity|by left]. }
    destruct (words st !! _) as [old|]; cbn [mbind option_bind]; [|done].
    intros E. right. repeat (case_match; simplify_eq/=); do 2 eexists; (split_and!; [done|done|reflexivity|]);
      (by left) || (by right).
  - intros [= <-]. right. do 2 eexists. split_and!; [done|done|reflexivity|by left].
Qed.

Lemma iteration_left match_ t u st st' :
  iteration match_ u st = Some st' -> left_loop t st -> left_loop t st'.
Proof using.
  clear Hn. intros E (th & Et & Hd). destruct (iteration_threads _ _ _ _ E) as [[E' _]|(uh & uh' & Eu & Hu & E' & _)].
  - exists th. by rewrite E'.
  - exists th. rewrite E', list_lookup_insert_ne; [done|]. intros ->. congruence.
Qed.

Lemma iterations_left match_ t us st st' :
  iterations match_ us st = Some st' -> left_loop t st -> left_loop t st'.
Proof using.
  clear Hn. revert st. induction us as [|u us IH]; intros st; cbn [iterations]; [by intros [= ->]|].
  destruct (iteration match_ u st) as [st1|] eqn:E; cbn; [|done]. eauto using iteration_left.
Qed.

Lemma iteration_progress match_ data t b st st' :
  rng_inv match_ data st -> iteration match_ t st = Some st' -> progress t b st ->
  progress t (b + 1) st' /\ (num_elems <= b -> left_loop t st').
Proof using Hn.
  intros I E (th & Et & Hb). destruct (inv_threads _ _ _ I t th Et) as [Hi _].
  destruct (iteration_threads _ _ _ _ E) as [[E' Hd]|(uh & uh' & Eu & Hu & E' & Hnext)]; simplify_eq.
  - specialize (Hd th Et). split; [|intros _]; exists th; rewrite E'; auto.
  - assert (threads st' !! t = Some uh') as Et'
      by (rewrite E'; apply list_lookup_insert_eq; by eapply lookup_lt_Some).
    destruct Hnext as [Hd|[Hlt Hi']]; [split; [|intros _]; exists uh'; auto|].
    destruct Hb as [Hb|Hb]; [congruence|]. split; [|lia]. exists uh'. split; [done|]. right.
    rewrite Hi', u64_small by (unfold is_u64, blockDim in *; lia). unfold blockDim. lia.
Qed.

Lemma run_thread match_ data t : forall m b st st',
  rng_inv match_ data st -> progress t b st -> num_elems < b + Z.of_nat m ->
  iterations match_ (replicate m t) st = Some st' -> left_loop t st' \/ m = 0%nat.
Proof using Hn.
  induction m as [|m IH]; intros b st st' I Hp Hm; [by right|]. cbn [replicate iterations].
  destruct (iteration_inv match_ data t st I) as (st1 & E & I1). rewrite E. cbn [mbind option_bind]. intros E'.
  destruct (iteration_progress _ _ _ _ _ _ I E Hp) as [Hp1 Hl]. left.
  destruct (decide (num_elems <= b)) as [Hb|Hb]; [eauto using iterations_left|].
  destruct (IH (b + 1) st1 st') as [?| ->]; [done|done|lia|done|done|lia].
Qed.

Lemma to_end_left match_ data st st' :
  rng_inv match_ data st -> iterations match_ to_end st = Some st' ->
  forall t, (t < Z.to_nat blockDim)%nat -> left_loop t st'.
Proof using Hn.
  unfold to_end. intros I E t Ht.
  assert (t ∈ seq 0 (Z.to_nat blockDim)) as (l1 & l2 & Es)%list_elem_of_split by (apply elem_of_seq; lia).
  rewrite Es, bind_app, bind_cons, !iterations_app in E. clear Es.
  destruct (iterations_inv match_ data (l1 ≫= fun t => replicate (S (Z.to_nat num_elems)) t) st I) as (st1 & E1 & I1).
  rewrite E1 in E. cbn [mbind option_bind] in E. rewrite iterations_app in E.
  destruct (iterations_inv match_ data (replicate (S (Z.to_nat num_elems)) t) st1 I1) as (st2 & E2 & I2).
  rewrite E2 in E. cbn [mbind option_bind] in E. eapply iterations_left; [exact E|].
  destruct (lookup_lt_is_Some_2 (threads st1) t) as [th Et]; [by rewrite (inv_block _ _ _ I1)|].
  destruct (inv_threads _ _ _ I1 t th Et) as [Hi _].
  destruct (run_thread match_ data t (S (Z.to_nat num_elems)) 0 st1 st2) as [|]; [done| |lia|done|done|done].
  exists th. split; [done|]. right. unfold blockDim in *. lia.
Qed.

Lemma rng_kernel_spec match_ schedule data :
  Zlen data = num_elems ->
  exists st, rng_kernel match_ schedule data = Some st
    /\ if match_ then words st = data /\ mismatch_happened st = negb (bool_decide (data = payload))
       else words st = payload.
Proof using Hn.
  intros Hl. unfold rng_kernel. rewrite iterations_app. set (st0 := mkRngState _ _ _).
  assert (rng_inv match_ data st0) as I0.
  { split; unfold st0; cbn [threads words mismatch_happened]; try done.
    - intros t th. rewrite list_lookup_fmap. intros (x & Hx & ->)%fmap_Some.
      apply lookup_seqZ in Hx as [-> Hx]. split; cbn; [lia|done].
    - intros t th k. rewrite list_lookup_fmap. intros (x & Hx & ->)%fmap_Some. cbn. lia. }
  destruct (iterations_inv match_ data schedule st0 I0) as (st1 & -> & I1). cbn [mbind option_bind].
  destruct (iterations_inv match_ data to_end st1 I1) as (st & E & I). exists st. split; [done|].
  pose proof (to_end_left _ _ _ _ I1 E) as Hleft.
  assert (mismatch_happened st = false -> words st = payload) as Hall.
  { intros Em. apply list_eq. intros j. destruct (decide (j < Z.to_nat num_elems)%nat) as [Hj|Hj].
    2: { pose proof (inv_length _ _ _ I) as Hw. unfold Zlen in Hw. rewrite !lookup_ge_None_2; [done| |lia].
         unfold payload. rewrite length_fmap, length_seqZ. lia. }
    set (t := Z.to_nat (Z.of_nat j mod blockDim)). set (k := Z.to_nat (Z.of_nat j / blockDim)).
    assert (Z.of_nat j = Z.of_nat t + Z.of_nat k * blockDim /\ (t < Z.to_nat blockDim)%nat) as [Ej Ht].
    { unfold t, k, blockDim. pose proof (Z.div_mod (Z.of_nat j) 1024). pose proof (Z.mod_pos_bound (Z.of_nat j) 1024).
      pose proof (Z.div_pos (Z.of_nat j) 1024). lia. }
    destruct (Hleft t Ht) as (th & Et & Hd). destruct (inv_threads _ _ _ I t th Et) as [Hi [Hge|]]; [done| |congruence].
    replace j with (Z.to_nat (Z.of_nat j)) by lia. rewrite payload_lookup by lia. rewrite Ej.
    apply (inv_passed _ _ _ I t th k Et); [|lia]. unfold blockDim in *. nia. }
  destruct match_.
  - split; [by apply I|]. pose proof (inv_data _ _ _ I eq_refl) as Hw. destruct (mismatch_happened st) eqn:Em.
    + destruct (inv_mismatch _ _ _ I Em) as [_ Hne]. by rewrite bool_decide_false.
    + by rewrite bool_decide_true by (rewrite <- Hw; auto).
  - apply Hall. destruct (mismatch_happened st) eqn:Em; [|done]. by destruct (inv_mismatch _ _ _ I Em).
Qed.

End rng.

(** The host functions: [buf] has the words of the memory from [ptr] on, the
    results of the driver calls are arguments, and [seed] is an [int] that
    becomes a [uint64_t]. *)
Definition GeneratePayload (curand : Z -> Z -> nat -> Z) (synchronize : Status) (schedule : list nat)
    (seed size : Z) (buf : list Z) : option (Status * list Z) :=
  let num_elems := size / 4 in
  st ← rng_kernel curand (u64 seed) num_elems false schedule (takeZ num_elems buf);
  Some (synchronize, words st ++ dropZ num_elems buf).

Definition ValidatePayload (curand : Z -> Z -> nat -> Z) (cuMemHostAlloc cuMemHostGetDevicePointer synchronize : Status)
    (schedule : list nat) (seed size : Z) (buf : list Z) : option Status :=
  let num_elems := size / 4 in
  match cuMemHostAlloc, cuMemHostGetDevicePointer with
  | Err e, _ | Ok _, Err e => Some (Err e)
  | Ok _, Ok _ =>
      st ← rng_kernel curand (u64 seed) num_elems true schedule (takeZ num_elems buf);
      match synchronize with
      | Err e => Some (Err e)
      | Ok _ => Some (if mismatch_happened st then Err kInternal else OkStatus)
      end
  end.

(** ** Properties *)

(** For any two schedules of the threads, [ValidatePayload]
    accepts what [GeneratePayload] has written with the same seed, and of all
    other memory exactly that with the same words; the words after the payload
    are neither changed nor looked at. *)
Theorem payload_roundtrip curand seed size schedule schedule' buf :
  0 <= size < 2 ^ 64 -> size / 4 <= Zlen buf ->
  exists buf', GeneratePayload curand OkStatus schedule seed size buf = Some (OkStatus, buf')
    /\ Zlen buf' = Zlen buf /\ dropZ (size / 4) buf' = dropZ (size / 4) buf
    /\ forall other, size / 4 <= Zlen other ->
       ValidatePayload curand OkStatus OkStatus OkStatus schedule' seed size other
       = Some (if bool_decide (takeZ (size / 4) other = takeZ (size / 4) buf') then OkStatus else Err kInternal).
Proof.
  intros Hs Hb. assert (0 <= size / 4 <= 2 ^ 62) as Hn.
  { split; [apply Z.div_pos; lia|]. apply Z.div_le_upper_bound; lia. }
  unfold GeneratePayload, ValidatePayload. cbn [OkStatus].
  destruct (rng_kernel_spec curand (u64 seed) (size / 4) Hn false schedule (takeZ (size / 4) buf)) as (st & -> & Ew).
  { rewrite Zlen_takeZ; lia. }
  cbn [mbind option_bind]. rewrite Ew. clear st Ew. set (p := payload _ _ _).
  assert (Zlen p = size / 4) as Hp.
  { unfold p, payload, Zlen. rewrite length_fmap, length_seqZ. lia. }
  exists (p ++ dropZ (size / 4) buf). split; [done|].
  assert (takeZ (size / 4) (p ++ dropZ (size / 4) buf) = p) as Ht.
  { unfold takeZ. apply take_app_length'. unfold Zlen in Hp. lia. }
  split_and!.
  - rewrite Zlen_app, Hp, Zlen_dropZ; lia.
  - unfold dropZ at 1. apply drop_app_length'. unfold Zlen in Hp. lia.
  - intros other Ho. rewrite Ht.
    destruct (rng_kernel_spec curand (u64 seed) (size / 4) Hn true schedule' (takeZ (size / 4) other))
      as (st' & -> & _ & Em).
    { rewrite Zlen_takeZ; lia. }
    cbn [mbind option_bind]. rewrite Em. fold p. by destruct (bool_decide _).
Qed.

(** Three words and a few bytes, with a generator that counts. *)
Definition ex_curand (seed thread : Z) (k : nat) : Z := seed + thread + Z.of_nat k.

Lemma payload_roundtrip_witness :
  exists buf', GeneratePayload ex_curand OkStatus [1%nat; 0%nat] 7 14 [0; 0; 0; 5] = Some (OkStatus, buf')
    /\ Zlen buf' = 4
    /\ ValidatePayload ex_curand OkStatus OkStatus OkStatus [2%nat] 7 14 buf' = Some OkStatus.
Proof.
  destruct (payload_roundtrip ex_curand 7 14 [1%nat; 0%nat] [2%nat] [0; 0; 0; 5]) as (buf' & E & Hl & _ & Hv);
    [lia|by vm_compute|].
  exists buf'. split; [exact E|]. split; [exact Hl|]. rewrite Hv by (rewrite Hl; by vm_compute).
  by rewrite bool_decide_true.
Defined.
