(* ===== verification/Stats.v ===== *)
(** * Distributions of samples (tcpdirect_plugin/fastrak_offload/stats.{h,cc})

    A [DistributionBucketer] counts samples in buckets of growing width and
    keeps their minimum, maximum and average.  Samples are doubles that are not
    NaN, an arbitrary type with a total order; the bounds of the buckets, which
    the constructor computes with [pow], and the rounding of the average are
    arguments. *)

From S2P Require Import Prelude.

Section stats.
Context {double : Type} (lt : double -> double -> bool).
Context (double_max double_min zero : double).
(** [avg_ * (count_ / (count_ + 1)) + sample / (count_ + 1)] *)
Context (next_avg : double -> Z -> double -> double).

Record bucket := mkBucket { upper_bound : double; count : Z }.

Record DistributionBucketer := mkBucketer {
  count_ : Z;
  avg_ : double;
  buckets_ : list bucket;
  sample_submitted_ : bool;
  min_ : double;
  max_ : double
}.

Definition new_Bucketer (bounds : list double) : DistributionBucketer :=
  mkBucketer 0 zero ((fun b => mkBucket b 0) <$> bounds) false double_max double_min.

Definition GetBucketCounts (b : DistributionBucketer) : list Z := count <$> buckets_ b.
Definition GetBucketBounds (b : DistributionBucketer) : list double := upper_bound <$> buckets_ b.

(** [std::upper_bound]: the index of the first bucket whose bound is greater
    than the sample. *)
Fixpoint upper (bs : list bucket) (sample : double) : nat :=
  match bs with
  | [] => 0
  | b :: bs => if lt sample (upper_bound b) then 0 else S (upper bs sample)
  end.

(** [None] if there are no buckets. *)
Definition Submit (sample : double) (b : DistributionBucketer) : option DistributionBucketer :=
  let index := upper (buckets_ b) sample in
  let index := if (length (buckets_ b) <=? index)%nat then (length (buckets_ b) - 1)%nat else index in
  bk ← buckets_ b !! index;
  Some (mkBucketer (count_ b + 1) (next_avg (avg_ b) (count_ b) sample)
          (<[index := mkBucket (upper_bound bk) (count bk + 1)]> (buckets_ b)) true
          (if lt sample (min_ b) then sample else min_ b)
          (if lt (max_ b) sample then sample else max_ b)).

Definition GetMin (b : DistributionBucketer) : option double :=
  if sample_submitted_ b then Some (min_ b) else None.
Definition GetMax (b : DistributionBucketer) : option double :=
  if sample_submitted_ b then Some (max_ b) else None.
Definition GetAvg (b : DistributionBucketer) : option double :=
  if sample_submitted_ b then Some (avg_ b) else None.

(** The lines of [Dump] for the buckets, each with the bounds and the count it
    prints: [coalesced] has the bounds of the empty buckets not yet printed. *)
Fixpoint dump_buckets (prev_upper_bound : double) (coalesced : option (double * double)) (bs : list bucket)
    : list (double * double * Z) :=
  match bs with
  | [] => match coalesced with Some (l, u) => [(l, u, 0)] | None => [] end
  | b :: bs =>
      if count b =? 0
      then
        let lower := match coalesced with Some (l, _) => l | None => prev_upper_bound end in
        dump_buckets prev_upper_bound (Some (lower, upper_bound b)) bs
      else
        match coalesced with
        | Some (l, u) => [(l, u, 0); (u, upper_bound b, count b)]
        | None => [(prev_upper_bound, upper_bound b, count b)]
        end ++ dump_buckets (upper_bound b) None bs
  end.

(** [Dump]: the minimum, the maximum and the average, when there are any, and
    the lines of the buckets. *)
Definition Dump (b : DistributionBucketer) : option double * option double * option double * list (double * double * Z) :=
  (GetMin b, GetMax b, GetAvg b, dump_buckets zero None (buckets_ b)).

(** ** Lemmas *)

(** The buckets in which samples belong: each has the samples below its bound
    that the earlier ones do not have, and the last one all the rest. *)
Fixpoint in_bucket (bounds : list double) (sample : double) : nat :=
  match bounds with
  | [] | [_] => 0
  | b :: bounds => if lt sample b then 0 else S (in_bucket bounds sample)
  end.

Lemma in_bucket_lt bounds sample : bounds <> [] -> (in_bucket bounds sample < length bounds)%nat.
Proof using.
  clear. induction bounds as [|b [|b' bounds] IH]; intros Hb; [done|cbn; lia|].
  change (in_bucket (b :: b' :: bounds) sample)
    with (if lt sample b then 0%nat else S (in_bucket (b' :: bounds) sample)).
  change (length (b :: b' :: bounds)) with (S (length (b' :: bounds))).
  specialize (IH ltac:(done)). destruct (lt sample b); lia.
Qed.

Lemma upper_in_bucket bs sample :
  bs <> [] ->
  (if (length bs <=? upper bs sample)%nat then (length bs - 1)%nat else upper bs sample)
  = in_bucket (upper_bound <$> bs) sample.
Proof using.
  clear. induction bs as [|b [|b' bs] IH]; intros Hb; [done|cbn; by destruct (lt _ _)|].
  specialize (IH ltac:(done)). change (upper (b :: b' :: bs) sample)
    with (if lt sample (upper_bound b) then 0%nat else S (upper (b' :: bs) sample)).
  change (in_bucket (upper_bound <$> b :: b' :: bs) sample)
    with (if lt sample (upper_bound b) then 0%nat else S (in_bucket (upper_bound <$> b' :: bs) sample)).
  destruct (lt sample (upper_bound b)); [done|]. rewrite <- IH. change (length (b :: b' :: bs)) with (S (length (b' :: bs))).
  change (S (length (b' :: bs)) <=? S (upper (b' :: bs) sample))%nat with (length (b' :: bs) <=? upper (b' :: bs) sample)%nat.
  destruct (_ <=? _)%nat; cbn [length]; lia.
Qed.

(** A sequence of samples. *)
Fixpoint submit_all (samples : list double) (b : DistributionBucketer) : option DistributionBucketer :=
  match samples with
  | [] => Some b
  | x :: samples => b ← Submit x b; submit_all samples b
  end.

(** How many of the samples belong in bucket [i]. *)
Definition samples_in (bounds : list double) (i : nat) (samples : list double) : Z :=
  Zlen (filter (fun x => in_bucket bounds x = i) samples).

Lemma Submit_spec x b :
  GetBucketBounds b <> [] ->
  exists b', Submit x b = Some b' /\ GetBucketBounds b' = GetBucketBounds b /\ count_ b' = count_ b + 1
    /\ sample_submitted_ b' = true
    /\ min_ b' = (if lt x (min_ b) then x else min_ b) /\ max_ b' = (if lt (max_ b) x then x else max_ b)
    /\ forall i, GetBucketCounts b' !! i
         = (fun c => if decide (in_bucket (GetBucketBounds b) x = i) then c + 1 else c) <$> GetBucketCounts b !! i.
Proof using.
  clear. unfold GetBucketBounds, GetBucketCounts, Submit. intros Hb.
  assert (buckets_ b <> []) as Hb' by (by intros E; rewrite E in Hb).
  rewrite upper_in_bucket by done. set (j := in_bucket _ x).
  assert (j < length (buckets_ b))%nat as Hj.
  { pose proof (in_bucket_lt (upper_bound <$> buckets_ b) x Hb) as H. by rewrite length_fmap in H. }
  destruct (lookup_lt_is_Some_2 _ _ Hj) as [bk Ebk]. rewrite Ebk. cbn [mbind option_bind].
  eexists; split; [done|]. cbn [buckets_ count_ sample_submitted_ min_ max_]. split_and!; try done.
  - rewrite list_fmap_insert. cbn [upper_bound]. apply list_insert_id. by rewrite list_lookup_fmap, Ebk.
  - intros i. rewrite list_fmap_insert. cbn [count]. destruct (decide (j = i)) as [<-|Hne].
    + rewrite list_lookup_insert_eq by (by rewrite length_fmap). by rewrite list_lookup_fmap, Ebk.
    + rewrite list_lookup_insert_ne by done. by destruct ((count <$> buckets_ b) !! i).
Qed.

Lemma submit_all_spec samples : forall b,
  GetBucketBounds b <> [] ->
  exists b', submit_all samples b = Some b' /\ GetBucketBounds b' = GetBucketBounds b
    /\ count_ b' = count_ b + Zlen samples
    /\ sample_submitted_ b' = (sample_submitted_ b || negb (bool_decide (samples = [])))
    /\ forall i, GetBucketCounts b' !! i
         = (fun c => c + samples_in (GetBucketBounds b) i samples) <$> GetBucketCounts b !! i.
Proof using.
  clear. induction samples as [|x samples IH]; intros b Hb; cbn [submit_all].
  - exists b. split_and!; try done; [unfold Zlen; cbn; lia|by rewrite orb_false_r|].
    intros i. unfold samples_in, Zlen. cbn. destruct (GetBucketCounts b !! i); cbn; [f_equal; lia|done].
  - destruct (Submit_spec x b Hb) as (b1 & -> & Eb & Ec & Es & _ & _ & Ei). cbn [mbind option_bind].
    destruct (IH b1) as (b2 & -> & Eb2 & Ec2 & Es2 & Ei2); [by rewrite Eb|]. exists b2. split_and!; [done|congruence| | |].
    + rewrite Ec2, Ec, Zlen_cons. lia.
    + rewrite Es2, Es. by destruct (sample_submitted_ b).
    + intros i. rewrite Ei2, Ei, Eb. destruct (GetBucketCounts b !! i) as [c|]; cbn; [|done]. f_equal.
      unfold samples_in. rewrite filter_cons. repeat case_decide; rewrite ?Zlen_cons; lia || done.
Qed.

(** Rows that follow each other from [from] to [to_]. *)
Fixpoint contiguous (from : double) (rows : list (double * double * Z)) (to_ : double) : Prop :=
  match rows with
  | [] => from = to_
  | (l, u, _) :: rows => l = from /\ contiguous u rows to_
  end.

Lemma dump_buckets_spec bs : forall prev coalesced,
  let rows := dump_buckets prev coalesced bs in
  contiguous (match coalesced with Some (l, _) => l | None => prev end) rows
    (List.last (upper_bound <$> bs) (match coalesced with Some (_, u) => u | None => prev end))
  /\ omap (fun '(l, u, c) => if decide (c = 0) then None else Some (u, c)) rows
     = omap (fun b => if decide (count b = 0) then None else Some (upper_bound b, count b)) bs.
Proof using.
  clear. assert (forall (x d d' : double) l, List.last (x :: l) d = List.last l x) as Hlast.
  { intros x d d' l. revert x. induction l as [|y l IH]; intros x; [done|]. cbn [List.last] in *. destruct l; [done|]. apply (IH x). }
  induction bs as [|b bs IH]; intros prev coalesced; cbn [dump_buckets].
  - by destruct coalesced as [[l u]|].
  - cbn [fmap list_fmap]. rewrite (Hlast _ _ prev). destruct (Z.eqb_spec (count b) 0) as [E|E].
    + destruct (IH prev (Some (match coalesced with Some (l, _) => l | None => prev end, upper_bound b))) as [I1 I2].
      split; [by destruct coalesced as [[l u]|]|]. rewrite I2. cbn [omap list_omap]. by rewrite decide_True.
    + destruct (IH (upper_bound b) None) as [I1 I2].
      destruct coalesced as [[l u]|]; cbn [app contiguous omap list_omap]; rewrite !(decide_False (P := count b = 0)) by done;
        (split; [by repeat split|]); [rewrite decide_True by done|]; by f_equal.
Qed.

Hypothesis lt_irrefl : forall x, lt x x = false.
Hypothesis lt_trans : forall x y z, lt x y = true -> lt y z = true -> lt x z = true.

(** No sample is less than the minimum or greater than the maximum, and each
    of them is a sample or the initial value. *)
Lemma submit_all_extremes samples : forall b b',
  GetBucketBounds b <> [] -> submit_all samples b = Some b' ->
  (forall x, x ∈ samples \/ lt x (min_ b) = false -> lt x (min_ b') = false)
  /\ (forall x, x ∈ samples \/ lt (max_ b) x = false -> lt (max_ b') x = false)
  /\ min_ b' ∈ min_ b :: samples /\ max_ b' ∈ max_ b :: samples.
Proof using lt_irrefl lt_trans.
  induction samples as [|y samples IH]; intros b b' Hb; cbn [submit_all].
  - intros [= <-]. split_and!; [set_solver..|left|left].
  - destruct (Submit_spec y b Hb) as (b1 & -> & Eb & _ & _ & Emin & Emax & _). cbn [mbind option_bind]. intros E.
    destruct (IH b1 b' ltac:(by rewrite Eb) E) as (H1 & H2 & H3 & H4). rewrite Emin in H1, H3. rewrite Emax in H2, H4.
    assert (forall x z w, lt x z = false -> lt w z = true -> lt x w = false) as T.
    { intros x z w Hx Hw. destruct (lt x w) eqn:Ex; [|done]. by rewrite (lt_trans _ _ _ Ex Hw) in Hx. }
    assert (forall x z w, lt z x = false -> lt z w = true -> lt w x = false) as T'.
    { intros x z w Hx Hw. destruct (lt w x) eqn:Ex; [|done]. by rewrite (lt_trans _ _ _ Hw Ex) in Hx. }
    split_and!.
    + intros x Hx. apply H1. rewrite elem_of_cons in Hx. destruct (lt y (min_ b)) eqn:Ey; naive_solver.
    + intros x Hx. apply H2. rewrite elem_of_cons in Hx. destruct (lt (max_ b) y) eqn:Ey; naive_solver.
    + rewrite !elem_of_cons in *. destruct (lt y (min_ b)); naive_solver.
    + rewrite !elem_of_cons in *. destruct (lt (max_ b) y); naive_solver.
Qed.

(** After any samples, bucket [i] has counted exactly the
    samples that are below its bound and not below an earlier one, the last
    bucket also those above all bounds; the minimum and the maximum bound the
    samples, and are samples or their initial values.  The rows of [Dump] cover
    the range from zero to the last bound without gap or overlap, and those
    with a count are the buckets that are not empty, in order. *)
Theorem distribution_counts bounds samples :
  bounds <> [] ->
  exists b, submit_all samples (new_Bucketer bounds) = Some b
    /\ GetBucketBounds b = bounds /\ count_ b = Zlen samples
    /\ (forall i, (i < length bounds)%nat -> GetBucketCounts b !! i = Some (samples_in bounds i samples))
    /\ (samples = [] <-> GetMin b = None)
    /\ Forall (fun x => lt x (min_ b) = false /\ lt (max_ b) x = false) samples
    /\ min_ b ∈ double_max :: samples /\ max_ b ∈ double_min :: samples
    /\ let '(_, _, _, rows) := Dump b in
       contiguous zero rows (List.last bounds zero)
       /\ omap (fun '(l, u, c) => if decide (c = 0) then None else Some (u, c)) rows
          = omap (fun bk => if decide (count bk = 0) then None else Some (upper_bound bk, count bk)) (buckets_ b).
Proof using lt_irrefl lt_trans.
  intros Hb. assert (GetBucketBounds (new_Bucketer bounds) = bounds) as E0.
  { unfold GetBucketBounds, new_Bucketer. cbn. rewrite <- list_fmap_compose. apply list_fmap_id. }
  destruct (submit_all_spec samples (new_Bucketer bounds)) as (b & E & Eb & Ec & Es & Ei); [by rewrite E0|].
  destruct (submit_all_extremes samples _ _ ltac:(by rewrite E0) E) as (H1 & H2 & H3 & H4).
  exists b. rewrite E0 in *. split_and!; [done|done|exact Ec| | | |done|done|].
  - intros i Hi. rewrite Ei. unfold GetBucketCounts, new_Bucketer. cbn [buckets_].
    rewrite <- list_fmap_compose, list_lookup_fmap. destruct (lookup_lt_is_Some_2 _ _ Hi) as [x ->]. done.
  - unfold GetMin. rewrite Es. cbn. case_bool_decide; naive_solver.
  - apply list.Forall_forall. intros x Hx. split; auto.
  - cbn [Dump]. destruct (dump_buckets_spec (buckets_ b) zero None) as [D1 D2]. split; [|exact D2].
    unfold GetBucketBounds in Eb. by rewrite Eb in D1.
Qed.

End stats.

(** Integers for doubles: two samples below the first bound, one above all. *)
Lemma distribution_counts_witness :
  exists b, submit_all Z.ltb (fun a _ _ => a) [1; 99; 0] (new_Bucketer (2 ^ 60) 1 0 [10; 20; 40]) = Some b
    /\ GetBucketCounts b !! 0%nat = Some 2 /\ GetBucketCounts b !! 2%nat = Some 1.
Proof.
  destruct (distribution_counts Z.ltb (2 ^ 60) 1 0 (fun a _ _ => a) Z.ltb_irrefl
    ltac:(intros x y z; rewrite !Z.ltb_lt; lia) [10; 20; 40] [1; 99; 0] ltac:(done))
    as (b & E & _ & _ & Hc & _).
  exists b. split; [exact E|]. by rewrite !Hc by (cbn; lia).
Defined.

(** The maximum starts with the least positive double, so that it is never
    zero. *)
Example maximum_of_zero :
  exists b, submit_all Z.ltb (fun a _ _ => a) [0; 0] (new_Bucketer (2 ^ 60) 1 0 [10; 20]) = Some b
    /\ GetMax b = Some 1.
Proof. eexists. split; by vm_compute. Qed.
