(* ===== verification/Profiler.v ===== *)
(** * The GPUViz profiler (tcpdirect_plugin/fastrak_offload/profiler_gpuviz.{h,cc},
    profiler_factory_gpuviz.{h,cc}, GPUViz/src/nccl_stats.h, and the hooks of
    nccl_shim.cc that call the profilers)

    Each flow of a communication has a profiler, which owns a connection of
    the statistics library and reports the completed requests of the flow to
    it.  The library is loaded at run time: the results of its functions are
    arguments of the operations, and [StatsLib] records the calls made to it.
    Log lines are left out, and DCHECKs, which release builds drop. *)

From Stdlib Require Import Ascii.
From stdpp Require Import strings.
From S2P Require Import Prelude.

(** ** nccl_stats.h *)

Inductive ncclStatsConnectionType : Type :=
  | EntityNVLConnection | EntityPCIConnection | EntityTCPConnection | EntityRDMAConnection
  | EntityProfilerPluginConnection.

Inductive ncclStatsPluginType : Type := NetPlugin | CollNetPlugin | ProfilerPlugin.

Inductive ncclStatsConnectionCloseType : Type :=
  | ConnectionCloseLocalTerminate | ConnectionCloseRemoteTerminate | ConnectionCloseLocalError
  | ConnectionCloseRemoteError | ConnectionCloseLocalTimeout | ConnectionCloseRemoteTimeout.

Inductive ncclStatsLatencyType : Type := LatencySoftware | LatencyNetHW | LatencyRecvReady.

Record ncclStatsLatencyMeasurement := mkLatency {
  latency_type : ncclStatsLatencyType;
  latency_in_nanoseconds : Z
}.

Inductive ncclStatsOpType : Type :=
  | OperationTypeChunkSend | OperationTypeChunkRecv | OperationTypeCollective
  | OperationTypeMsgSend | OperationTypeMsgRecv.

Record ncclStatsOperationMetric := mkMetric {
  m_type : ncclStatsOpType;
  m_collective_id : Z;
  m_op_id : Z;
  m_op_sz : Z;
  m_op_start_time : Z;
  m_measurements : list ncclStatsLatencyMeasurement
}.

Inductive ncclStatsDistributionIdx : Type :=
  | SendLatencySWIdx | RecvLatencySWIdx | SendLatencyNetHWIdx | RecvLatencyNetHWIdx
  | RecvReadyLatencyIdx | SendMessageSizeIdx | RecvMessageSizeIdx.

Definition idx_code (i : ncclStatsDistributionIdx) : Z :=
  match i with
  | SendLatencySWIdx => 0 | RecvLatencySWIdx => 1 | SendLatencyNetHWIdx => 2
  | RecvLatencyNetHWIdx => 3 | RecvReadyLatencyIdx => 4 | SendMessageSizeIdx => 5
  | RecvMessageSizeIdx => 6
  end.

(** [ncclStatsDistributionType]: a bit per distribution. *)
Definition distribution_bit (i : ncclStatsDistributionIdx) : Z := Z.shiftl 1 (idx_code i).

(** The bitmap the factory gives to the library's [init]. *)
Definition collector_bitmap : Z :=
  Z.lor (Z.lor (Z.lor (distribution_bit RecvLatencySWIdx) (distribution_bit SendLatencySWIdx))
    (distribution_bit SendMessageSizeIdx)) (distribution_bit RecvMessageSizeIdx).

(** An address family, an address as [inet_pton] gives it ([None] when the
    text is no address) and a port, in host order. *)
Inductive family : Type := AF_INET | AF_INET6.

Record sockaddr_storage := mkSockaddr {
  ss_family : family;
  ss_addr : option (list Z);
  ss_port : Z
}.

(** [ncclStatsConnectionIdentifier] with its [ncclStatsTCPConnection]. *)
Record ConnectionIdentifier := mkIdentifier {
  conn_type : ncclStatsConnectionType;
  nccl_plugin_type : ncclStatsPluginType;
  nccl_plugin_name : string;
  id_gpu_pci_addr : string;
  local_endpoint : sockaddr_storage;
  remote_endpoint : sockaddr_storage
}.

(** ** The library

    [conns]: connections that were added and not deleted; [metrics]: the
    measurements it was notified of; [stray]: a call named a connection that
    is not open. *)
Record StatsLib := mkStatsLib {
  conns : gmap Z ConnectionIdentifier;
  metrics : list (Z * ncclStatsOperationMetric);
  stray : bool
}.

Definition is_open (h : Z) (lib : StatsLib) : bool := bool_decide (is_Some (conns lib !! h)).

(** [result]: the handle when the call returned ncclSuccess. *)
Definition addConnection (ident : ConnectionIdentifier) (result : option Z) (lib : StatsLib) : StatsLib :=
  match result with
  | Some h => mkStatsLib (<[h := ident]> (conns lib)) (metrics lib) (stray lib)
  | None => lib
  end.

(** [ok]: the call returned ncclSuccess. *)
Definition deleteConnection (h : Z) (ok : bool) (lib : StatsLib) : StatsLib :=
  mkStatsLib (if ok then delete h (conns lib) else conns lib) (metrics lib)
    (stray lib || negb (is_open h lib)).

Definition notifyOperationMeasurement (h : Z) (m : ncclStatsOperationMetric) (lib : StatsLib) : StatsLib :=
  mkStatsLib (conns lib) (metrics lib ++ [(h, m)]) (stray lib || negb (is_open h lib)).

(** ** Per-request data

    A time is in nanoseconds; [clock] is what [get_current_time] gives, [None]
    when [clock_gettime] fails. *)
Record RequestData := mkRequestData {
  request_idx_ : Z;
  rd_profiler_idx_ : Z;
  request_size_ : Z;
  start_time_ : Z;
  timer_started_ : bool
}.

Definition request_time_elapsed (clock : option Z) (d : RequestData) : StatusOr Z :=
  if negb (timer_started_ d) then Err kInternal
  else match clock with Some end_time => Ok (end_time - start_time_ d) | None => Err kInternal end.

Definition request_start_time (d : RequestData) : StatusOr Z :=
  if negb (timer_started_ d) then Err kInternal else Ok (start_time_ d).

Definition start_request_timer (clock : option Z) (d : RequestData) : Status * RequestData :=
  let set t started := mkRequestData (request_idx_ d) (rd_profiler_idx_ d) (request_size_ d) t started in
  match clock with
  | Some now => (OkStatus, set now true)
  | None => (Err kInternal, set (start_time_ d) false)
  end.

Definition set_request_size (size : Z) (d : RequestData) : RequestData :=
  mkRequestData (request_idx_ d) (rd_profiler_idx_ d) size (start_time_ d) (timer_started_ d).

(** ** The profiler *)

Record GPUVizProfiler := mkProfiler {
  stats_connection_handle_ : Z;
  is_send_ : bool;
  profiler_idx_ : Z;
  gpu_pci_addr_ : string;
  local_addr_ : sockaddr_storage;
  remote_addr_ : sockaddr_storage;
  request_counter_ : Z
}.

Definition with_handle (h : Z) (p : GPUVizProfiler) : GPUVizProfiler :=
  mkProfiler h (is_send_ p) (profiler_idx_ p) (gpu_pci_addr_ p) (local_addr_ p) (remote_addr_ p)
    (request_counter_ p).

Definition kNcclPluginName : string := "FasTrak".

Definition GPUVizProfiler_Init (added : option Z) (p : GPUVizProfiler) (lib : StatsLib)
    : Status * GPUVizProfiler * StatsLib :=
  let ident := mkIdentifier EntityTCPConnection NetPlugin kNcclPluginName (gpu_pci_addr_ p)
                 (local_addr_ p) (remote_addr_ p) in
  let lib := addConnection ident added lib in
  match added with
  | Some h => (OkStatus, with_handle h p, lib)
  | None => (Err kInternal, with_handle 0 p, lib)
  end.

Definition CreateRequestData (p : GPUVizProfiler) : RequestData * GPUVizProfiler :=
  (mkRequestData (request_counter_ p) (profiler_idx_ p) 0 0 false,
   mkProfiler (stats_connection_handle_ p) (is_send_ p) (profiler_idx_ p) (gpu_pci_addr_ p)
     (local_addr_ p) (remote_addr_ p) (u32 (request_counter_ p + 1))).

(** [None] when the CHECK fails and the process ends. *)
Definition ValidateRequestData (d : option RequestData) (p : GPUVizProfiler) : option Status :=
  match d with
  | None => Some (Err kInvalidArgument)
  | Some d => if rd_profiler_idx_ d =? profiler_idx_ p then Some OkStatus else None
  end.

Definition OnReqScheduled (clock : option Z) (d : option RequestData) (p : GPUVizProfiler)
    : option (option RequestData) :=
  v ← ValidateRequestData d p;
  match v, d with
  | Ok _, Some d => Some (Some (snd (start_request_timer clock d)))
  | _, _ => Some d
  end.

(** Rounding a non-negative integer to a double: 53 significant bits, ties
    to even. *)
Definition to_double (x : Z) : Z :=
  let e := Z.log2 x - 52 in
  if e <=? 0 then x
  else
    let u := 2 ^ e in
    let q := x / u in
    let r := x mod u in
    let up := (u <? 2 * r) || ((2 * r =? u) && Z.odd q) in
    (if up then q + 1 else q) * u.

(** [static_cast<uint64_t>(ts.tv_sec) * 1e9 + ts.tv_nsec], computed in
    double, for a start time of [t] nanoseconds. *)
Definition start_time_ns (t : Z) : Z :=
  let tv_sec := t / 10 ^ 9 in
  let tv_nsec := t mod 10 ^ 9 in
  to_double (to_double (to_double tv_sec * 10 ^ 9) + tv_nsec).

(** [unset]: the values of the fields that are not assigned.  Also the data
    of the request. *)
Definition TestRequest (clock : option Z) (unset : Z * Z) (d : option RequestData) (done : bool) (size : Z)
    (p : GPUVizProfiler) (lib : StatsLib) : option (option RequestData * StatsLib) :=
  if negb done then Some (d, lib)
  else if stats_connection_handle_ p =? 0 then Some (d, lib)
  else
    v ← ValidateRequestData d p;
    match v, d with
    | Ok _, Some d =>
        let d := set_request_size size d in
        match request_time_elapsed clock d with
        | Err _ => Some (Some d, lib)
        | Ok elapsed =>
            let start := match request_start_time d with Ok t => start_time_ns t | Err _ => 0 end in
            let metric := mkMetric (if is_send_ p then OperationTypeChunkSend else OperationTypeChunkRecv)
                            (fst unset) (snd unset) (request_size_ d) start
                            [mkLatency LatencySoftware (u64 elapsed)] in
            Some (Some d, notifyOperationMeasurement (stats_connection_handle_ p) metric lib)
        end
    | _, _ => Some (d, lib)
    end.

Definition OnConnectionClosed (deleted : bool) (p : GPUVizProfiler) (lib : StatsLib)
    : GPUVizProfiler * StatsLib :=
  if stats_connection_handle_ p =? 0 then (p, lib)
  else
    let lib := deleteConnection (stats_connection_handle_ p) deleted lib in
    (if deleted then with_handle 0 p else p, lib).

(** The destructor; [plugin]: [nccl_stats_plugin_] is not null. *)
Definition destroy_GPUVizProfiler (plugin deleted : bool) (p : GPUVizProfiler) (lib : StatsLib) : StatsLib :=
  if plugin && negb (stats_connection_handle_ p =? 0)
  then deleteConnection (stats_connection_handle_ p) deleted lib else lib.

(** ** The factory *)

Record GPUVizProfilerFactory := mkFactory {
  nccl_stats_plugin_ : bool;
  factory_pci_addr : string;
  lib_handle_ : bool;
  stats_global_handle_ : Z
}.

(** The constructor does not initialise [stats_global_handle_]: it is
    [unset]. *)
Definition new_Factory (pci : string) (unset : Z) : GPUVizProfilerFactory := mkFactory false pci false unset.

(** [opened], [symbol]: [dlopen] and [dlsym] succeed; [inited]: the handle
    when the library's [init] returned ncclSuccess. *)
Definition GPUVizProfilerFactory_Init (opened symbol : bool) (inited : option Z)
    (f : GPUVizProfilerFactory) : Status * GPUVizProfilerFactory :=
  if negb opened then (Err kInternal, mkFactory false (factory_pci_addr f) false (stats_global_handle_ f))
  else if negb symbol then (Err kInternal, mkFactory false (factory_pci_addr f) true (stats_global_handle_ f))
  else
    match inited with
    | Some h => (OkStatus, mkFactory true (factory_pci_addr f) true h)
    | None => (Err kInternal, mkFactory false (factory_pci_addr f) true 0)
    end.

Section addresses.
(** [inet_pton] of the two families. *)
Context (pton4 pton6 : string -> option (list Z)).

Definition GetSockAddress (ipAddress : string) (port : Z) : sockaddr_storage :=
  let v6 := existsb (Ascii.eqb ":") (list_ascii_of_string ipAddress) in
  if negb v6 then mkSockaddr AF_INET (pton4 ipAddress) port
  else mkSockaddr AF_INET6 (pton6 ipAddress) port.

Record ProfilerOptions := mkProfilerOptions {
  local_ip_addr : string;
  remote_ip_addr : string;
  local_port : Z;
  remote_port : Z;
  flow_id : Z
}.

(** [unset]: the connection handle before [Init] assigns it. *)
Definition GPUVizProfilerFactory_Create (send : bool) (options : ProfilerOptions) (unset : Z) (added : option Z)
    (f : GPUVizProfilerFactory) (lib : StatsLib) : GPUVizProfiler * StatsLib :=
  let local_addr := GetSockAddress (local_ip_addr options) (local_port options) in
  let remote_addr := GetSockAddress (remote_ip_addr options) (remote_port options) in
  let p := mkProfiler unset send (flow_id options) (factory_pci_addr f) local_addr remote_addr 0 in
  let '(_, p, lib) := GPUVizProfiler_Init added p lib in (p, lib).

End addresses.

(** The destructor: whether it destroys the library's object and unloads
    the library. *)
Definition destroy_Factory (f : GPUVizProfilerFactory) : bool * bool :=
  (nccl_stats_plugin_ f && negb (stats_global_handle_ f =? 0), lib_handle_ f).

(** [GetProfilerFactory]; [None] is the factory of profilers that do
    nothing.  The enumerators of [TelemetryMode] are 0, 1, 3 and 4. *)
Definition GetProfilerFactory (telemetry_mode : Z) (pci : string) (unset : Z) (opened symbol : bool)
    (inited : option Z) : option GPUVizProfilerFactory :=
  if (telemetry_mode =? 1) || (telemetry_mode =? 4) || (telemetry_mode =? 3) then
    let '(s, f) := GPUVizProfilerFactory_Init opened symbol inited (new_Factory pci unset) in
    match s with Ok _ => Some f | Err _ => None end
  else None.

(** ** The profilers of a communication (nccl_shim.cc) *)

Section shim.
Context (pton4 pton6 : string -> option (list Z)).

(** The parts of a [Communication] and of its requests that the hooks
    use: [c_flows] is [profilers], with [kFastrakNumFlows] entries. *)
Record CommProfilers := mkCommProfilers {
  c_flows : list GPUVizProfiler;
  c_base : nat;
  c_requests : gmap nat (nat * RequestData);
  c_next : nat;
  c_lib : StatsLib
}.

(** The options of flow [i] at the end of a connect: the local address of
    its socket, and the remote address and ports of the handle. *)
Definition connect_options (local dxs_addr : string) (dxs_port : Z) (i : nat) : ProfilerOptions :=
  mkProfilerOptions local dxs_addr 0 dxs_port (Z.of_nat i).

(** The options of flow [i] at the end of an accept, with the address and the
    port its listening socket has; [peer] is [None] for a socket without a
    peer, and its address is [None] when it cannot be unpacked. *)
Definition accept_options (peer : option (option string * Z)) (dxs_addr : string) (dxs_port : Z) (i : nat)
    : ProfilerOptions :=
  let '(remote_ip_addr, local_port) :=
    match peer with
    | Some (ip, port) => (default ""%string ip, port)
    | None => ("0.0.0.0"%string, 0)
    end in
  mkProfilerOptions dxs_addr remote_ip_addr local_port dxs_port (Z.of_nat i).

(** The loops over the flows; the connection of flow [i] is added with the
    [i]-th result. *)
Fixpoint create_profilers (f : GPUVizProfilerFactory) (send : bool) (i : nat)
    (calls : list ((nat -> ProfilerOptions) * option Z)) (unset : Z) (lib : StatsLib)
    : list GPUVizProfiler * StatsLib :=
  match calls with
  | [] => ([], lib)
  | (options, added) :: calls =>
      let '(p, lib) := GPUVizProfilerFactory_Create pton4 pton6 send (options i) unset added f lib in
      let '(ps, lib) := create_profilers f send (S i) calls unset lib in
      (p :: ps, lib)
  end.

Definition established (f : GPUVizProfilerFactory) (send : bool)
    (calls : list ((nat -> ProfilerOptions) * option Z)) (unset : Z) (lib : StatsLib) : CommProfilers :=
  let '(ps, lib) := create_profilers f send 0 calls unset lib in
  mkCommProfilers ps 0 ∅ 0 lib.

(** A connect, with the ports of the flows and the results of the calls. *)
Definition connect_profilers (f : GPUVizProfilerFactory) (local dxs_addr : string)
    (flows : list (Z * option Z)) (unset : Z) (lib : StatsLib) : CommProfilers :=
  established f true (prod_map (connect_options local dxs_addr) id <$> flows) unset lib.

(** An accept, with the peers and ports of the flows as well. *)
Definition accept_profilers (f : GPUVizProfilerFactory) (dxs_addr : string)
    (flows : list ((option (option string * Z) * Z) * option Z)) (unset : Z) (lib : StatsLib) : CommProfilers :=
  established f false
    (prod_map (fun '(peer, port) => accept_options peer dxs_addr port) id <$> flows) unset lib.

End shim.

(** [GetRequest] creates the data of the request with the profiler of the
    current flow; when the operation was [scheduled] the flow advances and the
    profiler's timer starts, otherwise the request is dropped.  [None]: the
    process ends, or an index is out of range. *)
Definition request_hooks (scheduled : bool) (clock : option Z) (c : CommProfilers) : option CommProfilers :=
  let flow_for_request := c_base c in
  p ← c_flows c !! flow_for_request;
  let '(d, p) := CreateRequestData p in
  let flows := <[flow_for_request := p]> (c_flows c) in
  if negb scheduled then Some (mkCommProfilers flows (c_base c) (c_requests c) (c_next c) (c_lib c))
  else
    let base := if (S (c_base c) =? length flows)%nat then 0%nat else S (c_base c) in
    d ← OnReqScheduled clock (Some d) p;
    d ← d;
    Some (mkCommProfilers flows base (<[c_next c := (flow_for_request, d)]> (c_requests c))
            (S (c_next c)) (c_lib c)).

(** The hook of [Test] on request [r]; a completed request is deleted. *)
Definition test_hook (r : nat) (clock : option Z) (unset : Z * Z) (done : bool) (size : Z)
    (c : CommProfilers) : option CommProfilers :=
  '(flow_idx, d) ← c_requests c !! r;
  p ← c_flows c !! flow_idx;
  '(d, lib) ← TestRequest clock unset (Some d) done (if done then size else 0) p (c_lib c);
  d ← d;
  Some (mkCommProfilers (c_flows c) (c_base c)
          (if done then delete r (c_requests c) else <[r := (flow_idx, d)]> (c_requests c))
          (c_next c) lib).

(** The loop of [Close]. *)
Fixpoint close_profilers (ps : list GPUVizProfiler) (deleted : nat -> bool) (i : nat) (lib : StatsLib)
    : list GPUVizProfiler * StatsLib :=
  match ps with
  | [] => ([], lib)
  | p :: ps =>
      let '(p, lib) := OnConnectionClosed (deleted i) p lib in
      let '(ps, lib) := close_profilers ps deleted (S i) lib in
      (p :: ps, lib)
  end.

(** The communication is destroyed with its profilers, the last one first. *)
Definition destroy_profilers (ps : list GPUVizProfiler) (deleted : GPUVizProfiler -> bool) (lib : StatsLib)
    : StatsLib :=
  foldr (fun p lib => destroy_GPUVizProfiler true (deleted p) p lib) lib ps.

Definition close_hooks (on_close : nat -> bool) (on_destroy : GPUVizProfiler -> bool) (c : CommProfilers) : StatsLib :=
  let '(ps, lib) := close_profilers (c_flows c) on_close 0 (c_lib c) in
  destroy_profilers ps on_destroy lib.

(** What NCCL does with a communication. *)
Inductive hook : Type :=
  | HRequest (scheduled : bool) (clock : option Z)
  | HTest (r : nat) (clock : option Z) (unset : Z * Z) (done : bool) (size : Z).

(** NCCL tests only requests it was given and that are not completed. *)
Definition hook_ok (h : hook) (c : CommProfilers) : bool :=
  match h with
  | HRequest _ _ => true
  | HTest r _ _ _ _ => bool_decide (is_Some (c_requests c !! r))
  end.

Definition do_hook (h : hook) (c : CommProfilers) : option CommProfilers :=
  match h with
  | HRequest scheduled clock => request_hooks scheduled clock c
  | HTest r clock unset done size => test_hook r clock unset done size c
  end.

(** A run of hooks; a test of a request NCCL does not hold is skipped. *)
Fixpoint do_hooks (hs : list hook) (c : CommProfilers) : option CommProfilers :=
  match hs with
  | [] => Some c
  | h :: hs => if hook_ok h c then c ← do_hook h c; do_hooks hs c else do_hooks hs c
  end.

(** ** Start times *)

Lemma to_double_exact x : 0 <= x < 2 ^ 53 -> to_double x = x.
Proof.
  intros [? ?]. unfold to_double.
  destruct (Z.leb_spec (Z.log2 x - 52) 0); [done|].
  assert (Z.log2 x < 53); [|lia].
  destruct (decide (x = 0)) as [->|]; [done|]. apply Z.log2_lt_pow2; lia.
Qed.

(** A start time below [2 ^ 53] ns (104 days after boot) is reported as it
    is. *)
Lemma start_time_ns_exact t : 0 <= t < 2 ^ 53 -> start_time_ns t = t.
Proof.
  intros Ht. unfold start_time_ns.
  pose proof (Z.div_mod t (10 ^ 9) ltac:(lia)).
  pose proof (Z.mod_pos_bound t (10 ^ 9) ltac:(lia)).
  assert (0 <= t / 10 ^ 9) by (apply Z.div_pos; lia).
  rewrite (to_double_exact (t / 10 ^ 9)) by lia.
  rewrite (to_double_exact (t / 10 ^ 9 * 10 ^ 9)) by lia.
  rewrite to_double_exact; lia.
Qed.

(** One nanosecond later the sum is rounded. *)
Example start_time_ns_rounds : start_time_ns (2 ^ 53 + 1) = 2 ^ 53.
Proof. vm_compute. reflexivity. Qed.

(** ** Connections are accounted for *)

(** The open connection of a profiler. *)
Definition handle_of (p : GPUVizProfiler) : list Z :=
  if stats_connection_handle_ p =? 0 then [] else [stats_connection_handle_ p].

(** Beyond the connections [conns0], the library has exactly the connections
    [hs] open, and no call named another one. *)
Definition Owns (conns0 : gmap Z ConnectionIdentifier) (hs : list Z) (lib : StatsLib) : Prop :=
  base.NoDup hs /\ (forall h, h ∈ hs -> conns0 !! h = None) /\ stray lib = false /\
  forall h, if decide (h ∈ hs) then is_Some (conns lib !! h) else conns lib !! h = conns0 !! h.

#[export] Instance Owns_proper conns0 : Proper (Permutation ==> eq ==> iff) (Owns conns0).
Proof.
  assert (forall hs hs' lib, hs ≡ₚ hs' -> Owns conns0 hs lib -> Owns conns0 hs' lib) as H.
  { intros hs hs' lib Hp (Hnd & Hfresh & Hs & Hc). split_and!; [by rewrite <-Hp| |done|].
    - intros h. rewrite <-Hp. apply Hfresh.
    - intros h. specialize (Hc h). assert (h ∈ hs <-> h ∈ hs') by (by rewrite Hp).
      destruct (decide (h ∈ hs)), (decide (h ∈ hs')); tauto. }
  intros hs hs' Hp ? lib ->. split; apply H; by rewrite ?Hp.
Qed.

Lemma Owns_open conns0 h hs lib : Owns conns0 hs lib -> h ∈ hs -> is_open h lib = true.
Proof.
  intros (_ & _ & _ & Hc) Hin. specialize (Hc h). rewrite decide_True in Hc by done.
  by apply bool_decide_eq_true.
Qed.

Lemma Owns_delete conns0 h hs (ok : bool) lib :
  Owns conns0 (h :: hs) lib ->
  Owns conns0 (if ok then hs else h :: hs) (deleteConnection h ok lib).
Proof.
  intros HO. pose proof (Owns_open _ h _ _ HO ltac:(set_solver)) as Hop.
  destruct HO as (Hnd & Hfresh & Hs & Hc).
  unfold deleteConnection. destruct ok; split_and!; cbn [stray conns]; rewrite ?Hop, ?Hs; try done.
  - by apply list.NoDup_cons in Hnd as [_ ?].
  - intros ? ?. apply Hfresh. set_solver.
  - apply list.NoDup_cons in Hnd as [Hni _]. intros k. destruct (decide (k = h)) as [->|Hne].
    + rewrite decide_False by done. rewrite lookup_delete_eq. symmetry. apply Hfresh. set_solver.
    + rewrite lookup_delete_ne by done. specialize (Hc k).
      destruct (decide (k ∈ h :: hs)), (decide (k ∈ hs)); set_solver.
Qed.

Lemma Owns_closed conns0 ok p R lib :
  Owns conns0 (handle_of p ++ R) lib ->
  let '(p', lib') := OnConnectionClosed ok p lib in Owns conns0 (handle_of p' ++ R) lib'.
Proof.
  unfold OnConnectionClosed, handle_of. destruct (Z.eqb_spec (stats_connection_handle_ p) 0) as [E|E].
  - by rewrite (proj2 (Z.eqb_eq _ _) E).
  - intros H%(Owns_delete _ _ _ ok). destruct ok; [done|].
    by rewrite (proj2 (Z.eqb_neq _ _) E).
Qed.

Lemma Owns_destroyed conns0 (ok : bool) p R lib :
  Owns conns0 (handle_of p ++ R) lib ->
  Owns conns0 ((if ok then [] else handle_of p) ++ R) (destroy_GPUVizProfiler true ok p lib).
Proof.
  unfold destroy_GPUVizProfiler, handle_of. destruct (stats_connection_handle_ p =? 0); cbn [andb negb app].
  - by destruct ok.
  - intros H%(Owns_delete _ _ _ ok). by destruct ok.
Qed.

Definition handles (ps : list GPUVizProfiler) : list Z := ps ≫= handle_of.

Lemma Owns_close_all conns0 ok ps : forall i R lib,
  Owns conns0 (handles ps ++ R) lib ->
  let '(ps', lib') := close_profilers ps ok i lib in Owns conns0 (handles ps' ++ R) lib'.
Proof.
  induction ps as [|p ps IH]; intros i R lib H; [done|]. cbn [close_profilers].
  change (handles (p :: ps)) with (handle_of p ++ handles ps) in H. rewrite <-app_assoc in H.
  apply (Owns_closed _ (ok i)) in H. destruct (OnConnectionClosed _ _ _) as [p' lib1].
  rewrite app_assoc, (Permutation_app_comm (handle_of p')), <-app_assoc in H.
  apply (IH (S i)) in H. destruct (close_profilers _ _ _ _) as [ps' lib'].
  change (handles (p' :: ps')) with (handle_of p' ++ handles ps').
  by rewrite (Permutation_app_comm (handle_of p')), <-app_assoc.
Qed.

(** The connections whose deletion failed in the destructor. *)
Definition leaked (ok : GPUVizProfiler -> bool) (ps : list GPUVizProfiler) : list Z :=
  ps ≫= fun p => if ok p then [] else handle_of p.

Lemma Owns_destroy_all conns0 ok ps : forall R lib,
  Owns conns0 (handles ps ++ R) lib ->
  Owns conns0 (leaked ok ps ++ R) (destroy_profilers ps ok lib).
Proof.
  induction ps as [|p ps IH]; intros R lib H; [done|].
  change (handles (p :: ps)) with (handle_of p ++ handles ps) in H.
  change (leaked ok (p :: ps)) with ((if ok p then [] else handle_of p) ++ leaked ok ps).
  rewrite (Permutation_app_comm (handle_of p)), <-app_assoc in H. apply IH in H.
  rewrite app_assoc, (Permutation_app_comm (leaked ok ps)), <-app_assoc in H.
  apply (Owns_destroyed _ (ok p)) in H. by rewrite <-app_assoc.
Qed.

(** The handles of the connections the library added. *)
Definition added_handles {A} (calls : list (A * option Z)) : list Z := omap snd calls.

Lemma added_handles_map {A B} (f : A -> B) (calls : list (A * option Z)) :
  added_handles (prod_map f id <$> calls) = added_handles calls.
Proof.
  unfold added_handles. induction calls as [|[a [h|]] calls IH]; [done| |done].
  change (h :: omap snd (prod_map f id <$> calls) = h :: omap snd calls). by rewrite IH.
Qed.

Lemma added_handles_zip {A} (l : list A) (added : list (option Z)) :
  length l = length added -> added_handles (zip l added) = omap id added.
Proof.
  unfold added_handles. revert added. induction l as [|a l IH]; intros [|[h|] added] Hl; try done;
    injection Hl as Hl; [|exact (IH added Hl)].
  change (h :: omap snd (zip l added) = h :: omap id added). by rewrite IH.
Qed.

(** Flow [i] gets a profiler with index [i]. *)
Definition numbered {A} (calls : list ((nat -> ProfilerOptions) * A)) : Prop :=
  Forall (fun call => forall i, flow_id (call.1 i) = Z.of_nat i) calls.

Lemma Owns_added conns0 h hs ident lib :
  Owns conns0 hs lib -> h ∉ hs -> conns0 !! h = None ->
  Owns conns0 (h :: hs) (addConnection ident (Some h) lib).
Proof.
  intros (Hnd & Hfresh & Hs & Hc) Hni Hh. split_and!; [by apply list.NoDup_cons|set_solver|done|].
  intros k. cbn [addConnection conns]. specialize (Hc k). destruct (decide (k = h)) as [->|Hne].
  - rewrite decide_True by set_solver. by rewrite lookup_insert_eq.
  - rewrite lookup_insert_ne by done. destruct (decide (k ∈ h :: hs)), (decide (k ∈ hs)); set_solver.
Qed.

Lemma create_profilers_owns pton4 pton6 f send unset conns0 calls : forall i R lib,
  numbered calls -> Owns conns0 R lib -> base.NoDup (added_handles calls ++ R) ->
  Forall (fun h => h <> 0 /\ conns0 !! h = None) (added_handles calls) ->
  let '(ps, lib') := create_profilers pton4 pton6 f send i calls unset lib in
  Owns conns0 (handles ps ++ R) lib' /\
  map profiler_idx_ ps = map Z.of_nat (seq i (length calls)).
Proof.
  induction calls as [|[options [h|]] calls IH]; intros i R lib Hnum HO Hnd Hfresh; [done|..];
    apply list.Forall_cons in Hnum as [Hi Hnum]; cbn [fst] in Hi.
  - change (added_handles ((options, Some h) :: calls)) with (h :: added_handles calls) in *.
    apply list.Forall_cons in Hfresh as [[Hh0 Hh] Hfresh]. cbn [app] in Hnd.
    pose proof Hnd as [Hni Hnd']%list.NoDup_cons.
    cbn [create_profilers GPUVizProfilerFactory_Create GPUVizProfiler_Init].
    eapply (Owns_added _ h) in HO; [|set_solver|done]. eapply (IH (S i)) in HO; [|done|by rewrite <-Permutation_middle|done].
    destruct (create_profilers _ _ _ _ _ _ _ _) as [ps lib'] eqn:E in HO |- *.
    rewrite E. destruct HO as [HO Hidx]. split; [|cbn; by rewrite Hidx, Hi].
    match goal with |- Owns _ (handles (?p :: _) ++ _) _ => change (handles (p :: ps)) with (handle_of p ++ handles ps) end.
    unfold handle_of at 1. cbn [stats_connection_handle_ with_handle]. rewrite (proj2 (Z.eqb_neq _ _) Hh0).
    cbn [app]. by rewrite Permutation_middle.
  - change (added_handles ((options, None) :: calls)) with (added_handles calls) in *.
    cbn [create_profilers GPUVizProfilerFactory_Create GPUVizProfiler_Init addConnection].
    specialize (IH (S i) R lib Hnum HO Hnd Hfresh).
    destruct (create_profilers _ _ _ _ _ _ _ _) as [ps lib'] eqn:E in IH |- *.
    rewrite ?E. destruct IH as [HO' Hidx]. split; [done|cbn; by rewrite Hidx, Hi].
Qed.

(** ** The invariant of a communication *)

Record Cinv (conns0 : gmap Z ConnectionIdentifier) (c : CommProfilers) : Prop := {
  ci_owns : Owns conns0 (handles (c_flows c)) (c_lib c);
  ci_idx : map profiler_idx_ (c_flows c) = map Z.of_nat (seq 0 (length (c_flows c)));
  ci_base : (c_base c < length (c_flows c))%nat;
  ci_requests : forall r flow d, c_requests c !! r = Some (flow, d) ->
    (flow < length (c_flows c))%nat /\ rd_profiler_idx_ d = Z.of_nat flow
}.

Lemma ci_profiler conns0 c i : Cinv conns0 c -> (i < length (c_flows c))%nat ->
  exists p, c_flows c !! i = Some p /\ profiler_idx_ p = Z.of_nat i.
Proof.
  intros HI Hi. destruct (lookup_lt_is_Some_2 (c_flows c) i Hi) as [p Hp]. exists p. split; [done|].
  pose proof (f_equal (fun l => l !! i) (ci_idx _ _ HI)) as H.
  rewrite !list_lookup_fmap, Hp, lookup_seq_lt in H by done. by injection H.
Qed.

Lemma handles_insert ps i p p' :
  ps !! i = Some p -> handle_of p' = handle_of p -> handles (<[i := p']> ps) = handles ps.
Proof.
  intros Hi E. pose proof (list_insert_id _ _ _ Hi) as Hid. rewrite <-Hid at 2.
  clear Hid. revert i Hi. induction ps as [|q ps IH]; intros [|i] Hi; try done.
  - cbn. by rewrite E.
  - cbn in *. f_equal. by apply IH.
Qed.

Lemma request_hooks_ok conns0 scheduled clock c : Cinv conns0 c ->
  exists c', request_hooks scheduled clock c = Some c' /\ Cinv conns0 c'.
Proof.
  intros HI. destruct (ci_profiler _ _ _ HI (ci_base _ _ HI)) as (p & Hp & Hidx).
  unfold request_hooks. rewrite Hp. cbn [mbind option_bind]. cbn beta iota delta [CreateRequestData].
  set (p' := mkProfiler _ _ _ _ _ _ _).
  assert (handles (<[c_base c := p']> (c_flows c)) = handles (c_flows c)) as Hh by by eapply handles_insert.
  assert (map profiler_idx_ (<[c_base c := p']> (c_flows c)) = map profiler_idx_ (c_flows c)) as Hm.
  { rewrite list_fmap_insert. apply list_insert_id. by rewrite list_lookup_fmap, Hp. }
  pose proof (ci_base _ _ HI).
  destruct scheduled; cbn [negb].
  - unfold OnReqScheduled, ValidateRequestData. cbn [rd_profiler_idx_ profiler_idx_ p'].
    rewrite Z.eqb_refl. cbn [mbind option_bind]. eexists. split; [done|].
    split; cbn [c_flows c_base c_requests c_lib]; rewrite ?length_insert, ?Hh, ?Hm; try apply HI.
    + destruct (Nat.eqb_spec (S (c_base c)) (length (c_flows c))); lia.
    + intros r flow d. destruct (decide (r = c_next c)) as [->|Hne].
      * rewrite lookup_insert_eq. intros [= <- <-]. split; [done|]. by destruct clock.
      * rewrite lookup_insert_ne by done. apply HI.
  - eexists. split; [done|].
    split; cbn [c_flows c_base c_requests c_lib]; rewrite ?length_insert, ?Hh, ?Hm; apply HI.
Qed.

Lemma notify_owns conns0 hs h m lib : Owns conns0 hs lib -> h ∈ hs ->
  Owns conns0 hs (notifyOperationMeasurement h m lib).
Proof.
  intros HO Hin. pose proof (Owns_open _ _ _ _ HO Hin) as Hop. destruct HO as (? & ? & Hs & ?).
  split_and!; try done. cbn [notifyOperationMeasurement stray]. by rewrite Hop, Hs.
Qed.

Lemma TestRequest_ok conns0 hs clock unset d done size p lib :
  Owns conns0 (hs) lib -> (forall h, h ∈ handle_of p -> h ∈ hs) -> rd_profiler_idx_ d = profiler_idx_ p ->
  exists d' lib', TestRequest clock unset (Some d) done size p lib = Some (Some d', lib') /\
    rd_profiler_idx_ d' = rd_profiler_idx_ d /\ Owns conns0 hs lib'.
Proof.
  intros HO Hh Hd. unfold TestRequest. destruct done; cbn [negb]; [|by eauto].
  unfold handle_of in Hh. destruct (stats_connection_handle_ p =? 0); [by eauto|].
  cbn [ValidateRequestData]. rewrite Hd, Z.eqb_refl. cbn [mbind option_bind].
  destruct (request_time_elapsed _ _); eauto.
  eexists _, _. split; [done|]. split; [done|]. apply notify_owns; [done|]. apply Hh. set_solver.
Qed.

Lemma test_hook_ok conns0 r clock unset done size c : Cinv conns0 c -> is_Some (c_requests c !! r) ->
  exists c', test_hook r clock unset done size c = Some c' /\ Cinv conns0 c'.
Proof.
  intros HI [[flow d] Hr]. destruct (ci_requests _ _ HI _ _ _ Hr) as [Hlt Hd].
  destruct (ci_profiler _ _ _ HI Hlt) as (p & Hp & Hidx).
  assert (forall h, h ∈ handle_of p -> h ∈ handles (c_flows c)) as Hin.
  { intros h Hh. apply list_elem_of_bind. exists p. split; [done|]. by eapply list_elem_of_lookup_2. }
  unfold test_hook. rewrite Hr. cbn [mbind option_bind]. rewrite Hp. cbn [mbind option_bind].
  destruct (TestRequest_ok conns0 _ clock unset d done (if done then size else 0) p _
              (ci_owns _ _ HI) Hin ltac:(congruence)) as (d' & lib' & -> & Hd' & HO').
  cbn [mbind option_bind]. eexists. split; [reflexivity|].
  split; cbn [c_flows c_base c_requests c_lib]; [done|apply HI|apply HI|].
  intros r' flow' d'' H. destruct done.
  - apply lookup_delete_Some in H as [_ H]. by eapply ci_requests.
  - apply lookup_insert_Some in H as [[<- [= <- <-]]|[_ H]]; [split; [done|congruence]|by eapply ci_requests].
Qed.

Lemma do_hooks_ok conns0 hs : forall c, Cinv conns0 c ->
  exists c', do_hooks hs c = Some c' /\ Cinv conns0 c'.
Proof.
  induction hs as [|h hs IH]; intros c HI; [by eauto|]. cbn [do_hooks].
  destruct (hook_ok h c) eqn:Eok; [|by apply IH].
  assert (exists c1, do_hook h c = Some c1 /\ Cinv conns0 c1) as (c1 & E1 & HI1).
  { destruct h; cbn [do_hook hook_ok] in *; [by apply request_hooks_ok|].
    apply bool_decide_eq_true in Eok. by apply test_hook_ok. }
  rewrite E1. cbn [mbind option_bind]. by apply IH.
Qed.

Section claims.
Context (pton4 pton6 : string -> option (list Z)).

Lemma established_Cinv f send calls unset lib :
  calls <> [] -> stray lib = false -> base.NoDup (added_handles calls) ->
  Forall (fun h => h <> 0 /\ conns lib !! h = None) (added_handles calls) -> numbered calls ->
  Cinv (conns lib) (established pton4 pton6 f send calls unset lib).
Proof.
  intros Hne Hs Hnd Hfresh Hnum. unfold established.
  assert (Owns (conns lib) [] lib) as HO by (split_and!; [constructor|set_solver|done|done]).
  pose proof (create_profilers_owns pton4 pton6 f send unset (conns lib) calls 0 [] lib Hnum HO) as H.
  rewrite app_nil_r in H. specialize (H Hnd Hfresh).
  destruct (create_profilers _ _ _ _ _ _ _ _) as [ps lib']. destruct H as [HO' Hidx].
  rewrite app_nil_r in HO'.
  assert (length ps = length calls) as Hlen.
  { apply (f_equal length) in Hidx. by rewrite !length_map, length_seq in Hidx. }
  split; cbn [c_flows c_base c_requests c_lib]; [done|by rewrite Hlen| |done].
  rewrite Hlen. destruct calls; [done|cbn; lia].
Qed.

(** What the hooks do with a communication that satisfies the invariant. *)
Lemma hooks_account conns0 c hs on_close on_destroy : Cinv conns0 c ->
  exists c', do_hooks hs c = Some c' /\ stray (c_lib c') = false /\
    stray (close_hooks on_close on_destroy c') = false /\
    ((forall p, on_destroy p = true) -> conns (close_hooks on_close on_destroy c') = conns0).
Proof.
  intros (c' & E & HI)%(do_hooks_ok _ hs). exists c'. split; [done|]. split; [apply HI|].
  pose proof (ci_owns _ _ HI) as HO. rewrite <-(app_nil_r (handles _)) in HO.
  apply (Owns_close_all _ on_close _ 0) in HO. unfold close_hooks.
  destruct (close_profilers _ _ _ _) as [ps lib']. apply (Owns_destroy_all _ on_destroy) in HO.
  rewrite app_nil_r in HO. split; [apply HO|]. intros Hok.
  assert (leaked on_destroy ps = []) as El.
  { unfold leaked. clear HO. induction ps as [|p ps IH]; [done|]. cbn. by rewrite Hok. }
  rewrite El in HO. destruct HO as (_ & _ & _ & Hc). apply map_eq. intros h.
  specialize (Hc h). by rewrite decide_False in Hc by set_solver.
Qed.



End claims.

(** A request that is scheduled at [start] and found
    complete at [now] is reported once, to the connection of its flow: with
    the completed size, the direction of the communication and the time
    between the two calls as its latency.  The start time is exact up to
    [2 ^ 53] ns after boot. *)
Theorem completed_request_reported start now unset size p lib :
  stats_connection_handle_ p <> 0 -> 0 <= start < 2 ^ 53 -> start <= now < 2 ^ 63 ->
  let d := fst (CreateRequestData p) in
  exists d' d'', OnReqScheduled (Some start) (Some d) p = Some (Some d') /\
    TestRequest (Some now) unset (Some d') true size p lib =
      Some (Some d'', mkStatsLib (conns lib)
        (metrics lib ++ [(stats_connection_handle_ p,
           mkMetric (if is_send_ p then OperationTypeChunkSend else OperationTypeChunkRecv)
             (fst unset) (snd unset) size start [mkLatency LatencySoftware (now - start)])])
        (stray lib || negb (is_open (stats_connection_handle_ p) lib))).
Proof.
  intros Hh Hs Hn d. unfold OnReqScheduled, TestRequest, d. cbn [ValidateRequestData CreateRequestData fst rd_profiler_idx_].
  rewrite Z.eqb_refl. cbn [mbind option_bind start_request_timer snd].
  eexists _, _. split; [reflexivity|]. rewrite (proj2 (Z.eqb_neq _ _) Hh).
  cbn [negb ValidateRequestData rd_profiler_idx_]. rewrite Z.eqb_refl.
  cbn [mbind option_bind set_request_size request_time_elapsed request_start_time timer_started_ start_time_ request_size_ negb].
  rewrite start_time_ns_exact by done. unfold u64. rewrite Z.mod_small by lia. reflexivity.
Qed.

(** The factory's constructor leaves [stats_global_handle_]
    unset; however its [Init] ends, what the destructor does is independent of
    that value, and it destroys the library's object only if [Init]
    created one with a handle other than zero. *)
Theorem factory_handle_set opened symbol inited pci unset :
  let f := snd (GPUVizProfilerFactory_Init opened symbol inited (new_Factory pci unset)) in
  destroy_Factory f =
    (opened && symbol && match inited with Some h => negb (h =? 0) | None => false end, opened).
Proof. by destruct opened, symbol, inited. Qed.

(** ** Witnesses *)

Definition no_address : string -> option (list Z) := fun _ => None.


Definition flow_profiler : GPUVizProfiler :=
  mkProfiler 7 true 0 "gpu" (mkSockaddr AF_INET None 0) (mkSockaddr AF_INET None 80) 0.

Lemma completed_request_reported_witness :
  exists d' d'', OnReqScheduled (Some 5) (Some (fst (CreateRequestData flow_profiler))) flow_profiler = Some (Some d') /\
    TestRequest (Some 9) (0, 0) (Some d') true 64 flow_profiler (mkStatsLib ∅ [] false) =
      Some (Some d'', mkStatsLib ∅
        ([] ++ [(7, mkMetric OperationTypeChunkSend 0 0 64 5 [mkLatency LatencySoftware (9 - 5)])])
        (false || negb (is_open 7 (mkStatsLib ∅ [] false)))).
Proof.
  apply (completed_request_reported 5 9 (0, 0) 64 flow_profiler (mkStatsLib ∅ [] false)); [done|lia|lia].
Defined.
