(* ===== verification/SocketIo.v ===== *)
(** * Transfers over stream sockets
    (tcpdirect_plugin/fastrak_offload/utilities.h: connectAddress,
    socketProgressOpt, socketProgress, socketWait, socketSpin)

    The results of the system calls, one per call, are arguments: how many
    bytes the kernel is ready to move, that the peer has closed, or an error.
    A definition returns [None] when it makes more calls than there are
    results.  The argument [block] of the source selects flags of the calls
    and so only which results they may have. *)

From S2P Require Import Prelude NetIfs.

Inductive Errno : Type := EINTR | EAGAIN | ECONNREFUSED | ETIMEDOUT | EOTHER (n : Z).

#[global] Instance Errno_eq_dec : EqDecision Errno.
Proof. solve_decision. Defined.

Inductive SocketOp : Type := NCCL_SOCKET_SEND | NCCL_SOCKET_RECV.

#[global] Instance SocketOp_eq_dec : EqDecision SocketOp.
Proof. solve_decision. Defined.

(** [Ready n]: the kernel moves at most [n] bytes. *)
Inductive CallResult : Type := Ready (n : Z) | Closed | Failed (e : Errno).

(** The caller's memory and the two streams of the connection: what the
    peer has sent and we have not received, and what we have sent. *)
Record Transfer := mkTransfer {
  t_data : list Z;
  t_offset : Z;
  t_incoming : list Z;
  t_wire : list Z
}.

(** [NetSysCall().Receive] of [len] bytes at [offset]; the result is the
    number of bytes or an error. *)
Definition Receive_call (r : CallResult) (len : Z) (t : Transfer) : (Errno + Z) * Transfer :=
  match r with
  | Ready n =>
      let got := takeZ (Z.min n len) (t_incoming t) in
      (inr (Zlen got),
       mkTransfer (takeZ (t_offset t) (t_data t) ++ got ++ dropZ (t_offset t + Zlen got) (t_data t))
         (t_offset t) (dropZ (Z.min n len) (t_incoming t)) (t_wire t))
  | Closed => (inr 0, t)
  | Failed e => (inl e, t)
  end.

(** [NetSysCall().SendTo] of the [len] bytes at [offset]. *)
Definition SendTo_call (r : CallResult) (len : Z) (t : Transfer) : (Errno + Z) * Transfer :=
  match r with
  | Ready n =>
      let bs := takeZ (Z.min n len) (dropZ (t_offset t) (t_data t)) in
      (inr (Zlen bs), mkTransfer (t_data t) (t_offset t) (t_incoming t) (t_wire t ++ bs))
  | Closed => (inr 0, t)
  | Failed e => (inl e, t)
  end.

Definition advance (bytes : Z) (t : Transfer) : Transfer :=
  mkTransfer (t_data t) (t_offset t + bytes) (t_incoming t) (t_wire t).

Definition transient (e : Errno) : bool := bool_decide (e = EINTR) || bool_decide (e = EAGAIN).

Fixpoint socketProgressOpt (op : SocketOp) (size : Z) (results : list CallResult) (t : Transfer)
    : option (ncclResult_t * Transfer * list CallResult) :=
  match results with
  | [] => None
  | r :: results' =>
      let '(res, t) :=
        match op with
        | NCCL_SOCKET_RECV => Receive_call r (size - t_offset t) t
        | NCCL_SOCKET_SEND => SendTo_call r (size - t_offset t) t
        end in
      let closed := match op, res with NCCL_SOCKET_RECV, inr 0 => true | _, _ => false end in
      if closed then Some (ncclSystemError, t, results')
      else
        match res with
        | inl e => if transient e then Some (ncclSuccess, t, results')
                   else Some (ncclSystemError, t, results')
        | inr bytes =>
            let t := advance bytes t in
            if (0 <? bytes) && (t_offset t <? size) then socketProgressOpt op size results' t
            else Some (ncclSuccess, t, results')
        end
  end.

Definition socketProgress (op : SocketOp) (size : Z) (results : list CallResult) (t : Transfer)
    : option (ncclResult_t * Transfer * list CallResult) :=
  socketProgressOpt op size results t.

(** Every round of the loop makes a call, so that the results bound the
    rounds. *)
Fixpoint wait_loop (fuel : nat) (op : SocketOp) (size : Z) (results : list CallResult) (t : Transfer)
    : option (ncclResult_t * Transfer * list CallResult) :=
  if t_offset t <? size then
    match fuel with
    | O => None
    | S fuel =>
        '(res, t, results) ← socketProgressOpt op size results t;
        match res with
        | ncclSuccess => wait_loop fuel op size results t
        | _ => Some (res, t, results)
        end
    end
  else Some (ncclSuccess, t, results).

Definition socketWait (op : SocketOp) (size : Z) (results : list CallResult) (t : Transfer)
    : option (ncclResult_t * Transfer * list CallResult) :=
  wait_loop (length results) op size results t.

(** [expired k]: the timer has a timeout and it has passed in round [k]. *)
Fixpoint spin_loop (fuel : nat) (expired : nat -> bool) (k : nat) (op : SocketOp) (size : Z)
    (results : list CallResult) (t : Transfer) : option (ncclResult_t * Transfer * list CallResult) :=
  if t_offset t <? size then
    if expired k then Some (ncclInternalError, t, results)
    else
      match fuel with
      | O => None
      | S fuel =>
          '(res, t, results) ← socketProgressOpt op size results t;
          match res with
          | ncclSuccess => spin_loop fuel expired (S k) op size results t
          | _ => Some (res, t, results)
          end
      end
  else Some (ncclSuccess, t, results).

Definition socketSpin (expired : nat -> bool) (op : SocketOp) (size : Z) (results : list CallResult)
    (t : Transfer) : option (ncclResult_t * Transfer * list CallResult) :=
  spin_loop (length results) expired 0 op size results t.

(** ** Connecting *)

Definition RETRY_REFUSED_TIMES : Z := 20000.
Definition RETRY_TIMEDOUT_TIMES : Z := 3.

(** The loop after [retry]; [attempts] are the results of the calls of
    [connect] ([None] for success).  Also the number of calls. *)
Fixpoint connect_retry (attempts : list (option Errno)) (refused timedout : Z) (calls : nat)
    : option (ncclResult_t * nat) :=
  match attempts with
  | [] => None
  | None :: _ => Some (ncclSuccess, S calls)
  | Some e :: attempts' =>
      let refused' := if bool_decide (e = ECONNREFUSED) then refused + 1 else refused in
      let timedout' := if bool_decide (e = ETIMEDOUT) then timedout + 1 else timedout in
      if (bool_decide (e = ECONNREFUSED) && (refused' <? RETRY_REFUSED_TIMES))
         || (bool_decide (e = ETIMEDOUT) && (timedout' <? RETRY_TIMEDOUT_TIMES))
      then connect_retry attempts' refused' timedout' (S calls)
      else Some (ncclSystemError, S calls)
  end.

(** [inet]: the family is AF_INET or AF_INET6.  [fd]: the result of
    [socket], negative on failure; [nodelay]: of [setsockopt].  The second
    component is the descriptor that is left open. *)
Definition connectAddress (inet : bool) (fd nodelay : Z) (attempts : list (option Errno))
    : option (ncclResult_t * option Z * nat) :=
  if negb inet then Some (ncclInternalError, None, 0%nat)
  else if fd =? -1 then Some (ncclSystemError, None, 0%nat)
  else if nodelay <? 0 then Some (ncclSystemError, Some fd, 0%nat)
  else '(res, calls) ← connect_retry attempts 0 0 0; Some (res, Some fd, calls).

(** ** What has been moved *)

(** A result of a call that moves data moves at least a byte. *)
Definition result_ok (r : CallResult) : Prop := match r with Ready n => 0 < n | _ => True end.

(** Since [t0], the bytes from its offset to that of [t] have been moved,
    in order and nothing else. *)
Record moved (op : SocketOp) (size : Z) (t0 t : Transfer) : Prop := {
  mv_range : 0 <= t_offset t0 <= t_offset t /\ t_offset t <= size;
  mv_size : size <= Zlen (t_data t0) /\ Zlen (t_data t) = Zlen (t_data t0);
  mv_wire : t_wire t = t_wire t0 ++ match op with
    | NCCL_SOCKET_SEND => takeZ (t_offset t - t_offset t0) (dropZ (t_offset t0) (t_data t0))
    | NCCL_SOCKET_RECV => [] end;
  mv_data : t_data t = match op with
    | NCCL_SOCKET_SEND => t_data t0
    | NCCL_SOCKET_RECV => takeZ (t_offset t0) (t_data t0)
        ++ takeZ (t_offset t - t_offset t0) (t_incoming t0) ++ dropZ (t_offset t) (t_data t0) end;
  mv_incoming : t_incoming t = match op with
    | NCCL_SOCKET_SEND => t_incoming t0
    | NCCL_SOCKET_RECV => dropZ (t_offset t - t_offset t0) (t_incoming t0) end;
  mv_enough : op = NCCL_SOCKET_RECV -> t_offset t - t_offset t0 <= Zlen (t_incoming t0)
}.

Lemma take_take_dropZ {A} (l : list A) k g :
  0 <= k -> 0 <= g -> takeZ k l ++ takeZ g (dropZ k l) = takeZ (k + g) l.
Proof. intros. unfold takeZ, dropZ. by rewrite Z2Nat.inj_add, take_take_drop by lia. Qed.

Lemma drop_dropZ {A} (l : list A) k g : 0 <= k -> 0 <= g -> dropZ g (dropZ k l) = dropZ (k + g) l.
Proof. intros. unfold dropZ. rewrite drop_drop. f_equal. lia. Qed.

Lemma Zlen_takeZ_min {A} (l : list A) n : 0 <= n -> Zlen (takeZ n l) = Z.min n (Zlen l).
Proof. intros. unfold Zlen, takeZ. rewrite length_take. lia. Qed.

Lemma takeZ_Zlen {A} (l : list A) n : 0 <= n -> takeZ (Zlen (takeZ n l)) l = takeZ n l.
Proof.
  intros Hn. rewrite Zlen_takeZ_min by done. unfold takeZ, Zlen.
  destruct (Z.le_ge_cases n (Z.of_nat (length l))).
  - f_equal. lia.
  - rewrite !take_ge; [done|lia..].
Qed.

Lemma dropZ_Zlen {A} (l : list A) n : 0 <= n -> dropZ (Zlen (takeZ n l)) l = dropZ n l.
Proof.
  intros Hn. rewrite Zlen_takeZ_min by done. unfold dropZ, Zlen.
  destruct (Z.le_ge_cases n (Z.of_nat (length l))).
  - f_equal. lia.
  - rewrite !drop_ge; [done|lia..].
Qed.

Lemma moved_refl op size t :
  0 <= t_offset t <= size -> size <= Zlen (t_data t) -> moved op size t t.
Proof.
  intros H1 H2. constructor; rewrite ?Z.sub_diag; try done; try lia.
  - destruct op; cbn; by rewrite app_nil_r.
  - destruct op; [done|]. change (takeZ 0 (t_incoming t)) with (@nil Z). cbn [app].
    by rewrite take_dropZ.
  - destruct op; done.
  - intros _. apply Zlen_nonneg.
Qed.

Section step.
Context (size : Z) (t0 t : Transfer) (n : Z) (Hn : 0 < n).

Lemma moved_receive :
  moved NCCL_SOCKET_RECV size t0 t ->
  let '(res, t') := Receive_call (Ready n) (size - t_offset t) t in
  exists g, res = inr g /\ 0 <= g /\ g <= size - t_offset t
    /\ moved NCCL_SOCKET_RECV size t0 (advance g t').
Proof using Hn.
  intros []. cbn. set (m := Z.min n (size - t_offset t)). set (g := Zlen (takeZ m (t_incoming t))).
  assert (Hm : 0 <= m) by lia. assert (Hg : g = Z.min m (Zlen (t_incoming t)))
    by (by apply Zlen_takeZ_min). pose proof (Zlen_nonneg (t_incoming t)).
  exists g. split_and!; [done|lia|lia|].
  set (k := t_offset t - t_offset t0) in *. specialize (mv_enough0 eq_refl).
  set (A := takeZ (t_offset t0) (t_data t0) ++ takeZ k (t_incoming t0)).
  assert (HA : t_offset t = Zlen A) by (subst A; rewrite Zlen_app, !Zlen_takeZ by lia; lia).
  assert (HD : t_data t = A ++ dropZ (t_offset t) (t_data t0)) by (by rewrite mv_data0, app_assoc).
  assert (Hi : Zlen (t_incoming t) = Zlen (t_incoming t0) - k)
    by (rewrite mv_incoming0; apply Zlen_dropZ; lia).
  assert (Hd : t_data (advance g (snd (Receive_call (Ready n) (size - t_offset t) t)))
    = takeZ (t_offset t0) (t_data t0) ++ takeZ (k + g) (t_incoming t0) ++ dropZ (t_offset t + g) (t_data t0)).
  { cbn. fold m. fold g. rewrite HD at 1 2. rewrite takeZ_app_exact by done.
    rewrite <- (drop_dropZ (A ++ _) (t_offset t) g), dropZ_app_exact, drop_dropZ by lia.
    rewrite <- take_take_dropZ by lia. rewrite <- mv_incoming0.
    subst g. rewrite takeZ_Zlen by done. subst A. by rewrite <- !app_assoc. }
  cbn in Hd. fold m g in Hd.
  constructor; cbn [advance t_offset t_data t_incoming t_wire]; try lia.
  - split; [lia|]. fold g. rewrite Hd, !Zlen_app, !Zlen_takeZ, Zlen_dropZ by lia. lia.
  - done.
  - fold g. rewrite Hd. by replace (t_offset t + g - t_offset t0) with (k + g) by lia.
  - rewrite <- dropZ_Zlen by done. fold g. rewrite mv_incoming0, drop_dropZ by lia. f_equal. lia.
Qed.

Lemma moved_send :
  moved NCCL_SOCKET_SEND size t0 t ->
  let '(res, t') := SendTo_call (Ready n) (size - t_offset t) t in
  exists g, res = inr g /\ g = Z.min n (size - t_offset t)
    /\ moved NCCL_SOCKET_SEND size t0 (advance g t').
Proof using Hn.
  intros []. cbn. set (m := Z.min n (size - t_offset t)).
  assert (Hm : 0 <= m) by lia.
  assert (Hg : Zlen (takeZ m (dropZ (t_offset t) (t_data t))) = m)
    by (apply Zlen_takeZ; rewrite Zlen_dropZ; lia).
  exists m. rewrite Hg. split_and!; [done..|]. constructor; cbn; try done; try lia.
  rewrite mv_wire0, mv_data0, <- app_assoc. f_equal.
  replace (t_offset t + m - t_offset t0) with (t_offset t - t_offset t0 + m) by lia.
  rewrite <- take_take_dropZ by lia. f_equal. rewrite drop_dropZ by lia. do 2 f_equal. lia.
Qed.

End step.

Lemma advance_0 t : advance 0 t = t.
Proof. destruct t. unfold advance. cbn. by rewrite Z.add_0_r. Qed.

(** One call, in either direction. *)
Definition call (op : SocketOp) (r : CallResult) (len : Z) (t : Transfer) : (Errno + Z) * Transfer :=
  match op with
  | NCCL_SOCKET_RECV => Receive_call r len t
  | NCCL_SOCKET_SEND => SendTo_call r len t
  end.

Lemma moved_call op size t0 t r res t' :
  result_ok r -> moved op size t0 t -> call op r (size - t_offset t) t = (res, t') ->
  match res with
  | inl e => t' = t /\ r = Failed e
  | inr g => 0 <= g /\ moved op size t0 (advance g t')
             /\ (g = 0 -> t_offset t < size -> r = Closed
                 \/ op = NCCL_SOCKET_RECV /\ Zlen (t_incoming t) <= 0)
  end.
Proof.
  intros Hr M E. pose proof (mv_range _ _ _ _ M) as [? ?]. destruct r as [n| |e].
  - destruct op; cbn [call] in E.
    + pose proof (moved_send size t0 t n Hr M) as Hm. rewrite E in Hm.
      destruct Hm as (g & -> & -> & Hm). cbn in Hr. split_and!; [lia|done|]. lia.
    + pose proof (moved_receive size t0 t n Hr M) as Hm. rewrite E in Hm.
      destruct Hm as (g & -> & ? & ? & Hm). split_and!; [done..|]. intros -> Hlt. right.
      split; [done|]. cbn in E. injection E as E _. cbn in Hr.
      rewrite Zlen_takeZ_min in E by lia. lia.
  - destruct op; cbn in E; simplify_eq; rewrite advance_0; split_and!; try done; auto.
  - destruct op; cbn in E; by simplify_eq.
Qed.

Lemma progress_step op size r results t :
  socketProgressOpt op size (r :: results) t
  = let '(res, t) := call op r (size - t_offset t) t in
    match res with
    | inl e => if transient e then Some (ncclSuccess, t, results)
               else Some (ncclSystemError, t, results)
    | inr bytes =>
        if bool_decide (op = NCCL_SOCKET_RECV /\ bytes = 0) then Some (ncclSystemError, t, results)
        else if (0 <? bytes) && (t_offset (advance bytes t) <? size)
             then socketProgressOpt op size results (advance bytes t)
             else Some (ncclSuccess, advance bytes t, results)
    end.
Proof.
  cbn [socketProgressOpt]. fold (call op r (size - t_offset t) t).
  destruct (call op r _ t) as [[e|bytes] t1]; [by destruct op|].
  case_bool_decide as Hc; [by destruct Hc as [-> ->]|].
  destruct op; [done|]. destruct bytes; [naive_solver|done..].
Qed.

Lemma progress_moved op size t0 results : forall t res t' rest,
  Forall result_ok results -> moved op size t0 t ->
  socketProgressOpt op size results t = Some (res, t', rest) ->
  moved op size t0 t' /\ Forall result_ok rest /\ (length rest < length results)%nat.
Proof.
  induction results as [|r results IH]; intros t res t' rest Hr M E; [done|].
  rewrite progress_step in E. inversion_clear Hr as [|? ? Hr0 Hrs].
  destruct (call op r (size - t_offset t) t) as [res0 t1] eqn:Ec.
  pose proof (moved_call _ _ _ _ _ _ _ Hr0 M Ec) as Hm.
  destruct res0 as [e|g].
  - destruct Hm as [-> _]. destruct (transient e); simplify_eq; (split_and!; [done..|cbn; lia]).
  - destruct Hm as (Hg & Hm & _). case_bool_decide as Hc.
    + destruct Hc as [_ ->]. rewrite advance_0 in Hm. simplify_eq. split_and!; [done..|cbn; lia].
    + destruct (_ && _); [|simplify_eq; split_and!; [done..|cbn; lia]].
      destruct (IH _ _ _ _ Hrs Hm E) as (? & ? & ?). split_and!; [done..|cbn; lia].
Qed.

(** [socketWait] is [socketSpin] without a timeout. *)
Lemma wait_is_spin fuel op size : forall k results t,
  wait_loop fuel op size results t = spin_loop fuel (fun _ => false) k op size results t.
Proof.
  induction fuel as [|fuel IH]; intros k results t; cbn; [done|].
  destruct (t_offset t <? size); [|done].
  destruct (socketProgressOpt op size results t) as [[[[] t1] rest]|]; cbn; done || apply IH.
Qed.

Lemma spin_moved fuel expired op size t0 : forall k results t res t' rest,
  Forall result_ok results -> moved op size t0 t ->
  spin_loop fuel expired k op size results t = Some (res, t', rest) ->
  moved op size t0 t' /\ (res = ncclSuccess -> t_offset t' = size).
Proof.
  induction fuel as [|fuel IH]; intros k results t res t' rest Hr M E; cbn in E;
    (destruct (Z.ltb_spec (t_offset t) size);
      [|simplify_eq; split; [done|]; pose proof (mv_range _ _ _ _ M); lia]);
    (destruct (expired k); [by simplify_eq|]); [done|].
  destruct (socketProgressOpt op size results t) as [[[res1 t1] rest1]|] eqn:Ep; [cbn in E|done].
  destruct (progress_moved _ _ _ _ _ _ _ _ Hr M Ep) as (M1 & Hr1 & _).
  destruct res1; [by eapply IH|by simplify_eq..].
Qed.

(** ** Progress *)

Definition favourable (r : CallResult) : Prop :=
  match r with Ready n => 0 < n | Closed => False | Failed e => transient e = true end.

Definition is_ready (r : CallResult) : bool := match r with Ready _ => true | _ => false end.

Definition ready_calls (results : list CallResult) : Z := Zlen (List.filter is_ready results).

Lemma favourable_ok r : favourable r -> result_ok r.
Proof. by destruct r. Qed.

Lemma progress_favourable op size t0 results : forall t,
  Forall favourable results -> moved op size t0 t -> t_offset t < size ->
  size - t_offset t <= ready_calls results ->
  (op = NCCL_SOCKET_RECV -> size - t_offset t0 <= Zlen (t_incoming t0)) ->
  exists t' rest, socketProgressOpt op size results t = Some (ncclSuccess, t', rest)
    /\ moved op size t0 t' /\ Forall favourable rest /\ (length rest < length results)%nat
    /\ size - t_offset t' <= ready_calls rest.
Proof.
  induction results as [|r results IH]; intros t Hf M Hlt Hc Hin.
  { unfold ready_calls, Zlen in Hc. cbn in Hc. lia. }
  rewrite progress_step. inversion_clear Hf as [|? ? Hr Hrs].
  destruct (call op r (size - t_offset t) t) as [res0 t1] eqn:Ec.
  pose proof (moved_call _ _ _ _ _ _ _ (favourable_ok _ Hr) M Ec) as Hm.
  destruct res0 as [e|g].
  - destruct Hm as [-> ->]. cbn in Hr. rewrite Hr. exists t, results.
    split_and!; [done..|cbn; lia|exact Hc].
  - destruct Hm as (Hg & Hm & H0). destruct r as [n| |]; [|done|by destruct op].
    assert (Hgp : 0 < g).
    { destruct (Z.eq_dec g 0) as [Hz|]; [|lia].
      destruct (H0 Hz Hlt) as [?|[Hop Hi]]; [done|]. specialize (Hin Hop). subst op.
      rewrite (mv_incoming _ _ _ _ M), Zlen_dropZ in Hi;
        pose proof (mv_range _ _ _ _ M); pose proof (mv_enough _ _ _ _ M eq_refl); lia. }
    assert (Hoff : t_offset (advance g t1) = t_offset t + g) by (by destruct op; cbn in Ec; simplify_eq).
    assert (Hc' : size - t_offset (advance g t1) <= ready_calls results).
    { unfold ready_calls in *. cbn in Hc. rewrite Zlen_cons in Hc. lia. }
    rewrite bool_decide_eq_false_2 by lia. destruct (Z.ltb_spec 0 g); [cbn [andb]|lia].
    destruct (Z.ltb_spec (t_offset (advance g t1)) size).
    + destruct (IH _ Hrs Hm H1 Hc' Hin) as (t' & rest & -> & ? & ? & ? & ?).
      exists t', rest. split_and!; [done..|cbn; lia|done].
    + exists (advance g t1), results. split_and!; [done..|cbn; lia|done].
Qed.

Lemma spin_favourable fuel op size t0 : forall k results t,
  (length results <= fuel)%nat -> Forall favourable results -> moved op size t0 t ->
  size - t_offset t <= ready_calls results ->
  (op = NCCL_SOCKET_RECV -> size - t_offset t0 <= Zlen (t_incoming t0)) ->
  exists t' rest, spin_loop fuel (fun _ => false) k op size results t = Some (ncclSuccess, t', rest).
Proof.
  induction fuel as [|fuel IH]; intros k results t Hl Hf M Hc Hin; cbn;
    (destruct (Z.ltb_spec (t_offset t) size); [|by eauto]).
  - destruct results; [unfold ready_calls, Zlen in Hc; cbn in *; lia|cbn in *; lia].
  - destruct (progress_favourable op size t0 results t) as (t1 & rest & -> & ? & ? & ? & ?); try done.
    cbn. apply IH; try done. lia.
Qed.

(** ** Properties *)

(** C36 (roundtrip).  Two ends of a connection transfer a message of [size]
    bytes, the sender with [socketSpin] and the receiver with [socketWait],
    however the kernel cuts the stream into pieces and whichever calls are
    interrupted.  When both succeed, the sender has put exactly its bytes on
    the stream, and the receiver's buffer starts with exactly these bytes and
    has consumed nothing else. *)
Theorem socket_transfer size msg wire0 rs expired ts rest_s buf later rr tr rest_r :
  0 <= size -> size = Zlen msg -> size <= Zlen buf ->
  Forall result_ok rs -> Forall result_ok rr ->
  socketSpin expired NCCL_SOCKET_SEND size rs (mkTransfer msg 0 [] wire0)
    = Some (ncclSuccess, ts, rest_s) ->
  socketWait NCCL_SOCKET_RECV size rr (mkTransfer buf 0 (dropZ (Zlen wire0) (t_wire ts) ++ later) [])
    = Some (ncclSuccess, tr, rest_r) ->
  t_wire ts = wire0 ++ msg /\ takeZ size (t_data tr) = msg /\ t_incoming tr = later.
Proof.
  intros Hs Hm Hb Hrs Hrr Es Er.
  assert (M0 : forall op t, t_offset t = 0 -> size <= Zlen (t_data t) -> moved op size t t)
    by (intros; apply moved_refl; lia).
  destruct (spin_moved _ _ _ _ _ _ _ _ _ _ _ Hrs
              (M0 _ (mkTransfer msg 0 [] wire0) eq_refl ltac:(cbn [t_data]; lia)) Es)
    as [Ms Os]. specialize (Os eq_refl).
  assert (Hw : t_wire ts = wire0 ++ msg).
  { rewrite (mv_wire _ _ _ _ Ms), Os. cbn. rewrite Z.sub_0_r, Hm. by rewrite takeZ_all. }
  rewrite Hw, dropZ_app_exact in Er by done. unfold socketWait in Er. rewrite (wait_is_spin _ _ _ 0%nat) in Er.
  destruct (spin_moved _ _ _ _ _ _ _ _ _ _ _ Hrr
              (M0 _ (mkTransfer buf 0 (msg ++ later) []) eq_refl Hb) Er) as [Mr Or].
  specialize (Or eq_refl).
  split_and!; [done| |].
  - rewrite (mv_data _ _ _ _ Mr), Or. cbn [t_offset t_data t_incoming]. rewrite Z.sub_0_r.
    change (takeZ 0 buf) with (@nil Z). cbn [app]. rewrite (takeZ_app_exact size msg) by done.
    by apply takeZ_app_exact.
  - rewrite (mv_incoming _ _ _ _ Mr), Or. cbn [t_offset t_incoming]. rewrite Z.sub_0_r.
    by apply dropZ_app_exact.
Qed.

(** [socketWait] completes a transfer: whatever the
    sizes of the pieces and however many calls are interrupted, once as many
    calls as there are bytes left have moved data, it returns success. *)
Theorem socket_wait_completes op size results t :
  0 <= t_offset t <= size -> size <= Zlen (t_data t) -> Forall favourable results ->
  size - t_offset t <= ready_calls results ->
  (op = NCCL_SOCKET_RECV -> size - t_offset t <= Zlen (t_incoming t)) ->
  exists t' rest, socketWait op size results t = Some (ncclSuccess, t', rest) /\ t_offset t' = size.
Proof.
  intros H1 H2 Hf Hc Hin. unfold socketWait. rewrite (wait_is_spin _ _ _ 0%nat).
  destruct (spin_favourable (length results) op size t 0%nat results t)
    as (t' & rest & E); try done; [by apply moved_refl|].
  exists t', rest. split; [done|].
  assert (Hok : Forall result_ok results) by (by eapply list.Forall_impl, favourable_ok).
  destruct (spin_moved _ _ _ _ t _ _ _ _ _ _ Hok (moved_refl _ _ _ H1 H2) E) as [_ O]. by apply O.
Qed.

Lemma connect_retry_bounded attempts : forall refused timedout calls,
  0 <= refused < RETRY_REFUSED_TIMES -> 0 <= timedout < RETRY_TIMEDOUT_TIMES ->
  RETRY_REFUSED_TIMES - refused + (RETRY_TIMEDOUT_TIMES - timedout) - 1 <= Zlen attempts ->
  exists res n, connect_retry attempts refused timedout calls = Some (res, n)
    /\ (n <= calls + Z.to_nat (RETRY_REFUSED_TIMES - refused + (RETRY_TIMEDOUT_TIMES - timedout) - 1))%nat
    /\ (res = ncclSuccess \/ res = ncclSystemError).
Proof.
  unfold RETRY_REFUSED_TIMES, RETRY_TIMEDOUT_TIMES.
  induction attempts as [|a attempts IH]; intros refused timedout calls Hr Ht Hl.
  { unfold Zlen in Hl. cbn [length] in Hl. lia. }
  rewrite Zlen_cons in Hl. cbn [connect_retry]. unfold RETRY_REFUSED_TIMES, RETRY_TIMEDOUT_TIMES.
  destruct a as [e|]; [|exists ncclSuccess, (S calls); split_and!; [done|lia|auto]].
  assert (Stop : exists res n, Some (ncclSystemError, S calls) = Some (res, n)
     /\ (n <= calls + Z.to_nat (20000 - refused + (3 - timedout) - 1))%nat
     /\ (res = ncclSuccess \/ res = ncclSystemError))
    by (exists ncclSystemError, (S calls); split_and!; [done|lia|auto]).
  destruct (bool_decide_reflect (e = ECONNREFUSED)) as [->|Hne].
  - rewrite bool_decide_eq_false_2 by done. cbn [andb]. rewrite orb_false_r.
    destruct (Z.ltb_spec (refused + 1) 20000); [|exact Stop].
    destruct (IH (refused + 1) timedout (S calls)) as (res & n & E & ? & ?); try lia.
    exists res, n. split_and!; [exact E|lia|done].
  - cbn [andb orb]. destruct (bool_decide_reflect (e = ETIMEDOUT)) as [->|Hne']; [|exact Stop].
    cbn [andb]. destruct (Z.ltb_spec (timedout + 1) 3); [|exact Stop].
    destruct (IH refused (timedout + 1) (S calls)) as (res & n & E & ? & ?); try lia.
    exists res, n. split_and!; [exact E|lia|done].
Qed.

(** [connectAddress] gives up: whatever the calls of
    [connect] return, it makes at most 20002 of them (19999 refusals and two
    timeouts may be retried), and on every failure after the socket was
    created the descriptor is left open in [fd]. *)
Theorem connect_gives_up inet fd nodelay attempts :
  20002 <= Zlen attempts ->
  exists res left calls, connectAddress inet fd nodelay attempts = Some (res, left, calls)
    /\ Z.of_nat calls <= 20002
    /\ (inet = true -> fd <> -1 -> left = Some fd).
Proof.
  intros Hl. unfold connectAddress. destruct inet; cbn [negb].
  2: { exists ncclInternalError, None, 0%nat. split_and!; [done|lia|done]. }
  destruct (Z.eqb_spec fd (-1)) as [|Hfd].
  { exists ncclSystemError, None, 0%nat. split_and!; [done|lia|done]. }
  destruct (nodelay <? 0).
  { exists ncclSystemError, (Some fd), 0%nat. split_and!; [done|lia|done]. }
  destruct (connect_retry_bounded attempts 0 0 0) as (res & k & -> & Hk & _);
    unfold RETRY_REFUSED_TIMES, RETRY_TIMEDOUT_TIMES in *; try lia.
  cbn [mbind option_bind]. exists res, (Some fd), k. split_and!; [done|lia|done].
Qed.

(** [socketProgress] of a completed receive asks the kernel
    for no bytes, takes the 0 it returns for a closed connection and fails;
    [socketWait] and [socketSpin] do not make that call. *)
Theorem progress_after_completion n size results t :
  0 < n -> t_offset t = size ->
  (exists t', socketProgress NCCL_SOCKET_RECV size (Ready n :: results) t
              = Some (ncclSystemError, t', results))
  /\ socketWait NCCL_SOCKET_RECV size (Ready n :: results) t = Some (ncclSuccess, t, Ready n :: results).
Proof.
  intros Hn Ht. split.
  - unfold socketProgress. rewrite progress_step. cbn [call Receive_call].
    rewrite Ht, Z.sub_diag, Z.min_r by lia. change (takeZ 0 (t_incoming t)) with (@nil Z).
    change (Zlen (@nil Z)) with 0. rewrite bool_decide_eq_true_2 by done. eauto.
  - unfold socketWait. cbn. rewrite Ht, Z.ltb_irrefl. done.
Qed.

(** *** Witnesses *)

Lemma socket_transfer_witness :
  exists ts tr, t_wire ts = [9] ++ [1; 2; 3] /\ takeZ 3 (t_data tr) = [1; 2; 3] /\ t_incoming tr = [7].
Proof.
  destruct (socketSpin (fun _ => false) NCCL_SOCKET_SEND 3
              [Failed EINTR; Ready 2; Failed EAGAIN; Ready 5] (mkTransfer [1; 2; 3] 0 [] [9]))
    as [[[[] ts] rest_s]|] eqn:Es; try (vm_compute in Es; discriminate).
  destruct (socketWait NCCL_SOCKET_RECV 3 [Ready 1; Ready 1; Failed EINTR; Ready 9]
              (mkTransfer [0; 0; 0; 0] 0 (dropZ (Zlen [9]) (t_wire ts) ++ [7]) []))
    as [[[[] tr] rest_r]|] eqn:Er;
    try (vm_compute in Es; injection Es as <- _; vm_compute in Er; discriminate).
  exists ts, tr. refine (socket_transfer 3 [1; 2; 3] [9] _ _ ts rest_s [0; 0; 0; 0] [7] _ tr rest_r
                           _ _ _ _ _ Es Er); try (vm_compute; discriminate); try reflexivity;
    repeat constructor.
Defined.

Lemma socket_wait_completes_witness :
  exists t' rest, socketWait NCCL_SOCKET_RECV 2 [Ready 1; Failed EINTR; Ready 1]
                    (mkTransfer [0; 0] 0 [5; 6; 7] []) = Some (ncclSuccess, t', rest)
                  /\ t_offset t' = 2.
Proof.
  apply socket_wait_completes; try (vm_compute; split; discriminate); try (vm_compute; discriminate).
  repeat constructor.
Defined.

Lemma connect_gives_up_witness :
  exists res left calls,
    connectAddress true 5 0 (replicate (Z.to_nat 20002) (Some ECONNREFUSED)) = Some (res, left, calls)
    /\ Z.of_nat calls <= 20002 /\ left = Some 5.
Proof.
  destruct (connect_gives_up true 5 0 (replicate (Z.to_nat 20002) (Some ECONNREFUSED))) as (res & l & k & E & H & Hl).
  - unfold Zlen. rewrite length_replicate. lia.
  - exists res, l, k. split; [exact E|]. split; [exact H|]. apply Hl; [reflexivity|lia].
Defined.

Lemma progress_after_completion_witness :
  exists t', socketProgress NCCL_SOCKET_RECV 1 [Ready 4] (mkTransfer [8] 1 [9] [])
             = Some (ncclSystemError, t', []).
Proof.
  exact (proj1 (progress_after_completion 4 1 [] (mkTransfer [8] 1 [9] []) ltac:(lia) ltac:(reflexivity))).
Defined.
