(* ===== verification/Params.v ===== *)
(** * Parameters from the environment
    (tcpdirect_plugin/fastrak_offload/const_params.h, params.cc)

    The table of parameters with their defaults and bounds, the registration
    of each in the map of parameters, and [InitParams], which reads the
    environment in the order in which the hash map is traversed. *)

From S2P Require Import Prelude NcclShim NcclConnection.

Open Scope string_scope.

(** A use of [NCCL_CONST_PARAM]: the C++ name, the name of the environment
    variable without its prefix, the default and the bounds. *)
Record Param := mkParam {
  p_name : string;
  env_var_name : string;
  default_value : Z;
  p_min : Z;
  p_max : Z
}.

Definition NCCL_CONST_PARAMs : list Param :=
  [ mkParam "kEnableFasTrak" "FASTRAK_ENABLE" 1 0 1;
    mkParam "kFastrakDataTransferTimeoutMs" "FASTRAK_DATA_TRANSFER_TIMEOUT_MS"
      (2 * 60 * 60000) 0 86400000;
    mkParam "kFastrakDataTransferSlownessMs" "FASTRAK_DATA_TRANSFER_SLOWNESS_MS"
      (5 * 60000) 1 86400000;
    mkParam "kFastrakPluginConnectTimeoutMs" "FASTRAK_PLUGIN_CONNECT_TIMEOUT_MS"
      (5 * 60000) 0 86400000;
    mkParam "kFastrakPluginAcceptTimeoutMs" "FASTRAK_PLUGIN_ACCEPT_TIMEOUT_MS"
      (15 * 60000) 0 86400000;
    mkParam "kEnableHotpathLogging" "FASTRAK_ENABLE_HOTPATH_LOGGING" 0 0 1;
    mkParam "kFastrakNumFlows" "FASTRAK_NUM_FLOWS" 2 1 (Z.of_nat kFastrakMaxNumFlows);
    mkParam "kNicRailAligned" "FASTRAK_RAIL_ALIGNED" 1 0 1;
    mkParam "kFastrakCloseSendOnDone" "FASTRAK_CLOSE_SEND_ON_DONE" 0 0 1;
    mkParam "kFastrakCacheMr" "FASTRAK_CACHE_MR" 1 0 1;
    mkParam "kFastrakUseLlcm" "FASTRAK_USE_LLCM" 0 0 1;
    mkParam "kFastrakDumpCommStats" "FASTRAK_DUMP_COMM_STATS" 1 0 1;
    mkParam "kFastrakEnableSendStats" "FASTRAK_ENABLE_SEND_STATS" 0 0 1;
    mkParam "kFastrakSendStatsInterval" "FASTRAK_SEND_STATS_INTERVAL" 1000000 1 1000000000;
    mkParam "kFastrakRxDMInitTimeout" "FASTRAK_RXDM_INIT_TIMEOUT" 30 0 86400;
    mkParam "kFastrakAllowNicSubset" "FASTRAK_ALLOW_NIC_SUBSET" 0 0 1;
    mkParam "kFastrakPluginTelemetryMode" "NET_PLUGIN_TELEMETRY_MODE" 0 0 4;
    mkParam "kFastrakLogConnectionInfo" "FASTRAK_LOG_CONNECTION_INFO" 0 0 1 ].

(** The slot of a parameter is named by its C++ variable. *)
Record ParamData := mkParamData { min_value : Z; max_value : Z; slot : string }.

Abbreviation ParamMap := (gmap string ParamData).
Abbreviation Slots := (gmap string Z).

Definition ParamRegistrar (name : string) (min_value max_value : Z) (slot : string)
    (m : ParamMap) : ParamMap :=
  <[name := mkParamData min_value max_value slot]> m.

(** What the initializers of a [NCCL_CONST_PARAM] do. *)
Definition define_param (p : Param) (s : ParamMap * Slots) : ParamMap * Slots :=
  (ParamRegistrar (env_var_name p) (p_min p) (p_max p) (p_name p) s.1,
   <[p_name p := default_value p]> s.2).

Definition static_init : ParamMap * Slots :=
  fold_left (fun s p => define_param p s) NCCL_CONST_PARAMs (∅, ∅).

Definition GetParamDataMap : ParamMap := static_init.1.

Section init.
(** [getenv] and [absl::SimpleAtoi] for [int64_t]. *)
Context (getenv : string -> option string) (SimpleAtoi : string -> option Z).

Definition InitParam (name : string) (data : ParamData) (slots : Slots) : Slots :=
  match getenv ("NCCL_" ++ name) with
  | Some str =>
      if (0 <? Z.of_nat (String.length str))%Z then
        match SimpleAtoi str with
        | Some tmp =>
            if ((tmp <? min_value data) || (max_value data <? tmp))%Z then slots
            else <[slot data := tmp]> slots
        | None => slots
        end
      else slots
  | None => slots
  end.

(** [order]: the entries of the map in the order of its traversal. *)
Definition InitParams (order : list (string * ParamData)) (slots : Slots) : Slots :=
  fold_left (fun s e => InitParam e.1 e.2 s) order slots.

(** ** Specification *)

(** The value the environment asks for, when it is a number in the bounds. *)
Definition env_value (p : Param) : option Z :=
  str ← getenv ("NCCL_" ++ env_var_name p);
  v ← (if decide (str = "") then None else SimpleAtoi str);
  if decide (p_min p <= v <= p_max p)%Z then Some v else None.

Definition param_value (p : Param) : Z := default (default_value p) (env_value p).

Lemma InitParam_value p slots :
  InitParam (env_var_name p) (mkParamData (p_min p) (p_max p) (p_name p)) slots
  = match env_value p with Some v => <[p_name p := v]> slots | None => slots end.
Proof.
  unfold InitParam, env_value. destruct (getenv _) as [str|]; [cbn|done].
  destruct (decide (str = "")) as [->|Hne]; [done|].
  destruct (Z.ltb_spec 0 (Z.of_nat (String.length str))).
  2: { destruct str; [done|cbn in *; lia]. }
  destruct (SimpleAtoi str) as [v|]; [cbn|done].
  destruct (decide _); destruct (Z.ltb_spec v (p_min p)), (Z.ltb_spec (p_max p) v); cbn; done || lia.
Qed.

End init.

(** Every parameter has an entry of its own. *)
Lemma param_names : NoDup (p_name <$> NCCL_CONST_PARAMs).
Proof. refine (bool_decide_eq_true_1 _ _). vm_compute. reflexivity. Qed.

Definition entry_of (p : Param) : string * ParamData :=
  (env_var_name p, mkParamData (p_min p) (p_max p) (p_name p)).

Lemma env_names : NoDup (env_var_name <$> NCCL_CONST_PARAMs).
Proof. refine (bool_decide_eq_true_1 _ _). vm_compute. reflexivity. Qed.

Definition define_all (ps : list Param) (s : ParamMap * Slots) : ParamMap * Slots :=
  fold_left (fun s p => define_param p s) ps s.

Lemma define_all_map ps : forall s,
  (define_all ps s).1 = (list_to_map (entry_of <$> reverse ps) : gmap string ParamData) ∪ s.1.
Proof.
  induction ps as [|p ps IH]; intros s; [symmetry; apply (left_id_L ∅ (∪))|].
  change (define_all (p :: ps) s) with (define_all ps (define_param p s)). rewrite IH.
  rewrite reverse_cons, fmap_app, list_to_map_app, <- (assoc_L (∪)). f_equal.
  change (list_to_map (entry_of <$> [p]) : gmap string ParamData)
    with (<[env_var_name p := (entry_of p).2]> (∅ : gmap string ParamData)).
  rewrite insert_empty. apply insert_union_singleton_l.
Qed.

Lemma define_all_slots ps : forall s p,
  NoDup (p_name <$> ps) -> (p ∈ ps \/ (p_name p ∉ (p_name <$> ps)) /\ s.2 !! p_name p = Some (default_value p)) ->
  (define_all ps s).2 !! p_name p = Some (default_value p).
Proof.
  induction ps as [|q ps IH]; intros s p Hd Hp.
  { destruct Hp as [Hp|[_ Hp]]; [by apply elem_of_nil in Hp|done]. }
  rewrite fmap_cons in Hd. apply list.NoDup_cons in Hd as [Hq Hd].
  change (define_all (q :: ps) s) with (define_all ps (define_param q s)).
  apply IH; [done|]. destruct Hp as [[->|Hp]%elem_of_cons|[Hn Hs]]; [|by left|].
  - right. split; [done|]. unfold define_param. cbn [snd]. by rewrite lookup_insert_eq.
  - rewrite fmap_cons, not_elem_of_cons in Hn. destruct Hn as [Hne Hn].
    right. split; [done|]. unfold define_param. cbn [snd]. by rewrite lookup_insert_ne.
Qed.

Lemma registered_entries : map_to_list GetParamDataMap ≡ₚ entry_of <$> NCCL_CONST_PARAMs.
Proof.
  unfold GetParamDataMap, static_init. fold (define_all NCCL_CONST_PARAMs (∅, ∅)).
  rewrite define_all_map. cbn [fst]. rewrite (right_id_L ∅ (∪)), map_to_list_to_map.
  - by rewrite reverse_Permutation.
  - rewrite reverse_Permutation, <- list_fmap_compose. apply env_names.
Qed.

Lemma default_slots p : p ∈ NCCL_CONST_PARAMs -> static_init.2 !! p_name p = Some (default_value p).
Proof. intros Hp. apply (define_all_slots NCCL_CONST_PARAMs); [apply param_names|by left]. Qed.

Lemma defaults_in_bounds :
  Forall (fun p => p_min p <= default_value p <= p_max p)%Z NCCL_CONST_PARAMs.
Proof. repeat constructor; vm_compute; discriminate. Qed.

Lemma InitParams_others getenv atoi ps : forall slots x,
  x ∉ (p_name <$> ps) -> InitParams getenv atoi (entry_of <$> ps) slots !! x = slots !! x.
Proof.
  induction ps as [|p ps IH]; intros slots x Hx; [done|].
  rewrite fmap_cons, not_elem_of_cons in Hx. destruct Hx as [Hne Hx].
  change (InitParams getenv atoi (entry_of <$> p :: ps) slots)
    with (InitParams getenv atoi (entry_of <$> ps) (InitParam getenv atoi (entry_of p).1 (entry_of p).2 slots)).
  rewrite IH by done. cbn [entry_of fst snd]. rewrite InitParam_value.
  destruct (env_value _ _ p); [|done]. by rewrite lookup_insert_ne.
Qed.

Lemma InitParams_list getenv atoi ps : forall slots p,
  NoDup (p_name <$> ps) -> p ∈ ps -> slots !! p_name p = Some (default_value p) ->
  InitParams getenv atoi (entry_of <$> ps) slots !! p_name p = Some (param_value getenv atoi p).
Proof.
  induction ps as [|q ps IH]; intros slots p Hd Hp Hs; [by apply elem_of_nil in Hp|].
  rewrite fmap_cons in Hd. apply list.NoDup_cons in Hd as [Hq Hd].
  change (InitParams getenv atoi (entry_of <$> q :: ps) slots)
    with (InitParams getenv atoi (entry_of <$> ps) (InitParam getenv atoi (entry_of q).1 (entry_of q).2 slots)).
  cbn [entry_of fst snd]. rewrite InitParam_value.
  apply elem_of_cons in Hp as [->|Hp].
  - rewrite InitParams_others by done. unfold param_value.
    destruct (env_value _ _ q); [by rewrite lookup_insert_eq|done].
  - apply IH; [done..|]. destruct (env_value _ _ q); [|done].
    rewrite lookup_insert_ne; [done|]. intros E. apply Hq. rewrite E.
    by apply list_elem_of_fmap_2.
Qed.

Lemma InitParams_value getenv atoi order p :
  order ≡ₚ map_to_list GetParamDataMap -> p ∈ NCCL_CONST_PARAMs ->
  exists v, InitParams getenv atoi order static_init.2 !! p_name p = Some v
    /\ v = param_value getenv atoi p /\ (p_min p <= v <= p_max p)%Z.
Proof.
  intros Ho Hp. rewrite registered_entries in Ho.
  apply Permutation_map_inv in Ho as (ps & -> & Ho). change (map entry_of ps) with (entry_of <$> ps).
  exists (param_value getenv atoi p). split; [|split].
  - apply InitParams_list; [|by rewrite <- Ho|by apply default_slots].
    rewrite <- Ho. apply param_names.
  - done.
  - pose proof (proj1 (list.Forall_forall _ _) defaults_in_bounds p Hp) as Hd. cbn beta in Hd.
    unfold param_value. destruct (env_value getenv atoi p) as [v|] eqn:E; cbn; [|lia].
    unfold env_value in E. destruct (getenv _); [cbn in E|done].
    destruct (match decide _ with left _ => _ | right _ => _ end) as [z|]; [cbn in E|done].
    destruct (decide (p_min p <= z <= p_max p)%Z); simplify_eq; lia.
Qed.

(** ** Properties *)

(** C32 (functional).  Whatever the environment contains and in whatever
    order the hash map is traversed, after [InitParams] every parameter of
    the table has the value of its variable [NCCL_<name>] when that is a
    number inside the bounds and its default otherwise, and so lies inside
    its bounds. *)
Theorem params_from_environment getenv atoi order p :
  order ≡ₚ map_to_list GetParamDataMap -> p ∈ NCCL_CONST_PARAMs ->
  exists v, InitParams getenv atoi order static_init.2 !! p_name p = Some v
    /\ v = param_value getenv atoi p /\ (p_min p <= v <= p_max p)%Z.
Proof. apply InitParams_value. Qed.

(** The number of flows of a connection is at least one and
    at most the size of the arrays of sockets, ports and profilers of a
    connection, for every environment. *)
Theorem num_flows_in_range getenv atoi order :
  order ≡ₚ map_to_list GetParamDataMap ->
  exists n, InitParams getenv atoi order static_init.2 !! "kFastrakNumFlows" = Some n
    /\ (1 <= Z.to_nat n <= kFastrakMaxNumFlows)%nat.
Proof.
  intros Ho. set (p := mkParam "kFastrakNumFlows" "FASTRAK_NUM_FLOWS" 2 1 (Z.of_nat kFastrakMaxNumFlows)).
  assert (Hp : p ∈ NCCL_CONST_PARAMs) by (vm_compute; repeat constructor).
  destruct (InitParams_value getenv atoi order p Ho Hp) as (v & E & _ & Hv).
  exists v. split; [done|]. cbn in Hv. lia.
Qed.

(** *** Witnesses *)

Definition ex_env (x : string) : option string :=
  if decide (x = "NCCL_FASTRAK_NUM_FLOWS") then Some "99"
  else if decide (x = "NCCL_FASTRAK_USE_LLCM") then Some "1" else None.

Definition ex_atoi (x : string) : option Z :=
  if decide (x = "99") then Some 99%Z else if decide (x = "1") then Some 1%Z else None.

(** A number of flows that is too large is ignored, the other variable read. *)
Lemma params_from_environment_witness :
  InitParams ex_env ex_atoi (map_to_list GetParamDataMap) static_init.2 !! "kFastrakUseLlcm" = Some 1%Z
  /\ InitParams ex_env ex_atoi (map_to_list GetParamDataMap) static_init.2 !! "kFastrakNumFlows" = Some 2%Z.
Proof.
  split.
  - destruct (params_from_environment ex_env ex_atoi (map_to_list GetParamDataMap)
                (mkParam "kFastrakUseLlcm" "FASTRAK_USE_LLCM" 0 0 1) ltac:(reflexivity)
                ltac:(vm_compute; repeat constructor)) as (v & E & -> & _).
    exact E.
  - vm_compute. reflexivity.
Defined.

Lemma num_flows_in_range_witness :
  exists n, InitParams ex_env ex_atoi (map_to_list GetParamDataMap) static_init.2
              !! "kFastrakNumFlows" = Some n /\ (1 <= Z.to_nat n <= kFastrakMaxNumFlows)%nat.
Proof. exact (num_flows_in_range ex_env ex_atoi (map_to_list GetParamDataMap) ltac:(reflexivity)). Defined.
